(* ===== verification/_CoqProject ===== *)
-Q . S2P
Prelude.v
GoError.v
GoString.v
Encoding.v
GoStrconv.v
GoJson.v
GoJsonString.v
GoJsonMap.v
GoTime.v
Jwks.v
JwksCache.v
Jwt.v
JwtToy.v
JwtSecurity.v
ServiceToken.v
Grpc.v
GrpcServer.v
Metrics.v
CircuitBreaker.v
GrpcClient.v
GrpcCall.v
Kafka.v
KafkaConsumer.v
KafkaDelivery.v
KafkaEvent.v
RateLimit.v
Csrf.v
GoNet.v
Security.v
Sha256.v
HttpGuards.v
Crypto.v
ConfigLoad.v
Postgres.v
PgReplicas.v
PgMigrate.v
RedisClient.v
Regex.v
Validation.v
Health.v
ServiceMetrics.v
I18n.v
Ws.v
PushPublisher.v
Logger.v
AuditLog.v
Tracing.v
