(* ===== verification/Prelude.v ===== *)
(** * cg-shared-libs: a verification development

    ** The program

    cg-shared-libs is the Go code every service of the platform links: token
    minting and verification, gRPC servers and clients, Kafka producers and
    consumers, rate limiting, CSRF protection, circuit breaking, database and
    Redis access, configuration, validation, health checks and smaller utilities.
    Its parts meet in a few places.  A gRPC server authenticates a call with a
    verifier of package jwt, whose keys come from a JWKS cache, and authorizes it with adminrbac and orgauth on the claims the verifier signed
    off; a gRPC client wraps a call in retries and in the circuit breaker of its
    target; services obtain the tokens they present from a service token
    provider; breakers, consumers, connection pools and the Redis client report
    to the metrics registry; the rate limiter and the CSRF store keep their state
    in Redis; push notifications go through a Kafka producer; WebSocket upgrades
    are authenticated by a verifier; the audit log and the trace interceptors
    write through the logger.

    ** Files

    Language and standard library:
    - Prelude.v: 64-bit integers with their wrap-around, time and durations,
      lemmas and tactics on lists, options and maps (hint database [cg]);
    - GoError.v: error values, [errors.Is], [errors.As];
    - GoString.v: strings as bytes, package strings, UTF-8, strconv;
    - Encoding.v: hex, base64 (URL and standard alphabets), big-endian integers;
    - GoStrconv.v: package strconv's parsers, [time.ParseDuration] and the
      scanning of integers, with the round trip of printed integers and the
      ranges of what they return;
    - GoJson.v, GoJsonString.v, GoJsonMap.v: encoding/json.  The scanner, the
      parser with its nesting limit and the printer, inverse to each other;
      string literals with their escapes, compaction, what struct fields accept;
      maps and lists of strings;
    - GoTime.v: dates, [time.Format] and [time.Parse] for RFC 3339, inverse to
      each other on the years a text can show;
    - Regex.v: regular expressions by derivatives, proved to decide their
      language.

    Tokens (jwt/):
    - Jwks.v: jwks.go.  [keyset] is what the cache's mutex protects;
      [refreshNow], [publicKey], [isStale] are its methods, [http_fetch] the
      bounded download, [jwkSet_Unmarshal], [parseJWKS] and [rsaPublicToJWK] the
      document format;
    - JwksCache.v: the same cache with its goroutines.  Validations, the
      background loop, [start] and [Close] are steps of a transition system;
      fetches stay 30 seconds apart and keys are replaced only by served ones
      under every interleaving;
    - Jwt.v: jwt.go, signer.go, keyfunc.go, validator.go, localverifier.go:
      [buildClaims], the [Manager_], [Signer_] and [Validator_] operations;
    - JwtToy.v: an instance of the golang-jwt interface, for the witnesses;
    - JwtSecurity.v: verifier.go and the theorems.  A verifier accepts only
      tokens signed with the key and the algorithm it is configured for; a
      minted pair validates with the claims it was minted with, each token as
      its own type only; refreshing drops platform roles; what a signer
      publishes and mints is accepted by a validator that fetches the document;
      keys are never used beyond the staleness bound and survive an outage up to
      it (the last two in Jwks.v);
    - ServiceToken.v: serviceprovider.go.  A token handed out is good for the
      whole refresh buffer, proved against the interface [LocalGenerator] that
      managers and signers implement.

    gRPC (grpc/):
    - Grpc.v: status codes, metadata, tls.go;
    - GrpcServer.v: server.go, jwt_adapter.go, adminrbac/ and orgauth/.  Behind
      the interceptor chain an admin-only method runs exactly with a verified
      allowed role, whichever verifier and handler are plugged in, and a refused
      call never reaches the handler; organization matching is characterised
      exactly;
    - GrpcClient.v: client.go.  The retry interceptor refines "repeat only
      Unavailable, only methods configured so, at most MaxRetries times", its
      delays are bounded, breakers of different targets do not interfere,
      answers that are the caller's fault never open a breaker, and the
      credentials dialled with are those of the configured CA file, at TLS 1.2 or
      later, unless the caller passes others;
    - GrpcCall.v: the client's interceptor chain as one call, retries inside the
      breaker.  Calls may overlap: while a target is down, the calls that reach
      it before the breaker refuses are bounded by the threshold and the largest
      number in flight at once.

    Resilience (circuitbreaker/, ratelimit/, metrics/):
    - Metrics.v: the counters and gauges of metrics.go;
    - ServiceMetrics.v: its per-service HTTP and gRPC metrics, with their
      middleware and interceptor: what the counters count, and when the status
      recorded is the status sent;
    - CircuitBreaker.v: circuitbreaker.go.  The critical sections of
      [beforeRequest], [afterRequest] and [Reset] are the steps of a transition
      system; the theorems give its invariant, the closed state as a
      consecutive-failure counter, the gate of the open state, and what the
      half-open state admits, with and without panicking calls;
    - RateLimit.v: ratelimit.go.  A check is a clock reading and the Redis
      transactions after it, and a schedule of these steps interleaves the
      checks, with failures, read-only replies, resets and counts among them.
      Windows shortened by the longest delay between a reading and its
      transaction grant no more than Limit; examples show that the delay and the
      deletion after an aborted transaction matter.

    Messaging (kafka/):
    - Kafka.v: configuration, topic qualification, producers;
    - KafkaConsumer.v: retry.go and the consume loop of kafka.go;
    - KafkaDelivery.v: what the loops guarantee: commits are justified, shutdown
      stops the consumer, a poison message follows a fixed schedule, decode
      errors reach the DLQ only redacted; the decoder of events is an argument
      here;
    - KafkaEvent.v: events with their JSON and [FlexibleTime], the DLQ record.
      An event published is the event handled, the accepted spellings of a time
      agree, and a poison message that is not JSON blocks its partition.

    HTTP (middleware/, security/):
    - Csrf.v: csrf.go.  Which requests each of the two middlewares passes is
      characterised exactly; a token handed out is accepted, whatever traffic
      comes between, until it expires or its session is given another.
    - GoNet.v: IP addresses and CIDR blocks of package net, parsers included,
      with the proof that masks compare leading bits;
    - Sha256.v: SHA-256 and HMAC, computed, with published test vectors;
    - Security.v: url_validator.go.  The URLs and redirects the validator
      accepts are characterised exactly, and so are the addresses it blocks;
    - HttpGuards.v: hmac.go, ip_allowlist.go and ratelimit.go.  A webhook reaches
      its handler exactly with a listed address and a signed body.

    Personal data (crypto/):
    - Crypto.v: crypto.go and hash.go.  Encryption round trips, legacy values
      pass, and nothing decrypts but what was sealed.

    Data stores (postgres/, redis/):
    - Postgres.v: postgres.go.  Pools, error classes, and transactions over a server
      with Begin, Exec, Commit and Rollback: a function that fails or panics
      leaves nothing behind;
    - PgReplicas.v: replica_pool.go.  Reads go to replicas that passed their last
      check within the lag bound, round-robin visits each of them, and reads
      after a write go to the primary;
    - PgMigrate.v: migrate.go.  A run that succeeds leaves the schema clean with
      nothing to apply, from a dirty version too; one that fails names the step
      that failed and calls nothing after it;
    - RedisClient.v: redis.go.  JSON values, counters, and the lock, whose
      clients are a transition system in which no two hold it at once.

    Services (config/, health/, validation/, i18n/, ws/, pushpublisher/, audit/,
    logger/, tracing/):
    - ConfigLoad.v: the loader on a reflected struct.  Where every value comes
      from and which inputs are errors, against a declarative specification;
    - Validation.v: validation.go.  A chain of checks passes exactly on valid
      values, each check having a declarative meaning;
    - Health.v: health.go and checkers.go.  When a service is ready;
    - I18n.v: i18n.go and middleware.go.  Loading, fallback, languages, default
      messages;
    - Ws.v: auth.go, upgrader.go and config.go.  Whom a connection belongs to;
    - PushPublisher.v: the payload contract, its JSON and best-effort publication;
    - Logger.v: context loggers, lines and phone masking, over the class [Zap];
    - AuditLog.v: audit.go.  Every event is a line from which it can be read back;
    - Tracing.v: trace fields, sampler, provider, interceptor lists.

    ** Conventions

    Data are as in the code: structs are records with its fields, enumerations
    inductive types, [int] and [int64] are [Z] with wrap-around written out where
    a computation can reach it, maps are [gmap]s.  Operations are functions on
    the state their mutex protects, with clock readings as arguments.  What a
    component does to the world outside it is a log of effects.  What answers it
    (a handler, the context, timers, the broker, the network) is an environment
    function from the number of the interaction to its answer, so a theorem for
    every environment covers every behaviour of the outside, failures at any
    point included.  Interleaving is a relation whose steps are critical sections
    or Redis transactions, and the theorems are by induction on runs.

    Code outside the repository is a class or an argument of the definitions:
    [GoJWT] (golang-jwt), [GrpcStatus], [Redis] and [Float64], [CSRFStore],
    [AEAD] (AES-GCM), [Pgx], [TxServer] (a database with transactions), [Migrator] (golang-migrate), [RedisServer], [Zap],
    [Floats] and [FloatFraction] (parsing of floats), YAML, URL parsing and DNS,
    [Unicode] (case tables), JSON encoders of types the caller chooses, TLS and
    X.509 loading, the local time zone and the conversion of a float out of the
    range of int64, which Go leaves open.  Classes
    whose behaviour matters have a class of laws ([GoJWTLaws], [RedisLaws],
    [CSRFStoreLaws], [AEADLaws], [TxServerLaws], [MigratorLaws], [RedisServerLaws], [ZapLaws]) that
    state documented behaviour, and an instance for which the laws are proved and
    witnesses evaluate.

    ** Fuel

    The retry and consume loops of package kafka are unbounded in the source.
    Their models take fuel and return [None] when it runs out; no theorem is
    only about runs that return.  [shutdown_stops_consumer] gives a bound after
    which a consumer whose context is cancelled has returned,
    [poison_message_schedule] gives the fuel, [maxRetries + 2], that suffices for
    the turn of the loop that handles a poison message, and [non_json_poison_blocks] shows that no fuel suffices in
    the case where the loop does not end.  The digit loop of [formatInt64] has
    fuel 20, more than the 19 digits of an [int64]; the doubling loops of
    [calcBackoff] and [boundedRetryDelay] recurse on the attempt number.  The loop
    of [ParseDuration] has the length of its input as fuel, and more makes no
    difference ([duration_terms_fuel]).  The JSON parser recurses on the nesting
    depth, 10000 as in encoding/json, beyond which Go fails too; its loops over
    members and elements have the length of the text as fuel, and a text shorter
    than its members does not exist ([value_print]).

    ** What is not modelled

    The OpenTelemetry SDK, the connections, listeners and streams of gRPC, the
    sinks of log lines and Prometheus exposition are calls into libraries with no
    logic of their own; what the code hands them and does with their answers is
    modelled.  The ticker of the pool metrics repeats a modelled step; those of
    the JWKS refresh and of the replica health check are loops here.
    Cryptographic strength is outside the model: the laws of [GoJWT] are
    functional.  JSON of types only the caller knows (Redis values, audit
    details) and YAML files are parameters.  Left for later: the JSON of health responses and of rate-limit
    answers. *)

From stdpp Require Export base gmap sets list strings.
From Stdlib Require Export ZArith Lia.

#[global] Set Default Goal Selector "!".

Declare Scope cg_scope.
Delimit Scope cg_scope with cg.
Open Scope cg_scope.

Create HintDb cg.
Create Rewrite HintDb cg.

(** ** Machine integers *)

(** Go's [int] and [int64] are 64-bit two's complement. *)
Definition int64_min : Z := -9223372036854775808.
Definition int64_max : Z := 9223372036854775807.

Definition in_int64 (z : Z) : Prop := (int64_min <= z <= int64_max)%Z.

(** The value an [int64] computation leaves in its 64 bits. *)
Definition wrap64 (z : Z) : Z :=
  ((z + 9223372036854775808) mod 18446744073709551616 - 9223372036854775808)%Z.

(** [x++] on an [int]. *)
Definition int_inc (z : Z) : Z := wrap64 (z + 1).

Lemma wrap64_id z : in_int64 z -> wrap64 z = z.
Proof.
  unfold in_int64, wrap64, int64_min, int64_max. intros Hz.
  rewrite Z.mod_small; lia.
Qed.

Lemma wrap64_range z : in_int64 (wrap64 z).
Proof.
  unfold in_int64, wrap64, int64_min, int64_max.
  pose proof (Z.mod_pos_bound (z + 9223372036854775808) 18446744073709551616).
  lia.
Qed.

Lemma int_inc_small z : (int64_min <= z < int64_max)%Z -> int_inc z = (z + 1)%Z.
Proof.
  intros Hz. unfold int_inc. apply wrap64_id.
  unfold in_int64, int64_min, int64_max in *. lia.
Qed.

(** ** Time

    [time.Time] is a count of nanoseconds since the Unix epoch and
    [time.Duration] an [int64] count of nanoseconds. *)
Abbreviation Time := Z (only parsing).
Abbreviation Duration := Z (only parsing).

Definition Nanosecond : Duration := 1%Z.
Definition Millisecond : Duration := 1000000%Z.
Definition Second : Duration := 1000000000%Z.
Definition Minute : Duration := 60000000000%Z.
Definition Hour : Duration := 3600000000000%Z.

(** The zero [time.Time]: January 1, year 1, 00:00:00 UTC. *)
Definition zero_time : Time := (-62135596800 * 1000000000)%Z.

Definition IsZero (t : Time) : bool := Z.eqb t zero_time.

(** [t.Sub(u)], which saturates at the bounds of a [Duration]. *)
Definition Sub (t u : Time) : Duration :=
  Z.max int64_min (Z.min int64_max (t - u)%Z).

(** [time.Since(u)], the clock reading being [now]. *)
Definition Since (now u : Time) : Duration := Sub now u.

Lemma Since_small now u : in_int64 (now - u) -> Since now u = (now - u)%Z.
Proof. unfold Since, Sub, in_int64. lia. Qed.

Lemma Since_gt now u d : (d < int64_max)%Z -> (int64_min <= d)%Z ->
  (d < Since now u)%Z <-> (d < now - u)%Z.
Proof. unfold Since, Sub, int64_min, int64_max. lia. Qed.

(** ** Proof automation *)

(** Turn every boolean comparison of the context and the goal into the
    proposition it decides. *)
Ltac to_prop :=
  repeat match goal with
  | H : bool_decide _ = true |- _ => apply bool_decide_eq_true in H
  | H : bool_decide _ = false |- _ => apply bool_decide_eq_false in H
  | H : (_ && _)%bool = true |- _ => apply andb_true_iff in H; destruct H
  | H : (_ || _)%bool = false |- _ => apply orb_false_iff in H; destruct H
  | H : negb _ = true |- _ => apply negb_true_iff in H
  | H : negb _ = false |- _ => apply negb_false_iff in H
  | H : Z.ltb _ _ = true |- _ => apply Z.ltb_lt in H
  | H : Z.ltb _ _ = false |- _ => apply Z.ltb_ge in H
  | H : Z.leb _ _ = true |- _ => apply Z.leb_le in H
  | H : Z.leb _ _ = false |- _ => apply Z.leb_gt in H
  | H : Z.eqb _ _ = true |- _ => apply Z.eqb_eq in H
  | H : Z.eqb _ _ = false |- _ => apply Z.eqb_neq in H
  end.

(** Case analysis on every [match] and [if] of the goal, the boolean
    conditions turned into propositions. *)
Ltac split_cases := repeat (case_match; simplify_eq/=); to_prop.

(** The same for a hypothesis that says what a call returned. *)
Ltac inv_cases := repeat (case_match; simplify_eq/=); simplify_eq/=; to_prop.

(** ** Results

    A Go function that returns [(T, error)] and never both. *)
Inductive result (E A : Type) : Type :=
| Ok (a : A)
| Fail (e : E).
Arguments Ok {E A} a.
Arguments Fail {E A} e.

Definition rbind {E A B} (c : result E A) (k : A -> result E B) : result E B :=
  match c with
  | Ok a => k a
  | Fail e => Fail e
  end.

(** [v, err := c; if err != nil { return nil, err }; k v] *)
Notation "'let?' x ':=' c 'in' k" := (rbind c (fun x => k))
  (at level 10, x pattern, c at level 100, k at level 200) : cg_scope.

(** [if err != nil { return nil, wrap(err) }] *)
Definition map_err {E F A} (f : E -> F) (c : result E A) : result F A :=
  match c with
  | Ok a => Ok a
  | Fail e => Fail (f e)
  end.

Definition is_ok {E A} (c : result E A) : bool :=
  match c with Ok _ => true | Fail _ => false end.

Lemma rbind_ok {E A B} (c : result E A) (k : A -> result E B) b :
  rbind c k = Ok b <-> exists a, c = Ok a /\ k a = Ok b.
Proof. destruct c; simpl; naive_solver. Qed.

Lemma map_err_ok {E F A} (f : E -> F) (c : result E A) a :
  map_err f c = Ok a <-> c = Ok a.
Proof. destruct c; simpl; naive_solver. Qed.
