(* ===== verification/GoError.v ===== *)
(** * Go's [error] values

    The part of Go's [errors] and [fmt] packages the libraries use: an error
    has an identity (the name of the package-level sentinel variable, or its
    dynamic type), a rendered message and the errors it wraps.  [errors.Is] and
    [errors.As] walk the wrapped errors depth first. *)

From S2P Require Import Prelude.

Inductive error : Type :=
| Err (ident : string) (msg : string) (causes : list error).

(** A nil [error] is [None]. *)
Abbreviation Error := (option error) (only parsing).

(** [err.Error()] *)
Definition ErrorText (e : error) : string :=
  match e with Err _ msg _ => msg end.

Definition ident_of (e : error) : string :=
  match e with Err i _ _ => i end.

Definition causes_of (e : error) : list error :=
  match e with Err _ _ cs => cs end.

(** [errors.Is(e, target)] for a sentinel, and [errors.As(e, &target)] for a
    dynamic type: does the tree of wrapped errors hold that identity? *)
Fixpoint Is (e : error) (target : string) : bool :=
  match e with
  | Err i _ cs => bool_decide (i = target) || existsb (fun c => Is c target) cs
  end.

(** [errors.New(text)], kept in no package-level variable. *)
Definition New (text : string) : error := Err "*errors.errorString" text [].

(** [fmt.Errorf("<prefix>: %w", e)] *)
Definition Wrapf (prefix : string) (e : error) : error :=
  Err "*fmt.wrapError" (prefix +:+ ": " +:+ ErrorText e) [e].

(** [fmt.Errorf("%w: <detail>", sentinel)]; values interpolated into the detail
    for display only are left out of it. *)
Definition Detailf (sentinel : error) (detail : string) : error :=
  Err "*fmt.wrapError" (ErrorText sentinel +:+ ": " +:+ detail) [sentinel].

Lemma Is_Detailf e detail : Is (Detailf e detail) (ident_of e) = true.
Proof. destruct e as [i m cs]. simpl. rewrite (bool_decide_eq_true_2 (i = i)) by done. apply orb_true_r. Qed.

(** Wrapping keeps every identity of the wrapped error, unless it is the
    wrapper's own. *)
Lemma Is_Wrapf prefix e target :
  target <> "*fmt.wrapError" -> Is (Wrapf prefix e) target = Is e target.
Proof.
  intros Hne. simpl. rewrite bool_decide_eq_false_2 by done.
  simpl. by rewrite orb_false_r.
Qed.

Lemma Is_self e : Is e (ident_of e) = true.
Proof. destruct e as [i m cs]. simpl. by rewrite bool_decide_eq_true_2. Qed.

#[export] Hint Resolve Is_self Is_Detailf : cg.
