(* ===== verification/GoString.v ===== *)
(** * Go strings

    The part of Go's [strings], [unicode/utf8] and [strconv] packages the
    libraries use.  A Go string is a sequence of bytes, so [string] (a list of
    8-bit characters) is one; the functions that work on runes decode UTF-8 the
    way [utf8.DecodeRuneInString] does, an ill-formed byte being the rune
    U+FFFD of width one.  Unicode's case tables are data of the Go toolchain
    and stay a parameter, the class [Unicode]. *)

From S2P Require Import Prelude.
From stdpp Require Export pretty.
From Stdlib Require Import Ascii.

Open Scope Z_scope.

#[global] Arguments String.append : simpl nomatch.

(** ** Trimming a list on both sides *)

Section trim.
Context {A : Type} (p : A -> bool).

Fixpoint drop_while (l : list A) : list A :=
  match l with
  | [] => []
  | x :: l' => if p x then drop_while l' else l
  end.

Definition trim (l : list A) : list A := rev (drop_while (rev (drop_while l))).

Lemma drop_while_suffix l : exists l', l = l' ++ drop_while l.
Proof.
  induction l as [|x l [l' IH]]; simpl; [by exists []|].
  destruct (p x); [|by exists []]. exists (x :: l'). simpl. by rewrite <- IH.
Qed.

Lemma drop_while_fixed l :
  (forall x, head l = Some x -> p x = false) -> drop_while l = l.
Proof. destruct l as [|x l]; intros H; [done|]. simpl. by rewrite H. Qed.

Lemma head_drop_while l x : head (drop_while l) = Some x -> p x = false.
Proof.
  induction l as [|y l IH]; simpl; [done|].
  destruct (p y) eqn:E; [done|]. simpl. congruence.
Qed.

Lemma rev_last (l : list A) : last l = head (rev l).
Proof.
  induction l as [|x l IH] using rev_ind; [done|].
  by rewrite last_snoc, rev_app_distr.
Qed.

(** A list is already trimmed when neither end satisfies [p]. *)
Definition trimmed (l : list A) : Prop :=
  (forall x, head l = Some x -> p x = false) /\ (forall x, last l = Some x -> p x = false).

Lemma trim_fixed l : trimmed l -> trim l = l.
Proof.
  intros [Hh Hl]. unfold trim. rewrite (drop_while_fixed l Hh).
  rewrite drop_while_fixed; [apply rev_involutive|].
  intros x. rewrite <- rev_last. apply Hl.
Qed.

Lemma trim_trimmed l : trimmed (trim l).
Proof.
  unfold trim. set (k := drop_while l). split; intros x.
  - destruct (drop_while_suffix (rev k)) as [l' Hl'].
    destruct (rev (drop_while (rev k))) as [|y m] eqn:E; [done|].
    intros [= ->]. apply (head_drop_while l). fold k.
    rewrite <- (rev_involutive k), Hl', rev_app_distr, E. done.
  - rewrite rev_last, rev_involutive. apply head_drop_while.
Qed.

Lemma trim_idem l : trim (trim l) = trim l.
Proof. apply trim_fixed, trim_trimmed. Qed.

Lemma trimmed_app l k : l <> [] -> k <> [] -> trimmed l -> trimmed k -> trimmed (l ++ k).
Proof.
  intros Hl Hk [Hlh _] [_ Hkl]. split; intros x.
  - destruct l; [done|]. apply Hlh.
  - rewrite last_app. destruct (last k) eqn:E; [intros [= ->]; by apply Hkl|].
    by apply last_None in E.
Qed.

Lemma trim_sublist l : exists l1 l2, l = l1 ++ trim l ++ l2.
Proof.
  destruct (drop_while_suffix l) as [l1 H1].
  destruct (drop_while_suffix (rev (drop_while l))) as [l2 H2].
  exists l1, (rev l2). unfold trim. rewrite <- rev_app_distr, <- H2.
  by rewrite rev_involutive.
Qed.
End trim.

(** ** Bytes *)

Definition code (a : ascii) : Z := Z.of_N (N_of_ascii a).
Definition byte_of (z : Z) : ascii := ascii_of_N (Z.to_N (z mod 256)).

(** [utf8.RuneSelf]: bytes below it are runes of their own. *)
Definition is_ascii_byte (a : ascii) : bool := code a <? 128.

Fixpoint is_ascii (s : string) : bool :=
  match s with
  | EmptyString => true
  | String a s => is_ascii_byte a && is_ascii s
  end.

Lemma code_range a : 0 <= code a < 256.
Proof.
  unfold code. pose proof (N_ascii_bounded a). lia.
Qed.

Lemma byte_of_code a : byte_of (code a) = a.
Proof.
  unfold byte_of. pose proof (code_range a). rewrite Z.mod_small by lia.
  unfold code. rewrite N2Z.id. apply ascii_N_embedding.
Qed.

Lemma code_inj a b : code a = code b -> a = b.
Proof. intros H. rewrite <- (byte_of_code a), <- (byte_of_code b). by rewrite H. Qed.

Lemma code_byte_of z : 0 <= z < 256 -> code (byte_of z) = z.
Proof.
  intros Hz. unfold code, byte_of. rewrite Z.mod_small by lia.
  rewrite N_ascii_embedding by lia. lia.
Qed.

(** ** UTF-8 *)

Definition RuneError : Z := 65533.

Definition cont (lo hi : Z) (a : ascii) : bool := (lo <=? code a) && (code a <=? hi).

(** The well-formed sequences of two, three and four bytes. *)
Definition seq2 (a b : ascii) : bool := cont 194 223 a && cont 128 191 b.

Definition seq3 (a b c : ascii) : bool :=
  cont 224 239 a && cont 128 191 c &&
  cont (if code a =? 224 then 160 else 128) (if code a =? 237 then 159 else 191) b.

Definition seq4 (a b c d : ascii) : bool :=
  cont 240 244 a && cont 128 191 c && cont 128 191 d &&
  cont (if code a =? 240 then 144 else 128) (if code a =? 244 then 143 else 191) b.

Definition rune2 a b := Z.lor (Z.shiftl (code a - 192) 6) (code b - 128).
Definition rune3 a b c := Z.lor (Z.shiftl (code a - 224) 12)
  (Z.lor (Z.shiftl (code b - 128) 6) (code c - 128)).
Definition rune4 a b c d := Z.lor (Z.shiftl (code a - 240) 18)
  (Z.lor (Z.shiftl (code b - 128) 12) (Z.lor (Z.shiftl (code c - 128) 6) (code d - 128))).

Definition byte1 (a : ascii) : string := String a EmptyString.

(** The runes of a string, each with the bytes it was decoded from: what
    [for _, r := range s] visits. *)
Fixpoint chunks (s : string) : list (Z * string) :=
  match s with
  | EmptyString => []
  | String a s1 =>
    if is_ascii_byte a then (code a, byte1 a) :: chunks s1
    else
    match s1 with
    | EmptyString => [(RuneError, byte1 a)]
    | String b s2 =>
      if seq2 a b then (rune2 a b, String a (byte1 b)) :: chunks s2
      else
      match s2 with
      | EmptyString => (RuneError, byte1 a) :: chunks s1
      | String c s3 =>
        if seq3 a b c then (rune3 a b c, String a (String b (byte1 c))) :: chunks s3
        else
        match s3 with
        | EmptyString => (RuneError, byte1 a) :: chunks s1
        | String d s4 =>
          if seq4 a b c d
          then (rune4 a b c d, String a (String b (String c (byte1 d)))) :: chunks s4
          else (RuneError, byte1 a) :: chunks s1
        end
      end
    end
  end.

Definition runes (s : string) : list Z := map fst (chunks s).

Fixpoint concat_strings (l : list string) : string :=
  match l with
  | [] => ""
  | s :: l => s +:+ concat_strings l
  end.

(** [utf8.RuneCountInString(s)] *)
Definition RuneCountInString (s : string) : Z := Z.of_nat (length (chunks s)).

(** [utf8.EncodeRune]: surrogates and values out of range encode U+FFFD. *)
Definition EncodeRune (r : Z) : string :=
  if (0 <=? r) && (r <? 128) then byte1 (byte_of r)
  else if (0 <=? r) && (r <? 2048) then
    String (byte_of (192 + Z.shiftr r 6)) (byte1 (byte_of (128 + Z.land r 63)))
  else if (r <? 0) || ((55296 <=? r) && (r <=? 57343)) || (1114111 <? r) then
    String (byte_of 239) (String (byte_of 191) (byte1 (byte_of 189)))
  else if r <? 65536 then
    String (byte_of (224 + Z.shiftr r 12))
      (String (byte_of (128 + Z.land (Z.shiftr r 6) 63)) (byte1 (byte_of (128 + Z.land r 63))))
  else
    String (byte_of (240 + Z.shiftr r 18))
      (String (byte_of (128 + Z.land (Z.shiftr r 12) 63))
        (String (byte_of (128 + Z.land (Z.shiftr r 6) 63)) (byte1 (byte_of (128 + Z.land r 63))))).

(** ** Case *)

(** Unicode's tables for the runes outside ASCII. *)
Class Unicode := {
  unicode_ToLower : Z -> Z;
  unicode_SameFold : Z -> Z -> bool
}.

Definition lower_code (z : Z) : Z := if (65 <=? z) && (z <=? 90) then z + 32 else z.

Definition rune_lower `{Unicode} (r : Z) : Z :=
  if r <? 128 then lower_code r else unicode_ToLower r.

(** [strings.ToLower(s)] *)
Definition ToLower `{Unicode} (s : string) : string :=
  concat_strings (map (fun r => EncodeRune (rune_lower r)) (runes s)).

Definition rune_fold_eq `{Unicode} (a b : Z) : bool :=
  (a =? b) ||
  (if (a <? 128) && (b <? 128) then lower_code a =? lower_code b else unicode_SameFold a b).

Fixpoint forall2b {A B} (f : A -> B -> bool) (l : list A) (k : list B) : bool :=
  match l, k with
  | [], [] => true
  | x :: l, y :: k => f x y && forall2b f l k
  | _, _ => false
  end.

(** [strings.EqualFold(s, t)] *)
Definition EqualFold `{Unicode} (s t : string) : bool :=
  forall2b rune_fold_eq (runes s) (runes t).

(** ** Spaces *)

(** [unicode.IsSpace(r)] *)
Definition IsSpace (r : Z) : bool :=
  ((9 <=? r) && (r <=? 13)) || (r =? 32) || (r =? 133) || (r =? 160) || (r =? 5760) ||
  ((8192 <=? r) && (r <=? 8202)) || (r =? 8232) || (r =? 8233) || (r =? 8239) ||
  (r =? 8287) || (r =? 12288).

Definition chunk_space (c : Z * string) : bool := IsSpace c.1.

(** [strings.TrimSpace(s)] *)
Definition TrimSpace (s : string) : string :=
  concat_strings (map snd (trim chunk_space (chunks s))).

(** ** Searching and splitting *)

Fixpoint HasPrefix (s p : string) {struct p} : bool :=
  match p, s with
  | EmptyString, _ => true
  | String a p, String b s => Ascii.eqb a b && HasPrefix s p
  | String _ _, EmptyString => false
  end.

Fixpoint HasSuffix (s suffix : string) : bool :=
  bool_decide (s = suffix) ||
  match s with
  | EmptyString => false
  | String _ s => HasSuffix s suffix
  end.

Fixpoint Contains (s sub : string) : bool :=
  HasPrefix s sub ||
  match s with
  | EmptyString => false
  | String _ s => Contains s sub
  end.

(** [s[:n]] and [s[n:]] for [n <= len(s)] *)
Fixpoint take_string (n : nat) (s : string) : string :=
  match n, s with
  | S n, String a s => String a (take_string n s)
  | _, _ => ""
  end.

Fixpoint drop_string (n : nat) (s : string) : string :=
  match n, s with
  | S n, String _ s => drop_string n s
  | _, _ => s
  end.

(** [strings.TrimSuffix(s, suffix)] and [strings.TrimPrefix(s, prefix)] *)
Definition TrimSuffix (s suffix : string) : string :=
  if HasSuffix s suffix then take_string (String.length s - String.length suffix) s else s.
Definition TrimPrefix (s prefix : string) : string :=
  if HasPrefix s prefix then drop_string (String.length prefix) s else s.

(** [strings.Split(s, sep)] for a separator of one byte. *)
Fixpoint Split (sep : ascii) (s : string) : list string :=
  match s with
  | EmptyString => [""]
  | String a s =>
      if Ascii.eqb a sep then "" :: Split sep s
      else match Split sep s with
           | [] => [byte1 a]
           | w :: ws => String a w :: ws
           end
  end.

(** [strconv.FormatInt(n, 10)], and [%d] of an integer *)
Definition Itoa (n : Z) : string := pretty n.

(** ** Lemmas on concatenation *)

Lemma app_nil_r_str s : s +:+ "" = s.
Proof. induction s as [|a s IH]; simpl; [done|]. by rewrite IH. Qed.

Lemma app_assoc_str s t u : (s +:+ t) +:+ u = s +:+ (t +:+ u).
Proof. induction s as [|a s IH]; simpl; [done|]. by rewrite IH. Qed.

Lemma length_app_str s t : String.length (s +:+ t) = (String.length s + String.length t)%nat.
Proof. induction s as [|a s IH]; simpl; [done|]. by rewrite IH. Qed.

Lemma app_inj_l s t u : s +:+ t = s +:+ u -> t = u.
Proof. induction s as [|a s IH]; simpl; [done|]. intros [= H]. auto. Qed.

Lemma app_inj_len s t s' t' :
  String.length s = String.length s' -> s +:+ t = s' +:+ t' -> s = s' /\ t = t'.
Proof.
  revert s'. induction s as [|a s IH]; intros [|b s'] Hl H; simpl in *; try lia; [done|].
  injection H as -> H. destruct (IH s') as [-> ->]; auto; lia.
Qed.

Lemma length_take_string n s : String.length (take_string n s) = Nat.min n (String.length s).
Proof. revert s. induction n as [|n IH]; intros [|a s]; simpl; [done..|]. by rewrite IH. Qed.

Lemma take_string_app s t : take_string (String.length s) (s +:+ t) = s.
Proof. induction s as [|a s IH]; simpl; [by destruct t|]. by rewrite IH. Qed.

Lemma drop_string_app s t : drop_string (String.length s) (s +:+ t) = t.
Proof. induction s as [|a s IH]; simpl; [by destruct t|]. by rewrite IH. Qed.

Lemma concat_strings_app l k : concat_strings (l ++ k) = concat_strings l +:+ concat_strings k.
Proof. induction l as [|s l IH]; simpl; [done|]. by rewrite IH, app_assoc_str. Qed.

(** ** Prefixes, suffixes, substrings *)

Lemma HasPrefix_spec s p : HasPrefix s p = true <-> exists t, s = p +:+ t.
Proof.
  revert s. induction p as [|a p IH]; intros s; simpl.
  - split; [by exists s|done].
  - destruct s as [|b s]; [split; [done|by intros [t [=]]]|].
    rewrite andb_true_iff, Ascii.eqb_eq, IH. split.
    + intros [<- [t ->]]. by exists t.
    + intros [t [= <- ->]]. eauto.
Qed.

Lemma HasPrefix_app p t : HasPrefix (p +:+ t) p = true.
Proof. apply HasPrefix_spec. by exists t. Qed.

Lemma HasSuffix_spec s p : HasSuffix s p = true <-> exists t, s = t +:+ p.
Proof.
  induction s as [|a s IH]; simpl; rewrite orb_true_iff, bool_decide_eq_true.
  - split; [intros [<-|[=]]; by exists ""|].
    intros [t Ht]. destruct t; [by left|done].
  - rewrite IH. split.
    + intros [<-|[t ->]]; [by exists ""|by exists (String a t)].
    + intros [[|b t] Ht]; [by left|]. right. exists t. simpl in Ht. congruence.
Qed.

Lemma HasSuffix_app t p : HasSuffix (t +:+ p) p = true.
Proof. apply HasSuffix_spec. by exists t. Qed.

Lemma Contains_spec s sub : Contains s sub = true <-> exists t u, s = t +:+ sub +:+ u.
Proof.
  induction s as [|a s IH]; simpl; rewrite orb_true_iff, HasPrefix_spec.
  - split; [intros [[u Hu]|[=]]; by exists "", u|].
    intros ([|b t] & u & Hu); [by left; exists u|done].
  - rewrite IH. split.
    + intros [[u ->]|(t & u & ->)]; [by exists "", u|by exists (String a t), u].
    + intros ([|b t] & u & Hu); [left; by exists u|].
      right. exists t, u. simpl in Hu. congruence.
Qed.

Lemma Contains_app s sub t : Contains s sub = true -> Contains (s +:+ t) sub = true.
Proof.
  rewrite !Contains_spec. intros (a & b & ->). exists a, (b +:+ t).
  by rewrite !app_assoc_str.
Qed.

Lemma Contains_suffix s sub : HasSuffix s sub = true -> Contains s sub = true.
Proof.
  rewrite HasSuffix_spec, Contains_spec. intros [t ->]. exists t, "".
  by rewrite app_nil_r_str.
Qed.

Lemma TrimSuffix_app t p : TrimSuffix (t +:+ p) p = t.
Proof.
  unfold TrimSuffix. rewrite HasSuffix_app, length_app_str.
  replace (String.length t + String.length p - String.length p)%nat with (String.length t) by lia.
  apply take_string_app.
Qed.

Lemma TrimPrefix_app p t : TrimPrefix (p +:+ t) p = t.
Proof. unfold TrimPrefix. rewrite HasPrefix_app. apply drop_string_app. Qed.

(** ** Decoding *)

Lemma chunks_concat s : concat_strings (map snd (chunks s)) = s.
Proof.
  assert (forall n s, (String.length s <= n)%nat -> concat_strings (map snd (chunks s)) = s) as H.
  { clear s. induction n as [|n IH]; intros s Hn.
    { by destruct s; simpl in *; [|lia]. }
    destruct s as [|a s1]; [done|]. simpl in Hn.
    assert (concat_strings (map snd (chunks s1)) = s1) as H1 by (apply IH; lia).
    simpl. destruct (is_ascii_byte a); [simpl; by rewrite H1|].
    destruct s1 as [|b s2]; [done|]. destruct (seq2 a b).
    { simpl. rewrite IH; [done|simpl in Hn; lia]. }
    destruct s2 as [|c s3]; [cbn [map concat_strings snd]; by rewrite H1|].
    destruct (seq3 a b c).
    { simpl. rewrite IH; [done|simpl in Hn; lia]. }
    destruct s3 as [|d s4]; [cbn [map concat_strings snd]; by rewrite H1|].
    destruct (seq4 a b c d).
    { simpl. rewrite IH; [done|simpl in Hn; lia]. }
    cbn [map concat_strings snd]. by rewrite H1. }
  by apply (H (String.length s)).
Qed.

Lemma is_ascii_app s t : is_ascii (s +:+ t) = is_ascii s && is_ascii t.
Proof. induction s as [|a s IH]; simpl; [done|]. by rewrite IH, andb_assoc. Qed.

Lemma chunks_app_ascii s t : is_ascii s = true -> chunks (s +:+ t) = chunks s ++ chunks t.
Proof.
  induction s as [|a s IH]; intros H; [done|].
  cbn [is_ascii] in H. apply andb_true_iff in H as [Ha Hs].
  cbn [String.append chunks]. rewrite Ha. simpl. by rewrite IH.
Qed.

Lemma chunks_nil s : chunks s = [] <-> s = "".
Proof.
  split; [|by intros ->]. intros H. rewrite <- (chunks_concat s), H. done.
Qed.

Definition ascii_chunk (c : Z * string) : bool := is_ascii c.2.

Lemma ascii_chunks s : is_ascii s = true ->
  Forall (fun c => exists a, is_ascii_byte a = true /\ c = (code a, byte1 a)) (chunks s).
Proof.
  induction s as [|a s IH]; intros H; [constructor|].
  cbn [is_ascii] in H. apply andb_true_iff in H as [Ha Hs].
  cbn [chunks]. rewrite Ha. constructor; [by exists a|auto].
Qed.

Lemma chunks_of_ascii_chunks l :
  Forall (fun c => exists a, is_ascii_byte a = true /\ c = (code a, byte1 a)) l ->
  chunks (concat_strings (map snd l)) = l.
Proof.
  induction 1 as [|c l (a & Ha & ->) Hl IH]; [done|].
  simpl. rewrite Ha. by rewrite IH.
Qed.

Lemma is_ascii_chunks l :
  Forall (fun c => exists a, is_ascii_byte a = true /\ c = (code a, byte1 a)) l ->
  is_ascii (concat_strings (map snd l)) = true.
Proof.
  induction 1 as [|c l (a & Ha & ->) Hl IH]; [done|]. simpl. by rewrite Ha, IH.
Qed.

(** ** [TrimSpace] on ASCII strings *)

Lemma trim_chunks_ascii s : is_ascii s = true ->
  Forall (fun c => exists a, is_ascii_byte a = true /\ c = (code a, byte1 a))
    (trim chunk_space (chunks s)).
Proof.
  intros H. destruct (trim_sublist chunk_space (chunks s)) as (l1 & l2 & E).
  pose proof (ascii_chunks s H) as HF. rewrite E in HF.
  apply Forall_app in HF as [_ HF]. by apply Forall_app in HF as [HF _].
Qed.

Lemma chunks_TrimSpace s : is_ascii s = true ->
  chunks (TrimSpace s) = trim chunk_space (chunks s).
Proof. intros H. by apply chunks_of_ascii_chunks, trim_chunks_ascii. Qed.

Lemma is_ascii_TrimSpace s : is_ascii s = true -> is_ascii (TrimSpace s) = true.
Proof. intros H. by apply is_ascii_chunks, trim_chunks_ascii. Qed.

Lemma TrimSpace_idem s : is_ascii s = true -> TrimSpace (TrimSpace s) = TrimSpace s.
Proof.
  intros H. unfold TrimSpace at 1. by rewrite (chunks_TrimSpace s H), trim_idem.
Qed.

(** Two trimmed strings, neither empty, concatenate to a trimmed string. *)
Lemma TrimSpace_app s t : is_ascii s = true -> is_ascii t = true -> s <> "" -> t <> "" ->
  TrimSpace s = s -> TrimSpace t = t -> TrimSpace (s +:+ t) = s +:+ t.
Proof.
  intros Hs Ht Hs0 Ht0 Es Et.
  assert (forall u, is_ascii u = true -> TrimSpace u = u -> trimmed chunk_space (chunks u)) as Htr.
  { intros u Hu Eu. rewrite <- Eu, chunks_TrimSpace by done. apply trim_trimmed. }
  unfold TrimSpace. rewrite chunks_app_ascii by done. rewrite trim_fixed.
  - by rewrite map_app, concat_strings_app, !chunks_concat.
  - apply trimmed_app; auto; rewrite chunks_nil; done.
Qed.

#[export] Hint Resolve HasPrefix_app HasSuffix_app : cg.
#[export] Hint Rewrite HasPrefix_app HasSuffix_app TrimSuffix_app TrimPrefix_app : cg.
