(* ===== verification/Encoding.v ===== *)
(** * encoding/hex, encoding/base64 and big-endian integers

    The parts of the Go standard library's encoders the program uses, on byte
    strings, with the round trips the components rely on.  Decoding errors carry
    no position. *)

From Stdlib Require Import Ascii.
From S2P Require Import Prelude GoError GoString.

Open Scope Z_scope.

Abbreviation bytes_of := String.list_ascii_of_string (only parsing).
Abbreviation string_of := String.string_of_list_ascii (only parsing).

(** ** Alphabets *)

Definition digit (alpha : string) (i : Z) : ascii := default "A"%char (String.get (Z.to_nat i) alpha).

Fixpoint index_of (a : ascii) (alpha : string) : option Z :=
  match alpha with
  | EmptyString => None
  | String b rest => if Ascii.eqb a b then Some 0 else option_map Z.succ (index_of a rest)
  end.

(** An alphabet of [n] distinct characters, checked by computation. *)
Definition alphabet_ok (n : nat) (alpha : string) : bool :=
  forallb (fun i => match index_of (digit alpha (Z.of_nat i)) alpha with
                    | Some j => j =? Z.of_nat i | None => false end) (seq 0 n).

Lemma digit_index n alpha i :
  alphabet_ok n alpha = true -> 0 <= i < Z.of_nat n -> index_of (digit alpha i) alpha = Some i.
Proof.
  unfold alphabet_ok. rewrite forallb_forall. intros H Hi.
  specialize (H (Z.to_nat i)). rewrite Z2Nat.id in H by lia.
  destruct (index_of _ _) as [j|]; [|exfalso; assert (false = true) by (apply H, in_seq; lia); done].
  f_equal. apply Z.eqb_eq, H, in_seq. lia.
Qed.

(** ** encoding/hex *)

Module Hex.
Definition lower : string := "0123456789abcdef".
Definition upper : string := "0123456789ABCDEF".

Definition nibble (a : ascii) : option Z :=
  match index_of a lower with Some i => Some i | None => index_of a upper end.

Fixpoint encode (l : list ascii) : list ascii :=
  match l with
  | [] => []
  | a :: l => digit lower (code a / 16) :: digit lower (code a mod 16) :: encode l
  end.

Fixpoint decode (l : list ascii) : result error (list ascii) :=
  match l with
  | [] => Ok []
  | [a] => match nibble a with
           | None => Fail (New "encoding/hex: invalid byte")
           | Some _ => Fail (New "encoding/hex: odd length hex string")
           end
  | a :: b :: l =>
      match nibble a, nibble b with
      | Some i, Some j => let? r := decode l in Ok (byte_of (i * 16 + j) :: r)
      | _, _ => Fail (New "encoding/hex: invalid byte")
      end
  end.

Definition EncodeToString (s : string) : string := string_of (encode (bytes_of s)).
Definition DecodeString (s : string) : result error string :=
  let? l := decode (bytes_of s) in Ok (string_of l).

Lemma nibble_digit i : 0 <= i < 16 -> nibble (digit lower i) = Some i.
Proof. intros H. unfold nibble. by rewrite (digit_index 16) by (done || lia). Qed.

Lemma hex_decode_encode l : decode (encode l) = Ok l.
Proof.
  induction l as [|a l IH]; [done|]. simpl. pose proof (code_range a) as Ha.
  rewrite !nibble_digit by (Z.to_euclidean_division_equations; lia). rewrite IH. simpl.
  replace (code a / 16 * 16 + code a mod 16) with (code a) by (Z.to_euclidean_division_equations; lia).
  by rewrite byte_of_code.
Qed.

Lemma hex_roundtrip s : DecodeString (EncodeToString s) = Ok s.
Proof.
  unfold DecodeString, EncodeToString. rewrite String.list_ascii_of_string_of_list_ascii, hex_decode_encode.
  simpl. by rewrite String.string_of_list_ascii_of_string.
Qed.
End Hex.

(** ** encoding/base64 *)

Module Base64.
Definition alphabet (url : bool) : string :=
  if url then "ABCDEFGHIJKLMNOPQRSTUVWXYZabcdefghijklmnopqrstuvwxyz0123456789-_"
  else "ABCDEFGHIJKLMNOPQRSTUVWXYZabcdefghijklmnopqrstuvwxyz0123456789+/".

(** [StdEncoding], [URLEncoding] and [RawURLEncoding]. *)
Record Encoding := mkEncoding { url : bool; pad : bool }.
Definition StdEncoding := mkEncoding false true.
Definition URLEncoding := mkEncoding true true.
Definition RawURLEncoding := mkEncoding true false.

Definition sextet (e : Encoding) (i : Z) : ascii := digit (alphabet (url e)) i.
Definition unsextet (e : Encoding) (a : ascii) : option Z := index_of a (alphabet (url e)).
Definition padding (e : Encoding) (n : nat) : list ascii := if pad e then repeat "="%char n else [].

Fixpoint encode (e : Encoding) (l : list ascii) : list ascii :=
  match l with
  | [] => []
  | [a] => sextet e (code a / 4) :: sextet e (code a mod 4 * 16) :: padding e 2
  | [a; b] =>
      sextet e (code a / 4) :: sextet e (code a mod 4 * 16 + code b / 16)
      :: sextet e (code b mod 16 * 4) :: padding e 1
  | a :: b :: c :: l =>
      sextet e (code a / 4) :: sextet e (code a mod 4 * 16 + code b / 16)
      :: sextet e (code b mod 16 * 4 + code c / 64) :: sextet e (code c mod 64) :: encode e l
  end.

(** The bytes of two, three and four sextets (trailing bits are ignored, as Go
    does outside of strict mode). *)
Definition byte_ab (i j : Z) : ascii := byte_of (i * 4 + j / 16).
Definition byte_bc (j k : Z) : ascii := byte_of (j mod 16 * 16 + k / 4).
Definition byte_cd (k l : Z) : ascii := byte_of (k mod 4 * 64 + l).

Definition CorruptInputError : error := New "illegal base64 data".

Definition last2 (e : Encoding) (a b : ascii) : result error (list ascii) :=
  match unsextet e a, unsextet e b with
  | Some i, Some j => Ok [byte_ab i j]
  | _, _ => Fail CorruptInputError
  end.

Definition last3 (e : Encoding) (a b c : ascii) : result error (list ascii) :=
  match unsextet e a, unsextet e b, unsextet e c with
  | Some i, Some j, Some k => Ok [byte_ab i j; byte_bc j k]
  | _, _, _ => Fail CorruptInputError
  end.

Fixpoint decode (e : Encoding) (l : list ascii) : result error (list ascii) :=
  match l with
  | [] => Ok []
  | [_] => Fail CorruptInputError
  | [a; b] => if pad e then Fail CorruptInputError else last2 e a b
  | [a; b; c] => if pad e then Fail CorruptInputError else last3 e a b c
  | a :: b :: c :: d :: rest =>
      if pad e && Ascii.eqb d "=" then
        match rest with
        | [] => if Ascii.eqb c "=" then last2 e a b else last3 e a b c
        | _ => Fail CorruptInputError
        end
      else
        match unsextet e a, unsextet e b, unsextet e c, unsextet e d with
        | Some i, Some j, Some k, Some l =>
            let? r := decode e rest in Ok (byte_ab i j :: byte_bc j k :: byte_cd k l :: r)
        | _, _, _, _ => Fail CorruptInputError
        end
  end.

Definition is_newline (a : ascii) : bool := (code a =? 10) || (code a =? 13).

Definition EncodeToString (e : Encoding) (s : string) : string := string_of (encode e (bytes_of s)).
Definition DecodeString (e : Encoding) (s : string) : result error string :=
  let? l := decode e (List.filter (fun a => negb (is_newline a)) (bytes_of s)) in Ok (string_of l).

Lemma unsextet_sextet e i : 0 <= i < 64 -> unsextet e (sextet e i) = Some i.
Proof. intros H. unfold unsextet, sextet. destruct (url e); by rewrite (digit_index 64) by (done || lia). Qed.

(** No digit is the padding character or a newline. *)
Lemma sextet_plain e i : 0 <= i < 64 ->
  Ascii.eqb (sextet e i) "=" = false /\ is_newline (sextet e i) = false.
Proof.
  intros Hi. unfold sextet.
  assert (forallb (fun i => let a := digit (alphabet (url e)) (Z.of_nat i) in
    negb (Ascii.eqb a "=") && negb (is_newline a)) (seq 0 64) = true) as H by by destruct (url e).
  rewrite forallb_forall in H. specialize (H (Z.to_nat i)). rewrite Z2Nat.id in H by lia.
  assert (In (Z.to_nat i) (seq 0 64)) as Hin by (apply in_seq; lia). apply H in Hin.
  apply andb_prop in Hin as [H1 H2]. by rewrite <- negb_true_iff, <- (negb_true_iff (is_newline _)).
Qed.

Lemma byte_ab_code a j : 0 <= j < 16 -> byte_ab (code a / 4) (code a mod 4 * 16 + j) = a.
Proof.
  intros Hj. unfold byte_ab. rewrite <- (byte_of_code a) at 3. f_equal. pose proof (code_range a).
  Z.to_euclidean_division_equations; lia.
Qed.
Lemma byte_bc_code i b k : 0 <= k < 4 -> byte_bc (i * 16 + code b / 16) (code b mod 16 * 4 + k) = b.
Proof.
  intros Hj. unfold byte_bc. rewrite <- (byte_of_code b) at 3. f_equal. pose proof (code_range b).
  Z.to_euclidean_division_equations; lia.
Qed.
Lemma byte_cd_code j c : byte_cd (j * 4 + code c / 64) (code c mod 64) = c.
Proof.
  unfold byte_cd. rewrite <- (byte_of_code c) at 3. f_equal. pose proof (code_range c).
  Z.to_euclidean_division_equations; lia.
Qed.

(** Induction three elements at a time. *)
Lemma list_ind3 {A} (P : list A -> Prop) :
  P [] -> (forall a, P [a]) -> (forall a b, P [a; b]) ->
  (forall a b c l, P l -> P (a :: b :: c :: l)) -> forall l, P l.
Proof.
  intros H0 H1 H2 H3. fix IH 1. intros [|a [|b [|c l]]]; [done|done|done|]. apply H3, IH.
Qed.

Lemma base64_decode_encode e l : decode e (encode e l) = Ok l.
Proof.
  induction l as [|a|a b|a b c l IH] using list_ind3; [done| | |].
  - pose proof (code_range a).
    assert (0 <= code a / 4 < 64 /\ 0 <= code a mod 4 * 16 < 64) as [Ha Hb]
      by (Z.to_euclidean_division_equations; lia).
    assert (last2 e (sextet e (code a / 4)) (sextet e (code a mod 4 * 16)) = Ok [a]) as HL.
    { unfold last2. rewrite !unsextet_sextet by done.
      rewrite <- (Z.add_0_r (code a mod 4 * 16)), byte_ab_code by lia. done. }
    cbn [encode]. unfold padding. destruct (pad e) eqn:Ep; simpl; rewrite ?Ep; simpl; exact HL.
  - pose proof (code_range a). pose proof (code_range b).
    assert (0 <= code a / 4 < 64 /\ 0 <= code a mod 4 * 16 + code b / 16 < 64 /\
      0 <= code b mod 16 * 4 < 64 /\ 0 <= code b / 16 < 16) as (Ha & Hb & Hc & Hd)
      by (Z.to_euclidean_division_equations; lia).
    assert (last3 e (sextet e (code a / 4)) (sextet e (code a mod 4 * 16 + code b / 16))
      (sextet e (code b mod 16 * 4)) = Ok [a; b]) as HL.
    { unfold last3. rewrite !unsextet_sextet by done. rewrite byte_ab_code by lia.
      rewrite <- (Z.add_0_r (code b mod 16 * 4)), byte_bc_code by lia. done. }
    cbn [encode]. unfold padding. destruct (pad e) eqn:Ep; simpl; rewrite ?Ep; simpl; [|exact HL].
    destruct (sextet_plain e (code b mod 16 * 4) Hc) as [-> _]. exact HL.
  - pose proof (code_range a). pose proof (code_range b). pose proof (code_range c).
    assert (0 <= code a / 4 < 64 /\ 0 <= code a mod 4 * 16 + code b / 16 < 64 /\
      0 <= code b mod 16 * 4 + code c / 64 < 64 /\ 0 <= code c mod 64 < 64 /\
      0 <= code b / 16 < 16 /\ 0 <= code c / 64 < 4) as (Ha & Hb & Hc & Hd & He & Hf)
      by (Z.to_euclidean_division_equations; lia).
    simpl. destruct (sextet_plain e (code c mod 64) Hd) as [-> _]. rewrite andb_false_r.
    rewrite !unsextet_sextet by done. rewrite IH. simpl.
    by rewrite byte_ab_code, byte_bc_code, byte_cd_code by lia.
Qed.

(** What holds of the alphabet and of the padding holds of the output. *)
Lemma encode_all e (P : ascii -> Prop) l :
  (forall i, 0 <= i < 64 -> P (sextet e i)) -> P "="%char -> Forall P (encode e l).
Proof.
  intros Hs Heq. assert (forall n, Forall P (padding e n)) as Hp.
  { intros n. unfold padding. destruct (pad e); [|constructor]. induction n; by constructor. }
  induction l as [|a|a b|a b c l IH] using list_ind3; simpl; [constructor| | |];
    repeat (constructor; [apply Hs;
      try (pose proof (code_range a)); try (pose proof (code_range b)); try (pose proof (code_range c));
      Z.to_euclidean_division_equations; lia|]); auto.
Qed.

Lemma encode_no_newline e l : Forall (fun a => is_newline a = false) (encode e l).
Proof. apply encode_all; [|done]. intros i Hi. by apply sextet_plain. Qed.

(** The output is ASCII. *)
Lemma sextet_ascii e i : 0 <= i < 64 -> is_ascii_byte (sextet e i) = true.
Proof.
  intros Hi. assert (forallb (fun n => is_ascii_byte (sextet e (Z.of_nat n))) (seq 0 64) = true) as Hall
    by (destruct e as [[] []]; vm_compute; reflexivity).
  rewrite forallb_forall in Hall. specialize (Hall (Z.to_nat i)). rewrite Z2Nat.id in Hall by lia.
  apply Hall, in_seq. lia.
Qed.

Lemma filter_all {A} (f : A -> bool) l : Forall (fun a => f a = true) l -> List.filter f l = l.
Proof. induction 1 as [|x l H _ IH]; [done|]. simpl. by rewrite H, IH. Qed.

Lemma is_ascii_EncodeToString e s : is_ascii (EncodeToString e s) = true.
Proof.
  unfold EncodeToString. pose proof (encode_all e (fun a => is_ascii_byte a = true) (bytes_of s)
    (sextet_ascii e) eq_refl) as H.
  induction H as [|a l Ha _ IH]; [done|]. cbn. by rewrite Ha, IH.
Qed.

Lemma base64_roundtrip e s : DecodeString e (EncodeToString e s) = Ok s.
Proof.
  unfold DecodeString, EncodeToString. rewrite String.list_ascii_of_string_of_list_ascii.
  rewrite filter_all.
  - rewrite base64_decode_encode. simpl. by rewrite String.string_of_list_ascii_of_string.
  - eapply Forall_impl; [apply encode_no_newline|]. by intros a ->.
Qed.
End Base64.

(** ** math/big: unsigned big-endian bytes *)

Module BigInt.
(** [SetBytes] *)
Definition SetBytes (l : list ascii) : Z := fold_left (fun n b => n * 256 + code b) l 0.

(** [Bytes], least significant first; [k] bounds the number of bytes. *)
Fixpoint bytes_le (k : nat) (n : Z) : list ascii :=
  match k with
  | O => []
  | S k => if n =? 0 then [] else byte_of (n mod 256) :: bytes_le k (n / 256)
  end.
Definition BitLen (n : Z) : Z := if n =? 0 then 0 else Z.log2 n + 1.
Definition Bytes (n : Z) : list ascii := rev (bytes_le (Z.to_nat (BitLen n)) n).

Lemma SetBytes_snoc l b : SetBytes (l ++ [b]) = SetBytes l * 256 + code b.
Proof. unfold SetBytes. by rewrite fold_left_app. Qed.

Lemma SetBytes_le k n : 0 <= n < 256 ^ Z.of_nat k -> SetBytes (rev (bytes_le k n)) = n.
Proof.
  revert n. induction k as [|k IH]; intros n Hn; [simpl in Hn; by assert (n = 0) as -> by lia|].
  simpl. destruct (Z.eqb_spec n 0); [done|]. simpl. rewrite SetBytes_snoc.
  rewrite Nat2Z.inj_succ, Z.pow_succ_r in Hn by lia.
  rewrite IH by (split; [apply Z.div_pos|apply Z.div_lt_upper_bound]; lia).
  rewrite code_byte_of by (Z.to_euclidean_division_equations; lia).
  Z.to_euclidean_division_equations; lia.
Qed.

Lemma BitLen_bound n : 0 <= n -> n < 256 ^ BitLen n.
Proof.
  intros Hn. unfold BitLen. destruct (Z.eqb_spec n 0); [lia|].
  pose proof (Z.log2_spec n). pose proof (Z.log2_nonneg n).
  assert (2 ^ (Z.log2 n + 1) <= 256 ^ (Z.log2 n + 1)) by (apply Z.pow_le_mono_l; lia). lia.
Qed.

Lemma SetBytes_Bytes n : 0 <= n -> SetBytes (Bytes n) = n.
Proof.
  intros Hn. apply SetBytes_le. split; [done|].
  assert (0 <= BitLen n) by (unfold BitLen; destruct (n =? 0); [lia|pose proof (Z.log2_nonneg n); lia]).
  rewrite Z2Nat.id by lia. by apply BitLen_bound.
Qed.
End BigInt.
