(* ===== verification/GoStrconv.v ===== *)
(** * Go's strconv and time.ParseDuration

    Decimal integers of 64 bits, booleans, durations, and the [%d] verb of
    [fmt.Sscanf], as the configuration loader and the Redis counters use them.
    Printing an integer and parsing it back is the identity. *)

From Stdlib Require Import Ascii.
From S2P Require Import Prelude GoError GoString.

Open Scope Z_scope.

Definition ErrSyntax : error := Err "strconv.ErrSyntax" "invalid syntax" [].
Definition ErrRange : error := Err "strconv.ErrRange" "value out of range" [].

(** [&NumError{fn, s, err}]; the quoted input is left out of the text. *)
Definition NumError (fn : string) (err : error) : error :=
  Err "*strconv.NumError" ("strconv." +:+ fn +:+ ": parsing: " +:+ ErrorText err) [err].

Definition uint64_max : Z := 18446744073709551615.

Definition digit_value (c : ascii) : option Z :=
  if (48 <=? code c) && (code c <=? 57) then Some (code c - 48) else None.

(** The loop of [ParseUint] for base 10 and 64 bits. *)
Fixpoint parse_digits (s : string) (n : Z) : result error Z :=
  match s with
  | EmptyString => Ok n
  | String c rest =>
      match digit_value c with
      | None => Fail ErrSyntax
      | Some d =>
          let n := n * 10 + d in
          if uint64_max <? n then Fail ErrRange else parse_digits rest n
      end
  end.

Definition parse_uint (s : string) : result error Z :=
  if bool_decide (s = "") then Fail ErrSyntax else parse_digits s 0.

(** [strconv.ParseUint(s, 10, 64)] *)
Definition ParseUint (s : string) : result error Z := map_err (NumError "ParseUint") (parse_uint s).

(** A sign and what follows it. *)
Definition cut_sign (s : string) : bool * string :=
  match s with
  | String c rest =>
      if Ascii.eqb c "+" then (false, rest) else if Ascii.eqb c "-" then (true, rest) else (false, s)
  | EmptyString => (false, s)
  end.

Definition parse_int (s : string) : result error Z :=
  if bool_decide (s = "") then Fail ErrSyntax
  else
    let (neg, digits) := cut_sign s in
    let? un := parse_uint digits in
    if negb neg && (int64_max <? un) then Fail ErrRange
    else if neg && (- int64_min <? un) then Fail ErrRange
    else Ok (if neg then - un else un).

(** [strconv.ParseInt(s, 10, 64)] and [strconv.Atoi(s)] *)
Definition ParseInt (s : string) : result error Z := map_err (NumError "ParseInt") (parse_int s).
Definition Atoi (s : string) : result error Z := map_err (NumError "Atoi") (parse_int s).

(** [strconv.ParseBool(s)] *)
Definition ParseBool (s : string) : result error bool :=
  if bool_decide (s ∈ ["1"; "t"; "T"; "true"; "TRUE"; "True"]) then Ok true
  else if bool_decide (s ∈ ["0"; "f"; "F"; "false"; "FALSE"; "False"]) then Ok false
  else Fail (NumError "ParseBool" ErrSyntax).

(** ** [fmt.Sscanf(s, "%d", &n)]

    Leading spaces are skipped, the longest run of digits after an optional sign
    is taken, and what follows it is not looked at. *)

Fixpoint digit_run (s : string) : string :=
  match s with
  | EmptyString => ""
  | String c rest => match digit_value c with Some _ => String c (digit_run rest) | None => "" end
  end.

(** [io.EOF] *)
Definition ErrEOF : error := Err "io.EOF" "EOF" [].

(** A newline is not skipped. *)
Definition skip_spaces (s : string) : string :=
  concat_strings (map snd (drop_while (fun c => IsSpace c.1 && negb (c.1 =? 10)) (chunks s))).

Definition Sscanf_d (s : string) : result error Z :=
  match skip_spaces s with
  | EmptyString => Fail ErrEOF
  | String c rest as s =>
      let sign := if Ascii.eqb c "+" || Ascii.eqb c "-" then byte1 c else "" in
      let s := if bool_decide (sign = "") then s else rest in
      let digits := digit_run s in
      if bool_decide (s = "") then Fail ErrEOF
      else if bool_decide (digits = "") then Fail (New "expected integer")
      else ParseInt (sign +:+ digits)
  end.

(** ** [time.ParseDuration] *)

(** The arithmetic of a fraction, [uint64(float64(f) * (float64(unit) / scale))],
    with [scale] the power of ten of its digits. *)
Class FloatFraction := { fraction_of : Z -> Z -> Z -> Z }.

(** [leadingInt]: fails when the number passes 1<<63. *)
Fixpoint leadingInt (s : string) (x : Z) : option (Z * string) :=
  match s with
  | EmptyString => Some (x, s)
  | String c rest =>
      match digit_value c with
      | None => Some (x, s)
      | Some d =>
          if 2 ^ 63 / 10 <? x then None
          else if 2 ^ 63 <? x * 10 + d then None
          else leadingInt rest (x * 10 + d)
      end
  end.

(** [leadingFraction]: digits that no longer fit are ignored. *)
Fixpoint leadingFraction (s : string) (x scale : Z) (overflow : bool) : Z * Z * string :=
  match s with
  | EmptyString => (x, scale, s)
  | String c rest =>
      match digit_value c with
      | None => (x, scale, s)
      | Some d =>
          if overflow then leadingFraction rest x scale true
          else if int64_max / 10 <? x then leadingFraction rest x scale true
          else if 2 ^ 63 <? x * 10 + d then leadingFraction rest x scale true
          else leadingFraction rest (x * 10 + d) (scale * 10) false
      end
  end.

(** The unit: everything up to the next digit or point. *)
Fixpoint cut_unit (s : string) : string * string :=
  match s with
  | EmptyString => ("", "")
  | String c rest =>
      if Ascii.eqb c "." || bool_decide (digit_value c <> None) then ("", s)
      else let (u, r) := cut_unit rest in (String c u, r)
  end.

(** [unitMap]; the two spellings of microseconds are U+00B5 and U+03BC. *)
Definition unitMap (u : string) : option Z :=
  if bool_decide (u = "ns") then Some Nanosecond
  else if bool_decide (u ∈ ["us"; "µs"; "μs"]) then Some 1000
  else if bool_decide (u = "ms") then Some Millisecond
  else if bool_decide (u = "s") then Some Second
  else if bool_decide (u = "m") then Some Minute
  else if bool_decide (u = "h") then Some Hour
  else None.

Definition ErrDuration : error := New "time: invalid duration".

Section Duration.
Context `{FloatFraction}.

(** One turn of the loop: number, fraction, unit; the value and the rest. *)
Definition duration_term (s : string) : result error (Z * string) :=
  match s with
  | EmptyString => Fail ErrDuration
  | String c _ =>
      if negb (Ascii.eqb c "." || bool_decide (digit_value c <> None)) then Fail ErrDuration
      else
        match leadingInt s 0 with
        | None => Fail ErrDuration
        | Some (v, s1) =>
            let pre := negb (bool_decide (s1 = s)) in
            let '(f, scale, s2, post) :=
              match s1 with
              | String c s1' =>
                  if Ascii.eqb c "." then
                    let '(f, scale, s2) := leadingFraction s1' 0 1 false in (f, scale, s2, negb (bool_decide (s2 = s1')))
                  else (0, 1, s1, false)
              | EmptyString => (0, 1, s1, false)
              end in
            if negb pre && negb post then Fail ErrDuration
            else
              let (u, rest) := cut_unit s2 in
              if bool_decide (u = "") then Fail (New "time: missing unit in duration")
              else
                match unitMap u with
                | None => Fail (New "time: unknown unit in duration")
                | Some unit =>
                    if 2 ^ 63 / unit <? v then Fail ErrDuration
                    else
                      let v := v * unit in
                      let v := if 0 <? f then v + fraction_of f unit scale else v in
                      if (0 <? f) && (2 ^ 63 <? v) then Fail ErrDuration else Ok (v, rest)
                end
        end
  end.

(** The loop; every turn consumes input, so the length of the input is fuel. *)
Fixpoint duration_terms (fuel : nat) (s : string) (d : Z) : result error Z :=
  match fuel with
  | O => Ok d
  | S fuel =>
      if bool_decide (s = "") then Ok d
      else
        let? vr := duration_term s in
        let d := (d + vr.1) mod 2 ^ 64 in
        if 2 ^ 63 <? d then Fail ErrDuration else duration_terms fuel vr.2 d
  end.

Definition ParseDuration (s : string) : result error Duration :=
  let (neg, s) := cut_sign s in
  if bool_decide (s = "0") then Ok 0
  else if bool_decide (s = "") then Fail ErrDuration
  else
    let? d := duration_terms (String.length s) s 0 in
    if neg then Ok (wrap64 (- d))
    else if int64_max <? d then Fail ErrDuration
    else Ok d.
End Duration.

(** ** Printing and parsing *)

Lemma digit_value_char n : 0 <= n < 10 -> digit_value (pretty_N_char (Z.to_N n)) = Some n.
Proof.
  intros Hn.
  assert (forallb (fun z => bool_decide (digit_value (pretty_N_char (Z.to_N z)) = Some z)) (List.map Z.of_nat (seq 0 10))
    = true) as Hall by (vm_compute; reflexivity).
  rewrite forallb_forall in Hall. eapply bool_decide_eq_true, Hall, in_map_iff.
  exists (Z.to_nat n). rewrite in_seq. lia.
Qed.

(** The printer's digits are read back as the number they start with. *)
Lemma parse_pretty n s : 0 <= n <= uint64_max -> parse_digits (pretty_N_go (Z.to_N n) s) 0 = parse_digits s n.
Proof.
  intros Hn. remember (Z.to_N n) as x eqn:Hx. revert n s Hn Hx.
  induction (N.lt_wf_0 x) as [x _ IH]. intros n s Hn Hx.
  destruct (decide (x = 0)%N) as [->|H0]; [rewrite pretty_N_go_0; f_equal; lia|].
  rewrite pretty_N_go_step by lia. pose proof (Z.mod_pos_bound n 10 ltac:(lia)) as Hm.
  pose proof (Z.div_mod n 10 ltac:(lia)) as Hd.
  rewrite (IH (x / 10)%N) with (n := n / 10).
  - replace (x mod 10)%N with (Z.to_N (n mod 10)) by (subst x; by rewrite Z2N.inj_mod by lia).
    cbn [parse_digits]. rewrite digit_value_char by done. cbv zeta.
    replace (n / 10 * 10 + n mod 10) with n by lia. by rewrite (proj2 (Z.ltb_ge _ _)) by lia.
  - apply N.div_lt; lia.
  - split; [apply Z.div_pos; lia|]. pose proof (Z.div_le_upper_bound n 10 uint64_max). unfold uint64_max in *. lia.
  - subst x. by rewrite Z2N.inj_div by lia.
Qed.

Lemma pretty_N_nonempty n s : (0 < n)%N -> pretty_N_go n s <> "" /\
  exists c rest, pretty_N_go n s = String c rest /\ digit_value c <> None.
Proof.
  enough (forall n s, (0 < n)%N -> exists c rest, pretty_N_go n s = String c rest /\ digit_value c <> None) as H.
  { intros Hn. destruct (H n s Hn) as (c & rest & E & Hc). split; [by rewrite E|eauto]. }
  clear. intros n. induction (N.lt_wf_0 n) as [n _ IH]. intros s Hn. rewrite pretty_N_go_step by lia.
  pose proof (N.mod_lt n 10 ltac:(lia)) as Hm.
  assert (digit_value (pretty_N_char (n mod 10)) <> None) as Hc.
  { generalize dependent (n mod 10)%N. intros d Hd. by rewrite <- (N2Z.id d), digit_value_char by lia. }
  destruct (decide (n / 10 = 0)%N) as [->|H0]; [rewrite pretty_N_go_0; eauto|].
  apply IH; [apply N.div_lt; lia|]. by apply N.neq_0_lt_0.
Qed.

Lemma cut_sign_digit c rest : digit_value c <> None -> cut_sign (String c rest) = (false, String c rest).
Proof.
  intros Hc. unfold cut_sign. destruct (Ascii.eqb_spec c "+") as [->|]; [done|].
  by destruct (Ascii.eqb_spec c "-") as [->|].
Qed.

Lemma parse_uint_pretty n : 0 < n <= uint64_max -> parse_uint (pretty_N_go (Z.to_N n) "") = Ok n.
Proof.
  intros Hn. unfold parse_uint. destruct (pretty_N_nonempty (Z.to_N n) "") as [Hne _]; [lia|].
  rewrite bool_decide_eq_false_2 by done. by rewrite parse_pretty by lia.
Qed.

Lemma Itoa_pos n : 0 < n -> Itoa n = pretty_N_go (Z.to_N n) "".
Proof.
  intros Hn. destruct n as [|p|p]; [lia| |lia].
  unfold Itoa, pretty, pretty_Z, pretty, pretty_positive, pretty, pretty_N. by rewrite decide_False.
Qed.

Lemma parse_int_Itoa n : in_int64 n -> parse_int (Itoa n) = Ok n.
Proof.
  unfold in_int64, int64_min, int64_max. intros Hn. destruct n as [|p|p]; [done| |].
  - rewrite Itoa_pos by lia. destruct (pretty_N_nonempty (Z.to_N (Z.pos p)) "") as (Hne & c & rest & E & Hc); [lia|].
    unfold parse_int. rewrite bool_decide_eq_false_2 by done. rewrite E, cut_sign_digit by done. rewrite <- E.
    rewrite parse_uint_pretty by (unfold uint64_max; lia). cbn [rbind negb andb].
    by rewrite (proj2 (Z.ltb_ge _ _)) by (unfold int64_max; lia).
  - change (Itoa (Z.neg p)) with (String "-" (Itoa (Z.pos p))). rewrite Itoa_pos by lia.
    unfold parse_int. rewrite bool_decide_eq_false_2 by done. cbn [cut_sign]. change (Ascii.eqb "-" "+") with false. change (Ascii.eqb "-" "-") with true. cbn iota.
    rewrite parse_uint_pretty by (unfold uint64_max; lia). cbn [rbind negb andb].
    by rewrite (proj2 (Z.ltb_ge _ _)) by (unfold int64_min; lia).
Qed.

Lemma ParseInt_Itoa n : in_int64 n -> ParseInt (Itoa n) = Ok n.
Proof. intros Hn. unfold ParseInt. by rewrite parse_int_Itoa. Qed.

(** ** Scanning what was printed *)

Lemma digit_run_parsed s n m : parse_digits s n = Ok m -> digit_run s = s.
Proof.
  revert n. induction s as [|c s IH]; simpl; intros n H; [done|]. destruct (digit_value c); [|done].
  f_equal. destruct (uint64_max <? _); [done|]. eauto.
Qed.

Lemma digit_run_pretty n : 0 < n <= uint64_max -> digit_run (pretty_N_go (Z.to_N n) "") = pretty_N_go (Z.to_N n) "".
Proof. intros Hn. apply (digit_run_parsed _ 0 n). by rewrite parse_pretty by lia. Qed.

Lemma skip_spaces_none c rest : is_ascii_byte c = true -> IsSpace (code c) = false -> skip_spaces (String c rest) = String c rest.
Proof.
  intros Ha Hs. unfold skip_spaces. rewrite <- (chunks_concat (String c rest)) at 2.
  cbn [chunks]. rewrite Ha. cbn [drop_while fst]. by rewrite Hs.
Qed.

Lemma digit_not_space c : digit_value c <> None ->
  is_ascii_byte c = true /\ IsSpace (code c) = false /\ Ascii.eqb c "+" = false /\ Ascii.eqb c "-" = false.
Proof.
  intros Hc. destruct (digit_value c) eqn:E; [|done].
  refine (_ (eq_refl : forallb (fun c => match digit_value c with Some _ =>
    is_ascii_byte c && negb (IsSpace (code c)) && negb (Ascii.eqb c "+") && negb (Ascii.eqb c "-") | None => true end)
    (map ascii_of_nat (seq 0 256)) = true)).
  intros H. rewrite forallb_forall in H. specialize (H c). rewrite E in H. rewrite !andb_true_iff, !negb_true_iff in H.
  destruct H as [[[? ?] ?] ?]; [|done]. apply in_map_iff. exists (nat_of_ascii c). rewrite ascii_nat_embedding.
  split; [done|]. apply in_seq. pose proof (nat_ascii_bounded c). lia.
Qed.

Lemma Sscanf_Itoa n : in_int64 n -> Sscanf_d (Itoa n) = Ok n.
Proof.
  intros Hn. pose proof (ParseInt_Itoa n Hn) as Hp. unfold in_int64, int64_min, int64_max in Hn. destruct n as [|p|p]; [done| |].
  - rewrite Itoa_pos in * by lia. destruct (pretty_N_nonempty (Z.to_N (Z.pos p)) "") as (Hne & c & rest & E & Hc); [lia|].
    pose proof (digit_run_pretty (Z.pos p)) as Hr. rewrite E in *. destruct (digit_not_space c Hc) as (H1 & H2 & H3 & H4).
    unfold Sscanf_d. rewrite skip_spaces_none by done. rewrite H3, H4. cbn [orb]. rewrite (bool_decide_eq_true_2 ("" = "")) by done.
    rewrite Hr by (unfold uint64_max; lia). rewrite bool_decide_eq_false_2 by done. exact Hp.
  - change (Itoa (Z.neg p)) with (String "-" (Itoa (Z.pos p))) in *. rewrite Itoa_pos in * by lia.
    unfold Sscanf_d. rewrite skip_spaces_none by done. change (Ascii.eqb "-" "+" || Ascii.eqb "-" "-") with true. cbn iota.
    rewrite (bool_decide_eq_false_2 (byte1 "-" = "")) by done. rewrite digit_run_pretty by (unfold uint64_max; lia).
    destruct (pretty_N_nonempty (Z.to_N (Z.pos p)) "") as [Hne _]; [lia|]. rewrite bool_decide_eq_false_2 by done. exact Hp.
Qed.

(** What follows the digits is ignored. *)
Example Sscanf_trailing : Sscanf_d " 42abc" = Ok 42 /\ Sscanf_d "-" = Fail ErrEOF /\ Sscanf_d "x" = Fail (New "expected integer").
Proof. split_and!; vm_compute; reflexivity. Qed.

(** A parsed number is one of 64 bits. *)
Lemma parse_digits_range s n m : 0 <= n -> parse_digits s n = Ok m -> 0 <= m.
Proof.
  revert n. induction s as [|c s IH]; simpl; intros n Hn H; [by simplify_eq|].
  unfold digit_value in H. destruct (_ && _) eqn:Ed; [|done]. to_prop. destruct (uint64_max <? _); [done|].
  apply IH in H; lia.
Qed.

Lemma parse_int_range s n : parse_int s = Ok n -> in_int64 n.
Proof.
  unfold parse_int. case_bool_decide; [done|]. destruct (cut_sign s) as [neg digits]. rewrite rbind_ok.
  intros (un & Hu & Hn). unfold parse_uint in Hu. case_bool_decide; [done|]. apply parse_digits_range in Hu; [|lia].
  unfold in_int64, int64_max, int64_min in *. destruct neg; simpl in Hn; destruct (_ <? _) eqn:E; simplify_eq; to_prop; lia.
Qed.

(** ** Durations terminate *)

Lemma leadingInt_length s x v rest : leadingInt s x = Some (v, rest) -> (String.length rest <= String.length s)%nat.
Proof.
  revert x. induction s as [|c s IH]; simpl; intros x H; [by simplify_eq|].
  destruct (digit_value c); [|by simplify_eq]. destruct (_ <? _); [done|]. destruct (_ <? _); [done|].
  apply IH in H. lia.
Qed.

Lemma leadingFraction_length s x scale o :
  (String.length (leadingFraction s x scale o).2 <= String.length s)%nat.
Proof.
  revert x scale o. induction s as [|c s IH]; simpl; intros x scale o; [done|].
  destruct (digit_value c) as [d|]; [|done].
  destruct o; [rewrite IH; lia|]. destruct (_ <? _); [rewrite IH; lia|]. destruct (_ <? _); rewrite IH; lia.
Qed.

Lemma cut_unit_length s : (String.length (cut_unit s).1 + String.length (cut_unit s).2 = String.length s)%nat.
Proof.
  induction s as [|c s IH]; [done|]. cbn [cut_unit]. destruct (_ || _); [done|].
  destruct (cut_unit s) as [u r]. simpl in *. lia.
Qed.

Lemma duration_term_consumes `{FloatFraction} s v rest :
  duration_term s = Ok (v, rest) -> (String.length rest < String.length s)%nat.
Proof.
  unfold duration_term. destruct s as [|c s']; [done|]. set (s := String c s'). destruct (negb _); [done|].
  destruct (leadingInt s 0) as [[n s1]|] eqn:El; [|done]. apply leadingInt_length in El.
  set (t := match s1 with String _ _ => _ | EmptyString => _ end).
  assert (String.length t.1.2 <= String.length s1)%nat as Ht.
  { subst t. destruct s1 as [|c1 s1']; [done|]. destruct (Ascii.eqb c1 "."); [|done].
    pose proof (leadingFraction_length s1' 0 1 false). destruct (leadingFraction s1' 0 1 false) as [[f sc] s2].
    simpl in *. lia. }
  destruct t as [[[f scale] s2] post]. simpl in Ht. destruct (negb _ && negb post); [done|].
  pose proof (cut_unit_length s2). destruct (cut_unit s2) as [u r]. simpl in *. case_bool_decide as Hu; [done|].
  destruct (unitMap u); [|done]. destruct (_ <? _); [done|]. destruct (_ && _); [done|]. intros [= _ <-].
  destruct u; [done|]. simpl in *. lia.
Qed.

(** Fuel for as many turns as the input has bytes never runs out. *)
Lemma duration_terms_fuel `{FloatFraction} fuel s d :
  (String.length s <= fuel)%nat -> duration_terms fuel s d = duration_terms (S fuel) s d.
Proof.
  revert s d. induction fuel as [|fuel IH]; intros s d Hl.
  { destruct s; [done|simpl in Hl; lia]. }
  cbn [duration_terms]. case_bool_decide; [done|]. destruct (duration_term s) as [[v rest]|] eqn:Et; [|done].
  apply duration_term_consumes in Et. cbn [rbind fst snd]. destruct (_ <? _); [done|]. apply IH. lia.
Qed.

(** ** Examples *)

#[export] Instance exact_fraction : FloatFraction := { fraction_of f unit scale := f * unit / scale }.

Example durations :
  List.map ParseDuration ["5s"; "1h30m"; "1.5s"; "-2ms"; "0"; "100"; ""; "3x"; ".s"; "9223372036854775808ns"] =
  [Ok (5 * Second); Ok (90 * Minute); Ok (1500 * Millisecond); Ok (-2 * Millisecond); Ok 0;
   Fail (New "time: missing unit in duration"); Fail ErrDuration; Fail (New "time: unknown unit in duration");
   Fail ErrDuration; Fail ErrDuration].
Proof. vm_compute. reflexivity. Qed.

(** A duration is one of 64 bits. *)
Lemma duration_terms_range `{FloatFraction} fuel s d d' :
  0 <= d <= 2 ^ 63 -> duration_terms fuel s d = Ok d' -> 0 <= d' <= 2 ^ 63.
Proof.
  revert s d. induction fuel as [|fuel IH]; intros s d Hd; cbn [duration_terms]; [by intros [= <-]|].
  case_bool_decide; [by intros [= <-]|]. rewrite rbind_ok. intros ([v rest] & _ & Hr).
  cbn [fst snd] in Hr. destruct (Z.ltb_spec (2 ^ 63) ((d + v) mod 2 ^ 64)); [done|]. eapply IH; [|exact Hr].
  pose proof (Z.mod_pos_bound (d + v) (2 ^ 64)). lia.
Qed.

Lemma ParseDuration_range `{FloatFraction} s d : ParseDuration s = Ok d -> in_int64 d.
Proof.
  unfold ParseDuration. destruct (cut_sign s) as [neg r]. case_bool_decide; [by intros [= <-]|].
  case_bool_decide; [done|]. rewrite rbind_ok. intros (x & Hx & Hd). apply duration_terms_range in Hx; [|lia].
  destruct neg; [injection Hd as <-; apply wrap64_range|].
  destruct (Z.ltb_spec int64_max x); [done|]. injection Hd as <-. unfold in_int64, int64_max, int64_min in *. lia.
Qed.
