(* ===== verification/GoJson.v ===== *)
(** * encoding/json

    Reading and writing JSON text as Go's encoding/json (version 1) does.  A tree
    keeps strings as the bytes between their quotes and numbers as their
    literals, so that printing a tree is the compact form of the text it was
    read from.  A struct decoder gets the members of an object with the slice of
    text each value occupies, which is what [json.RawMessage] and the
    [UnmarshalJSON] methods receive. *)

From Stdlib Require Import Ascii.
From S2P Require Import Prelude GoError GoString.

Open Scope Z_scope.

Definition cQuote : ascii := "034".
Definition cBackslash : ascii := "092".
Definition qt : string := byte1 cQuote.

(** ** Scanning *)

Definition is_ws (a : ascii) : bool :=
  Ascii.eqb a " " || Ascii.eqb a "009" || Ascii.eqb a "010" || Ascii.eqb a "013".

Fixpoint skip_ws (s : string) : string :=
  match s with
  | String a s1 => if is_ws a then skip_ws s1 else s
  | EmptyString => EmptyString
  end.

Definition is_digit (a : ascii) : bool := (48 <=? code a) && (code a <=? 57).
Definition is_hex (a : ascii) : bool :=
  is_digit a || ((97 <=? code a) && (code a <=? 102)) || ((65 <=? code a) && (code a <=? 70)).

(** The escapes of one letter: quote, backslash, slash, b, f, n, r, t. *)
Definition simple_escape (a : ascii) : bool :=
  bool_decide (code a ∈ [34; 92; 47; 98; 102; 110; 114; 116]).

(** The contents of a string literal, from behind its opening quote. *)
Fixpoint scan_string (s : string) : option (string * string) :=
  match s with
  | EmptyString => None
  | String a s1 =>
    if Ascii.eqb a cQuote then Some ("", s1)
    else if Ascii.eqb a cBackslash then
      match s1 with
      | EmptyString => None
      | String b s2 =>
        if simple_escape b then '(r, t) ← scan_string s2; Some (String a (String b r), t)
        else if Ascii.eqb b "u" then
          match s2 with
          | String h1 (String h2 (String h3 (String h4 s3))) =>
            if is_hex h1 && is_hex h2 && is_hex h3 && is_hex h4
            then '(r, t) ← scan_string s3;
                 Some (String a (String b (String h1 (String h2 (String h3 (String h4 r))))), t)
            else None
          | _ => None
          end
        else None
      end
    else if code a <? 32 then None
    else '(r, t) ← scan_string s1; Some (String a r, t)
  end.

(** The longest run of digits, and the rest. *)
Fixpoint digits (s : string) : string * string :=
  match s with
  | String a s1 => if is_digit a then let (d, r) := digits s1 in (String a d, r) else ("", s)
  | EmptyString => ("", "")
  end.

Definition scan_minus (s : string) : string * string :=
  match s with
  | String a s1 => if Ascii.eqb a "-" then ("-", s1) else ("", s)
  | EmptyString => ("", "")
  end.

Definition scan_int (s : string) : option (string * string) :=
  match s with
  | String a s1 => if Ascii.eqb a "0" then Some ("0", s1) else if is_digit a then Some (digits s) else None
  | EmptyString => None
  end.

Definition scan_frac (s : string) : option (string * string) :=
  match s with
  | String a s1 =>
    if Ascii.eqb a "." then
      let (d, r) := digits s1 in if bool_decide (d = "") then None else Some (String a d, r)
    else Some ("", s)
  | EmptyString => Some ("", "")
  end.

Definition scan_sign (s : string) : string * string :=
  match s with
  | String a s1 => if Ascii.eqb a "+" || Ascii.eqb a "-" then (byte1 a, s1) else ("", s)
  | EmptyString => ("", "")
  end.

Definition scan_exp (s : string) : option (string * string) :=
  match s with
  | String a s1 =>
    if Ascii.eqb a "e" || Ascii.eqb a "E" then
      let (sg, s2) := scan_sign s1 in
      let (d, r) := digits s2 in
      if bool_decide (d = "") then None else Some (String a (sg +:+ d), r)
    else Some ("", s)
  | EmptyString => Some ("", "")
  end.

Definition scan_number (s : string) : option (string * string) :=
  let (m, s1) := scan_minus s in
  '(i, s2) ← scan_int s1;
  '(f, s3) ← scan_frac s2;
  '(e, s4) ← scan_exp s3;
  Some (m +:+ i +:+ f +:+ e, s4).

(** ** Trees *)

Inductive json :=
| JNull
| JBool (b : bool)
| JNum (lit : string)
| JStr (raw : string)
| JArr (l : list json)
| JObj (l : list (string * json)).

Section Loops.
Context (value : string -> option (json * string)).

(** The elements of an array up to its bracket; [s] starts at an element. *)
Fixpoint elements (fuel : nat) (s : string) : option (list json * string) :=
  match fuel with
  | O => None
  | S n =>
    '(v, r) ← value s;
    match skip_ws r with
    | String a r1 =>
      if Ascii.eqb a "," then '(vs, r2) ← elements n (skip_ws r1); Some (v :: vs, r2)
      else if Ascii.eqb a "]" then Some ([v], r1)
      else None
    | EmptyString => None
    end
  end.

(** The members of an object: key, value, and the text of the value. *)
Fixpoint members (fuel : nat) (s : string) : option (list (string * json * string) * string) :=
  match fuel, s with
  | S n, String q s1 =>
    if negb (Ascii.eqb q cQuote) then None
    else
      '(k, r) ← scan_string s1;
      match skip_ws r with
      | String c r1 =>
        if negb (Ascii.eqb c ":") then None
        else
          let s2 := skip_ws r1 in
          '(v, r2) ← value s2;
          let m := (k, v, take_string (String.length s2 - String.length r2) s2) in
          match skip_ws r2 with
          | String a r3 =>
            if Ascii.eqb a "," then '(ms, r4) ← members n (skip_ws r3); Some (m :: ms, r4)
            else if Ascii.eqb a "}" then Some ([m], r3)
            else None
          | EmptyString => None
          end
      | EmptyString => None
      end
  | _, _ => None
  end.

(** Behind an opening bracket, and behind an opening brace. *)
Definition array_body (s : string) : option (list json * string) :=
  match skip_ws s with
  | String a r => if Ascii.eqb a "]" then Some ([], r) else elements (String.length s) (String a r)
  | EmptyString => None
  end.

Definition object_body (s : string) : option (list (string * json * string) * string) :=
  match skip_ws s with
  | String a r => if Ascii.eqb a "}" then Some ([], r) else members (String.length s) (String a r)
  | EmptyString => None
  end.
End Loops.

Definition drop_text (m : string * json * string) : string * json := m.1.

(** A literal name, if the text starts with it. *)
Definition keyword (w : string) (v : json) (s : string) : option (json * string) :=
  if HasPrefix s w then Some (v, drop_string (String.length w) s) else None.

(** A value, from its first byte; [depth] containers may be open at once. *)
Fixpoint value (depth : nat) (s : string) : option (json * string) :=
  match s with
  | EmptyString => None
  | String a s1 =>
    if Ascii.eqb a cQuote then '(r, t) ← scan_string s1; Some (JStr r, t)
    else if Ascii.eqb a "[" then
      match depth with
      | O => None
      | S d => '(l, t) ← array_body (value d) s1; Some (JArr l, t)
      end
    else if Ascii.eqb a "{" then
      match depth with
      | O => None
      | S d => '(l, t) ← object_body (value d) s1; Some (JObj (map drop_text l), t)
      end
    else if Ascii.eqb a "n" then keyword "null" JNull s
    else if Ascii.eqb a "t" then keyword "true" (JBool true) s
    else if Ascii.eqb a "f" then keyword "false" (JBool false) s
    else '(n, t) ← scan_number s; Some (JNum n, t)
  end.

(** The scanner's limit on open containers. *)
Definition maxNestingDepth : nat := Z.to_nat 10000.
#[global] Opaque maxNestingDepth.

Definition parse_at (depth : nat) (s : string) : option json :=
  '(v, r) ← value depth (skip_ws s);
  if bool_decide (skip_ws r = "") then Some v else None.
Definition parse (s : string) : option json := parse_at maxNestingDepth s.

(** [json.Valid(data)] *)
Definition Valid (s : string) : bool := bool_decide (is_Some (parse s)).

(** The members of a document that is an object. *)
Definition top_members (s : string) : option (list (string * json * string)) :=
  match skip_ws s with
  | String a r => if Ascii.eqb a "{" then fst <$> object_body (value (pred maxNestingDepth)) r else None
  | EmptyString => None
  end.

(** ** Printing *)

Fixpoint commas (l : list string) : string :=
  match l with
  | [] => ""
  | [s] => s
  | s :: l => s +:+ "," +:+ commas l
  end.

Fixpoint print (v : json) : string :=
  match v with
  | JNull => "null"
  | JBool true => "true"
  | JBool false => "false"
  | JNum n => n
  | JStr r => qt +:+ r +:+ qt
  | JArr l => "[" +:+ commas (map print l) +:+ "]"
  | JObj l => "{" +:+ commas (map (fun kv => qt +:+ kv.1 +:+ qt +:+ ":" +:+ print kv.2) l) +:+ "}"
  end.

(** ** Scanners read their own output *)

(** Strings have the proper suffixes of a string as smaller arguments. *)
Lemma string_len_ind (P : string -> Prop) :
  (forall s, (forall s', (String.length s' < String.length s)%nat -> P s') -> P s) -> forall s, P s.
Proof.
  intros Hstep s. remember (String.length s) as n eqn:Hn. revert s Hn.
  induction (Nat.lt_wf_0 n) as [n _ IH]. intros s ->. apply Hstep. intros s' Hs'. by apply (IH (String.length s')).
Qed.

Ltac escape_byte :=
  change (Ascii.eqb cBackslash cQuote) with false; change (Ascii.eqb cBackslash cBackslash) with true;
  change (Ascii.eqb "u" "u") with true; cbv iota.

(** What precedes the closing quote is read back, whatever follows it. *)
Lemma scan_string_spec s r t : scan_string s = Some (r, t) ->
  s = r +:+ qt +:+ t /\ forall u, scan_string (r +:+ qt +:+ u) = Some (r, u).
Proof.
  revert r t. induction s as [s IH] using string_len_ind. intros r t.
  destruct s as [|a s1]; [done|]. cbn [scan_string]. destruct (Ascii.eqb_spec a cQuote) as [->|Hq].
  { intros [= <- <-]. done. }
  destruct (Ascii.eqb_spec a cBackslash) as [->|Hb].
  - destruct s1 as [|b s2]; [done|]. destruct (simple_escape b) eqn:Eb.
    { intros Hs. apply bind_Some in Hs as ([r' t'] & Hs & [= <- <-]).
      destruct (IH s2) with (r := r') (t := t') as [-> Hu]; [simpl; lia|done|]. split; [done|].
      intros u. cbn [String.append scan_string]. escape_byte. by rewrite Eb, Hu. }
    destruct (Ascii.eqb_spec b "u") as [->|]; [|done].
    destruct s2 as [|h1 [|h2 [|h3 [|h4 s3]]]]; try done.
    destruct (is_hex h1 && is_hex h2 && is_hex h3 && is_hex h4) eqn:Eh; [|done].
    intros Hs. apply bind_Some in Hs as ([r' t'] & Hs & [= <- <-]).
    destruct (IH s3) with (r := r') (t := t') as [-> Hu]; [simpl; lia|done|]. split; [done|].
    intros u. cbn [String.append scan_string]. escape_byte. by rewrite Eb, Eh, Hu.
  - destruct (code a <? 32) eqn:Ec; [done|].
    intros Hs. apply bind_Some in Hs as ([r' t'] & Hs & [= <- <-]).
    destruct (IH s1) with (r := r') (t := t') as [-> Hu]; [simpl; lia|done|]. split; [done|].
    intros u. cbn [String.append scan_string]. rewrite (proj2 (Ascii.eqb_neq _ _) Hq), (proj2 (Ascii.eqb_neq _ _) Hb), Ec.
    by rewrite Hu.
Qed.

(** Contents that may stand between quotes. *)
Definition raw_ok (r : string) : bool := bool_decide (scan_string (r +:+ qt) = Some (r, "")).

Lemma raw_ok_scan r u : raw_ok r = true -> scan_string (r +:+ qt +:+ u) = Some (r, u).
Proof. intros Hr. apply bool_decide_eq_true in Hr. by apply scan_string_spec in Hr as [_ Hr]. Qed.

Lemma scan_raw_ok s r t : scan_string s = Some (r, t) -> raw_ok r = true.
Proof.
  intros Hs. apply scan_string_spec in Hs as [_ Hs]. apply bool_decide_eq_true.
  specialize (Hs ""). by rewrite app_nil_r_str in Hs.
Qed.

(** *** Numbers *)

(** The rest of a text cannot extend a number: it ends, or goes on with neither a
    digit nor a point nor an exponent. *)
Definition stops (t : string) : bool :=
  match t with
  | EmptyString => true
  | String a _ => negb (is_digit a || Ascii.eqb a "." || Ascii.eqb a "e" || Ascii.eqb a "E")
  end.

Lemma stops_cons a t : stops (String a t) = true ->
  is_digit a = false /\ Ascii.eqb a "." = false /\ (Ascii.eqb a "e" || Ascii.eqb a "E") = false.
Proof. simpl. intros Hs. by destruct (is_digit a), (Ascii.eqb a "."), (Ascii.eqb a "e"), (Ascii.eqb a "E"). Qed.

Lemma digits_app s t : stops t = true -> digits (s +:+ t) = ((digits s).1, (digits s).2 +:+ t).
Proof.
  intros Ht. induction s as [|a s IH]; cbn [String.append digits].
  - destruct t as [|b t]; [done|]. apply stops_cons in Ht as (Hd & _). cbn [digits]. by rewrite Hd.
  - destruct (is_digit a); [|done]. rewrite IH. by destruct (digits s).
Qed.

Lemma digits_split s d r : digits s = (d, r) -> s = d +:+ r /\ digits d = (d, "").
Proof.
  revert d r. induction s as [|a s IH]; intros d r; cbn [digits]; [by intros [= <- <-]|].
  destruct (is_digit a) eqn:Ea; [|by intros [= <- <-]]. destruct (digits s) as [d' r'] eqn:E. intros [= <- <-].
  destruct (IH d' r' eq_refl) as [-> Hd]. split; [done|]. cbn [digits]. by rewrite Ea, Hd.
Qed.

(** A scanner that commutes with appending a text that cannot extend a number. *)
Definition extends (p : string -> option (string * string)) : Prop :=
  forall s x r t, stops t = true -> p s = Some (x, r) -> p (s +:+ t) = Some (x, r +:+ t).

Lemma scan_int_extends : extends scan_int.
Proof.
  intros s x r t Ht. destruct s as [|a s]; [done|]. unfold scan_int. cbn [String.append].
  destruct (Ascii.eqb a "0"); [by intros [= <- <-]|]. destruct (is_digit a) eqn:Ea; [|done].
  intros Hd%(inj Some). change (String a (s +:+ t)) with (String a s +:+ t). rewrite digits_app by done. by rewrite Hd.
Qed.

Lemma scan_frac_extends : extends scan_frac.
Proof.
  intros s x r t Ht. destruct s as [|a s]; unfold scan_frac; cbn [String.append].
  - intros [= <- <-]. destruct t as [|b t]; [done|]. apply stops_cons in Ht as (_ & Hp & _). by rewrite Hp.
  - destruct (Ascii.eqb a "."); [|by intros [= <- <-]]. rewrite digits_app by done.
    destruct (digits s) as [d r']. cbn. case_bool_decide; [done|]. by intros [= <- <-].
Qed.

Lemma scan_exp_extends : extends scan_exp.
Proof.
  intros s x r t Ht. destruct s as [|a s]; unfold scan_exp; cbn [String.append].
  - intros [= <- <-]. destruct t as [|b t]; [done|]. apply stops_cons in Ht as (_ & _ & Hp). by rewrite Hp.
  - destruct (Ascii.eqb a "e" || Ascii.eqb a "E"); [|by intros [= <- <-]].
    destruct s as [|b s]; [done|]. unfold scan_sign. cbn [String.append].
    destruct (Ascii.eqb b "+" || Ascii.eqb b "-").
    + rewrite digits_app by done. destruct (digits s) as [d r']. cbn. case_bool_decide; [done|]. by intros [= <- <-].
    + change (String b (s +:+ t)) with (String b s +:+ t). rewrite digits_app by done.
      destruct (digits (String b s)) as [d r']. cbn. case_bool_decide; [done|]. by intros [= <- <-].
Qed.

Lemma scan_number_extends : extends scan_number.
Proof.
  intros s x r t Ht. unfold scan_number.
  assert (forall m s1, scan_minus s = (m, s1) -> s1 <> "" -> scan_minus (s +:+ t) = (m, s1 +:+ t)) as Hm.
  { intros m s1. destruct s as [|a s]; [by intros [= <- <-]|]. unfold scan_minus. cbn [String.append].
    destruct (Ascii.eqb a "-"); by intros [= <- <-]. }
  destruct (scan_minus s) as [m s1] eqn:Em. intros H1.
  apply bind_Some in H1 as ([i s2] & H1 & H2). apply bind_Some in H2 as ([f s3] & H2 & H3).
  apply bind_Some in H3 as ([e s4] & H3 & [= <- <-]).
  rewrite (Hm m s1) by (done || by intros ->). cbn. rewrite (scan_int_extends _ _ _ _ Ht H1). cbn.
  rewrite (scan_frac_extends _ _ _ _ Ht H2). cbn. by rewrite (scan_exp_extends _ _ _ _ Ht H3).
Qed.

(** The literals of numbers. *)
Definition num_ok (n : string) : bool := bool_decide (scan_number n = Some (n, "")).

Lemma num_ok_scan n t : num_ok n = true -> stops t = true -> scan_number (n +:+ t) = Some (n, t).
Proof. intros Hn Ht. apply bool_decide_eq_true in Hn. exact (scan_number_extends _ _ _ _ Ht Hn). Qed.

(** The head of a text is not a byte of the given kind. *)
Definition head_not (p : ascii -> bool) (t : string) : Prop :=
  match t with EmptyString => True | String a _ => p a = false end.

Lemma digits_self d u : digits d = (d, "") -> head_not is_digit u -> digits (d +:+ u) = (d, u).
Proof.
  intros Hd Hu. induction d as [|a d IH]; cbn [String.append].
  - destruct u as [|b u]; [done|]. cbn [digits]. by rewrite Hu.
  - cbn [digits] in *. destruct (is_digit a); [|done]. destruct (digits d) as [d' r'] eqn:E.
    injection Hd as -> ->. by rewrite IH.
Qed.

Definition is_point (a : ascii) : bool := Ascii.eqb a ".".
Definition is_exp (a : ascii) : bool := Ascii.eqb a "e" || Ascii.eqb a "E".

Lemma exp_not_digit a : is_exp a = true -> is_digit a = false /\ is_point a = false.
Proof. unfold is_exp. destruct (Ascii.eqb_spec a "e") as [->|]; [done|]. destruct (Ascii.eqb_spec a "E") as [->|]; done. Qed.

Lemma scan_exp_split s e r : scan_exp s = Some (e, r) ->
  s = e +:+ r /\ scan_exp e = Some (e, "") /\ head_not is_digit e /\ head_not is_point e.
Proof.
  unfold scan_exp. destruct s as [|a s]; [by intros [= <- <-]|]. change (Ascii.eqb a "e" || Ascii.eqb a "E") with (is_exp a).
  destruct (is_exp a) eqn:Ea; [|by intros [= <- <-]]. apply exp_not_digit in Ea as Hn.
  destruct (scan_sign s) as [sg s2] eqn:Es. destruct (digits s2) as [d r'] eqn:Ed. case_bool_decide as Hd; [done|].
  intros [= <- <-]. apply digits_split in Ed as [-> Hdd].
  assert (s = sg +:+ d +:+ r' /\ scan_sign (sg +:+ d) = (sg, d)) as [-> Hs].
  { unfold scan_sign in Es. destruct s as [|b s]; [by destruct d; simplify_eq|].
    destruct (Ascii.eqb b "+" || Ascii.eqb b "-") eqn:Eb.
    - injection Es as <- ->. split; [done|]. unfold scan_sign. cbn. by rewrite Eb.
    - injection Es as <- Heq. split; [done|]. destruct d as [|c d]; [done|]. injection Heq as -> _.
      unfold scan_sign. cbn. by rewrite Eb. }
  split; [cbn [String.append]; by rewrite app_assoc_str|]. change (Ascii.eqb a "e" || Ascii.eqb a "E") with (is_exp a).
  rewrite Ea, Hs, Hdd, bool_decide_eq_false_2 by done. tauto.
Qed.

Lemma scan_frac_split s f r : scan_frac s = Some (f, r) ->
  s = f +:+ r /\ forall u, head_not is_digit u -> head_not is_point u -> scan_frac (f +:+ u) = Some (f, u) /\ head_not is_digit (f +:+ u).
Proof.
  unfold scan_frac. destruct s as [|a s].
  - intros [= <- <-]. split; [done|]. intros [|b u] Hu Hp; [done|]. cbn. by rewrite Hp.
  - destruct (Ascii.eqb_spec a ".") as [->|].
    + destruct (digits s) as [d r'] eqn:Ed. case_bool_decide; [done|]. intros [= <- <-].
      apply digits_split in Ed as [-> Hd]. split; [done|]. intros u Hu _. cbn.
      rewrite (digits_self _ _ Hd Hu). by rewrite bool_decide_eq_false_2.
    + intros [= <- <-]. split; [done|]. intros [|b u] Hu Hp; [done|]. cbn. by rewrite Hp.
Qed.

Lemma scan_int_split s i r : scan_int s = Some (i, r) ->
  s = i +:+ r /\ (forall u, head_not is_digit u -> scan_int (i +:+ u) = Some (i, u)) /\
  exists a i', i = String a i' /\ is_digit a = true.
Proof.
  unfold scan_int. destruct s as [|a s]; [done|]. destruct (Ascii.eqb_spec a "0") as [->|Ha].
  - intros [= <- <-]. split; [done|]. split; [by intros|]. by exists "0"%char, "".
  - destruct (is_digit a) eqn:Ea; [|done]. intros Hdig%(inj Some). pose proof (digits_split _ _ _ Hdig) as [Heq Hd].
    assert (exists i', i = String a i') as [i' ->].
    { destruct i as [|b i]; cbn in Heq; [|injection Heq as -> _; by eexists].
      exfalso. subst r. cbn [digits] in Hdig. rewrite Ea in Hdig. by destruct (digits s). }
    split; [done|]. split; [|eauto]. intros u Hu. cbn [String.append].
    rewrite (proj2 (Ascii.eqb_neq _ _) Ha), Ea. f_equal. exact (digits_self _ _ Hd Hu).
Qed.

Lemma scan_number_split s n t : scan_number s = Some (n, t) ->
  s = n +:+ t /\ num_ok n = true.
Proof.
  unfold scan_number. destruct (scan_minus s) as [m s1] eqn:Em. intros H1.
  apply bind_Some in H1 as ([i s2] & H1 & H2). apply bind_Some in H2 as ([f s3] & H2 & H3).
  apply bind_Some in H3 as ([e s4] & H3 & [= <- <-]).
  apply scan_exp_split in H3 as (-> & He & Hde & Hpe). apply scan_frac_split in H2 as [-> Hf].
  apply scan_int_split in H1 as (-> & Hi & a & i' & -> & Ha).
  assert (s = m +:+ String a i' +:+ f +:+ e +:+ s4 /\
    forall u, scan_minus (m +:+ String a i' +:+ u) = (m, String a i' +:+ u)) as [-> Hm].
  { assert (Ascii.eqb a "-" = false) as Hna by (apply Ascii.eqb_neq; intros ->; done).
    unfold scan_minus in Em. destruct s as [|b s]; [by injection Em as <- ?|].
    destruct (Ascii.eqb_spec b "-") as [->|Hb]; injection Em; intros; subst; split; try done.
    intros u. cbn. by rewrite Hna. }
  split; [by rewrite !app_assoc_str|]. apply bool_decide_eq_true. unfold scan_number. rewrite Hm.
  destruct (Hf e Hde Hpe) as [Hfe Hdf]. rewrite (Hi (f +:+ e) Hdf). cbn [mbind option_bind]. rewrite Hfe.
  cbn [mbind option_bind]. by rewrite He.
Qed.

(** ** Trees read back *)

Section JsonInd.
Context (P : json -> Prop) (Hnull : P JNull) (Hbool : forall b, P (JBool b)) (Hnum : forall n, P (JNum n))
  (Hstr : forall r, P (JStr r)) (Harr : forall l, Forall P l -> P (JArr l))
  (Hobj : forall l, Forall (fun kv => P kv.2) l -> P (JObj l)).

Fixpoint json_tree_ind (v : json) : P v :=
  match v with
  | JNull => Hnull
  | JBool b => Hbool b
  | JNum n => Hnum n
  | JStr r => Hstr r
  | JArr l => Harr l ((fix go l := match l return Forall P l with
      | [] => Forall_nil_2 _ | v :: l => Forall_cons_2 _ _ _ (json_tree_ind v) (go l) end) l)
  | JObj l => Hobj l ((fix go l := match l return Forall (fun kv => P kv.2) l with
      | [] => Forall_nil_2 _ | kv :: l => Forall_cons_2 _ _ _ (json_tree_ind kv.2) (go l) end) l)
  end.
End JsonInd.

(** Numbers are literals, strings and keys may stand between quotes. *)
Fixpoint wf (v : json) : bool :=
  match v with
  | JNull | JBool _ => true
  | JNum n => num_ok n
  | JStr r => raw_ok r
  | JArr l => forallb wf l
  | JObj l => forallb (fun kv => raw_ok kv.1 && wf kv.2) l
  end.

(** Containers open at once. *)
Fixpoint jdepth (v : json) : nat :=
  match v with
  | JArr l => S (foldr (fun v n => Nat.max (jdepth v) n) O l)
  | JObj l => S (foldr (fun kv n => Nat.max (jdepth kv.2) n) O l)
  | _ => O
  end.

Lemma max_list_le {A} (f : A -> nat) l n :
  (foldr (fun a m => Nat.max (f a) m) O l <= n)%nat <-> Forall (fun a => f a <= n)%nat l.
Proof.
  induction l as [|a l IH]; simpl; [split; [constructor|lia]|]. rewrite Forall_cons, <- IH. lia.
Qed.

(** The first byte of a value is neither white space nor a closing bracket. *)
Definition starts_value (s : string) : bool :=
  match s with
  | String a _ => negb (is_ws a) && negb (Ascii.eqb a "]") && negb (Ascii.eqb a "}")
  | EmptyString => false
  end.

Lemma num_ok_head n : num_ok n = true -> exists a r, n = String a r /\ (a = "-"%char \/ is_digit a = true).
Proof.
  intros Hn. apply bool_decide_eq_true in Hn. destruct n as [|a r]; [done|]. exists a, r. split; [done|].
  unfold scan_number, scan_minus in Hn. destruct (Ascii.eqb_spec a "-") as [|Ha]; [by left|]. right.
  apply bind_Some in Hn as (x & Hn & _). unfold scan_int in Hn.
  destruct (Ascii.eqb_spec a "0") as [->|]; [done|]. by destruct (is_digit a).
Qed.

(** The head of a number is dispatched to the number scanner. *)
Lemma num_head_cases a : a = "-"%char \/ is_digit a = true ->
  is_ws a = false /\ Ascii.eqb a "]" = false /\ Ascii.eqb a "}" = false /\ Ascii.eqb a cQuote = false /\
  Ascii.eqb a "[" = false /\ Ascii.eqb a "{" = false /\ Ascii.eqb a "n" = false /\ Ascii.eqb a "t" = false /\
  Ascii.eqb a "f" = false.
Proof. intros [->|Ha]; [done|]. revert Ha. destruct a as [[] [] [] [] [] [] [] []]; vm_compute; intros; try done; repeat split. Qed.

Lemma print_starts v t : wf v = true -> starts_value (print v +:+ t) = true.
Proof.
  destruct v as [|[]|n|r|l|l]; try done. cbn [wf print]. intros Hn.
  destruct (num_ok_head n Hn) as (a & r & -> & Ha). apply num_head_cases in Ha as (H1 & H2 & H3 & _).
  cbn [starts_value String.append]. by rewrite H1, H2, H3.
Qed.

Lemma starts_value_ws s : starts_value s = true -> skip_ws s = s.
Proof. destruct s as [|a s]; [done|]. cbn [starts_value skip_ws]. by destruct (is_ws a). Qed.

Lemma length_commas l : (length l <= S (String.length (commas l)))%nat.
Proof.
  induction l as [|s [|s' l] IH]; [simpl; lia|simpl; lia|].
  change (commas (s :: s' :: l)) with (s +:+ "," +:+ commas (s' :: l)). rewrite !length_app_str.
  change (String.length ",") with 1%nat. simpl length in *. lia.
Qed.

(** The value scanner reads back what is printed of [v], whatever follows. *)
Definition reads (p : string -> option (json * string)) (v : json) : Prop :=
  starts_value (print v) = true /\ forall t, stops t = true -> p (print v +:+ t) = Some (v, t).

Lemma starts_value_app s t : starts_value s = true -> starts_value (s +:+ t) = true.
Proof. by destruct s. Qed.

Lemma elements_print p l fuel t : l <> [] -> Forall (reads p) l -> (length l <= fuel)%nat ->
  elements p fuel (commas (map print l) +:+ "]" +:+ t) = Some (l, t).
Proof.
  revert fuel. induction l as [|v l IH]; intros fuel Hne Hl Hf; [done|].
  apply Forall_cons in Hl as [[_ Hv] Hl]. destruct fuel as [|n]; [simpl in Hf; lia|].
  destruct l as [|v' l'].
  - cbn [map commas elements]. by rewrite Hv.
  - change (commas (map print (v :: v' :: l'))) with (print v +:+ "," +:+ commas (map print (v' :: l'))).
    cbn [elements]. rewrite !app_assoc_str, Hv by done. cbn [mbind option_bind].
    change (skip_ws ("," +:+ ?x)) with ("," +:+ x). cbn [String.append]. change (Ascii.eqb "," ",") with true. cbv iota.
    rewrite starts_value_ws.
    + rewrite IH by (done || simpl in *; lia). done.
    + apply Forall_cons in Hl as [[Hs _] _]. cbn [map]. destruct (map print l') as [|x y]; cbn [commas].
      * by apply starts_value_app.
      * rewrite app_assoc_str. by apply starts_value_app.
Qed.

Definition print_member (kv : string * json) : string := qt +:+ kv.1 +:+ qt +:+ ":" +:+ print kv.2.
Definition with_text (kv : string * json) : string * json * string := (kv, print kv.2).

Lemma members_print p l fuel t :
  l <> [] -> Forall (fun kv => raw_ok kv.1 = true /\ reads p kv.2) l -> (length l <= fuel)%nat ->
  members p fuel (commas (map print_member l) +:+ "}" +:+ t) = Some (map with_text l, t).
Proof.
  revert fuel. induction l as [|[k v] l IH]; intros fuel Hne Hl Hf; [done|].
  apply Forall_cons in Hl as [[Hk [Hs Hv]] Hl]. cbn [fst snd] in *. destruct fuel as [|n]; [simpl in Hf; lia|].
  assert (forall r, stops r = true ->
    members p (S n) (print_member (k, v) +:+ r) =
    match skip_ws r with
    | String a r3 =>
      if Ascii.eqb a "," then '(ms, r4) ← members p n (skip_ws r3); Some (with_text (k, v) :: ms, r4)
      else if Ascii.eqb a "}" then Some ([with_text (k, v)], r3)
      else None
    | EmptyString => None
    end) as Hone.
  { intros r Hr. unfold print_member. cbn [fst snd]. rewrite !app_assoc_str. unfold qt at 1, byte1 at 1.
    cbn [members String.append]. change (negb (Ascii.eqb cQuote cQuote)) with false. cbv iota.
    rewrite raw_ok_scan by done. cbn [mbind option_bind]. change (skip_ws (String ":" ?x)) with (String ":" x).
    change (negb (Ascii.eqb ":" ":")) with false. cbv iota zeta.
    rewrite starts_value_ws by by apply starts_value_app. rewrite Hv by done. cbn [mbind option_bind].
    rewrite length_app_str, Nat.add_sub, take_string_app. done. }
  destruct l as [|kv' l'].
  - cbn [map commas]. by rewrite Hone.
  - change (commas (map print_member ((k, v) :: kv' :: l')))
      with (print_member (k, v) +:+ "," +:+ commas (map print_member (kv' :: l'))).
    rewrite !app_assoc_str, Hone by done.
    change (skip_ws ("," +:+ ?x)) with ("," +:+ x). cbn [String.append]. change (Ascii.eqb "," ",") with true. cbv iota.
    assert (skip_ws (commas (map print_member (kv' :: l')) +:+ String "}" t) =
            commas (map print_member (kv' :: l')) +:+ String "}" t) as Hws.
    { cbn [map]. by destruct (map print_member l'). }
    specialize (IH n). cbn [String.append] in IH. rewrite Hws, IH by (done || simpl in *; lia). done.
Qed.

Lemma array_body_print p l t : Forall (reads p) l ->
  array_body p (commas (map print l) +:+ "]" +:+ t) = Some (l, t).
Proof.
  intros Hl. destruct l as [|v l]; [done|].
  assert (starts_value (commas (map print (v :: l)) +:+ "]" +:+ t) = true) as Hs.
  { apply Forall_cons in Hl as [[Hs _] _]. cbn [map]. destruct (map print l); cbn [commas];
      rewrite ?app_assoc_str; by apply starts_value_app. }
  unfold array_body. rewrite starts_value_ws by done.
  pose proof (elements_print p (v :: l) (String.length (commas (map print (v :: l)) +:+ "]" +:+ t)) t) as He.
  destruct (commas (map print (v :: l)) +:+ "]" +:+ t) as [|a r] eqn:E; [done|].
  cbn [starts_value] in Hs. destruct (Ascii.eqb a "]"); [by destruct (is_ws a)|]. apply He; [done..|].
  rewrite <- E, !length_app_str. pose proof (length_commas (map print (v :: l))) as Hc. rewrite length_map in Hc.
  change (String.length "]") with 1%nat. lia.
Qed.

Lemma object_body_print p l t : Forall (fun kv => raw_ok kv.1 = true /\ reads p kv.2) l ->
  object_body p (commas (map print_member l) +:+ "}" +:+ t) = Some (map with_text l, t).
Proof.
  intros Hl. destruct l as [|kv l]; [done|].
  assert (exists r, commas (map print_member (kv :: l)) +:+ "}" +:+ t = String cQuote r) as [r Er].
  { cbn [map]. destruct (map print_member l); cbn [commas]; by eexists. }
  unfold object_body. pose proof (members_print p (kv :: l) (String.length (String cQuote r)) t) as He.
  pose proof (length_commas (map print_member (kv :: l))) as Hc. rewrite length_map in Hc.
  rewrite Er in *. change (skip_ws (String cQuote r)) with (String cQuote r). change (Ascii.eqb cQuote "}") with false.
  cbv iota. apply He; [done..|]. rewrite <- Er, !length_app_str. change (String.length "}") with 1%nat. lia.
Qed.

(** A printed tree is read back, up to the depth the scanner allows. *)
Lemma value_print v d t : wf v = true -> (jdepth v <= d)%nat -> stops t = true ->
  value d (print v +:+ t) = Some (v, t).
Proof.
  revert d t. induction v as [|[]|n|r|l IH|l IH] using json_tree_ind; intros d t Hw Hd Ht.
  - by destruct d.
  - by destruct d.
  - by destruct d.
  - cbn [wf print] in *. pose proof (num_ok_scan n t Hw Ht) as Hn.
    destruct (num_ok_head n Hw) as (a & r & -> & Ha).
    apply num_head_cases in Ha as (_ & _ & _ & H1 & H2 & H3 & H4 & H5 & H6).
    cbn [String.append] in *. by destruct d; cbn [value]; rewrite H1, H2, H3, H4, H5, H6, Hn.
  - cbn [wf print] in *. rewrite !app_assoc_str. unfold qt at 1, byte1 at 1. cbn [String.append].
    destruct d; cbn [value]; change (Ascii.eqb cQuote cQuote) with true; cbv iota; by rewrite raw_ok_scan.
  - cbn [wf print jdepth] in *. destruct d as [|d]; [lia|]. rewrite !app_assoc_str. change ("[" +:+ ?x) with (String "[" x).
    cbn [value]. change (Ascii.eqb "[" cQuote) with false. change (Ascii.eqb "[" "[") with true. cbv iota.
    rewrite array_body_print; [done|]. apply le_S_n, max_list_le in Hd. apply Is_true_true, forallb_True in Hw.
    rewrite Forall_forall in *. intros v Hin. specialize (Hw v Hin). apply Is_true_true in Hw.
    split; [|by intros; apply IH; auto].
    rewrite <- (app_nil_r_str (print v)). by apply print_starts.
  - cbn [wf print jdepth] in *. destruct d as [|d]; [lia|]. rewrite !app_assoc_str. change ("{" +:+ ?x) with (String "{" x).
    cbn [value]. change (Ascii.eqb "{" cQuote) with false. change (Ascii.eqb "{" "[") with false.
    change (Ascii.eqb "{" "{") with true. cbv iota. fold print_member.
    rewrite object_body_print.
    + cbn [mbind option_bind]. do 3 f_equal. rewrite map_map. apply map_id.
    + apply le_S_n, max_list_le in Hd. apply Is_true_true, forallb_True in Hw.
      rewrite Forall_forall in *. intros kv Hin. specialize (Hw kv Hin).
      apply Is_true_true, andb_true_iff in Hw as [Hk Hw]. split; [done|]. split; [|by intros; apply (IH kv); auto].
      rewrite <- (app_nil_r_str (print kv.2)). by apply print_starts.
Qed.

Lemma parse_print v : wf v = true -> (jdepth v <= maxNestingDepth)%nat -> parse (print v) = Some v.
Proof.
  intros Hw Hd. unfold parse, parse_at. rewrite <- (app_nil_r_str (print v)).
  rewrite starts_value_ws by by apply print_starts. by rewrite value_print.
Qed.

Lemma maxNestingDepth_S : maxNestingDepth = S (pred maxNestingDepth).
Proof. Transparent maxNestingDepth. unfold maxNestingDepth. lia. Qed.
Lemma maxNestingDepth_3 : (3 <= maxNestingDepth)%nat.
Proof. unfold maxNestingDepth. lia. Qed.
Opaque maxNestingDepth.

(** The members of a printed object, with the texts of their values. *)
Lemma top_members_print l : wf (JObj l) = true -> (jdepth (JObj l) <= maxNestingDepth)%nat ->
  top_members (print (JObj l)) = Some (map with_text l).
Proof.
  intros Hw Hd. unfold top_members. cbn [print]. change ("{" +:+ ?x) with (String "{" x).
  change (skip_ws (String "{" ?x)) with (String "{" x). change (Ascii.eqb "{" "{") with true. cbv iota.
  fold print_member. rewrite <- (app_nil_r_str "}"), object_body_print; [done|].
  cbn [wf jdepth] in *. rewrite maxNestingDepth_S in Hd. apply le_S_n, max_list_le in Hd.
  apply Is_true_true, forallb_True in Hw. rewrite Forall_forall in *. intros kv Hin.
  specialize (Hw kv Hin). apply Is_true_true, andb_true_iff in Hw as [Hk Hw]. split; [done|]. split.
  - rewrite <- (app_nil_r_str (print kv.2)). by apply print_starts.
  - intros t Ht. apply value_print; auto.
Qed.

(** ** What is read is well formed *)

Lemma elements_inv (Q : json -> Prop) p fuel s l t :
  (forall s v t, p s = Some (v, t) -> Q v) -> elements p fuel s = Some (l, t) -> Forall Q l.
Proof.
  intros Hp. revert s l t. induction fuel as [|n IH]; intros s l t; [done|]. cbn [elements]. intros H.
  apply bind_Some in H as ([v r] & Hv & H). apply Hp in Hv. destruct (skip_ws r) as [|a r1]; [done|].
  destruct (Ascii.eqb a ","); [|destruct (Ascii.eqb a "]"); [|done]].
  - apply bind_Some in H as ([vs r2] & Hvs & [= <- <-]). constructor; [done|by eapply IH].
  - injection H as <- <-. by repeat constructor.
Qed.

Lemma members_inv (Q : json -> Prop) p fuel s l t :
  (forall s v t, p s = Some (v, t) -> Q v) -> members p fuel s = Some (l, t) ->
  Forall (fun m => raw_ok m.1.1 = true /\ Q m.1.2) l.
Proof.
  intros Hp. revert s l t. induction fuel as [|n IH]; intros s l t; [done|].
  destruct s as [|q s1]; [done|]. cbn [members]. destruct (negb (Ascii.eqb q cQuote)); [done|]. intros H.
  apply bind_Some in H as ([k r] & Hk & H). apply scan_raw_ok in Hk. destruct (skip_ws r) as [|c r1]; [done|].
  destruct (negb (Ascii.eqb c ":")); [done|]. cbv zeta in H.
  apply bind_Some in H as ([v r2] & Hv & H). apply Hp in Hv. destruct (skip_ws r2) as [|a r3]; [done|].
  destruct (Ascii.eqb a ","); [|destruct (Ascii.eqb a "}"); [|done]].
  - apply bind_Some in H as ([ms r4] & Hms & [= <- <-]). constructor; [done|by eapply IH].
  - injection H as <- <-. by repeat constructor.
Qed.

Lemma keyword_inv w x s v t : keyword w x s = Some (v, t) -> v = x.
Proof. unfold keyword. destruct (HasPrefix s w); congruence. Qed.

Lemma value_wf d s v t : value d s = Some (v, t) -> wf v = true /\ (jdepth v <= d)%nat.
Proof.
  revert s v t. induction d as [|d IH]; intros s v t; destruct s as [|a s1]; try done; cbn [value]; intros H;
    destruct (Ascii.eqb a cQuote);
    try (apply bind_Some in H as ([r t'] & Hr & [= <- <-]); split; [by eapply scan_raw_ok|simpl; lia]);
    (destruct (Ascii.eqb a "["); [try done|destruct (Ascii.eqb a "{"); [try done|]]);
    try (destruct (Ascii.eqb a "n"); [|destruct (Ascii.eqb a "t"); [|destruct (Ascii.eqb a "f")]];
      [apply keyword_inv in H as ->; split; [done|simpl; lia]..
      |apply bind_Some in H as ([n t'] & Hn & [= <- <-]); split; [by eapply scan_number_split|simpl; lia]]).
  - apply bind_Some in H as ([l t'] & Hl & [= <- <-]).
    assert (Forall (fun v => wf v = true /\ (jdepth v <= d)%nat) l) as HF.
    { unfold array_body in Hl. destruct (skip_ws s1) as [|b r]; [done|].
      destruct (Ascii.eqb b "]"); [by injection Hl as <- _|by eapply elements_inv]. }
    cbn [wf jdepth]. split; [apply Is_true_true, forallb_True|apply le_n_S, max_list_le];
      (eapply Forall_impl; [exact HF|]); intros x []; [by apply Is_true_true|done].
  - apply bind_Some in H as ([l t'] & Hl & [= <- <-]).
    assert (Forall (fun m => raw_ok m.1.1 = true /\ wf m.1.2 = true /\ (jdepth m.1.2 <= d)%nat) l) as HF.
    { unfold object_body in Hl. destruct (skip_ws s1) as [|b r]; [done|].
      destruct (Ascii.eqb b "}"); [by injection Hl as <- _|].
      by apply (members_inv (fun v => wf v = true /\ (jdepth v <= d)%nat)) in Hl. }
    cbn [wf jdepth]. split; [apply Is_true_true, forallb_True|apply le_n_S, max_list_le];
      apply Forall_fmap; (eapply Forall_impl; [exact HF|]); intros x (H1 & H2 & H3); [|done].
    simpl. apply Is_true_true. unfold drop_text. by rewrite H1, H2.
Qed.

Lemma parse_wf s v : parse s = Some v -> wf v = true /\ (jdepth v <= maxNestingDepth)%nat.
Proof.
  unfold parse, parse_at. intros H. apply bind_Some in H as ([x r] & Hx & H). case_bool_decide; [|done].
  injection H as <-. by eapply value_wf.
Qed.
