(* ===== verification/GoJsonString.v ===== *)
(** * The strings of encoding/json

    [quote] is what json.Marshal writes for a Go string, [unquote] what
    json.Unmarshal makes of the contents of a string literal, and [compact] how
    a json.RawMessage is copied into the text of the value that holds it. *)

From Stdlib Require Import Ascii.
From S2P Require Import Prelude GoError GoString GoStrconv GoJson.

Open Scope Z_scope.

(** ** Escapes *)

Definition hex_digit (n : Z) : ascii := byte_of (if n <? 10 then 48 + n else 87 + n).
Definition hex_value (a : ascii) : Z :=
  if is_digit a then code a - 48 else if 97 <=? code a then code a - 87 else code a - 55.

(** The escape backslash, u and four digits of a value below 65536. *)
Definition escape_u (n : Z) : string :=
  String cBackslash (String "u" (String (hex_digit (n / 4096)) (String (hex_digit (n / 256 mod 16))
    (String (hex_digit (n / 16 mod 16)) (byte1 (hex_digit (n mod 16))))))).
Definition escape_1 (a : ascii) : string := String cBackslash (byte1 a).

(** The bytes of [htmlSafeSet]: printable ASCII without the quote, the backslash
    and the three characters of HTML; and U+007F. *)
Definition htmlSafe (a : ascii) : bool :=
  (32 <=? code a) && (code a <? 128) && bool_decide (code a ∉ [34; 92; 60; 62; 38]).

Definition quote_ascii (a : ascii) : string :=
  if htmlSafe a then byte1 a
  else if bool_decide (code a ∈ [34; 92]) then escape_1 a
  else if code a =? 8 then escape_1 "b"
  else if code a =? 12 then escape_1 "f"
  else if code a =? 10 then escape_1 "n"
  else if code a =? 13 then escape_1 "r"
  else if code a =? 9 then escape_1 "t"
  else escape_u (code a).

(** A rune as [appendString] writes it; [RuneError] from one byte is a byte that
    is not UTF-8. *)
Definition invalid_chunk (c : Z * string) : bool := (c.1 =? RuneError) && (String.length c.2 =? 1)%nat.
Definition quote_chunk (c : Z * string) : string :=
  match c.2 with
  | String a EmptyString => if is_ascii_byte a then quote_ascii a else escape_u RuneError
  | _ => if bool_decide (c.1 ∈ [8232; 8233]) then escape_u c.1 else c.2
  end.

(** The text of a Go string between its quotes, and with them. *)
Definition quote_raw (s : string) : string := concat_strings (map quote_chunk (chunks s)).

(** [utf8.ValidString(s)] *)
Definition valid_utf8 (s : string) : bool := forallb (fun c => negb (invalid_chunk c)) (chunks s).

Definition hex4 (a b c d : ascii) : Z :=
  hex_value a * 4096 + hex_value b * 256 + hex_value c * 16 + hex_value d.

(** The byte a one-letter escape stands for. *)
Definition unescape (b : ascii) : ascii :=
  if Ascii.eqb b "b" then "008" else if Ascii.eqb b "f" then "012" else if Ascii.eqb b "n" then "010"
  else if Ascii.eqb b "r" then "013" else if Ascii.eqb b "t" then "009" else b.

Definition high_surrogate (r : Z) : bool := (55296 <=? r) && (r <? 56320).
Definition low_surrogate (r : Z) : bool := (56320 <=? r) && (r <? 57344).
(** [utf16.DecodeRune] of a pair *)
Definition surrogate_pair (r1 r2 : Z) : Z := (r1 - 55296) * 1024 + (r2 - 56320) + 65536.

(** [unquoteBytes] on contents the scanner has accepted. *)
Fixpoint unquote (s : string) : string :=
  match s with
  | EmptyString => EmptyString
  | String a s1 =>
    if Ascii.eqb a cBackslash then
      match s1 with
      | EmptyString => EmptyString
      | String b s2 =>
        if Ascii.eqb b "u" then
          match s2 with
          | String h1 (String h2 (String h3 (String h4 s3))) =>
            let r := hex4 h1 h2 h3 h4 in
            match s3 with
            | String x (String y (String k1 (String k2 (String k3 (String k4 s4))))) =>
              let r2 := hex4 k1 k2 k3 k4 in
              if high_surrogate r && Ascii.eqb x cBackslash && Ascii.eqb y "u" && low_surrogate r2
              then EncodeRune (surrogate_pair r r2) +:+ unquote s4
              else EncodeRune r +:+ unquote s3
            | _ => EncodeRune r +:+ unquote s3
            end
          | _ => EmptyString
          end
        else String (unescape b) (unquote s2)
      end
    else if is_ascii_byte a then String a (unquote s1)
    else
      match s1 with
      | String b s2 =>
        if seq2 a b then String a (String b (unquote s2))
        else
        match s2 with
        | String c s3 =>
          if seq3 a b c then String a (String b (String c (unquote s3)))
          else
          match s3 with
          | String d s4 =>
            if seq4 a b c d then String a (String b (String c (String d (unquote s4))))
            else EncodeRune RuneError +:+ unquote s1
          | EmptyString => EncodeRune RuneError +:+ unquote s1
          end
        | EmptyString => EncodeRune RuneError +:+ unquote s1
        end
      | EmptyString => EncodeRune RuneError +:+ unquote s1
      end
  end.

(** ** Copying a document: [appendCompact] with HTML escaping *)

Fixpoint html (s : string) : string :=
  match s with
  | EmptyString => EmptyString
  | String a s1 =>
    if bool_decide (code a ∈ [60; 62; 38]) then escape_u (code a) +:+ html s1
    else
      match s1 with
      | String b (String c s3) =>
        if (code a =? 226) && (code b =? 128) && bool_decide (code c ∈ [168; 169])
        then escape_u (8064 + code c) +:+ html s3
        else String a (html s1)
      | _ => String a (html s1)
      end
  end.

Fixpoint escaped (v : json) : json :=
  match v with
  | JStr r => JStr (html r)
  | JArr l => JArr (map escaped l)
  | JObj l => JObj (map (fun kv => (html kv.1, escaped kv.2)) l)
  | _ => v
  end.

Definition compact (s : string) : option string := (fun v => print (escaped v)) <$> parse s.

Example quote_1 : quote_raw (String "010" "a<b") = "\na\u003cb".
Proof. reflexivity. Qed.
Example unquote_1 : unquote "\ud83d\ude00\u041f\/" = EncodeRune 128512 +:+ EncodeRune 1055 +:+ "/".
Proof. reflexivity. Qed.
Example unquote_2 : unquote "\ud83dx" = EncodeRune 65533 +:+ "x".
Proof. reflexivity. Qed.
Example unquote_3 : unquote (String "255" "x") = EncodeRune 65533 +:+ "x".
Proof. reflexivity. Qed.

(** ** Quoting and unquoting *)

(** The shapes of the pieces a string is decoded into. *)
Inductive piece : Z * string -> Prop :=
| piece_ascii a : is_ascii_byte a = true -> piece (code a, byte1 a)
| piece_bad a : is_ascii_byte a = false -> piece (RuneError, byte1 a)
| piece_2 a b : is_ascii_byte a = false -> seq2 a b = true -> piece (rune2 a b, String a (byte1 b))
| piece_3 a b c : is_ascii_byte a = false -> seq2 a b = false -> seq3 a b c = true ->
    piece (rune3 a b c, String a (String b (byte1 c)))
| piece_4 a b c d : is_ascii_byte a = false -> seq2 a b = false -> seq3 a b c = false -> seq4 a b c d = true ->
    piece (rune4 a b c d, String a (String b (String c (byte1 d)))).

Lemma chunks_pieces s : Forall piece (chunks s).
Proof.
  induction s as [s IH] using string_len_ind. destruct s as [|a s1]; [constructor|]. cbn [chunks].
  destruct (is_ascii_byte a) eqn:Ea; [constructor; [by constructor|apply IH; simpl; lia]|].
  assert (Forall piece ((RuneError, byte1 a) :: chunks s1)) as Hbad
    by (constructor; [by constructor|apply IH; simpl; lia]).
  destruct s1 as [|b s2]; [exact Hbad|].
  destruct (seq2 a b) eqn:E2; [constructor; [by constructor|apply IH; simpl; lia]|].
  destruct s2 as [|c s3]; [exact Hbad|].
  destruct (seq3 a b c) eqn:E3; [constructor; [by constructor|apply IH; simpl; lia]|].
  destruct s3 as [|d s4]; [exact Hbad|].
  destruct (seq4 a b c d) eqn:E4; [constructor; [by constructor|apply IH; simpl; lia]|exact Hbad].
Qed.

(** Properties of every byte, by evaluation. *)
Definition all_bytes : list ascii := map (fun n => byte_of (Z.of_nat n)) (seq 0 256).

Lemma all_bytes_forall (p : ascii -> bool) : forallb p all_bytes = true -> forall a, p a = true.
Proof.
  intros H a. rewrite forallb_forall in H. apply H. rewrite <- (byte_of_code a). pose proof (code_range a).
  unfold all_bytes. apply in_map_iff. exists (Z.to_nat (code a)). rewrite Z2Nat.id by lia. split; [done|].
  apply in_seq. lia.
Qed.

(** A byte that a scanner copies: neither a quote nor a backslash nor a control. *)
Definition copied (a : ascii) : bool :=
  negb (Ascii.eqb a cQuote) && negb (Ascii.eqb a cBackslash) && negb (code a <? 32).

Lemma scan_copied a t : copied a = true ->
  scan_string (String a t) = '(r, u) ← scan_string t; Some (String a r, u).
Proof.
  unfold copied. intros H. cbn [scan_string].
  destruct (Ascii.eqb a cQuote); [done|]. destruct (Ascii.eqb a cBackslash); [done|]. by destruct (code a <? 32).
Qed.

Lemma high_copied a : is_ascii_byte a = false -> copied a = true.
Proof.
  intros Ha. pose proof (all_bytes_forall (fun a => is_ascii_byte a || copied a) ltac:(reflexivity) a) as H.
  simpl in H. by rewrite Ha in H.
Qed.

Lemma cont_high lo hi a : 128 <= lo -> cont lo hi a = true -> is_ascii_byte a = false.
Proof. unfold cont, is_ascii_byte. intros Hlo H. apply Z.ltb_ge. apply andb_true_iff in H as [H _]. lia. Qed.

Lemma seq2_high a b : seq2 a b = true -> is_ascii_byte b = false.
Proof. unfold seq2. intros [_ H]%andb_true_iff. by eapply cont_high; [|done]. Qed.

Lemma seq3_high a b c : seq3 a b c = true -> is_ascii_byte b = false /\ is_ascii_byte c = false.
Proof.
  unfold seq3. intros [[_ H]%andb_true_iff Hb]%andb_true_iff.
  split; [|by eapply cont_high; [|done]]. eapply cont_high; [|done]. by destruct (code a =? 224).
Qed.

Lemma seq4_high a b c d : seq4 a b c d = true ->
  is_ascii_byte b = false /\ is_ascii_byte c = false /\ is_ascii_byte d = false.
Proof.
  unfold seq4. intros [[[_ H]%andb_true_iff H']%andb_true_iff Hb]%andb_true_iff.
  split; [eapply cont_high; [|done]; by destruct (code a =? 240)|]. by split; eapply cont_high.
Qed.

(** [p] is a text of which the scanner consumes exactly [p]. *)
Definition scans (p : string) : Prop :=
  forall t, scan_string (p +:+ t) = '(r, u) ← scan_string t; Some (p +:+ r, u).

Lemma scans_nil : scans "".
Proof. intros t. cbn [String.append]. by destruct (scan_string t) as [[]|]. Qed.

Lemma scans_app p q : scans p -> scans q -> scans (p +:+ q).
Proof.
  intros Hp Hq t. rewrite app_assoc_str, Hp, Hq. destruct (scan_string t) as [[r u]|]; [|done].
  cbn. by rewrite app_assoc_str.
Qed.

Lemma scans_copied a : copied a = true -> scans (byte1 a).
Proof. intros H t. exact (scan_copied a t H). Qed.

Lemma scans_copied_cons a p : copied a = true -> scans p -> scans (String a p).
Proof. intros Ha Hp. exact (scans_app (byte1 a) p (scans_copied a Ha) Hp). Qed.

Lemma scans_escape_1 a : simple_escape a = true -> scans (escape_1 a).
Proof. intros Ha t. cbn [String.append escape_1 byte1 scan_string]. escape_byte. by rewrite Ha. Qed.

Lemma hex_digit_hex n : 0 <= n < 16 -> is_hex (hex_digit n) = true.
Proof.
  intros Hn. assert (n = Z.of_nat (Z.to_nat n)) as -> by lia. assert (Z.to_nat n < 16)%nat as H by lia. revert H.
  generalize (Z.to_nat n) as k. clear. intros k Hk. do 16 (destruct k as [|k]; [reflexivity|]). lia.
Qed.

Lemma scans_escape_u n : 0 <= n < 65536 -> scans (escape_u n).
Proof.
  intros Hn t. cbn [String.append escape_u byte1 scan_string]. escape_byte. change (simple_escape "u") with false. cbv iota.
  rewrite !hex_digit_hex; [done|..]; try (apply Z.mod_pos_bound; lia).
  split; [apply Z.div_pos; lia|apply Z.div_lt_upper_bound; lia].
Qed.

Lemma scans_raw_ok r : scans r -> raw_ok r = true.
Proof. intros H. apply bool_decide_eq_true. rewrite H. cbn. by rewrite app_nil_r_str. Qed.

Lemma hex_value_digit n : 0 <= n < 16 -> hex_value (hex_digit n) = n.
Proof.
  intros Hn. assert (n = Z.of_nat (Z.to_nat n)) as -> by lia. assert (Z.to_nat n < 16)%nat as H by lia. revert H.
  generalize (Z.to_nat n) as k. clear. intros k Hk. do 16 (destruct k as [|k]; [reflexivity|]). lia.
Qed.

Lemma hex4_digits n : 0 <= n < 65536 ->
  hex4 (hex_digit (n / 4096)) (hex_digit (n / 256 mod 16)) (hex_digit (n / 16 mod 16)) (hex_digit (n mod 16)) = n.
Proof.
  intros Hn. unfold hex4. rewrite !hex_value_digit by (Z.to_euclidean_division_equations; lia).
  Z.to_euclidean_division_equations; lia.
Qed.

Lemma unquote_escape_u n t : 0 <= n < 65536 -> high_surrogate n = false ->
  unquote (escape_u n +:+ t) = EncodeRune n +:+ unquote t.
Proof.
  intros Hn Hs. cbn [String.append escape_u byte1 unquote]. escape_byte. cbv zeta.
  rewrite (hex4_digits n Hn), Hs. cbn [andb].
  by destruct t as [|x [|y [|k1 [|k2 [|k3 [|k4 t]]]]]].
Qed.

Lemma unquote_escape_1 a t : Ascii.eqb a "u" = false ->
  unquote (escape_1 a +:+ t) = String (unescape a) (unquote t).
Proof. intros Ha. cbn [String.append escape_1 byte1 unquote]. escape_byte. by rewrite Ha. Qed.

Lemma EncodeRune_ascii a : is_ascii_byte a = true -> EncodeRune (code a) = byte1 a.
Proof.
  intros Ha. unfold EncodeRune. pose proof (code_range a). unfold is_ascii_byte in Ha.
  rewrite Ha, (proj2 (Z.leb_le 0 (code a))) by lia. simpl. by rewrite byte_of_code.
Qed.

(** One byte of ASCII: the scanner consumes its quoted form, unquoting restores it. *)
Lemma quote_ascii_spec a : is_ascii_byte a = true ->
  scans (quote_ascii a) /\ forall t, unquote (quote_ascii a +:+ t) = String a (unquote t).
Proof.
  intros Ha. unfold quote_ascii. destruct (htmlSafe a) eqn:Es.
  { pose proof (all_bytes_forall (fun a => negb (htmlSafe a) || (copied a && negb (Ascii.eqb a cBackslash)))
      ltac:(reflexivity) a) as H. simpl in H. rewrite Es in H. simpl in H. apply andb_true_iff in H as [Hc Hb].
    split; [by apply scans_copied|]. intros t. cbn [String.append byte1 unquote].
    destruct (Ascii.eqb a cBackslash); [done|]. by rewrite Ha. }
  case_bool_decide as H2.
  { assert (a = cQuote \/ a = cBackslash) as [-> | ->].
    { apply elem_of_cons in H2 as [H2|H2%list_elem_of_singleton]; [left|right]; by apply code_inj. }
    all: split; [by apply scans_escape_1|by intros t; rewrite unquote_escape_1]. }
  assert (forall c b, code a = code c -> simple_escape b = true -> Ascii.eqb b "u" = false -> unescape b = c ->
    scans (escape_1 b) /\ forall t, unquote (escape_1 b +:+ t) = String a (unquote t)) as Hesc.
  { intros c b Hc Hb Hu He. apply code_inj in Hc as ->. split; [by apply scans_escape_1|].
    intros t. by rewrite unquote_escape_1, He. }
  destruct (Z.eqb_spec (code a) 8) as [H|_]; [by apply (Hesc "008"%char)|].
  destruct (Z.eqb_spec (code a) 12) as [H|_]; [by apply (Hesc "012"%char)|].
  destruct (Z.eqb_spec (code a) 10) as [H|_]; [by apply (Hesc "010"%char)|].
  destruct (Z.eqb_spec (code a) 13) as [H|_]; [by apply (Hesc "013"%char)|].
  destruct (Z.eqb_spec (code a) 9) as [H|_]; [by apply (Hesc "009"%char)|].
  pose proof (code_range a). split; [apply scans_escape_u; lia|]. intros t.
  rewrite unquote_escape_u, EncodeRune_ascii; [done|done|lia|]. unfold high_surrogate. lia.
Qed.

(** What unquoting makes of a quoted piece: itself, or U+FFFD for a bad byte. *)
Definition clean (c : Z * string) : string := if invalid_chunk c then EncodeRune RuneError else c.2.

Lemma lor_shiftl x n z : 0 <= n -> 0 <= z < 2 ^ n -> Z.lor (Z.shiftl x n) z = x * 2 ^ n + z.
Proof.
  intros Hn Hz. assert (Z.land (Z.shiftl x n) z = 0) as Hl.
  { apply Z.bits_inj'. intros i Hi. rewrite Z.land_spec, Z.bits_0, Z.shiftl_spec by done.
    destruct (Z_lt_le_dec i n); [by rewrite Z.testbit_neg_r by lia|].
    rewrite <- (Z.mod_small z (2 ^ n)) by done. rewrite Z.mod_pow2_bits_high by lia. apply andb_false_r. }
  rewrite <- Z.lxor_lor, <- Z.add_nocarry_lxor by done. by rewrite Z.shiftl_mul_pow2.
Qed.

Lemma cont_range lo hi a : cont lo hi a = true -> lo <= code a <= hi.
Proof. unfold cont. lia. Qed.

Lemma rune2_small a b : seq2 a b = true -> rune2 a b < 2048.
Proof.
  intros [Ha%cont_range Hb%cont_range]%andb_true_iff. unfold rune2.
  rewrite lor_shiftl by lia. lia.
Qed.

Lemma rune4_large a b c d : seq4 a b c d = true -> 65536 <= rune4 a b c d.
Proof.
  unfold seq4. intros [[[Ha%cont_range Hc%cont_range]%andb_true_iff Hd%cont_range]%andb_true_iff Hb%cont_range]%andb_true_iff.
  assert (128 <= code b <= 191) by (destruct (code a =? 240), (code a =? 244); lia).
  unfold rune4. rewrite (lor_shiftl (code c - 128)), (lor_shiftl (code b - 128)), lor_shiftl by lia.
  destruct (Z.eqb_spec (code a) 240); lia.
Qed.

(** The line and paragraph separators are the three bytes 226, 128 and 168 or 169. *)
Lemma line_separators a b c : rune3 a b c ∈ [8232; 8233] -> seq3 a b c = true ->
  EncodeRune (rune3 a b c) = String a (String b (byte1 c)).
Proof.
  intros Hr [[Ha%cont_range Hc%cont_range]%andb_true_iff Hb%cont_range]%andb_true_iff.
  assert (128 <= code b <= 191) by (destruct (code a =? 224), (code a =? 237); lia).
  assert (rune3 a b c = (code a - 224) * 4096 + (code b - 128) * 64 + (code c - 128)) as Heq.
  { unfold rune3. rewrite (lor_shiftl (code b - 128)), lor_shiftl by lia. lia. }
  assert (code a = 226 /\ code b = 128 /\ (code c = 168 \/ code c = 169)) as (H1 & H2 & H3).
  { apply elem_of_cons in Hr as [Hr|Hr%list_elem_of_singleton]; lia. }
  rewrite Heq, H1, H2. assert (a = byte_of 226) as -> by (by apply code_inj; rewrite H1).
  assert (b = byte_of 128) as -> by (by apply code_inj; rewrite H2).
  destruct H3 as [H3|H3]; rewrite H3; [assert (c = byte_of 168) as ->|assert (c = byte_of 169) as ->];
    try done; apply code_inj; by rewrite H3.
Qed.

Lemma quote_chunk_spec c : piece c ->
  scans (quote_chunk c) /\ forall t, unquote (quote_chunk c +:+ t) = clean c +:+ unquote t.
Proof.
  assert (forall a, is_ascii_byte a = false -> Ascii.eqb a cBackslash = false) as Hbs.
  { intros a Ha. apply Ascii.eqb_neq. by intros ->. }
  assert (scans (escape_u 8232) /\ scans (escape_u 8233) /\ scans (escape_u RuneError)) as (Hu1 & Hu2 & Hu3)
    by (split_and!; by apply scans_escape_u).
  destruct 1 as [a Ha|a Ha|a b Ha H2|a b c Ha H2 H3|a b c d Ha H2 H3 H4];
    unfold quote_chunk, clean, invalid_chunk; cbn [fst snd byte1 String.length].
  - rewrite Ha. destruct (quote_ascii_spec a Ha) as [Hs Hu]. split; [done|]. intros t. rewrite Hu.
    destruct (Z.eqb_spec (code a) RuneError) as [He|_]; [|done]. pose proof (code_range a). unfold RuneError in He. lia.
  - rewrite Ha. split; [done|]. intros t. by rewrite unquote_escape_u.
  - rewrite bool_decide_eq_false_2, andb_false_r.
    + split; [repeat apply scans_copied_cons; try apply scans_nil; eauto using high_copied, seq2_high|].
      intros t. cbn [String.append unquote byte1]. by rewrite Hbs, Ha, H2 by done.
    + apply rune2_small in H2. intros [H|H%list_elem_of_singleton]%elem_of_cons; lia.
  - rewrite andb_false_r. destruct (seq3_high _ _ _ H3) as [Hb Hc]. case_bool_decide as Hl.
    + pose proof (line_separators a b c Hl H3) as He. split.
      * by apply elem_of_cons in Hl as [-> | ->%list_elem_of_singleton].
      * intros t. rewrite unquote_escape_u, He; [done|..];
          by apply elem_of_cons in Hl as [-> | ->%list_elem_of_singleton].
    + split; [repeat apply scans_copied_cons; try apply scans_nil; eauto using high_copied|].
      intros t. cbn [String.append unquote byte1]. by rewrite Hbs, Ha, H2, H3 by done.
  - rewrite bool_decide_eq_false_2, andb_false_r.
    + destruct (seq4_high _ _ _ _ H4) as (Hb & Hc & Hd).
      split; [repeat apply scans_copied_cons; try apply scans_nil; eauto using high_copied|].
      intros t. cbn [String.append unquote byte1]. by rewrite Hbs, Ha, H2, H3, H4 by done.
    + apply rune4_large in H4. intros [H|H%list_elem_of_singleton]%elem_of_cons; lia.
Qed.

(** Every Go string is written as a legal literal. *)
Lemma quote_raw_ok s : raw_ok (quote_raw s) = true.
Proof.
  apply scans_raw_ok. unfold quote_raw. induction (chunks_pieces s) as [|c l Hc _ IH]; [apply scans_nil|].
  cbn [map concat_strings]. apply scans_app; [by apply quote_chunk_spec|done].
Qed.

(** The literal of a string stands for it, its invalid bytes replaced. *)
Lemma unquote_quote_raw s : unquote (quote_raw s) = concat_strings (map clean (chunks s)).
Proof.
  unfold quote_raw. induction (chunks_pieces s) as [|c l Hc _ IH]; [done|].
  cbn [map concat_strings]. rewrite <- IH. by apply quote_chunk_spec.
Qed.

Lemma unquote_quote s : valid_utf8 s = true -> unquote (quote_raw s) = s.
Proof.
  intros Hv. rewrite unquote_quote_raw. rewrite <- (chunks_concat s) at 2. f_equal. apply map_ext_in. intros c Hc.
  unfold valid_utf8 in Hv. rewrite forallb_forall in Hv. apply Hv in Hc. unfold clean. by destruct (invalid_chunk c).
Qed.

(** ** Copying keeps a document well formed *)

(** Bytes [html] leaves alone wherever they stand. *)
Definition html_plain (a : ascii) : bool := bool_decide (code a ∉ [60; 62; 38; 226]).

Lemma html_cons a s : html_plain a = true -> html (String a s) = String a (html s).
Proof.
  intros Ha. apply bool_decide_eq_true in Ha. change [60; 62; 38; 226] with ([60; 62; 38] ++ [226]) in Ha. cbn [html]. rewrite bool_decide_eq_false_2.
  - destruct s as [|b [|c s]]; [done..|]. destruct (Z.eqb_spec (code a) 226) as [H|]; [|done].
    exfalso. apply Ha. rewrite H. apply elem_of_app; right; by apply list_elem_of_singleton.
  - intros Hin. apply Ha. apply elem_of_app; by left.
Qed.

Lemma escape_plain b : simple_escape b = true -> html_plain b = true.
Proof.
  intros H. pose proof (all_bytes_forall (fun b => negb (simple_escape b) || html_plain b) ltac:(reflexivity) b) as Hb.
  simpl in Hb. by rewrite H in Hb.
Qed.

Lemma hex_plain b : is_hex b = true -> html_plain b = true.
Proof.
  intros H. pose proof (all_bytes_forall (fun b => negb (is_hex b) || html_plain b) ltac:(reflexivity) b) as Hb.
  simpl in Hb. by rewrite H in Hb.
Qed.

(** The texts of which the scanner consumes exactly themselves, taken apart. *)
Inductive literal : string -> Prop :=
| literal_nil : literal ""
| literal_byte a r : copied a = true -> literal r -> literal (String a r)
| literal_esc b r : simple_escape b = true -> literal r -> literal (String cBackslash (String b r))
| literal_u h1 h2 h3 h4 r : is_hex h1 && is_hex h2 && is_hex h3 && is_hex h4 = true -> literal r ->
    literal (String cBackslash (String "u" (String h1 (String h2 (String h3 (String h4 r)))))).

Lemma scan_literal s r t : scan_string s = Some (r, t) -> literal r.
Proof.
  revert r t. induction s as [s IH] using string_len_ind. intros r t.
  destruct s as [|a s1]; [done|]. cbn [scan_string]. destruct (Ascii.eqb a cQuote) eqn:Eq; [intros [= <- <-]; constructor|].
  destruct (Ascii.eqb a cBackslash) eqn:Eb.
  - apply Ascii.eqb_eq in Eb as ->. destruct s1 as [|b s2]; [done|]. destruct (simple_escape b) eqn:Es.
    + intros H. apply bind_Some in H as ([r' t'] & H & [= <- <-]). apply literal_esc; [done|]. eapply IH; [|done]. simpl; lia.
    + destruct (Ascii.eqb_spec b "u") as [->|]; [|done]. destruct s2 as [|h1 [|h2 [|h3 [|h4 s3]]]]; try done.
      destruct (is_hex h1 && is_hex h2 && is_hex h3 && is_hex h4) eqn:Eh; [|done]. intros H.
      apply bind_Some in H as ([r' t'] & H & [= <- <-]). apply literal_u; [done|]. eapply IH; [|done]. simpl; lia.
  - destruct (code a <? 32) eqn:Ec; [done|]. intros H. apply bind_Some in H as ([r' t'] & H & [= <- <-]).
    apply literal_byte; [|eapply IH; [|done]; simpl; lia]. unfold copied. by rewrite Eq, Eb, Ec.
Qed.

Lemma literal_tail a r : literal (String a r) -> copied a = true -> literal r.
Proof. intros H Ha. inversion H; subst; [done|exfalso; by vm_compute in Ha..]. Qed.

Lemma html_scans r : literal r -> scans (html r).
Proof.
  induction r as [r IH] using string_len_ind. intros Hr. destruct Hr as [|a r Ha Hr|b r Hb Hr|h1 h2 h3 h4 r Hh Hr].
  - apply scans_nil.
  - assert (scans (String a (html r))) as Hplain by (apply scans_copied_cons; [done|apply IH; [simpl; lia|done]]).
    cbn [html]. case_bool_decide as H3.
    { apply scans_app; [|apply IH; [simpl; lia|done]]. apply scans_escape_u. pose proof (code_range a). lia. }
    destruct r as [|b [|c r]]; [exact Hplain..|].
    destruct ((code a =? 226) && (code b =? 128) && bool_decide (code c ∈ [168; 169])) eqn:E; [|exact Hplain].
    apply andb_true_iff in E as [[_ Eb]%andb_true_iff Ec%bool_decide_eq_true].
    assert (is_ascii_byte b = false /\ is_ascii_byte c = false) as [Hb Hc].
    { unfold is_ascii_byte. apply elem_of_cons in Ec as [Ec|Ec%list_elem_of_singleton]; lia. }
    apply scans_app; [apply scans_escape_u; pose proof (code_range c); lia|].
    apply IH; [simpl; lia|]. eapply literal_tail; [eapply literal_tail; [done|]|]; by apply high_copied.
  - rewrite !html_cons by (done || by apply escape_plain).
    apply (scans_app (escape_1 b)); [by apply scans_escape_1|apply IH; [simpl; lia|done]].
  - pose proof Hh as [[[H1 H2]%andb_true_iff H3]%andb_true_iff H4]%andb_true_iff.
    rewrite !html_cons by (done || by apply hex_plain). intros t. cbn [String.append scan_string]. escape_byte.
    change (simple_escape "u") with false. cbv iota. rewrite Hh, IH by (done || simpl; lia).
    by destruct (scan_string t) as [[]|].
Qed.

Lemma html_raw_ok r : raw_ok r = true -> raw_ok (html r) = true.
Proof. intros H. apply bool_decide_eq_true, scan_literal in H. by apply scans_raw_ok, html_scans. Qed.

Lemma escaped_wf v : wf v = true -> wf (escaped v) = true /\ jdepth (escaped v) = jdepth v.
Proof.
  induction v as [|b|n|r|l IH|l IH] using json_tree_ind; cbn [wf escaped jdepth]; intros H; try done.
  - split; [by apply html_raw_ok|done].
  - induction IH as [|v l Hv _ IH]; [done|]. cbn [map forallb foldr] in *.
    apply andb_true_iff in H as [H1 H2]. destruct (Hv H1) as [-> ->], (IH H2) as [-> [= ->]]. done.
  - induction IH as [|v l Hv _ IH]; [done|]. cbn [map forallb foldr fst snd] in *.
    apply andb_true_iff in H as [[Hk H1]%andb_true_iff H2]. rewrite (html_raw_ok _ Hk).
    destruct (Hv H1) as [-> ->], (IH H2) as [-> [= ->]]. done.
Qed.

(** A copied document is the print of a tree of the same depth. *)
Lemma compact_spec s t : compact s = Some t ->
  exists v, t = print v /\ wf v = true /\ (jdepth v <= maxNestingDepth)%nat /\ parse t = Some v.
Proof.
  unfold compact. destruct (parse s) as [v|] eqn:E; [|done]. intros [= <-]. apply parse_wf in E as [Hw Hd].
  apply escaped_wf in Hw as [Hw He]. exists (escaped v). rewrite <- He in Hd. split_and!; [done..|]. by apply parse_print.
Qed.

(** ** Integers *)

Lemma digits_pretty n s : digits s = (s, "") -> digits (pretty_N_go n s) = (pretty_N_go n s, "").
Proof.
  revert s. induction (N.lt_wf_0 n) as [n _ IH]. intros s Hs.
  destruct (decide (n = 0)%N) as [->|H0]; [by rewrite pretty_N_go_0|].
  rewrite pretty_N_go_step by lia. apply IH; [apply N.div_lt; lia|]. cbn [digits].
  assert (is_digit (pretty_N_char (n mod 10)) = true) as ->; [|by rewrite Hs].
  pose proof (N.mod_lt n 10 ltac:(lia)) as Hm. generalize dependent (n mod 10)%N. intros d Hd.
  pose proof (digit_value_char (Z.of_N d) ltac:(lia)) as Hv. rewrite N2Z.id in Hv. revert Hv. unfold digit_value, is_digit. by destruct (_ && _).
Qed.

Lemma pretty_head n s : (0 < n)%N -> exists c r, pretty_N_go n s = String c r /\ is_digit c = true /\ c <> "0"%char.
Proof.
  revert s. induction (N.lt_wf_0 n) as [n _ IH]. intros s Hn. rewrite pretty_N_go_step by lia.
  destruct (decide (n / 10 = 0)%N) as [Hq|Hq]; [|apply IH; [apply N.div_lt; lia|by apply N.neq_0_lt_0]].
  rewrite Hq, pretty_N_go_0. eexists _, _. split; [done|].
  assert (n mod 10 = n /\ n < 10)%N as [-> Hlt].
  { pose proof (N.div_mod n 10 ltac:(lia)). pose proof (N.mod_lt n 10 ltac:(lia)). lia. }
  assert (In n [1; 2; 3; 4; 5; 6; 7; 8; 9]%N) as Hin by (simpl; lia).
  simpl in Hin. by repeat destruct Hin as [<-|Hin].
Qed.

Lemma scan_int_Itoa m : 0 <= m -> scan_int (Itoa m) = Some (Itoa m, "") /\
  exists c r, Itoa m = String c r /\ is_digit c = true.
Proof.
  intros Hm. destruct (Z.eq_dec m 0) as [->|H0]; [split; [done|by eexists _, _]|].
  rewrite Itoa_pos by lia. destruct (pretty_head (Z.to_N m) "") as (c & r & E & Hd & Hc); [lia|].
  pose proof (digits_pretty (Z.to_N m) "" eq_refl) as Hall. rewrite E in *. split; [|eauto].
  unfold scan_int. rewrite (proj2 (Ascii.eqb_neq _ _) Hc), Hd. by f_equal.
Qed.

(** A printed integer is a minus sign or nothing, and digits. *)
Lemma scan_minus_Itoa n : scan_minus (Itoa n) = (if n <? 0 then "-" else "", Itoa (Z.abs n)).
Proof.
  destruct n as [|p|p]; [done| |done]. destruct (scan_int_Itoa (Z.pos p)) as [_ (c & r & E & Hc)]; [done|].
  change (Z.abs (Z.pos p)) with (Z.pos p). rewrite E. unfold scan_minus.
  destruct (Ascii.eqb_spec c "-") as [->|]; [discriminate Hc|reflexivity].
Qed.

Lemma Itoa_sign n : (if n <? 0 then "-" else "") +:+ Itoa (Z.abs n) = Itoa n.
Proof. by destruct n. Qed.

Lemma num_ok_Itoa n : num_ok (Itoa n) = true.
Proof.
  apply bool_decide_eq_true. unfold scan_number. rewrite scan_minus_Itoa.
  destruct (scan_int_Itoa (Z.abs n)) as [-> _]; [lia|]. cbn. rewrite !app_nil_r_str. by rewrite Itoa_sign.
Qed.

Lemma digits_cons a s : digits (String a s) = (String a s, "") -> is_digit a = true /\ digits s = (s, "").
Proof. cbn [digits]. destruct (is_digit a); [|done]. destruct (digits s) as [d r]. by intros [= -> ->]. Qed.

Lemma Itoa_ascii n : is_ascii (Itoa n) = true.
Proof.
  assert (forall s, digits s = (s, "") -> is_ascii s = true) as Hd.
  { induction s as [|a s IH]; [done|]. intros [Ha Hs]%digits_cons. cbn [is_ascii]. rewrite IH by done.
    unfold is_digit, is_ascii_byte in *. lia. }
  destruct n as [|p|p]; [done| |].
  - apply Hd. rewrite Itoa_pos by lia. by apply digits_pretty.
  - change (Itoa (Z.neg p)) with (String "-" (Itoa (Z.pos p))). cbn [is_ascii]. apply andb_true_iff. split; [done|].
    apply Hd. rewrite Itoa_pos by lia. by apply digits_pretty.
Qed.

Lemma is_ascii_valid s : is_ascii s = true -> valid_utf8 s = true.
Proof.
  unfold valid_utf8. induction s as [|a s IH]; [done|]. cbn [is_ascii chunks]. intros H. apply andb_true_iff in H as [Ha Hs].
  rewrite Ha. cbn [forallb]. rewrite IH by done. unfold invalid_chunk. cbn [fst snd].
  destruct (Z.eqb_spec (code a) RuneError) as [He|_]; [|done]. pose proof (code_range a). unfold RuneError in He. lia.
Qed.

(** ** Structs

    What encoding/json does for the fields of a struct. *)

(** A Go string as a JSON value. *)
Definition jstr (s : string) : json := JStr (quote_raw s).

(** A field of a struct, left out when empty if it says omitempty. *)
Definition omit {A} (empty : bool) (x : A) : list A := if empty then [] else [x].

(** Field names match without regard to case.  Outside ASCII only U+017F and
    U+212A fold to a letter of a field name. *)
Definition upper_byte (a : ascii) : ascii := if (97 <=? code a) && (code a <=? 122) then byte_of (code a - 32) else a.
Fixpoint foldName (s : string) : string :=
  match s with
  | EmptyString => EmptyString
  | String a s1 =>
    match s1 with
    | String b (String c s3 as s2) =>
      if (code a =? 197) && (code b =? 191) then String "S" (foldName s2)
      else if (code a =? 226) && (code b =? 132) && (code c =? 170) then String "K" (foldName s3)
      else String (upper_byte a) (foldName s1)
    | String b EmptyString =>
      if (code a =? 197) && (code b =? 191) then "S" else String (upper_byte a) (foldName s1)
    | EmptyString => String (upper_byte a) EmptyString
    end
  end.

Definition same_name (name key : string) : bool := bool_decide (foldName (unquote key) = foldName name).

(** A value into a string field; [None] is a type error. *)
Definition into_string (v : json) (old : string) : option string :=
  match v with
  | JStr r => Some (unquote r)
  | JNull => Some old
  | _ => None
  end.

(** A value into an int64 field. *)
Definition into_int64 (v : json) (old : Z) : option Z :=
  match v with
  | JNum lit => match ParseInt lit with Ok n => Some n | Fail _ => None end
  | JNull => Some old
  | _ => None
  end.

(** A type error is kept and decoding goes on; the decoder reports the first one
    at the end.  [st] is the value so far and whether there was one. *)
Definition store {A B} (v : option B) (set : B -> A) (st : A * bool) : A * bool :=
  match v with
  | Some b => (set b, st.2)
  | None => (st.1, true)
  end.

Definition SyntaxError : error := Err "*json.SyntaxError" "invalid character" [].
Definition UnmarshalTypeError : error := Err "*json.UnmarshalTypeError" "json: cannot unmarshal value into Go struct field" [].

Lemma jstr_wf s : wf (jstr s) = true.
Proof. apply quote_raw_ok. Qed.

Lemma into_jstr s old : valid_utf8 s = true -> into_string (jstr s) old = Some s.
Proof. intros H. cbn. by rewrite unquote_quote. Qed.

(** Evaluate the comparisons of field names. *)
Ltac names :=
  repeat match goal with
  | |- context [same_name ?a ?b] =>
      let r := eval vm_compute in (same_name a b) in change (same_name a b) with r
  end; cbv iota beta.
