(* ===== verification/GoJsonMap.v ===== *)
(** * encoding/json for maps of strings and lists of strings

    What [Marshal] and [Unmarshal] do for a [map[string]string], with its members
    in the order of their keys, and for a [[]string].  A nil map reads like an
    empty one and is one here. *)

From stdpp Require Import sorting.
From S2P Require Import Prelude GoError GoString GoJson GoJsonString.

Open Scope Z_scope.

(** ** Printing *)

Definition key_le (a b : string * string) : Prop := String.leb a.1 b.1 = true.
#[export] Instance key_le_dec a b : Decision (key_le a b).
Proof. unfold key_le. apply _. Defined.

(** The members of a map, in the byte order of their keys. *)
Definition sorted_members (m : gmap string string) : list (string * string) := merge_sort key_le (map_to_list m).

Definition member_json (kv : string * string) : string * json := (quote_raw kv.1, jstr kv.2).

Definition map_json (m : gmap string string) : json := JObj (map member_json (sorted_members m)).

Definition list_json (l : list string) : json := JArr (map jstr l).

(** ** Reading *)

(** A member into the map: a null leaves the zero value, and so does a value of
    another type, which is an error. *)
Definition map_member (st : gmap string string * bool) (kv : string * json) : gmap string string * bool :=
  let v := into_string kv.2 "" in
  (<[unquote kv.1 := default "" v]> st.1, st.2 || match v with Some _ => false | None => true end).

Definition into_map (v : json) (old : gmap string string) : gmap string string * bool :=
  match v with
  | JObj l => fold_left map_member l (old, false)
  | JNull => (∅, false)
  | _ => (old, true)
  end.

(** [var m map[string]string; json.Unmarshal(data, &m)] *)
Definition map_Unmarshal (text : string) : result error (gmap string string) :=
  match parse text with
  | None => Fail SyntaxError
  | Some v => let (m, bad) := into_map v ∅ in if bad then Fail UnmarshalTypeError else Ok m
  end.

(** ** Facts *)

Definition map_text (m : gmap string string) : Prop :=
  forall k v, m !! k = Some v -> valid_utf8 k = true /\ valid_utf8 v = true.

Lemma sorted_members_perm m : sorted_members m ≡ₚ map_to_list m.
Proof. apply merge_sort_Permutation. Qed.

Lemma sorted_members_lookup m k v : (k, v) ∈ sorted_members m <-> m !! k = Some v.
Proof. rewrite sorted_members_perm. apply elem_of_map_to_list. Qed.

#[local] Instance key_le_total : Total key_le.
Proof.
  intros a b. unfold key_le, String.leb. rewrite (String.compare_antisym a.1 b.1).
  destruct (String.compare b.1 a.1); simpl; auto.
Qed.

(** The members are sorted. *)
Lemma sorted_members_sorted m : Sorted key_le (sorted_members m).
Proof. apply Sorted_merge_sort, _. Qed.

(** Inserting members with different keys one by one gives the map of them. *)
Lemma fold_insert (l : list (string * string)) (m : gmap string string) : NoDup l.*1 -> (forall kv, kv ∈ l -> m !! kv.1 = None) ->
  fold_left (fun (m : gmap string string) kv => <[kv.1 := kv.2]> m) l m = list_to_map l ∪ m.
Proof.
  revert m. induction l as [|[k v] l IH]; intros m Hn Hm; cbn [fold_left fst snd]; [by rewrite list_to_map_nil, map_empty_union|].
  rewrite fmap_cons in Hn. apply NoDup_cons in Hn as [Hk Hn]. rewrite IH; [|done|].
  - rewrite list_to_map_cons, <- insert_union_l, insert_union_r; [done|]. by apply not_elem_of_list_to_map.
  - intros [k' v'] Hkv. cbn [fst]. rewrite lookup_insert_ne; [apply (Hm (k', v')); by right|].
    intros <-. apply Hk, list_elem_of_fmap. by exists (k, v').
Qed.

Lemma map_members l m : Forall (fun kv => valid_utf8 kv.1 = true /\ valid_utf8 kv.2 = true) l ->
  fold_left map_member (map member_json l) (m, false) = (fold_left (fun (m : gmap string string) kv => <[kv.1 := kv.2]> m) l m, false).
Proof.
  intros Hl. revert m. induction Hl as [|[k v] l [Hk Hv] _ IH]; intros m; [done|]. cbn [map fold_left].
  unfold map_member at 2. cbn [member_json fst snd]. rewrite into_jstr, unquote_quote by done. apply IH.
Qed.

Lemma into_map_json m : map_text m -> into_map (map_json m) ∅ = (m, false).
Proof.
  intros Ht. unfold into_map, map_json. rewrite map_members.
  2:{ apply Forall_forall. intros [k v] Hkv. apply sorted_members_lookup in Hkv. by apply Ht. }
  rewrite fold_insert, map_union_empty; [| |set_solver].
  - f_equal. rewrite <- (list_to_map_to_list m) at 2. apply list_to_map_proper, sorted_members_perm.
    rewrite sorted_members_perm. apply NoDup_fst_map_to_list.
  - rewrite sorted_members_perm. apply NoDup_fst_map_to_list.
Qed.

Lemma map_json_wf m : wf (map_json m) = true /\ (jdepth (map_json m) <= 1)%nat.
Proof.
  unfold map_json. generalize (sorted_members m) as l. intros l. split.
  - induction l as [|kv l IH]; [done|]. cbn [map wf forallb] in *. cbn [member_json fst snd].
    by rewrite quote_raw_ok, jstr_wf.
  - cbn [jdepth]. apply le_n_S, (max_list_le (fun kv => jdepth kv.2)), Forall_map, Forall_forall. intros; simpl; lia.
Qed.

Lemma list_json_wf l : wf (list_json l) = true /\ (jdepth (list_json l) <= 1)%nat.
Proof.
  unfold list_json. split.
  - induction l as [|s l IH]; [done|]. cbn [map wf forallb] in *. by rewrite jstr_wf.
  - cbn [jdepth]. apply le_n_S, (max_list_le jdepth), Forall_map, Forall_forall. intros; simpl; lia.
Qed.

(** A map comes back from its JSON. *)
Lemma map_roundtrip m : map_text m -> map_Unmarshal (print (map_json m)) = Ok m.
Proof.
  intros Ht. destruct (map_json_wf m) as [Hw Hd]. unfold map_Unmarshal. pose proof maxNestingDepth_3.
  rewrite parse_print; [|done|lia]. by rewrite into_map_json.
Qed.

(** The last of two members with one key wins; a number among the values is an
    error, a null the empty text. *)
Example map_Unmarshal_samples :
  let m v := "{" +:+ qt +:+ "a" +:+ qt +:+ ":" +:+ qt +:+ "x" +:+ qt +:+ ", " +:+ qt +:+ "a" +:+ qt +:+ ": " +:+ v +:+ "}" in
  map_Unmarshal (m (qt +:+ "y" +:+ qt)) = Ok {["a" := "y"]} /\
  map_Unmarshal (m "null") = Ok {["a" := ""]} /\
  map_Unmarshal (m "1") = Fail UnmarshalTypeError /\
  map_Unmarshal "{" = Fail SyntaxError /\ map_Unmarshal "null" = Ok ∅.
Proof. split_and!; vm_compute; reflexivity. Qed.
