(* ===== verification/GoTime.v ===== *)
(** * Calendar dates and RFC 3339

    The proleptic Gregorian calendar of package time, [Time.Format] and
    [time.Parse] for the layouts RFC3339 and RFC3339Nano.  A [Stamp] is a
    [time.Time] as far as formatting sees it: the instant, and the offset in
    seconds of its location at that instant. *)

From Stdlib Require Import Ascii.
From S2P Require Import Prelude GoError GoString GoJson.

Open Scope Z_scope.

Record Stamp := mkStamp { instant : Time; zone : Z }.

(** ** The calendar *)

Definition leap (y : Z) : bool := (y mod 4 =? 0) && (negb (y mod 100 =? 0) || (y mod 400 =? 0)).

(** Days from January 1 of year 0 to January 1 of year [y]. *)
Definition days_before (y : Z) : Z := 365 * y + (y + 3) / 4 - (y + 99) / 100 + (y + 399) / 400.

(** The year of a day, by estimate and correction. *)
Definition year_of (n : Z) : Z :=
  let y := n * 400 / 146097 in
  if n <? days_before y then y - 1 else if days_before (y + 1) <=? n then y + 1 else y.

Definition month_lengths (l : bool) : list Z :=
  [31; if l then 29 else 28; 31; 30; 31; 30; 31; 31; 30; 31; 30; 31].

(** Month (from [m]) and day of month of day [d] of the months in [l]. *)
Fixpoint locate (l : list Z) (m d : Z) : Z * Z :=
  match l with
  | n :: l => if d <? n then (m, d + 1) else locate l (m + 1) (d - n)
  | [] => (m, d + 1)
  end.

(** Days before month [m] of a year. *)
Fixpoint sum_first (k : nat) (l : list Z) : Z :=
  match k, l with
  | S k, n :: l => n + sum_first k l
  | _, _ => 0
  end.

Definition daysIn (m y : Z) : Z := nth (Z.to_nat (m - 1)) (month_lengths (leap y)) 0.

Definition date_of_day (n : Z) : Z * Z * Z :=
  let y := year_of n in
  let '(m, d) := locate (month_lengths (leap y)) 1 (n - days_before y) in (y, m, d).

Definition day_of_date (y m d : Z) : Z :=
  days_before y + sum_first (Z.to_nat (m - 1)) (month_lengths (leap y)) + (d - 1).

(** January 1, 1970 as a day of this count. *)
Definition epoch_day : Z := 719528.

Definition valid_date (y m d : Z) : bool := (1 <=? m) && (m <=? 12) && (1 <=? d) && (d <=? daysIn m y).

(** [time.Date(y, m, d, hour, minute, sec, ns, UTC)] for a date and time of day that exist. *)
Definition time_of_civil (y m d hour minute sec ns : Z) : Time :=
  ((day_of_date y m d - epoch_day) * 86400 + hour * 3600 + minute * 60 + sec) * Second + ns.

(** ** Format *)

Definition dig (n : Z) : ascii := byte_of (48 + n).
Definition two (n : Z) : string := String (dig (n / 10)) (byte1 (dig (n mod 10))).
Definition four (n : Z) : string :=
  String (dig (n / 1000)) (String (dig (n / 100 mod 10)) (String (dig (n / 10 mod 10)) (byte1 (dig (n mod 10))))).

(** [appendInt] for a width of four *)
Definition append_year (y : Z) : string :=
  let u := Z.abs y in
  (if y <? 0 then "-" else "") +:+ (if u <? 10000 then four u else Itoa u).

(** The offset, in minutes truncated toward zero, or Z. *)
Definition format_zone (off : Z) : string :=
  if off =? 0 then "Z"
  else
    let zone := Z.quot off 60 in
    (if zone <? 0 then "-" else "+") +:+ two (Z.abs zone / 60) +:+ ":" +:+ two (Z.abs zone mod 60).

(** [t.Format(time.RFC3339)] *)
Definition Format_RFC3339 (t : Stamp) : string :=
  let local := instant t / Second + zone t in
  let day := local / 86400 in
  let secs := local mod 86400 in
  let '(y, m, d) := date_of_day (day + epoch_day) in
  append_year y +:+ "-" +:+ two m +:+ "-" +:+ two d +:+ "T" +:+
  two (secs / 3600) +:+ ":" +:+ two (secs / 60 mod 60) +:+ ":" +:+ two (secs mod 60) +:+ format_zone (zone t).

(** A fraction of a second without its trailing zeros, after a point. *)
Fixpoint fraction_digits (k : nat) (ns : Z) : string :=
  match k with
  | O => ""
  | S k => let q := 10 ^ Z.of_nat k in
           if ns =? 0 then "" else String (dig (ns / q)) (fraction_digits k (ns mod q))
  end.
Definition format_nanos (ns : Z) : string := if ns =? 0 then "" else "." +:+ fraction_digits 9 ns.

(** [t.Format(time.RFC3339Nano)] for a time in UTC *)
Definition Format_RFC3339Nano_UTC (t : Time) : string :=
  TrimSuffix (Format_RFC3339 (mkStamp t 0)) "Z" +:+ format_nanos (t mod Second) +:+ "Z".

(** [t.UTC().MarshalJSON()]: years of other than four digits are an error. *)
Definition Time_MarshalJSON (t : Time) : option string :=
  let y := year_of (t / Second / 86400 + epoch_day) in
  if (0 <=? y) && (y <=? 9999) then Some (Format_RFC3339Nano_UTC t) else None.

Example format_3 : Format_RFC3339Nano_UTC (1709192096 * Second + 250000000) = "2024-02-29T07:34:56.25Z".
Proof. reflexivity. Qed.
Example format_4 : Format_RFC3339Nano_UTC (1709192096 * Second + 1) = "2024-02-29T07:34:56.000000001Z".
Proof. reflexivity. Qed.

(** ** Parse *)

Definition dval (a : ascii) : Z := code a - 48.

(** [getnum(s, true)] *)
Definition get2 (s : string) : option (Z * string) :=
  match s with
  | String a (String b r) => if is_digit a && is_digit b then Some (dval a * 10 + dval b, r) else None
  | _ => None
  end.

(** [getnum(s, false)]: one digit is enough. *)
Definition getnum (s : string) : option (Z * string) :=
  match s with
  | String a s1 =>
    if is_digit a then
      match s1 with
      | String b r => if is_digit b then Some (dval a * 10 + dval b, r) else Some (dval a, s1)
      | EmptyString => Some (dval a, s1)
      end
    else None
  | EmptyString => None
  end.

Definition get_year (s : string) : option (Z * string) :=
  match s with
  | String a (String b (String c (String d r))) =>
    if is_digit a && is_digit b && is_digit c && is_digit d
    then Some (dval a * 1000 + dval b * 100 + dval c * 10 + dval d, r) else None
  | _ => None
  end.

(** A literal byte of the layout. *)
Definition lit (a : ascii) (s : string) : option string :=
  match s with
  | String b r => if Ascii.eqb a b then Some r else None
  | EmptyString => None
  end.

Definition below (n : Z) (p : option (Z * string)) : option (Z * string) :=
  '(v, r) ← p; if v <? n then Some (v, r) else None.

Fixpoint digits_value (n : Z) (s : string) : Z :=
  match s with
  | String a r => digits_value (n * 10 + dval a) r
  | EmptyString => n
  end.

(** [parseNanoseconds]: at most nine digits count. *)
Definition nanoseconds (d : string) : Z :=
  let d := take_string 9 d in digits_value 0 d * 10 ^ (9 - Z.of_nat (String.length d)).

(** A point or a comma and at least one digit, or nothing. *)
Definition get_fraction (s : string) : Z * string :=
  match s with
  | String a s1 =>
    if Ascii.eqb a "." || Ascii.eqb a "," then
      let (d, r) := digits s1 in if bool_decide (d = "") then (0, s) else (nanoseconds d, r)
    else (0, s)
  | EmptyString => (0, s)
  end.

(** Z, or a signed offset of hours and minutes: up to 24 hours, up to 60 minutes. *)
Definition get_zone (s : string) : option (Z * string) :=
  match s with
  | String a s1 =>
    if Ascii.eqb a "Z" then Some (0, s1)
    else
      '(hr, s2) ← get2 s1;
      s3 ← lit ":" s2;
      '(mm, s4) ← get2 s3;
      if (24 <? hr) || (60 <? mm) then None
      else if Ascii.eqb a "+" then Some ((hr * 60 + mm) * 60, s4)
      else if Ascii.eqb a "-" then Some (- ((hr * 60 + mm) * 60), s4)
      else None
  | EmptyString => None
  end.

(** The layout RFC3339Nano has an optional fraction there: the digits are counted
    first. *)
Fixpoint digit_count (s : string) : nat :=
  match s with
  | String a r => if is_digit a then S (digit_count r) else O
  | EmptyString => O
  end.

Definition get_fraction9 (s : string) : Z * string :=
  match s with
  | String a (String b r) =>
    if negb (Ascii.eqb a "." || Ascii.eqb a ",") || negb (is_digit b) then (0, s)
    else let i := digit_count (String b r) in
         (nanoseconds (take_string i (String b r)), drop_string i (String b r))
  | _ => (0, s)
  end.

(** [parse], given what it does between the seconds and the zone: years, months,
    days, minutes and seconds have all their digits, the hour may have one. *)
Definition parse_layout (fraction : string -> Z * string) (s : string) : option Stamp :=
  '(y, s) ← get_year s;
  s ← lit "-" s;
  '(m, s) ← get2 s;
  if (m <=? 0) || (12 <? m) then None else
  s ← lit "-" s;
  '(d, s) ← get2 s;
  s ← lit "T" s;
  '(hour, s) ← below 24 (getnum s);
  s ← lit ":" s;
  '(minute, s) ← below 60 (get2 s);
  s ← lit ":" s;
  '(sec, s) ← below 60 (get2 s);
  let '(ns, s) := fraction s in
  '(off, s) ← get_zone s;
  if negb (bool_decide (s = "")) then None
  else if (d <? 1) || (daysIn m y <? d) then None
  else Some (mkStamp (time_of_civil y m d hour minute sec ns - off * Second) off).

(** [time.Parse(time.RFC3339, s)] and [time.Parse(time.RFC3339Nano, s)] *)
Definition Parse_RFC3339 (s : string) : option Stamp := parse_layout get_fraction s.
Definition Parse_RFC3339Nano (s : string) : option Stamp := parse_layout get_fraction9 s.

Example format_1 : Format_RFC3339 (mkStamp (1709210096 * Second + 5) 18000) = "2024-02-29T17:34:56+05:00".
Proof. reflexivity. Qed.
Example format_2 : Format_RFC3339 (mkStamp zero_time 0) = "0001-01-01T00:00:00Z".
Proof. reflexivity. Qed.
Example parse_1 : Parse_RFC3339 "2024-02-29T7:34:56.25Z" = Some (mkStamp (1709192096 * Second + 250000000) 0).
Proof. reflexivity. Qed.
Example parse_2 : Parse_RFC3339 "2023-02-29T17:34:56Z" = None.
Proof. reflexivity. Qed.
Example parse_3 : Parse_RFC3339 "1969-12-31T23:59:59-24:60" = Some (mkStamp (89999 * Second) (-90000)).
Proof. reflexivity. Qed.

(** ** The calendar is a bijection *)

Lemma days_before_succ y : days_before (y + 1) = days_before y + (if leap y then 366 else 365).
Proof.
  unfold days_before, leap.
  assert ((y + 1 + 3) / 4 = (y + 3) / 4 + (if y mod 4 =? 0 then 1 else 0)) as -> by
    (destruct (Z.eqb_spec (y mod 4) 0); Z.to_euclidean_division_equations; lia).
  assert ((y + 1 + 99) / 100 = (y + 99) / 100 + (if y mod 100 =? 0 then 1 else 0)) as -> by
    (destruct (Z.eqb_spec (y mod 100) 0); Z.to_euclidean_division_equations; lia).
  assert ((y + 1 + 399) / 400 = (y + 399) / 400 + (if y mod 400 =? 0 then 1 else 0)) as -> by
    (destruct (Z.eqb_spec (y mod 400) 0); Z.to_euclidean_division_equations; lia).
  assert (y mod 400 = 0 -> y mod 100 = 0) by (intros; Z.to_euclidean_division_equations; lia).
  assert (y mod 100 = 0 -> y mod 4 = 0) by (intros; Z.to_euclidean_division_equations; lia).
  destruct (Z.eqb_spec (y mod 4) 0), (Z.eqb_spec (y mod 100) 0), (Z.eqb_spec (y mod 400) 0); cbn; lia.
Qed.

Lemma days_before_bounds y : 146097 * y - 396 <= 400 * days_before y <= 146097 * y + 699.
Proof. unfold days_before. Z.to_euclidean_division_equations; lia. Qed.

Lemma days_before_mono y y' : y < y' -> days_before (y + 1) <= days_before y'.
Proof.
  intros H. assert (exists k, y' = y + 1 + Z.of_nat k) as [k ->] by (exists (Z.to_nat (y' - y - 1)); lia). clear H.
  induction k as [|k IH]; [rewrite Z.add_0_r; lia|].
  replace (y + 1 + Z.of_nat (S k)) with (y + 1 + Z.of_nat k + 1) by lia.
  rewrite (days_before_succ (y + 1 + Z.of_nat k)). destruct (leap (y + 1 + Z.of_nat k)); lia.
Qed.

Lemma year_of_spec n : days_before (year_of n) <= n < days_before (year_of n + 1).
Proof.
  unfold year_of. cbv zeta. set (y := n * 400 / 146097).
  assert (146097 * y <= n * 400 < 146097 * y + 146097) as Hy by (subst y; Z.to_euclidean_division_equations; lia).
  pose proof (days_before_bounds y). pose proof (days_before_bounds (y + 1)).
  pose proof (days_before_bounds (y + 2)). pose proof (days_before_bounds (y - 1)).
  destruct (Z.ltb_spec n (days_before y)).
  - replace (y - 1 + 1) with y by lia. lia.
  - destruct (Z.leb_spec (days_before (y + 1)) n); [|lia]. replace (y + 1 + 1) with (y + 2) by lia. lia.
Qed.

Lemma year_of_unique n y : days_before y <= n < days_before (y + 1) -> year_of n = y.
Proof.
  intros H. pose proof (year_of_spec n) as H'. destruct (Z.lt_trichotomy (year_of n) y) as [Hl|[Hl|Hl]]; [|done|].
  - apply days_before_mono in Hl. lia.
  - apply days_before_mono in Hl. lia.
Qed.

Lemma locate_spec l m d : 0 <= d < foldr Z.add 0 l -> Forall (fun n => 0 <= n) l ->
  let '(m', d') := locate l m d in
  m <= m' < m + Z.of_nat (length l) /\ 1 <= d' <= nth (Z.to_nat (m' - m)) l 0 /\
  sum_first (Z.to_nat (m' - m)) l + (d' - 1) = d.
Proof.
  revert m d. induction l as [|n l IH]; intros m d Hd Hl; cbn [foldr locate] in *; [lia|].
  apply Forall_cons in Hl as [Hn Hl]. destruct (Z.ltb_spec d n).
  - rewrite Z.sub_diag. change (Z.to_nat 0) with O. cbn [nth sum_first length]. lia.
  - specialize (IH (m + 1) (d - n) ltac:(lia) Hl). destruct (locate l (m + 1) (d - n)) as [m' d'].
    destruct IH as (H1 & H2 & H3).
    replace (Z.to_nat (m' - m)) with (S (Z.to_nat (m' - (m + 1)))) by lia. cbn [nth sum_first length]. lia.
Qed.

Lemma sum_first_bounds l k : Forall (fun n => 0 <= n) l ->
  0 <= sum_first k l /\ ((k < length l)%nat -> sum_first k l + nth k l 0 <= foldr Z.add 0 l).
Proof.
  intros Hl. revert k. induction Hl as [|x l Hx Hl IH]; intros [|k]; cbn [sum_first nth foldr length].
  - split; [lia|simpl; lia].
  - split; [lia|simpl; lia].
  - split; [lia|]. intros _. assert (0 <= foldr Z.add 0 l); [|lia]. clear -Hl. induction Hl; cbn; lia.
  - destruct (IH k) as [H1 H2]. split; [lia|]. intros Hk. specialize (H2 ltac:(lia)). lia.
Qed.

Lemma locate_sum l m k d : Forall (fun n => 0 <= n) l -> (k < length l)%nat -> 1 <= d <= nth k l 0 ->
  locate l m (sum_first k l + (d - 1)) = (m + Z.of_nat k, d).
Proof.
  revert m k. induction l as [|n l IH]; intros m k Hl Hk Hd; [simpl in Hk; lia|].
  apply Forall_cons in Hl as [Hn Hl]. destruct k as [|k]; cbn [nth sum_first locate length] in *.
  - destruct (Z.ltb_spec (0 + (d - 1)) n); [|lia]. f_equal; lia.
  - destruct (sum_first_bounds l k Hl) as [Hpos _].
    destruct (Z.ltb_spec (n + sum_first k l + (d - 1)) n); [lia|].
    replace (n + sum_first k l + (d - 1) - n) with (sum_first k l + (d - 1)) by lia.
    rewrite IH by (done || lia). f_equal. lia.
Qed.

Lemma month_lengths_ok l : Forall (fun n => 0 <= n) (month_lengths l) /\ length (month_lengths l) = 12%nat /\
  foldr Z.add 0 (month_lengths l) = if l then 366 else 365.
Proof. destruct l; split_and!; try done; repeat constructor; lia. Qed.

(** Every day has a date that exists, and the date leads back to the day. *)
Lemma date_of_day_spec n : let '(y, m, d) := date_of_day n in valid_date y m d = true /\ day_of_date y m d = n.
Proof.
  unfold date_of_day. pose proof (year_of_spec n) as Hy. rewrite days_before_succ in Hy. set (y := year_of n) in *.
  destruct (month_lengths_ok (leap y)) as (Hn & Hlen & Hsum).
  pose proof (locate_spec (month_lengths (leap y)) 1 (n - days_before y)) as H.
  destruct (locate (month_lengths (leap y)) 1 (n - days_before y)) as [m d].
  destruct H as (Hm & Hd & Hs); [rewrite Hsum; destruct (leap y); lia|done|].
  unfold valid_date, daysIn, day_of_date. rewrite Hlen in Hm. split; [|lia]. lia.
Qed.

Lemma day_of_date_of y m d : valid_date y m d = true -> date_of_day (day_of_date y m d) = (y, m, d).
Proof.
  unfold valid_date, daysIn. intros H. to_prop. destruct (month_lengths_ok (leap y)) as (Hn & Hlen & Hsum).
  pose proof (locate_sum (month_lengths (leap y)) 1 (Z.to_nat (m - 1)) d Hn ltac:(rewrite Hlen; lia) ltac:(lia)) as Hl.
  assert (year_of (day_of_date y m d) = y) as Hyear.
  { apply year_of_unique. rewrite days_before_succ. unfold day_of_date.
    destruct (sum_first_bounds (month_lengths (leap y)) (Z.to_nat (m - 1)) Hn) as [Hpos Hle].
    specialize (Hle ltac:(rewrite Hlen; lia)). rewrite Hsum in Hle. destruct (leap y); lia. }
  unfold date_of_day. rewrite Hyear. unfold day_of_date.
  replace (days_before y + sum_first (Z.to_nat (m - 1)) (month_lengths (leap y)) + (d - 1) - days_before y)
    with (sum_first (Z.to_nat (m - 1)) (month_lengths (leap y)) + (d - 1)) by lia.
  rewrite Hl. repeat f_equal; lia.
Qed.

Lemma daysIn_le m y : daysIn m y <= 31.
Proof.
  unfold daysIn. generalize (Z.to_nat (m - 1)) as n. intros n.
  destruct (leap y); do 12 (destruct n as [|n]; [cbn; lia|]); cbn; destruct n; lia.
Qed.

Lemma valid_date_range y m d : valid_date y m d = true -> 1 <= m <= 12 /\ 1 <= d <= 31.
Proof. unfold valid_date. pose proof (daysIn_le m y). lia. Qed.

(** ** Formatting and parsing *)

Lemma dig_spec n : 0 <= n < 10 -> is_digit (dig n) = true /\ dval (dig n) = n.
Proof. intros Hn. unfold is_digit, dval, dig. rewrite code_byte_of by lia. lia. Qed.

Lemma get2_two n t : 0 <= n < 100 -> get2 (two n +:+ t) = Some (n, t).
Proof.
  intros Hn. unfold two. cbn [String.append byte1 get2].
  destruct (dig_spec (n / 10)) as [-> ->]; [Z.to_euclidean_division_equations; lia|].
  destruct (dig_spec (n mod 10)) as [-> ->]; [Z.to_euclidean_division_equations; lia|]. cbn [andb].
  do 2 f_equal. Z.to_euclidean_division_equations; lia.
Qed.

Lemma getnum_two n t : 0 <= n < 100 -> getnum (two n +:+ t) = Some (n, t).
Proof.
  intros Hn. pose proof (get2_two n t Hn) as H. unfold two in *. cbn [String.append byte1 get2 getnum] in *.
  destruct (is_digit (dig (n / 10))), (is_digit (dig (n mod 10))); try done.
Qed.

Lemma get_year_four n t : 0 <= n < 10000 -> get_year (append_year n +:+ t) = Some (n, t).
Proof.
  intros Hn. unfold append_year. cbv zeta. rewrite Z.abs_eq by lia.
  destruct (Z.ltb_spec n 0), (Z.ltb_spec n 10000); try lia. unfold four. cbn [String.append byte1 get_year].
  destruct (dig_spec (n / 1000)) as [-> ->]; [Z.to_euclidean_division_equations; lia|].
  destruct (dig_spec (n / 100 mod 10)) as [-> ->]; [Z.to_euclidean_division_equations; lia|].
  destruct (dig_spec (n / 10 mod 10)) as [-> ->]; [Z.to_euclidean_division_equations; lia|].
  destruct (dig_spec (n mod 10)) as [-> ->]; [Z.to_euclidean_division_equations; lia|]. cbn [andb].
  do 2 f_equal. Z.to_euclidean_division_equations; lia.
Qed.

(** Offsets the format can express: whole minutes, less than 25 hours. *)
Definition zone_ok (off : Z) : bool := (off mod 60 =? 0) && (Z.abs off <? 90000).

Lemma get_zone_format off : zone_ok off = true ->
  get_zone (format_zone off) = Some (off, "") /\ get_fraction (format_zone off) = (0, format_zone off).
Proof.
  unfold zone_ok, format_zone. intros H. to_prop. destruct (Z.eqb_spec off 0) as [->|Hne]; [done|]. cbv zeta.
  assert (Z.quot off 60 = off / 60) as -> by (Z.to_euclidean_division_equations; lia).
  set (q := off / 60). assert (off = q * 60) as Hq by (subst q; Z.to_euclidean_division_equations; lia).
  assert (0 <= Z.abs q / 60 <= 24 /\ 0 <= Z.abs q mod 60 < 60) as [Hh Hm] by (Z.to_euclidean_division_equations; lia).
  assert (Z.abs q / 60 * 60 + Z.abs q mod 60 = Z.abs q) as Hdm by (Z.to_euclidean_division_equations; lia).
  assert (forall t : option (Z * string), (if (24 <? Z.abs q / 60) || (60 <? Z.abs q mod 60) then None else t) = t) as Hr.
  { intros t. by rewrite (proj2 (Z.ltb_ge _ _)), (proj2 (Z.ltb_ge _ _)) by lia. }
  rewrite <- (app_nil_r_str (two (Z.abs q mod 60))).
  destruct (Z.ltb_spec q 0); (split; [|done]); cbn [get_zone];
    [change ("-" +:+ ?x) with (String "-" x)|change ("+" +:+ ?x) with (String "+" x)]; cbn [get_zone];
    change (Ascii.eqb "-" "Z") with false; change (Ascii.eqb "+" "Z") with false; cbv iota;
    (rewrite get2_two by lia); cbn [mbind option_bind lit String.append];
    change (Ascii.eqb ":" ":") with true; cbv iota; cbn [mbind option_bind];
    (rewrite get2_two by lia); cbn [mbind option_bind]; rewrite Hr, Hdm; cbn; do 2 f_equal; lia.
Qed.

Lemma lit_app a t : lit a (byte1 a +:+ t) = Some t.
Proof. cbn. by rewrite Ascii.eqb_refl. Qed.

Lemma below_some n v r : v < n -> below n (Some (v, r)) = Some (v, r).
Proof. intros H. unfold below. cbn. by rewrite (proj2 (Z.ltb_lt _ _)). Qed.

(** The year the text shows. *)
Definition local_day (t : Stamp) : Z := (instant t / Second + zone t) / 86400 + epoch_day.
Definition shown_year (t : Stamp) : Z := year_of (local_day t).

(** What formatting keeps: the second. *)
Definition whole (t : Stamp) : Stamp := mkStamp (instant t / Second * Second) (zone t).

Lemma Parse_Format t : 0 <= shown_year t <= 9999 -> zone_ok (zone t) = true ->
  Parse_RFC3339 (Format_RFC3339 t) = Some (whole t).
Proof.
  intros Hy Hz. destruct (get_zone_format _ Hz) as [Hzone Hfrac].
  unfold Format_RFC3339, whole. cbv zeta. unfold shown_year in Hy. fold (local_day t).
  set (sec := instant t / Second) in *. set (secs := (sec + zone t) mod 86400).
  assert (0 <= secs < 86400) as Hs by (apply Z.mod_pos_bound; lia).
  pose proof (date_of_day_spec (local_day t)) as Hd.
  assert ((date_of_day (local_day t)).1.1 = year_of (local_day t)) as Hyear.
  { unfold date_of_day. cbv zeta. by destruct (locate _ _ _). }
  destruct (date_of_day (local_day t)) as [[y m] d]. cbn [fst] in Hyear. subst y. destruct Hd as [Hv Hday].
  pose proof (valid_date_range _ _ _ Hv) as [Hm1 Hd1]. unfold valid_date in Hv. to_prop.
  unfold Parse_RFC3339, parse_layout.
  change ("-" +:+ ?x) with (byte1 "-" +:+ x). change (":" +:+ ?x) with (byte1 ":" +:+ x).
  change ("T" +:+ ?x) with (byte1 "T" +:+ x).
  assert (0 <= secs / 3600 < 24 /\ 0 <= secs / 60 mod 60 < 60 /\ 0 <= secs mod 60 < 60) as (Hh & Hm & Hsec)
    by (Z.to_euclidean_division_equations; lia).
  rewrite get_year_four by lia. cbn [mbind option_bind]. rewrite lit_app. cbn [mbind option_bind].
  rewrite get2_two by lia. cbn [mbind option_bind]. rewrite (proj2 (Z.leb_gt m 0)), (proj2 (Z.ltb_ge 12 m)) by lia.
  cbn [orb]. rewrite lit_app. cbn [mbind option_bind]. rewrite get2_two by lia. cbn [mbind option_bind].
  rewrite lit_app. cbn [mbind option_bind]. rewrite getnum_two, below_some by lia. cbn [mbind option_bind].
  rewrite lit_app. cbn [mbind option_bind]. rewrite get2_two, below_some by lia. cbn [mbind option_bind].
  rewrite lit_app. cbn [mbind option_bind]. rewrite get2_two, below_some by lia. cbn [mbind option_bind].
  rewrite Hfrac. cbn [mbind option_bind]. rewrite Hzone. cbn [mbind option_bind negb].
  rewrite bool_decide_eq_true_2 by done. cbn [negb].
  rewrite (proj2 (Z.ltb_ge d 1)), (proj2 (Z.ltb_ge (daysIn m _) d)) by lia. cbn [orb].
  do 2 f_equal. unfold time_of_civil. rewrite Hday. unfold local_day. fold sec.
  assert (sec + zone t = (sec + zone t) / 86400 * 86400 + secs) by (subst secs; Z.to_euclidean_division_equations; lia).
  assert (secs = secs / 3600 * 3600 + secs / 60 mod 60 * 60 + secs mod 60) by (Z.to_euclidean_division_equations; lia).
  unfold Second. lia.
Qed.

(** The second layout accepts nothing the first does not. *)
Lemma get_fraction9_eq s : get_fraction9 s = get_fraction s.
Proof.
  assert (forall s, take_string (digit_count s) s = (digits s).1 /\ drop_string (digit_count s) s = (digits s).2) as Hd.
  { clear. induction s as [|a s [IH1 IH2]]; [done|]. cbn [digit_count digits].
    destruct (is_digit a); [|done]. destruct (digits s) as [d r]. cbn. by rewrite IH1. }
  destruct s as [|a [|b r]]; [done| |]; cbn [get_fraction get_fraction9].
  - cbn. by destruct (Ascii.eqb a "." || Ascii.eqb a ",").
  - destruct (Ascii.eqb a "." || Ascii.eqb a ","); [|done]. destruct (Hd (String b r)) as [-> ->]. cbn [negb orb].
    cbn [digits]. destruct (is_digit b); [|done]. by destruct (digits r).
Qed.

Lemma Nano_is_RFC3339 s : Parse_RFC3339Nano s = Parse_RFC3339 s.
Proof.
  unfold Parse_RFC3339Nano, Parse_RFC3339, parse_layout.
  repeat match goal with
  | |- (?p ≫= _) = (?p ≫= _) => destruct p as [[? ?]|]; [cbn [mbind option_bind]|done]
  | |- (?p ≫= _) = (?p ≫= _) => destruct p as [?|]; [cbn [mbind option_bind]|done]
  | |- (if ?b then None else _) = _ => destruct b; [done|]
  end.
  by rewrite get_fraction9_eq.
Qed.
