(* ===== verification/Jwks.v ===== *)
(** * jwt/jwks.go: RSA keys as JWKs and the JWKS cache

    What the HTTP client answers is a parameter.  A cache's mutable part, what its mutex protects, is [keyset]; a run threads it
    with the number of interactions (clock readings and fetches) so far and the
    times fetches were attempted at.  [refreshMu] serialises on-demand refreshes,
    so calls of [publicKey] are modelled one after the other. *)

From Stdlib Require Import Ascii.
From S2P Require Import Prelude GoError GoString Encoding GoJson GoJsonString.

Open Scope Z_scope.

Definition ErrUnknownKID : error := Err "jwt.ErrUnknownKID" "jwt: unknown key id" [].
Definition ErrStaleJWKS : error := Err "jwt.ErrStaleJWKS" "jwt: JWKS cache is stale" [].

Record rsa_PublicKey := mkPub { pk_N : Z; pk_E : Z }.

#[export] Instance rsa_PublicKey_eq_dec : EqDecision rsa_PublicKey.
Proof. solve_decision. Defined.

Definition minRefetchInterval : Duration := 30 * Second.
Definition defaultJWKSMaxStale : Duration := 24 * Hour.
Definition maxRSAModulusBits : Z := 8192.
(** [1 << 20] *)
Definition maxJWKSBytes : Z := 1048576.

Record jwkKey := mkJwk { Kty : string; Kid : string; Use : string; Alg : string; JN : string; JE : string }.

(** ** The document *)

(** [json.Marshal(jwkSet{Keys: ks})], the slice not being nil. *)
Definition jwk_json (k : jwkKey) : json :=
  JObj ([("kty", jstr (Kty k)); ("kid", jstr (Kid k))] ++
        omit (bool_decide (Use k = "")) ("use", jstr (Use k)) ++
        omit (bool_decide (Alg k = "")) ("alg", jstr (Alg k)) ++
        [("n", jstr (JN k)); ("e", jstr (JE k))]).
Definition jwkSet_json (ks : list jwkKey) : json := JObj [("keys", JArr (map jwk_json ks))].
Definition jwkSet_Marshal (ks : list jwkKey) : string := print (jwkSet_json ks).

Definition zero_jwk : jwkKey := mkJwk "" "" "" "" "" "".

Definition jwk_member (st : jwkKey * bool) (kv : string * json) : jwkKey * bool :=
  let (n, v) := kv in
  let k := st.1 in
  if same_name "kty" n then store (into_string v (Kty k)) (fun s => mkJwk s (Kid k) (Use k) (Alg k) (JN k) (JE k)) st
  else if same_name "kid" n then
    store (into_string v (Kid k)) (fun s => mkJwk (Kty k) s (Use k) (Alg k) (JN k) (JE k)) st
  else if same_name "use" n then
    store (into_string v (Use k)) (fun s => mkJwk (Kty k) (Kid k) s (Alg k) (JN k) (JE k)) st
  else if same_name "alg" n then
    store (into_string v (Alg k)) (fun s => mkJwk (Kty k) (Kid k) (Use k) s (JN k) (JE k)) st
  else if same_name "n" n then
    store (into_string v (JN k)) (fun s => mkJwk (Kty k) (Kid k) (Use k) (Alg k) s (JE k)) st
  else if same_name "e" n then
    store (into_string v (JE k)) (fun s => mkJwk (Kty k) (Kid k) (Use k) (Alg k) (JN k) s) st
  else st.

(** An element of the array into a struct that may hold values already. *)
Definition into_jwk (v : json) (k : jwkKey) : jwkKey * bool :=
  match v with
  | JObj l => fold_left jwk_member l (k, false)
  | JNull => (k, false)
  | _ => (k, true)
  end.

(** The elements of an array into the slice's array [old], which a repeated
    member finds filled; [true] if some element has a type error. *)
Fixpoint into_jwks (l : list json) (old : list jwkKey) : list jwkKey * bool :=
  match l with
  | [] => (old, false)
  | v :: l =>
    let (k, bad) := into_jwk v (default zero_jwk (head old)) in
    let (ks, bads) := into_jwks l (tail old) in (k :: ks, bad || bads)
  end.

(** The slice: its array and its length; null and the empty array reset it. *)
Definition jwkSet_member (st : list jwkKey * nat * bool) (kv : string * json) : list jwkKey * nat * bool :=
  let '(arr, len, bad) := st in
  if same_name "keys" kv.1 then
    match kv.2 with
    | JNull | JArr [] => ([], O, bad)
    | JArr l => let (arr, b) := into_jwks l arr in (arr, length l, bad || b)
    | _ => (arr, len, true)
    end
  else st.

(** [var set jwkSet; json.Unmarshal(raw, &set)]; [set.Keys] *)
Definition jwkSet_Unmarshal (raw : string) : result error (list jwkKey) :=
  match parse raw with
  | None => Fail SyntaxError
  | Some JNull => Ok []
  | Some (JObj l) =>
    let '(arr, len, bad) := fold_left jwkSet_member l ([], O, false) in
    if (bad : bool) then Fail UnmarshalTypeError else Ok (take len arr)
  | Some _ => Fail UnmarshalTypeError
  end.

(** ** Fetching it *)

Record Response := mkResponse { StatusCode : Z; Body : string; ReadErr : Error; CloseErr : Error }.

(** The fetcher of [newJWKSCache]: what [http.NewRequestWithContext] and the
    client answer at the [n]-th interaction are parameters. *)
Definition http_fetch (new_request : Error) (client_Do : nat -> result error Response) (n : nat) : result error string :=
  match new_request with
  | Some err => Fail err
  | None =>
    let? resp := client_Do n in
    let raw := take_string (Z.to_nat maxJWKSBytes) (Body resp) in
    match ReadErr resp, CloseErr resp with
    | Some readErr, _ => Fail (Wrapf "jwks: read response" readErr)
    | None, Some closeErr => Fail (Wrapf "jwks: close response body" closeErr)
    | None, None =>
      if negb (StatusCode resp =? 200) then Fail (New "jwks: unexpected status") else Ok raw
    end
  end.

(** ** validateJWKSURL *)

(** [net/url]'s parser is a parameter; the scheme and the host are used. *)
Definition validateJWKSURL (url_Parse : string -> result error (string * string)) (raw : string) : Error :=
  match url_Parse raw with
  | Fail err => Some (Wrapf "jwt: invalid JWKS URL" err)
  | Ok (scheme, host) =>
      if negb (bool_decide (scheme = "http")) && negb (bool_decide (scheme = "https"))
      then Some (New "jwt: JWKS URL must be http(s)")
      else if bool_decide (host = "") then Some (New "jwt: JWKS URL has no host")
      else None
  end.

(** ** Keys *)

(** [for _, b := range eBytes { e = e<<8 | int(b) }] *)
Definition exponent (l : list ascii) : Z :=
  fold_left (fun e b => Z.lor (wrap64 (Z.shiftl e 8)) (code b)) l 0.

Definition parseRSAJWK (k : jwkKey) : result error rsa_PublicKey :=
  let? nBytes := map_err (Wrapf "decode modulus") (Base64.DecodeString Base64.RawURLEncoding (JN k)) in
  let? eBytes := map_err (Wrapf "decode exponent") (Base64.DecodeString Base64.RawURLEncoding (JE k)) in
  let e := exponent (String.list_ascii_of_string eBytes) in
  if e <? 2 then Fail (New "invalid RSA exponent")
  else
    let n := BigInt.SetBytes (String.list_ascii_of_string nBytes) in
    if maxRSAModulusBits <? BigInt.BitLen n then Fail (New "RSA modulus too large")
    else Ok (mkPub n e).

Definition rsaPublicToJWK (pub : rsa_PublicKey) (kid : string) : jwkKey :=
  let eBytes := String.string_of_list_ascii (BigInt.Bytes (pk_E pub)) in
  mkJwk "RSA" kid "sig" "RS256"
    (Base64.EncodeToString Base64.RawURLEncoding (String.string_of_list_ascii (BigInt.Bytes (pk_N pub))))
    (Base64.EncodeToString Base64.RawURLEncoding eBytes).

(** The loop of [parseJWKS], over the keys that remain. *)
Fixpoint parse_keys (ks : list jwkKey) (out : gmap string rsa_PublicKey) (skipped : bool)
    : result error (gmap string rsa_PublicKey * bool) :=
  match ks with
  | [] => Ok (out, skipped)
  | k :: ks =>
      if negb (bool_decide (Kty k = "RSA")) then parse_keys ks out true
      else let? pub := parseRSAJWK k in parse_keys ks (<[Kid k := pub]> out) skipped
  end.

Definition parseJWKS (raw : string) : result error (gmap string rsa_PublicKey) :=
  let? set := jwkSet_Unmarshal raw in
  let? parsed := parse_keys set ∅ false in
  let (out, skipped) := (parsed : gmap string rsa_PublicKey * bool) in
  if bool_decide (out = ∅) then
    if skipped then Fail (New "no RSA keys present; found non-RSA kty")
    else Fail (New "no keys present")
  else Ok out.

(** ** The cache *)

Record keyset := mkKeyset {
  keys : gmap string rsa_PublicKey;
  lastFetch : Time;
  lastAttempt : Time
}.

Record jwksCache := mkCache {
  refreshEvery : Duration;
  timeout : Duration;
  maxStale : Duration
}.

(** The environment: what the clock reads, and what a fetch returns, at the
    [n]-th interaction. *)
Record Net := mkNet {
  now : nat -> Time;
  fetch : nat -> result error string
}.

Record W := mkW { wclk : nat; ks : keyset; fetches : list Time }.

Definition newJWKSCacheWithFetcherMaxStale (refresh timeout maxStale : Duration) : jwksCache :=
  let maxStale := if maxStale <=? 0 then defaultJWKSMaxStale else maxStale in
  mkCache refresh timeout maxStale.

Definition newJWKSCacheWithFetcher (refresh timeout : Duration) : jwksCache :=
  newJWKSCacheWithFetcherMaxStale refresh timeout defaultJWKSMaxStale.

Definition empty_keyset : keyset := mkKeyset ∅ zero_time zero_time.

Section Cache.
Context (net : Net) (c : jwksCache).

Definition time_Now (w : W) : Time * W := (now net (wclk w), mkW (S (wclk w)) (ks w) (fetches w)).

Definition refreshNow (w : W) : Error * W :=
  let (t, w) := time_Now w in
  let w := mkW (wclk w) (mkKeyset (keys (ks w)) (lastFetch (ks w)) t) (fetches w ++ [t]) in
  let out := fetch net (wclk w) in
  let w := mkW (S (wclk w)) (ks w) (fetches w) in
  match out with
  | Fail err => (Some (Wrapf "jwks: fetch" err), w)
  | Ok raw =>
      match parseJWKS raw with
      | Fail err => (Some (Wrapf "jwks: parse" err), w)
      | Ok new =>
          let (t, w) := time_Now w in
          (None, mkW (wclk w) (mkKeyset new t (lastAttempt (ks w))) (fetches w))
      end
  end.

Definition snapshot (kid : string) (w : W) : option rsa_PublicKey * Time * Time :=
  (keys (ks w) !! kid, lastFetch (ks w), lastAttempt (ks w)).

Definition isStale (lastFetch : Time) (w : W) : bool * W :=
  if IsZero lastFetch then (true, w)
  else let (t, w) := time_Now w in (maxStale c <? Since t lastFetch, w).

(** [key == nil || c.isStale(lastFetch)], the clock being read only if needed. *)
Definition missing_or_stale (key : option rsa_PublicKey) (lastFetch : Time) (w : W) : bool * W :=
  match key with None => (true, w) | Some _ => isStale lastFetch w end.

(** The tail of [publicKey], after the rate-limited refresh. *)
Definition resolve (kid : string) (w : W) : result error rsa_PublicKey * W :=
  let '(key, lastFetch, _) := snapshot kid w in
  match key with
  | Some k =>
      let (stale, w) := isStale lastFetch w in
      if stale then (Fail (Detailf ErrStaleJWKS "last successful refresh ago"), (time_Now w).2)
      else (Ok k, w)
  | None => (Fail (Detailf ErrUnknownKID "kid"), w)
  end.

(** The section of [publicKey] under [refreshMu]. *)
Definition refresh_locked (kid : string) (w : W) : result error rsa_PublicKey * W :=
  let '(key, lastFetch, lastAttempt) := snapshot kid w in
  let (t, w) := time_Now w in
  let throttled := Since t lastAttempt <=? minRefetchInterval in
  let (bad, w) := missing_or_stale key lastFetch w in
  if bad && negb throttled then
    let (refreshErr, w) := refreshNow w in
    let '(key, lastFetch, _) := snapshot kid w in
    match refreshErr, key with
    | Some err, Some _ =>
        let (stale, w) := isStale lastFetch w in
        if stale then
          (Fail (Err "*fmt.wrapErrors" "jwt: JWKS cache is stale; refresh failed" [ErrStaleJWKS; err]),
           (time_Now w).2)
        else resolve kid w
    | _, _ => resolve kid w
    end
  else resolve kid w.

Definition publicKey (kid : string) (w : W) : result error rsa_PublicKey * W :=
  let '(key, lastFetch, lastAttempt) := snapshot kid w in
  let (bad, w) := missing_or_stale key lastFetch w in
  match key, bad with
  | Some k, false => (Ok k, w)
  | _, _ =>
      let (t, w) := time_Now w in
      if minRefetchInterval <? Since t lastAttempt then refresh_locked kid w else resolve kid w
  end.

(** [start]: the synchronous preload (the background loop repeats it). *)
Definition start (w : W) : Error * W := refreshNow w.

(** Token validations resolve one key after the other. *)
Fixpoint resolve_all (kids : list string) (w : W) : list (result error rsa_PublicKey) * W :=
  match kids with
  | [] => ([], w)
  | kid :: kids =>
      let (r, w) := publicKey kid w in
      let (rs, w) := resolve_all kids w in
      (r :: rs, w)
  end.
End Cache.

(** ** Keys survive publication *)

Lemma lor_shift8 x b : 0 <= b < 256 -> Z.lor (Z.shiftl x 8) b = x * 256 + b.
Proof.
  intros Hb. change 256 with (2 ^ 8). rewrite <- (Z.shiftl_mul_pow2 x 8) by lia. rewrite <- Z.add_lor_land.
  assert (Z.land (Z.shiftl x 8) b = 0) as ->; [|lia].
  apply Z.bits_inj'. intros n Hn. rewrite Z.land_spec, Z.bits_0.
  destruct (Z.lt_ge_cases n 8) as [H|H].
  - rewrite Z.shiftl_spec_low by lia. done.
  - rewrite <- (Z.mod_small b (2 ^ 8)) by (simpl; lia).
    rewrite Z.mod_pow2_bits_high by lia. apply andb_false_r.
Qed.

Lemma SetBytes_nonneg l : 0 <= BigInt.SetBytes l.
Proof.
  induction l as [|b l IH] using rev_ind; [done|]. rewrite BigInt.SetBytes_snoc.
  pose proof (code_range b). lia.
Qed.

(** Below 2^63 the exponent loop computes the big-endian number. *)
Lemma exponent_SetBytes l : BigInt.SetBytes l <= int64_max -> exponent l = BigInt.SetBytes l.
Proof.
  induction l as [|b l IH] using rev_ind; intros H; [done|].
  rewrite BigInt.SetBytes_snoc in *. unfold exponent in *. rewrite fold_left_app. simpl.
  pose proof (code_range b). pose proof (SetBytes_nonneg l). rewrite IH by lia.
  rewrite wrap64_id; [by apply lor_shift8|].
  rewrite Z.shiftl_mul_pow2 by lia. unfold in_int64, int64_min in *. lia.
Qed.

(** The keys an issuer can publish. *)
Definition publishable (pub : rsa_PublicKey) : Prop :=
  2 <= pk_E pub <= int64_max /\ 0 <= pk_N pub /\ BigInt.BitLen (pk_N pub) <= maxRSAModulusBits.

Lemma parse_published pub kid : publishable pub -> parseRSAJWK (rsaPublicToJWK pub kid) = Ok pub.
Proof.
  intros (He & Hn & Hbits). unfold parseRSAJWK, rsaPublicToJWK. cbn [JN JE].
  rewrite !Base64.base64_roundtrip. simpl. rewrite !String.list_ascii_of_string_of_list_ascii.
  rewrite exponent_SetBytes; rewrite !BigInt.SetBytes_Bytes by lia; [|lia].
  rewrite (proj2 (Z.ltb_ge _ _)) by lia. rewrite (proj2 (Z.ltb_ge _ _)) by lia. by destruct pub.
Qed.

(** The document holds what was put into it. *)
Definition jwk_text (k : jwkKey) : bool := forallb valid_utf8 [Kty k; Kid k; Use k; Alg k; JN k; JE k].

Lemma member_kty t i u a n e s b : valid_utf8 s = true ->
  jwk_member (mkJwk t i u a n e, b) ("kty", jstr s) = (mkJwk s i u a n e, b).
Proof. intros Hs. unfold jwk_member. names. by rewrite into_jstr. Qed.
Lemma member_kid t i u a n e s b : valid_utf8 s = true ->
  jwk_member (mkJwk t i u a n e, b) ("kid", jstr s) = (mkJwk t s u a n e, b).
Proof. intros Hs. unfold jwk_member. names. by rewrite into_jstr. Qed.
Lemma member_use t i u a n e s b : valid_utf8 s = true ->
  jwk_member (mkJwk t i u a n e, b) ("use", jstr s) = (mkJwk t i s a n e, b).
Proof. intros Hs. unfold jwk_member. names. by rewrite into_jstr. Qed.
Lemma member_alg t i u a n e s b : valid_utf8 s = true ->
  jwk_member (mkJwk t i u a n e, b) ("alg", jstr s) = (mkJwk t i u s n e, b).
Proof. intros Hs. unfold jwk_member. names. by rewrite into_jstr. Qed.
Lemma member_n t i u a n e s b : valid_utf8 s = true ->
  jwk_member (mkJwk t i u a n e, b) ("n", jstr s) = (mkJwk t i u a s e, b).
Proof. intros Hs. unfold jwk_member. names. by rewrite into_jstr. Qed.
Lemma member_e t i u a n e s b : valid_utf8 s = true ->
  jwk_member (mkJwk t i u a n e, b) ("e", jstr s) = (mkJwk t i u a n s, b).
Proof. intros Hs. unfold jwk_member. names. by rewrite into_jstr. Qed.

Lemma into_jwk_json k : jwk_text k = true -> into_jwk (jwk_json k) zero_jwk = (k, false).
Proof.
  intros Ht. destruct k as [t i u a n e]. unfold jwk_text in Ht. cbn [forallb Kty Kid Use Alg JN JE] in Ht. to_prop.
  unfold into_jwk, jwk_json, omit, zero_jwk. cbn [Kty Kid Use Alg JN JE].
  destruct (bool_decide_reflect (u = "")) as [->|], (bool_decide_reflect (a = "")) as [->|]; cbn [app fold_left];
    rewrite member_kty, member_kid by done; rewrite ?member_use, ?member_alg by done; by rewrite member_n, member_e.
Qed.

Lemma into_jwks_json ks : forallb jwk_text ks = true -> into_jwks (map jwk_json ks) [] = (ks, false).
Proof.
  induction ks as [|k ks IH]; intros H; [done|]. cbn [map into_jwks head tail default]. cbn [forallb] in H. to_prop.
  change (default zero_jwk None) with zero_jwk. by rewrite into_jwk_json, IH.
Qed.

Lemma jwk_json_wf k : wf (jwk_json k) = true /\ jdepth (jwk_json k) = 1%nat.
Proof.
  unfold jwk_json, omit. destruct (bool_decide _), (bool_decide _);
    cbn [app wf forallb jdepth foldr fst snd]; unfold jstr; cbn [wf jdepth]; rewrite ?quote_raw_ok; done.
Qed.

Lemma jwkSet_roundtrip ks : forallb jwk_text ks = true -> jwkSet_Unmarshal (jwkSet_Marshal ks) = Ok ks.
Proof.
  intros H. unfold jwkSet_Unmarshal, jwkSet_Marshal. rewrite parse_print.
  - unfold jwkSet_json. cbn [fold_left]. unfold jwkSet_member. cbn [fst snd]. names.
    destruct ks as [|k ks]; [done|]. pose proof (into_jwks_json _ H) as Hi. cbn [map] in *. rewrite Hi.
    cbn [orb]. rewrite length_cons, length_map. f_equal. apply (firstn_all (k :: ks)).
  - unfold jwkSet_json. cbn [wf forallb fst snd]. rewrite !andb_true_r. apply andb_true_iff. split; [done|].
    apply Is_true_true, forallb_True, Forall_fmap, Forall_forall. intros k _. apply Is_true_true. by destruct (jwk_json_wf k).
  - unfold jwkSet_json. cbn [jdepth foldr snd]. pose proof maxNestingDepth_3.
    assert (foldr (fun v n => Nat.max (jdepth v) n) O (map jwk_json ks) <= 1)%nat; [|lia].
    apply max_list_le, Forall_fmap, Forall_forall. intros k _. destruct (jwk_json_wf k) as [_ Hd]. simpl in Hd |- *. lia.
Qed.

(** ** What the cache's operations do *)

Section CacheSpec.
Context (net : Net) (c : jwksCache).

Lemma isStale_spec lf w b w' :
  isStale net c lf w = (b, w') ->
  ks w' = ks w /\ fetches w' = fetches w /\ (wclk w <= wclk w')%nat /\
  if b then IsZero lf = true \/ maxStale c < Since (now net (wclk w)) lf
  else IsZero lf = false /\ Since (now net (wclk w)) lf <= maxStale c /\ wclk w' = S (wclk w).
Proof.
  unfold isStale, time_Now. intros H. destruct (IsZero lf) eqn:Ez; simplify_eq/=.
  - auto.
  - split_and!; [done|done|lia|]. destruct (Z.ltb_spec (maxStale c) (Since (now net (wclk w)) lf)); auto.
Qed.

Lemma missing_or_stale_spec key lf w b w' :
  missing_or_stale net c key lf w = (b, w') ->
  ks w' = ks w /\ fetches w' = fetches w /\ (wclk w <= wclk w')%nat /\
  (b = false -> key <> None /\ IsZero lf = false /\ Since (now net (wclk w)) lf <= maxStale c /\
     wclk w' = S (wclk w)).
Proof.
  unfold missing_or_stale. destruct key.
  - intros H. apply isStale_spec in H as (? & ? & ? & Hb). split_and!; try done. intros ->. destruct Hb as (? & ? & ?). auto.
  - intros H. by simplify_eq.
Qed.

Lemma refreshNow_spec w err w' :
  refreshNow net w = (err, w') ->
  fetches w' = fetches w ++ [now net (wclk w)] /\ lastAttempt (ks w') = now net (wclk w) /\
  (wclk w <= wclk w')%nat /\
  match err with
  | Some _ => keys (ks w') = keys (ks w) /\ lastFetch (ks w') = lastFetch (ks w)
  | None => exists n raw, fetch net n = Ok raw /\ parseJWKS raw = Ok (keys (ks w')) /\
      (wclk w <= n)%nat /\ lastFetch (ks w') = now net (S n)
  end.
Proof.
  unfold refreshNow, time_Now. cbn [wclk ks fetches keys lastFetch lastAttempt].
  destruct (fetch net (S (wclk w))) as [raw|e] eqn:Ef.
  - destruct (parseJWKS raw) as [new|e] eqn:Ep; intros H; simplify_eq/=.
    + split_and!; [done|done|lia|]. exists (S (wclk w)), raw. split_and!; [done|done|lia|done].
    + split_and!; [done|done|lia|done|done].
  - intros H; simplify_eq/=. split_and!; [done|done|lia|done|done].
Qed.

(** A resolved key is in the key set, and the last clock reading found the key
    set fresh. *)
Definition resolved (kid : string) (r : result error rsa_PublicKey) (w' : W) : Prop :=
  match r with
  | Ok k => keys (ks w') !! kid = Some k /\ IsZero (lastFetch (ks w')) = false /\
      Since (now net (pred (wclk w'))) (lastFetch (ks w')) <= maxStale c
  | Fail e => (keys (ks w') !! kid = None /\ Is e "jwt.ErrUnknownKID" = true) \/
      (keys (ks w') !! kid <> None /\ Is e "jwt.ErrStaleJWKS" = true /\
       (IsZero (lastFetch (ks w')) = true \/
        exists n, maxStale c < Since (now net n) (lastFetch (ks w'))))
  end.

Lemma resolve_spec kid w r w' :
  resolve net c kid w = (r, w') ->
  ks w' = ks w /\ fetches w' = fetches w /\ (wclk w <= wclk w')%nat /\ resolved kid r w'.
Proof.
  unfold resolve, snapshot. destruct (keys (ks w) !! kid) as [k|] eqn:Ek.
  - destruct (isStale net c (lastFetch (ks w)) w) as [b w1] eqn:Es.
    apply isStale_spec in Es as (Hk & Hf & Hc & Hb). intros H.
    destruct b; simplify_eq/=; (do 3 (split; [done || lia|])); unfold resolved; simpl.
    + right. rewrite Hk, Ek. split_and!; [done|done|]. destruct Hb; eauto.
    + destruct Hb as (H1 & H2 & ->). rewrite Hk, Ek. done.
  - intros H. simplify_eq. do 3 (split; [done || lia|]). left. done.
Qed.
(** Either nothing was fetched, or one refresh ran, more than
    [minRefetchInterval] after the previous attempt. *)
Definition fetched_at_most_once (w w' : W) : Prop :=
  (ks w' = ks w /\ fetches w' = fetches w) \/
  exists n w0 err w1, (wclk w <= n < wclk w0)%nat /\
    minRefetchInterval < Since (now net n) (lastAttempt (ks w)) /\
    ks w0 = ks w /\ fetches w0 = fetches w /\ refreshNow net w0 = (err, w1) /\
    ks w' = ks w1 /\ fetches w' = fetches w1.

Lemma fetched_resolve kid w w0 w1 err n r w' :
  (wclk w <= n < wclk w0)%nat -> minRefetchInterval < Since (now net n) (lastAttempt (ks w)) ->
  ks w0 = ks w -> fetches w0 = fetches w -> refreshNow net w0 = (err, w1) ->
  forall w2, ks w2 = ks w1 -> fetches w2 = fetches w1 -> (wclk w1 <= wclk w2)%nat ->
  resolve net c kid w2 = (r, w') ->
  (wclk w <= wclk w')%nat /\ resolved kid r w' /\ fetched_at_most_once w w'.
Proof.
  intros Hn Ht H1 H2 Hr w2 H3 H4 H5 H.
  apply resolve_spec in H as (K1 & K2 & K3 & K4).
  destruct (refreshNow_spec _ _ _ Hr) as (_ & _ & Hc & _).
  split; [lia|]. split; [done|]. right. exists n, w0, err, w1. split_and!; try done; try congruence; lia.
Qed.

Lemma refresh_locked_spec kid w r w' :
  refresh_locked net c kid w = (r, w') ->
  (wclk w <= wclk w')%nat /\ resolved kid r w' /\ fetched_at_most_once w w'.
Proof.
  unfold refresh_locked, snapshot, time_Now.
  set (wt := mkW (S (wclk w)) (ks w) (fetches w)).
  destruct (missing_or_stale _ _ _ _ wt) as [bad w1] eqn:Em.
  apply missing_or_stale_spec in Em as (H1 & H2 & H3 & _). simpl in H1, H2, H3.
  destruct (bad && _) eqn:Eb.
  2:{ intros H. apply resolve_spec in H as (K1 & K2 & K3 & K4). split; [lia|]. split; [done|].
      left. split; congruence. }
  to_prop. destruct (refreshNow net w1) as [err w2] eqn:Er.
  pose proof (refreshNow_spec _ _ _ Er) as (_ & _ & Hc2 & Herr).
  assert (wclk w <= wclk w < wclk w1)%nat as Hn by lia.
  destruct err as [e|]; [|by eapply fetched_resolve].
  destruct (keys (ks w2) !! kid) as [k|] eqn:Ek; [|by eapply fetched_resolve].
  destruct (isStale net c (lastFetch (ks w2)) w2) as [b w3] eqn:Es.
  apply isStale_spec in Es as (K1 & K2 & K3 & K4). destruct b; [|by eapply fetched_resolve].
  intros Hq. injection Hq as <- <-. simpl. split; [lia|]. split.
  - right. simpl. rewrite K1, Ek. split_and!; [done|done|]. destruct K4; eauto.
  - right. exists (wclk w), w1, (Some e), w2. split_and!; simpl; try done; congruence.
Qed.

Lemma publicKey_spec kid w r w' :
  publicKey net c kid w = (r, w') ->
  (wclk w <= wclk w')%nat /\ resolved kid r w' /\ fetched_at_most_once w w'.
Proof.
  unfold publicKey, snapshot, time_Now.
  destruct (missing_or_stale _ _ _ _ w) as [bad w1] eqn:Em.
  apply missing_or_stale_spec in Em as (H1 & H2 & H3 & Hb).
  assert (forall w2, wclk w2 = S (wclk w1) -> ks w2 = ks w1 -> fetches w2 = fetches w1 ->
    (if minRefetchInterval <? Since (now net (wclk w1)) (lastAttempt (ks w))
     then refresh_locked net c kid w2 else resolve net c kid w2) = (r, w') ->
    (wclk w <= wclk w')%nat /\ resolved kid r w' /\ fetched_at_most_once w w') as Hslow.
  { intros w2 K1 K2 K3. destruct (Z.ltb_spec minRefetchInterval (Since (now net (wclk w1)) (lastAttempt (ks w)))).
    - intros H0. apply refresh_locked_spec in H0 as (L1 & L2 & L3). split; [lia|]. split; [done|].
      destruct L3 as [[L3 L4]|(n & w0 & err & w3 & M1 & M2 & M3 & M4 & M5 & M6 & M7)]; [left; split; congruence|].
      right. exists n, w0, err, w3. rewrite K2, H1 in M2. split_and!; congruence || lia.
    - intros H0. apply resolve_spec in H0 as (L1 & L2 & L3 & L4). split; [lia|]. split; [done|].
      left. split; congruence. }
  destruct (keys (ks w) !! kid) as [k|] eqn:Ek; [destruct bad|]; try (by apply Hslow).
  intros Hq. injection Hq as <- <-. destruct (Hb eq_refl) as (_ & Hz & Hs & Hc).
  split; [lia|]. split; [|by left]. simpl. by rewrite H1, Ek, Hc.
Qed.
End CacheSpec.

(** ** Properties *)

(** C17: the cache never hands out a key past its staleness bound.  A key
    [publicKey] returns is the one its (possibly just refreshed) key set holds
    for that kid, the set was fetched successfully, and at the clock reading of
    the decision no more than [maxStale] had passed since; otherwise the answer
    is [ErrUnknownKID] for a kid the set lacks, or [ErrStaleJWKS] once the set
    is too old.  A refresh that fails leaves keys and fetch time alone. *)
Theorem publicKey_never_stale net c kid w r w' :
  publicKey net c kid w = (r, w') ->
  resolved net c kid r w' /\
  (keys (ks w') = keys (ks w) /\ lastFetch (ks w') = lastFetch (ks w) \/
   exists n raw, fetch net n = Ok raw /\ (wclk w <= n)%nat /\
     parseJWKS raw = Ok (keys (ks w')) /\ lastFetch (ks w') = now net (S n)).
Proof.
  intros H. apply publicKey_spec in H as (_ & Hr & Hf). split; [done|].
  destruct Hf as [[-> _]|(n & w0 & err & w1 & Hn & _ & Hk & _ & Hrf & -> & _)]; [by left|].
  apply refreshNow_spec in Hrf as (_ & _ & _ & He). destruct err.
  - left. destruct He as [-> ->]. by rewrite Hk.
  - right. destruct He as (m & raw & H1 & H2 & H3 & H4). exists m, raw. split_and!; [done|lia|done|done].
Qed.

(** A document with one 16-bit key, served until the clock reaches [until]. *)
Definition sample_pub : rsa_PublicKey := mkPub 64507 65537.
Definition sample_net (until : nat) (times : nat -> Time) : Net :=
  mkNet times (fun n => if (n <=? until)%nat then Ok (jwkSet_Marshal [rsaPublicToJWK sample_pub "k1"])
    else Fail (New "connection refused")).
Definition sample_cache : jwksCache := newJWKSCacheWithFetcherMaxStale (15 * Minute) (5 * Second) 0.
Definition w0 : W := mkW 0 empty_keyset [].
Definition loaded (times : nat -> Time) : W := (start (sample_net 1 times) w0).2.

Lemma publicKey_never_stale_witness :
  let net := sample_net 1 (fun n => Z.of_nat n * Second) in
  let w := loaded (fun n => Z.of_nat n * Second) in
  exists w', publicKey net sample_cache "k1" w = (Ok sample_pub, w') /\
    resolved net sample_cache "k1" (Ok sample_pub) w'.
Proof.
  intros net w. exists (publicKey net sample_cache "k1" w).2.
  assert (publicKey net sample_cache "k1" w = (Ok sample_pub, (publicKey net sample_cache "k1" w).2)) as H
    by (vm_compute; reflexivity).
  split; [exact H|]. exact (proj1 (publicKey_never_stale net sample_cache "k1" w _ _ H)).
Defined.

(** C18: an outage of the issuer degrades as documented.  While every fetch
    fails, a kid of the last key set keeps verifying, without a fetch, as long
    as the set is no older than [maxStale], and from then on is refused with
    [ErrStaleJWKS]; the key set itself is never lost. *)
Theorem jwks_outage net c kid k w :
  (forall n, is_ok (fetch net n) = false) ->
  keys (ks w) !! kid = Some k -> IsZero (lastFetch (ks w)) = false ->
  ((forall n, Since (now net n) (lastFetch (ks w)) <= maxStale c) ->
     let (r, w') := publicKey net c kid w in r = Ok k /\ ks w' = ks w /\ fetches w' = fetches w) /\
  ((forall n, maxStale c < Since (now net n) (lastFetch (ks w))) ->
     let (r, w') := publicKey net c kid w in
     (exists e, r = Fail e /\ Is e "jwt.ErrStaleJWKS" = true) /\ keys (ks w') = keys (ks w)).
Proof.
  intros Hout Hk Hz. split; intros Hs.
  - unfold publicKey, snapshot, missing_or_stale, isStale, time_Now. rewrite Hk, Hz.
    by rewrite (proj2 (Z.ltb_ge _ _)) by apply Hs.
  - destruct (publicKey net c kid w) as [r w'] eqn:Ep.
    apply publicKey_spec in Ep as (_ & Hr & Hf).
    assert (keys (ks w') = keys (ks w) /\ lastFetch (ks w') = lastFetch (ks w)) as [Hk' Hl'].
    { destruct Hf as [[-> _]|(n & w1 & err & w2 & _ & _ & H1 & _ & H2 & H3 & _)]; [done|].
      apply refreshNow_spec in H2 as (_ & _ & _ & He). rewrite H3. destruct err; [by rewrite <- H1|].
      destruct He as (m & raw & He & _). specialize (Hout m). by rewrite He in Hout. }
    unfold resolved in Hr. rewrite Hk', Hk, Hl', Hz in Hr. destruct r as [k'|e].
    + destruct Hr as (_ & _ & Hr). specialize (Hs (pred (wclk w'))). lia.
    + split; [|done]. exists e. split; [done|]. destruct Hr as [[? _]|(_ & ? & _)]; done.
Qed.

Definition down (t : Time) : Net :=
  mkNet (fun _ => t) (fun _ => Fail (New "connection refused")).

Lemma jwks_outage_witness :
  let w := mkW 3 (ks (loaded (fun _ => 0))) [] in
  (let (r, w') := publicKey (down (23 * Hour)) sample_cache "k1" w in
   r = Ok sample_pub /\ ks w' = ks w /\ fetches w' = fetches w) /\
  (let (r, w') := publicKey (down (25 * Hour)) sample_cache "k1" w in
   (exists e, r = Fail e /\ Is e "jwt.ErrStaleJWKS" = true) /\ keys (ks w') = keys (ks w)).
Proof.
  intros w.
  assert (keys (ks w) !! "k1" = Some sample_pub) as Hk by (vm_compute; reflexivity).
  assert (IsZero (lastFetch (ks w)) = false) as Hz by (vm_compute; reflexivity).
  assert (forall t n, is_ok (fetch (down t) n) = false) as Hf by reflexivity.
  assert (lastFetch (ks w) = 0) as Hl by (vm_compute; reflexivity).
  clearbody w. split.
  - refine (proj1 (jwks_outage _ _ _ _ _ (Hf _) Hk Hz) _). intros n. rewrite Hl. vm_compute. discriminate.
  - refine (proj2 (jwks_outage _ _ _ _ _ (Hf _) Hk Hz) _). intros n. rewrite Hl. vm_compute. reflexivity.
Defined.

(** Attempts [l] are more than [minRefetchInterval] apart. *)
Fixpoint spaced (l : list Time) : Prop :=
  match l with
  | [] => True
  | t :: rest => match rest with [] => True | u :: _ => t + minRefetchInterval < u end /\ spaced rest
  end.

Lemma spaced_snoc l t :
  spaced l -> (forall u, last l = Some u -> u + minRefetchInterval < t) -> spaced (l ++ [t]).
Proof.
  induction l as [|a l IH]; intros Hs Hl; [done|]. destruct l as [|b l].
  - simpl. split; [by apply Hl|done].
  - destruct Hs as [Hab Hs]. split; [done|]. by apply IH.
Qed.

(** The attempts so far are spaced, and the last one is what [lastAttempt] says. *)
Definition attempts_ok (w : W) : Prop :=
  spaced (fetches w) /\ forall u, last (fetches w) = Some u -> u = lastAttempt (ks w).

Lemma publicKey_attempts net c kid w r w' :
  (forall m n, (m <= n)%nat -> now net m <= now net n) ->
  publicKey net c kid w = (r, w') -> attempts_ok w -> attempts_ok w'.
Proof.
  intros Hmono H [Hs Hl]. apply publicKey_spec in H as (_ & _ & Hf).
  destruct Hf as [[Hk Hf]|(n & v0 & err & v1 & Hn & Ht & Hk & Hf & Hr & Hk' & Hf')].
  - unfold attempts_ok. by rewrite Hk, Hf.
  - apply refreshNow_spec in Hr as (Hf1 & Ha & _). unfold attempts_ok. rewrite Hk', Hf', Ha, Hf1, Hf.
    split.
    + apply spaced_snoc; [done|]. intros u Hu. apply Hl in Hu as ->.
      apply Since_gt in Ht; [|done|done]. specialize (Hmono n (wclk v0)). lia.
    + intros u. rewrite last_snoc. congruence.
Qed.

(** After the preload, however many tokens with whatever kids are validated one
    after the other, two fetch attempts are more than [minRefetchInterval] apart.
    JwksCache.v has the interleaved version. *)
Lemma resolve_all_spaced net c kids n :
  (forall i j, (i <= j)%nat -> now net i <= now net j) ->
  spaced (fetches (resolve_all net c kids (start net (mkW n empty_keyset [])).2).2).
Proof.
  intros Hmono.
  assert (forall w, attempts_ok w -> attempts_ok (resolve_all net c kids w).2) as H.
  { induction kids as [|kid kids IH]; intros w Hw; [done|]. simpl.
    destruct (publicKey net c kid w) as [r w1] eqn:Ep. apply publicKey_attempts in Ep; [|done|done].
    specialize (IH w1 Ep). by destruct (resolve_all net c kids w1). }
  apply H. unfold start. destruct (refreshNow net _) as [err w1] eqn:Er.
  apply refreshNow_spec in Er as (Hf & Ha & _). unfold attempts_ok. simpl in *. rewrite Hf, Ha.
  split; [done|]. simpl. congruence.
Qed.

Example resolve_all_sample :
  let times n := Z.of_nat n * 10 * Second in
  fetches (resolve_all (sample_net 1 times) sample_cache ["x"; "y"; "z"; "x"; "y"] (start (sample_net 1 times) w0).2).2
    = [0; 60 * Second; 120 * Second].
Proof. vm_compute. reflexivity. Qed.
