(* ===== verification/JwksCache.v ===== *)
(** * jwt/jwks.go: the cache under concurrency

    Jwks.v runs the operations of a cache one after the other.  Here they
    interleave: the background loop, callers of [start], validations that miss
    their key and [Close] are steps of one transition system.  A step is a piece
    of code that one lock or one select makes atomic; clock readings and fetches
    lie between steps, so another goroutine can move in between.  What a fetch
    returns is left open. *)

From S2P Require Import Prelude GoError GoString Encoding Jwks.
From stdpp Require Import relations.

Open Scope Z_scope.

Inductive who := Preload | Background | OnDemand.

#[export] Instance who_eq_dec : EqDecision who.
Proof. solve_decision. Defined.

(** The goroutine of [loop]: not launched, at its select, in [refreshNow],
    returned, or dead because [time.NewTicker] panicked. *)
Inductive loop_state := LoopNone | LoopWaiting | LoopFetching | LoopReturned | LoopPanicked.

(** The holder of [refreshMu], if any: it has taken its snapshot, it has decided
    to refresh, it is fetching. *)
Inductive demand_state :=
| DemandNone
| DemandSnapshot (key : option rsa_PublicKey) (seenFetch seenAttempt : Time)
| DemandRefresh
| DemandFetching.

Record Sys := mkSys {
  set : keyset;
  time : Time;
  attempts : list (who * Time);
  served : list string;
  loop : loop_state;
  demand : demand_state;
  starting : bool;
  launched : bool;
  closed : bool
}.

(** [&jwksCache{...}], at some time. *)
Definition fresh (t : Time) : Sys := mkSys empty_keyset t [] [] LoopNone DemandNone false false false.

(** [c.lastAttempt = time.Now()], the first lock section of [refreshNow]. *)
Definition begin_refresh (by_ : who) (s : Sys) : Sys :=
  mkSys (mkKeyset (keys (set s)) (lastFetch (set s)) (time s)) (time s) (attempts s ++ [(by_, time s)]) (served s)
    (loop s) (demand s) (starting s) (launched s) (closed s).

(** The rest of [refreshNow]: the keys of a good document replace the old ones. *)
Definition install (out : result error string) (t : Time) (k : keyset) : keyset :=
  match out with
  | Ok raw =>
      match parseJWKS raw with
      | Ok new => mkKeyset new t (lastAttempt k)
      | Fail _ => k
      end
  | Fail _ => k
  end.

Definition log_served (out : result error string) (l : list string) : list string :=
  match out with Ok raw => l ++ [raw] | Fail _ => l end.

Definition end_refresh (out : result error string) (s : Sys) : Sys :=
  mkSys (install out (time s) (set s)) (time s) (attempts s) (log_served out (served s))
    (loop s) (demand s) (starting s) (launched s) (closed s).

Definition set_loop l s := mkSys (set s) (time s) (attempts s) (served s) l (demand s) (starting s) (launched s) (closed s).
Definition set_demand d s := mkSys (set s) (time s) (attempts s) (served s) (loop s) d (starting s) (launched s) (closed s).
Definition set_starting b s := mkSys (set s) (time s) (attempts s) (served s) (loop s) (demand s) b (launched s) (closed s).
Definition set_closed s := mkSys (set s) (time s) (attempts s) (served s) (loop s) (demand s) (starting s) (launched s) true.
Definition advance d s :=
  mkSys (set s) (time s + d) (attempts s) (served s) (loop s) (demand s) (starting s) (launched s) (closed s).

(** [c.startOnce.Do(func() { go c.loop() })]; the loop's ticker panics unless its
    interval is positive. *)
Definition launch (c : jwksCache) (s : Sys) : Sys :=
  if launched s then s
  else mkSys (set s) (time s) (attempts s) (served s) (if refreshEvery c <=? 0 then LoopPanicked else LoopWaiting)
         (demand s) (starting s) true (closed s).

(** [key == nil || c.isStale(lastFetch)] at the present time. *)
Definition needs_refresh (c : jwksCache) (key : option rsa_PublicKey) (seenFetch : Time) (t : Time) : bool :=
  match key with
  | None => true
  | Some _ => IsZero seenFetch || (maxStale c <? Since t seenFetch)
  end.

Inductive step (c : jwksCache) : Sys -> Sys -> Prop :=
| SPass s d : 0 <= d -> step c s (advance d s)
| SStart s : starting s = false -> step c s (set_starting true (begin_refresh Preload s))
| SStarted s out : starting s = true -> step c s (launch c (set_starting false (end_refresh out s)))
| STick s : loop s = LoopWaiting -> step c s (set_loop LoopFetching (begin_refresh Background s))
| STicked s out : loop s = LoopFetching -> step c s (set_loop LoopWaiting (end_refresh out s))
| SStop s : loop s = LoopWaiting -> closed s = true -> step c s (set_loop LoopReturned s)
| SClose s : step c s (set_closed s)
| SSnapshot s kid : demand s = DemandNone ->
    step c s (set_demand (DemandSnapshot (keys (set s) !! kid) (lastFetch (set s)) (lastAttempt (set s))) s)
| SDecide s key seenFetch seenAttempt : demand s = DemandSnapshot key seenFetch seenAttempt ->
    step c s (set_demand
      (if needs_refresh c key seenFetch (time s) && negb (Since (time s) seenAttempt <=? minRefetchInterval)
       then DemandRefresh else DemandNone) s)
| SDemand s : demand s = DemandRefresh -> step c s (set_demand DemandFetching (begin_refresh OnDemand s))
| SDemanded s out : demand s = DemandFetching -> step c s (set_demand DemandNone (end_refresh out s)).

(** [refreshNow] is these two pieces with a fetch between them. *)
Lemma refreshNow_pieces net w :
  let w' := (refreshNow net w).2 in
  let s := mkSys (ks w) (now net (wclk w)) [] [] LoopNone DemandNone false false false in
  ks w' = set (end_refresh (fetch net (S (wclk w))) (advance (now net (S (S (wclk w))) - now net (wclk w))
    (begin_refresh Preload s))).
Proof.
  unfold refreshNow, time_Now. cbn [wclk ks fetches keys lastFetch lastAttempt].
  destruct (fetch net (S (wclk w))) as [raw|e]; [|done].
  unfold end_refresh, install. cbn [set advance begin_refresh time].
  destruct (parseJWKS raw) as [new|e]; [|done]. cbn. by rewrite Zplus_minus.
Qed.

(** ** Invariants *)

Definition times (w : who) (l : list (who * Time)) : list Time := map snd (List.filter (fun a => bool_decide (a.1 = w)) l).

Lemma times_snoc w l a : times w (l ++ [a]) = times w l ++ (if bool_decide (a.1 = w) then [a.2] else []).
Proof. unfold times. rewrite List.filter_app, map_app. simpl. by case_bool_decide. Qed.

(** [t] is later than every on-demand attempt by more than the interval. *)
Definition clear_of (l : list (who * Time)) (t : Time) : Prop :=
  forall u, last (times OnDemand l) = Some u -> u + minRefetchInterval < t.
Definition not_before (l : list (who * Time)) (t : Time) : Prop :=
  forall u, last (times OnDemand l) = Some u -> u <= t.

Definition demand_ok (s : Sys) : Prop :=
  match demand s with
  | DemandSnapshot _ _ seen => not_before (attempts s) seen
  | DemandRefresh => clear_of (attempts s) (time s)
  | _ => True
  end.

Record cache_inv (s : Sys) : Prop := {
  inv_spaced : spaced (times OnDemand (attempts s));
  inv_last : not_before (attempts s) (lastAttempt (set s));
  inv_time : lastAttempt (set s) <= time s;
  inv_fetch : lastFetch (set s) <= time s;
  inv_demand : demand_ok s
}.

Lemma install_attempt out t k : lastAttempt (install out t k) = lastAttempt k.
Proof. unfold install. destruct out as [raw|]; [|done]. by destruct (parseJWKS raw). Qed.

Lemma install_fetch out t k : lastFetch k <= t -> lastFetch (install out t k) <= t.
Proof. unfold install. destruct out as [raw|]; [|done]. by destruct (parseJWKS raw). Qed.

Lemma fresh_inv t : zero_time <= t -> cache_inv (fresh t).
Proof. intros Ht. by constructor. Qed.

(** An attempt by anybody else leaves the on-demand ones alone. *)
Lemma begin_inv w s : w <> OnDemand -> cache_inv s -> cache_inv (begin_refresh w s).
Proof.
  intros Hw [H1 H2 H3 H4 H5].
  assert (times OnDemand (attempts s ++ [(w, time s)]) = times OnDemand (attempts s)) as Ht.
  { rewrite times_snoc. cbn [fst]. by rewrite bool_decide_eq_false_2, app_nil_r. }
  constructor; cbn [begin_refresh attempts set lastAttempt lastFetch time]; [by rewrite Ht| |done|done|].
  - unfold not_before in *. rewrite Ht. intros u Hu. specialize (H2 u Hu). lia.
  - unfold demand_ok in *. cbn [begin_refresh demand attempts time]. unfold not_before, clear_of in *. by rewrite Ht.
Qed.

Lemma end_inv out s : cache_inv s -> cache_inv (end_refresh out s).
Proof.
  intros [H1 H2 H3 H4 H5].
  constructor; cbn [end_refresh attempts set time]; rewrite ?install_attempt; try done. by apply install_fetch.
Qed.

(** Fields the invariant does not speak of. *)
Lemma frame_inv s s' :
  set s' = set s -> time s' = time s -> attempts s' = attempts s -> demand_ok s' -> cache_inv s -> cache_inv s'.
Proof. intros Hs Ht Ha Hd [H1 H2 H3 H4 H5]. constructor; rewrite ?Hs, ?Ht, ?Ha; done. Qed.

Lemma cache_step_inv c s s' : step c s s' -> cache_inv s -> cache_inv s'.
Proof.
  destruct 1 as [s d Hd|s Hs|s out Hs|s Hl|s out Hl|s Hl Hc|s|s kid Hn|s key sf sa Hn|s Hn|s out Hn]; intros I.
  - destruct I as [H1 H2 H3 H4 H5]. constructor; cbn [advance set time attempts]; try done; try lia.
    unfold demand_ok in *. cbn [advance demand attempts time]. destruct (demand s); try done.
    intros u Hu. specialize (H5 u Hu). lia.
  - eapply frame_inv; [..|apply (begin_inv Preload s); done]; try done. apply (inv_demand _ (begin_inv Preload s ltac:(done) I)).
  - unfold launch. destruct (launched _); eapply frame_inv; [..|exact (end_inv out s I)| | | | |exact (end_inv out s I)];
      try done; apply (inv_demand _ (end_inv out s I)).
  - eapply frame_inv; [..|apply (begin_inv Background s); done]; try done. apply (inv_demand _ (begin_inv Background s ltac:(done) I)).
  - eapply frame_inv; [..|exact (end_inv out s I)]; try done. apply (inv_demand _ (end_inv out s I)).
  - eapply frame_inv; [..|exact I]; try done. apply (inv_demand _ I).
  - eapply frame_inv; [..|exact I]; try done. apply (inv_demand _ I).
  - eapply frame_inv; [..|exact I]; try done. apply (inv_last _ I).
  - pose proof (inv_demand _ I) as Hdm. unfold demand_ok in Hdm. rewrite Hn in Hdm.
    eapply frame_inv; [..|exact I]; try done. unfold demand_ok. cbn [set_demand demand attempts time].
    destruct (needs_refresh c key sf (time s)); [|done]. destruct (Z.leb_spec (Since (time s) sa) minRefetchInterval) as [|Ht]; [done|].
    apply Since_gt in Ht; [|done|done]. intros u Hu. specialize (Hdm u Hu). lia.
  - pose proof (inv_demand _ I) as Hdm. unfold demand_ok in Hdm. rewrite Hn in Hdm. destruct I as [H1 H2 H3 H4 H5].
    constructor; cbn [set_demand begin_refresh attempts set lastAttempt lastFetch time]; try done.
    + rewrite times_snoc. apply spaced_snoc; [done|]. exact Hdm.
    + intros u. rewrite times_snoc. cbn [fst snd]. rewrite bool_decide_eq_true_2, last_snoc by done. intros [= <-]. lia.
  - eapply frame_inv; [..|exact (end_inv out s I)]; done.
Qed.

Lemma steps_inv c s s' : rtc (step c) s s' -> cache_inv s -> cache_inv s'.
Proof. induction 1; eauto using cache_step_inv. Qed.

(** ** Keys are only ever replaced by good documents *)

Lemma parseJWKS_nonempty raw new : parseJWKS raw = Ok new -> new <> ∅.
Proof.
  unfold parseJWKS. rewrite rbind_ok. intros (l & _ & H). rewrite rbind_ok in H. destruct H as ([out sk] & _ & H).
  case_bool_decide; [by destruct sk|]. by injection H as <-.
Qed.

(** From [s] to [s'] the keys stayed, or became those of a document served on the
    way, at a time on the way. *)
Definition replaced (s s' : Sys) : Prop :=
  (keys (set s') = keys (set s) /\ lastFetch (set s') = lastFetch (set s)) \/
  exists raw, raw ∈ served s' /\ parseJWKS raw = Ok (keys (set s')) /\ time s <= lastFetch (set s') <= time s'.

Lemma end_replaced out s : replaced s (end_refresh out s) /\ incl (served s) (served (end_refresh out s)).
Proof.
  destruct s as [k t at_ sv lp dm sg la cl]. unfold replaced, end_refresh, install, log_served. cbn [set served time].
  destruct out as [raw|e]; [|split; [by left|apply incl_refl]]. split; [|by apply incl_appl, incl_refl].
  destruct (parseJWKS raw) as [new|e] eqn:E; [|by left]. right. exists raw. cbn. split_and!; [|done|lia..].
  apply elem_of_app. right. by apply list_elem_of_singleton.
Qed.

Lemma step_replaced c s s' : step c s s' -> replaced s s' /\ incl (served s) (served s') /\ time s <= time s'.
Proof.
  assert (forall s, replaced s s) as Hrefl by (by left).
  destruct 1 as [s d Hd|s Hs|s out Hs|s Hl|s out Hl|s Hl Hc|s|s kid Hn|s key sf sa Hn|s Hn|s out Hn];
    try (split_and!; [by left|apply incl_refl|cbn; lia]).
  - destruct (end_replaced out s) as [H1 H2]. unfold launch. destruct (launched _); split_and!; try done; cbn; lia.
  - destruct (end_replaced out s) as [H1 H2]. split_and!; [done..|cbn; lia].
  - destruct (end_replaced out s) as [H1 H2]. split_and!; [done..|cbn; lia].
Qed.

Lemma steps_replaced c s s' :
  rtc (step c) s s' -> replaced s s' /\ incl (served s) (served s') /\ time s <= time s'.
Proof.
  induction 1 as [s|s s1 s' Hs _ (IH1 & IH2 & IH3)]; [split_and!; [by left|apply incl_refl|lia]|].
  apply step_replaced in Hs as (H1 & H2 & H3). split_and!; [|by eapply incl_tran|lia].
  destruct IH1 as [[E1 E2]|(raw & H & Hp & Ht)]; [|right; exists raw; split_and!; [done..|lia|lia]].
  destruct H1 as [[E3 E4]|(raw & H & Hp & Ht)]; [left; split; congruence|].
  right. exists raw. rewrite E1, E2. split_and!; [|done|lia..]. apply list_elem_of_In, IH2, list_elem_of_In, H.
Qed.

(** ** The background loop *)

(** Once the loop has returned it is not launched again and no more background
    fetches happen. *)
Definition stopped (s : Sys) : Prop := loop s = LoopReturned /\ launched s = true.

Lemma step_stopped c s s' : step c s s' -> stopped s ->
  stopped s' /\ times Background (attempts s') = times Background (attempts s).
Proof.
  intros Hs [Hl Hla]. destruct Hs as [s d Hd|s Hs|s out Hs|s Hw|s out Hw|s Hw Hc|s|s kid Hn|s key sf sa Hn|s Hn|s out Hn];
    try congruence; unfold stopped; cbn [set_demand set_starting begin_refresh attempts loop launched]; try done.
  - by rewrite times_snoc, app_nil_r.
  - unfold launch. cbn [set_starting end_refresh launched]. by rewrite Hla.
  - by rewrite times_snoc, app_nil_r.
Qed.

Lemma steps_stopped c s s' : rtc (step c) s s' -> stopped s ->
  stopped s' /\ times Background (attempts s') = times Background (attempts s).
Proof.
  induction 1 as [s|s s1 s' Hs _ IH]; [done|]. intros H. destruct (step_stopped c s s1 Hs H) as [H1 <-]. by apply IH.
Qed.

(** The loop is running exactly if it was launched and has neither returned nor
    panicked. *)
Definition launched_ok (c : jwksCache) (s : Sys) : Prop :=
  (launched s = false <-> loop s = LoopNone) /\ (0 < refreshEvery c -> loop s <> LoopPanicked) /\
  (loop s = LoopReturned -> closed s = true).

Lemma step_launched c s s' : step c s s' -> launched_ok c s -> launched_ok c s'.
Proof.
  intros Hs (H1 & H2 & H3). destruct Hs as [s d Hd|s Hs|s out Hs|s Hw|s out Hw|s Hw Hc|s|s kid Hn|s key sf sa Hn|s Hn|s out Hn];
    unfold launched_ok; cbn [set_loop set_demand set_starting set_closed begin_refresh end_refresh advance loop launched closed];
    try done; try (rewrite H1, Hw; split_and!; [split; discriminate|discriminate|intros; congruence]).
  unfold launch. cbn [set_starting end_refresh launched]. destruct (launched s) eqn:E.
  { cbn [set_starting end_refresh launched loop closed]. by rewrite E. }
  cbn [launched loop closed]. split_and!; destruct (Z.leb_spec (refreshEvery c) 0); try done; lia.
Qed.

Lemma steps_launched c s s' : rtc (step c) s s' -> launched_ok c s -> launched_ok c s'.
Proof. induction 1; eauto using step_launched. Qed.

(** ** Properties *)

(** C19: forged key ids cannot cause a fetch storm.  However validations, the
    background loop, [start] and [Close] interleave, and whether fetches succeed
    or fail, two fetches that validations cause are always more than
    [minRefetchInterval] (30 s) apart. *)
Theorem fetches_rate_limited c t s :
  zero_time <= t -> rtc (step c) (fresh t) s -> spaced (times OnDemand (attempts s)).
Proof. intros Ht H. apply (inv_spaced s). eapply steps_inv; [exact H|]. by apply fresh_inv. Qed.

(** A cache that was started, refused a forged kid, was closed and stopped. *)
Definition doc1 : result error string := Ok (jwkSet_Marshal [rsaPublicToJWK sample_pub "k1"]).
Definition running : Sys := launch sample_cache (set_starting false (end_refresh doc1
  (set_starting true (begin_refresh Preload (fresh 0))))).
Definition forged (s : Sys) : Sys := set_demand DemandNone (end_refresh (Fail (New "down"))
  (set_demand DemandFetching (begin_refresh OnDemand (set_demand DemandRefresh (set_demand
    (DemandSnapshot None (lastFetch (set s)) (lastAttempt (set s))) s))))).

Lemma running_reachable : rtc (step sample_cache) (fresh 0) running.
Proof. eapply rtc_l; [by apply SStart|]. eapply rtc_once. by apply (SStarted sample_cache _ doc1). Qed.

(** A forged kid is looked up once more after the interval has passed. *)
Lemma forged_reachable s kid : demand s = DemandNone -> keys (set s) !! kid = None ->
  (Since (time s) (lastAttempt (set s)) <=? minRefetchInterval) = false ->
  rtc (step sample_cache) s (forged s).
Proof.
  intros Hd Hk Ht. eapply rtc_l; [by apply (SSnapshot _ s kid)|]. rewrite Hk.
  eapply rtc_l; [by apply SDecide|]. cbn [needs_refresh set_demand time andb]. rewrite Ht. cbn [negb].
  eapply rtc_l; [by apply SDemand|]. eapply rtc_once. by apply (SDemanded _ _ (Fail (New "down"))).
Qed.

Lemma fetches_rate_limited_witness :
  exists s, rtc (step sample_cache) (fresh 0) s /\ times OnDemand (attempts s) = [31 * Second; 62 * Second] /\
    spaced [31 * Second; 62 * Second].
Proof.
  set (s1 := forged (advance (31 * Second) running)). set (s2 := forged (advance (31 * Second) s1)).
  assert (rtc (step sample_cache) (fresh 0) s2) as H.
  { etransitivity; [apply running_reachable|]. eapply rtc_l; [by apply (SPass _ running (31 * Second))|].
    etransitivity; [apply (forged_reachable _ "forged"); vm_compute; reflexivity|].
    eapply rtc_l; [by apply (SPass _ s1 (31 * Second))|]. apply (forged_reachable _ "forged"); vm_compute; reflexivity. }
  exists s2. assert (times OnDemand (attempts s2) = [31 * Second; 62 * Second]) as E by (vm_compute; reflexivity).
  split; [exact H|]. split; [exact E|]. rewrite <- E. apply (fetches_rate_limited sample_cache 0); [vm_compute; discriminate|exact H].
Defined.

(** C20: the life of a cache.  Whatever the interleaving, keys once loaded are
    never lost: they change only to the (non-empty) keys of a document that was
    served meanwhile, so a failed refresh leaves them alone.  However often
    [start] is called one background loop is launched; with a positive interval
    it runs until it returns, which only a closed cache's does, and from then on
    nothing is fetched in the background. *)
Theorem cache_lifecycle c t s s' :
  rtc (step c) (fresh t) s -> rtc (step c) s s' ->
  (keys (set s) <> ∅ -> keys (set s') <> ∅) /\ replaced s s' /\
  (0 < refreshEvery c -> launched s' = true ->
     loop s' = LoopWaiting \/ loop s' = LoopFetching \/ (loop s' = LoopReturned /\ closed s' = true)) /\
  (loop s = LoopReturned -> loop s' = LoopReturned /\
     times Background (attempts s') = times Background (attempts s)).
Proof.
  intros H0 H. assert (launched_ok c (fresh t)) as HL by (split_and!; done).
  pose proof (steps_launched c _ _ H0 HL) as Hs. pose proof (steps_launched c _ _ H Hs) as Hs'.
  destruct (steps_replaced c s s' H) as [Hr _]. split_and!; [|done| |].
  - intros Hne. destruct Hr as [[-> _]|(raw & _ & Hp & _)]; [done|by eapply parseJWKS_nonempty].
  - intros Hpos Hla. destruct Hs' as (H1 & H2 & H3). specialize (H2 Hpos).
    destruct (loop s') eqn:E; [|tauto|tauto|right; right; auto|done].
    destruct H1 as [_ H1]. by rewrite H1 in Hla.
  - intros Hret. destruct Hs as (H1 & _ & _).
    assert (stopped s) as Hst.
    { split; [done|]. destruct (launched s); [done|]. rewrite Hret in H1. by destruct H1 as [H1 _]; specialize (H1 eq_refl). }
    destruct (steps_stopped c s s' H Hst) as [[Hl _] Hb]. done.
Qed.

Lemma cache_lifecycle_witness :
  let s := set_loop LoopReturned (set_closed running) in
  keys (set (forged (advance (31 * Second) s))) = {["k1" := sample_pub]} /\
  loop (forged (advance (31 * Second) s)) = LoopReturned.
Proof.
  intros s. assert (rtc (step sample_cache) (fresh 0) s) as H0.
  { etransitivity; [apply running_reachable|]. eapply rtc_l; [apply SClose|]. by eapply rtc_once, SStop. }
  assert (rtc (step sample_cache) s (forged (advance (31 * Second) s))) as H.
  { eapply rtc_l; [by apply (SPass _ s (31 * Second))|]. apply (forged_reachable _ "x"); vm_compute; reflexivity. }
  destruct (cache_lifecycle sample_cache 0 s _ H0 H) as (_ & _ & _ & Hq).
  split; [vm_compute; reflexivity|]. exact (proj1 (Hq eq_refl)).
Defined.

(** A refresh interval below zero is not replaced by the default: the loop's
    ticker panics as soon as the preload is over. *)
Lemma negative_refresh_panics c t out : refreshEvery c < 0 ->
  exists s, rtc (step c) (fresh t) s /\ loop s = LoopPanicked /\ served s = log_served out [].
Proof.
  intros Hc. exists (launch c (set_starting false (end_refresh out (set_starting true (begin_refresh Preload (fresh t)))))).
  split; [|split].
  - eapply rtc_l; [by apply SStart|]. eapply rtc_once, SStarted. done.
  - unfold launch. cbn. by rewrite (proj2 (Z.leb_le _ _)) by lia.
  - unfold launch. by cbn.
Qed.
