(* ===== verification/Jwt.v ===== *)
(** * jwt: minting, verifying and refreshing tokens

    jwt/jwt.go (the HS256 [Manager]), jwt/signer.go (the RS256 [Signer]),
    jwt/keyfunc.go, jwt/validator.go, jwt/localverifier.go and jwt/verifier.go.
    The golang-jwt library is the class [GoJWT]: signing, and parsing with a key
    function, with the documented behaviour the program relies on as its laws.
    JwtSecurity.v has the
    theorems and an instance of the class. *)

From S2P Require Import Prelude GoError GoString Encoding Jwks JwksCache.

Open Scope Z_scope.

Definition ErrTokenExpired : error := Err "jwt.ErrTokenExpired" "jwt: token expired" [].
Definition ErrInvalidToken : error := Err "jwt.ErrInvalidToken" "jwt: invalid token" [].
Definition ErrWrongTokenType : error := Err "jwt.ErrWrongTokenType" "jwt: wrong token type" [].

Record Config := mkConfig {
  SecretKey : string;
  AccessTokenTTL : Duration;
  RefreshTokenTTL : Duration;
  cfg_Issuer : string;
  PrivateKeyPEM : string;
  PrivateKeyPath : string;
  SigningKeyID : string;
  JWKSURL : string;
  JWKSRefresh : Duration;
  JWKSTimeout : Duration;
  JWKSMaxStale : Duration;
  ExpectedIssuer : string;
  AcceptHS256 : bool;
  SignWithRS256 : bool
}.

(** [TokenType] is a string type: tokens may carry other values. *)
Definition TokenTypeAccess : string := "access".
Definition TokenTypeRefresh : string := "refresh".

Record AppContext := mkAppContext {
  ac_App : string;
  ac_OrgID : string;
  ac_OrgType : string;
  ac_CityID : Z;
  ac_OrgRole : string;
  ac_PlatformRoles : list string;
  ac_OrgIDs : option (list string) (* nil is None: legacy tokens without the claim *)
}.
Definition no_context : AppContext := mkAppContext "" "" "" 0 "" [] None.

Record Claims := mkClaims {
  UserID : Z;
  Phone : string;
  DeviceID : string;
  TokenType : string;
  App : string;
  OrgID : string;
  OrgType : string;
  CityID : Z;
  OrgRole : string;
  PlatformRoles : list string;
  OrgIDs : option (list string);
  (* jwt.RegisteredClaims, the fields the parser checks *)
  ExpiresAt : option Time;
  NotBefore : option Time;
  IssuedAt : option Time;
  Issuer : string
}.

(** [jwt.NewNumericDate]: whole seconds. *)
Definition NewNumericDate (t : Time) : Time := t - t mod Second.

Definition buildClaims (now : Time) (userID : Z) (phone deviceID : string) (appCtx : AppContext)
    (ttl : Duration) (tokenType issuer : string) : Claims * Time :=
  let expiresAt := now + ttl in
  (mkClaims userID phone deviceID tokenType (ac_App appCtx) (ac_OrgID appCtx) (ac_OrgType appCtx)
     (ac_CityID appCtx) (ac_OrgRole appCtx)
     (if bool_decide (tokenType = TokenTypeAccess) then ac_PlatformRoles appCtx else [])
     (ac_OrgIDs appCtx)
     (Some (NewNumericDate expiresAt)) None (Some (NewNumericDate now)) issuer,
   expiresAt).

(** ** golang-jwt *)

(** The dynamic type of a token's signing method, with its [alg]. *)
Inductive Method := SigningMethodHMAC (alg : string) | SigningMethodRSA (alg : string) | OtherMethod (alg : string).
Definition Alg (m : Method) : string :=
  match m with SigningMethodHMAC a | SigningMethodRSA a | OtherMethod a => a end.

(** An unverified token: its method, and the header's kid ("" when there is
    none or it is not a string). *)
Record Token := mkToken { tok_Method : Method; tok_kid : string }.

Inductive VerifyKey := HMACKey (secret : string) | RSAKey (pub : rsa_PublicKey).

(** The registered claims hold at [now]. *)
Definition registered_valid (now : Time) (issuer : option string) (cl : Claims) : bool :=
  match ExpiresAt cl with Some e => now <? e | None => true end &&
  match NotBefore cl with Some n => n <=? now | None => true end &&
  match issuer with Some i => bool_decide (Issuer cl = i) | None => true end.

Class GoJWT := {
  PrivateKey : Type;
  PublicKey_of : PrivateKey -> rsa_PublicKey;
  SignedString_HS256 : Claims -> string -> result error string;
  SignedString_RS256 : string -> Claims -> PrivateKey -> result error string;
  (** [ParseWithClaims]: valid methods, expected issuer, clock, key function *)
  ParseWithClaims : list string -> option string -> Time -> (Token -> result error VerifyKey) ->
    string -> result error (Claims * bool);
  (** the token the key function is asked about, if parsing gets that far *)
  asks : list string -> string -> option Token;
  (** does the signature verify under the key, with the token's method? *)
  verifies : Token -> VerifyKey -> string -> bool;
  payload : string -> option Claims;
  (** claims that encoding/json reproduces: valid UTF-8, dates in range *)
  json_safe : Claims -> bool
}.

(** The documented behaviour relied on. *)
Class GoJWTLaws `{GoJWT} := {
  parse_sound ms iss now kf s cl v :
    ParseWithClaims ms iss now kf s = Ok (cl, v) ->
    v = true /\ payload s = Some cl /\ registered_valid now iss cl = true /\
    exists tok key, asks ms s = Some tok /\ kf tok = Ok key /\ verifies tok key s = true;
  parse_complete ms iss now kf s cl tok key :
    asks ms s = Some tok -> kf tok = Ok key -> verifies tok key s = true -> payload s = Some cl ->
    registered_valid now iss cl = true -> ParseWithClaims ms iss now kf s = Ok (cl, true);
  parse_expired ms iss now kf s cl tok key e :
    asks ms s = Some tok -> kf tok = Ok key -> verifies tok key s = true -> payload s = Some cl ->
    ExpiresAt cl = Some e -> e <= now ->
    exists err, ParseWithClaims ms iss now kf s = Fail err /\ Is err "gojwt.ErrTokenExpired" = true;
  asks_valid ms s tok : asks ms s = Some tok -> In (Alg (tok_Method tok)) ms;
  asks_HS256 ms s tok : asks ms s = Some tok -> Alg (tok_Method tok) = "HS256" ->
    tok_Method tok = SigningMethodHMAC "HS256";
  asks_RS256 ms s tok : asks ms s = Some tok -> Alg (tok_Method tok) = "RS256" ->
    tok_Method tok = SigningMethodRSA "RS256";
  sign_hs256 cl secret s ms :
    SignedString_HS256 cl secret = Ok s -> json_safe cl = true -> In "HS256" ms ->
    asks ms s = Some (mkToken (SigningMethodHMAC "HS256") "") /\ payload s = Some cl /\
    verifies (mkToken (SigningMethodHMAC "HS256") "") (HMACKey secret) s = true;
  sign_rs256 kid cl priv s ms :
    SignedString_RS256 kid cl priv = Ok s -> json_safe cl = true -> In "RS256" ms ->
    asks ms s = Some (mkToken (SigningMethodRSA "RS256") kid) /\ payload s = Some cl /\
    verifies (mkToken (SigningMethodRSA "RS256") kid) (RSAKey (PublicKey_of priv)) s = true
}.

(** What [Parse] does with the library's answer, in every verifier. *)
Definition parsed (r : result error (Claims * bool)) : result error Claims :=
  match r with
  | Fail err => if Is err "gojwt.ErrTokenExpired" then Fail ErrTokenExpired else Fail (Wrapf "parse token" err)
  | Ok (claims, valid) => if negb valid then Fail ErrInvalidToken else Ok claims
  end.

(** The check on [token_type] after parsing. *)
Definition of_type (tokenType : string) (r : result error Claims) : result error Claims :=
  let? claims := r in
  if negb (bool_decide (TokenType claims = tokenType)) then Fail ErrWrongTokenType else Ok claims.

Record TokenPair := mkPair {
  AccessToken : string;
  RefreshToken : string;
  pair_ExpiresAt : Time;
  RefreshExpiresAt : Time
}.

(** The context a refresh keeps: everything but the platform roles. *)
Definition context_of (claims : Claims) : AppContext :=
  mkAppContext (App claims) (OrgID claims) (OrgType claims) (CityID claims) (OrgRole claims) [] (OrgIDs claims).

Section Minting.
Context `{GoJWT}.

(** ** Manager (HS256) *)

Record Manager := mkManager {
  secretKey : string;
  accessTokenTTL : Duration;
  refreshTokenTTL : Duration;
  m_issuer : string
}.

Definition NewManager (cfg : Config) : result error Manager :=
  if bool_decide (SecretKey cfg = "") then Fail (New "jwt secret key is required")
  else if (String.length (SecretKey cfg) <? 32)%nat
  then Fail (New "jwt: secret key must be at least 32 bytes")
  else Ok (mkManager (SecretKey cfg) (AccessTokenTTL cfg) (RefreshTokenTTL cfg) (cfg_Issuer cfg)).

Definition Manager_generateToken (m : Manager) (now : Time) (userID : Z) (phone deviceID : string)
    (appCtx : AppContext) (ttl : Duration) (tokenType : string) : result error (string * Time) :=
  let (claims, expiresAt) := buildClaims now userID phone deviceID appCtx ttl tokenType (m_issuer m) in
  let? tokenString := map_err (Wrapf "sign token") (SignedString_HS256 claims (secretKey m)) in
  Ok (tokenString, expiresAt).

Definition pair_of (access refresh : result error (string * Time)) : result error TokenPair :=
  let? a := map_err (Wrapf "generate access token") access in
  let? r := map_err (Wrapf "generate refresh token") refresh in
  Ok (mkPair a.1 r.1 a.2 r.2).

(** [GenerateTokenPairWithContext]; the two tokens read the clock separately. *)
Definition Manager_GenerateTokenPairWithContext (m : Manager) (now now' : Time) (userID : Z)
    (phone deviceID : string) (appCtx : AppContext) : result error TokenPair :=
  pair_of (Manager_generateToken m now userID phone deviceID appCtx (accessTokenTTL m) TokenTypeAccess)
          (Manager_generateToken m now' userID phone deviceID appCtx (refreshTokenTTL m) TokenTypeRefresh).

Definition Manager_GenerateTokenPair (m : Manager) (now now' : Time) (userID : Z) (phone deviceID : string) :=
  Manager_GenerateTokenPairWithContext m now now' userID phone deviceID no_context.

Definition Manager_GenerateAccessToken (m : Manager) (now : Time) (userID : Z) (phone deviceID : string) :=
  Manager_generateToken m now userID phone deviceID no_context (accessTokenTTL m) TokenTypeAccess.

Definition Manager_keyFunc (m : Manager) (tok : Token) : result error VerifyKey :=
  match tok_Method tok with
  | SigningMethodHMAC _ => Ok (HMACKey (secretKey m))
  | _ => Fail (New "unexpected signing method")
  end.

Definition Manager_Parse (m : Manager) (now : Time) (tokenString : string) : result error Claims :=
  parsed (ParseWithClaims ["HS256"] None now (Manager_keyFunc m) tokenString).

Definition Manager_ValidateAccessToken (m : Manager) (now : Time) (t : string) : result error Claims :=
  of_type TokenTypeAccess (Manager_Parse m now t).
Definition Manager_ValidateRefreshToken (m : Manager) (now : Time) (t : string) : result error Claims :=
  of_type TokenTypeRefresh (Manager_Parse m now t).

Definition Manager_Refresh (m : Manager) (now now1 now2 : Time) (refreshToken : string) : result error TokenPair :=
  let? claims := Manager_ValidateRefreshToken m now refreshToken in
  Manager_GenerateTokenPairWithContext m now1 now2 (UserID claims) (Phone claims) (DeviceID claims)
    (context_of claims).

(** ** Signer (RS256) *)

Record Signer := mkSigner {
  priv : PrivateKey;
  kid : string;
  s_issuer : string;
  accessTTL : Duration;
  refreshTTL : Duration
}.

(** crypto/x509 and encoding/pem are parameters: the block's bytes; a PKCS#1
    key; a PKCS#8 key, [None] when it is not an RSA key. *)
Definition parseRSAPrivateKeyPEM (pem_Decode : string -> option string)
    (ParsePKCS1PrivateKey : string -> result error PrivateKey)
    (ParsePKCS8PrivateKey : string -> result error (option PrivateKey)) (pemStr : string)
    : result error PrivateKey :=
  match pem_Decode pemStr with
  | None => Fail (New "no PEM block found")
  | Some block =>
      match ParsePKCS1PrivateKey block with
      | Ok key => Ok key
      | Fail _ =>
          let? keyAny := ParsePKCS8PrivateKey block in
          match keyAny with
          | Some key => Ok key
          | None => Fail (New "PEM is not an RSA private key")
          end
      end
  end.

Definition NewSigner (os_ReadFile : string -> result error string)
    (parseKey : string -> result error PrivateKey) (cfg : Config) : result error Signer :=
  let? pemData :=
    if bool_decide (PrivateKeyPEM cfg = "") && negb (bool_decide (PrivateKeyPath cfg = ""))
    then map_err (Wrapf "jwt: read private key file") (os_ReadFile (PrivateKeyPath cfg))
    else Ok (PrivateKeyPEM cfg) in
  if bool_decide (pemData = "")
  then Fail (New "jwt: private key is required for signer (set PrivateKeyPEM or PrivateKeyPath)")
  else if bool_decide (SigningKeyID cfg = "") then Fail (New "jwt: signing kid is required for signer")
  else
    let? key := map_err (Wrapf "jwt: parse private key") (parseKey pemData) in
    let accessTTL := if AccessTokenTTL cfg =? 0 then 15 * Minute else AccessTokenTTL cfg in
    let refreshTTL := if RefreshTokenTTL cfg =? 0 then 720 * Hour else RefreshTokenTTL cfg in
    Ok (mkSigner key (SigningKeyID cfg) (cfg_Issuer cfg) accessTTL refreshTTL).

Definition Signer_generateToken (s : Signer) (now : Time) (userID : Z) (phone deviceID : string)
    (appCtx : AppContext) (ttl : Duration) (tokenType : string) : result error (string * Time) :=
  let (claims, expiresAt) := buildClaims now userID phone deviceID appCtx ttl tokenType (s_issuer s) in
  let? tokenString := map_err (Wrapf "sign token") (SignedString_RS256 (kid s) claims (priv s)) in
  Ok (tokenString, expiresAt).

Definition Signer_GenerateTokenPairWithContext (s : Signer) (now now' : Time) (userID : Z)
    (phone deviceID : string) (appCtx : AppContext) : result error TokenPair :=
  pair_of (Signer_generateToken s now userID phone deviceID appCtx (accessTTL s) TokenTypeAccess)
          (Signer_generateToken s now' userID phone deviceID appCtx (refreshTTL s) TokenTypeRefresh).

Definition Signer_GenerateTokenPair (s : Signer) (now now' : Time) (userID : Z) (phone deviceID : string) :=
  Signer_GenerateTokenPairWithContext s now now' userID phone deviceID no_context.

Definition Signer_GenerateAccessToken (s : Signer) (now : Time) (userID : Z) (phone deviceID : string) :=
  Signer_generateToken s now userID phone deviceID no_context (accessTTL s) TokenTypeAccess.

Definition Signer_keyFunc (s : Signer) (tok : Token) : result error VerifyKey :=
  match tok_Method tok with
  | SigningMethodRSA _ => Ok (RSAKey (PublicKey_of (priv s)))
  | _ => Fail (Detailf ErrInvalidToken "unexpected signing method")
  end.

(** [WithIssuer], given only when the issuer is set. *)
Definition issuer_opt (i : string) : option string := if bool_decide (i = "") then None else Some i.

Definition parseSelf (s : Signer) (now : Time) (tokenString : string) : result error Claims :=
  parsed (ParseWithClaims ["RS256"] (issuer_opt (s_issuer s)) now (Signer_keyFunc s) tokenString).

Definition Signer_Refresh (s : Signer) (now now1 now2 : Time) (refreshToken : string) : result error TokenPair :=
  let? claims := of_type TokenTypeRefresh (parseSelf s now refreshToken) in
  Signer_GenerateTokenPairWithContext s now1 now2 (UserID claims) (Phone claims) (DeviceID claims)
    (context_of claims).

Definition Signer_KeyID (s : Signer) : string := kid s.

Definition Signer_PublicKey (s : Signer) : rsa_PublicKey := PublicKey_of (priv s).

Definition JWKSJSON (s : Signer) : string := jwkSet_Marshal [rsaPublicToJWK (Signer_PublicKey s) (kid s)].

(** ** Validator *)

Inductive publicKeyResolver :=
| NoResolver
| StaticResolver (keys : gmap string rsa_PublicKey)
| JWKSResolver (c : jwksCache).

(** [resolver.publicKey(kid)] *)
Definition resolver_publicKey (net : Net) (r : publicKeyResolver) (kid : string) (w : W)
    : result error rsa_PublicKey * W :=
  match r with
  | NoResolver => (Fail (New "nil resolver"), w)
  | StaticResolver keys =>
      (match keys !! kid with Some k => Ok k | None => Fail (Detailf ErrUnknownKID "kid") end, w)
  | JWKSResolver c => publicKey net c kid w
  end.

Definition buildKeyFunc (net : Net) (jwks : publicKeyResolver) (hmacKey : string) (acceptHS256 : bool)
    (tok : Token) (w : W) : result error VerifyKey * W :=
  match tok_Method tok with
  | SigningMethodRSA alg =>
      if negb (bool_decide (alg = "RS256")) then (Fail (Detailf ErrInvalidToken "unexpected RSA alg"), w)
      else
        match jwks with
        | NoResolver => (Fail (Detailf ErrInvalidToken "RS256 token but no JWKS configured"), w)
        | _ =>
            if bool_decide (tok_kid tok = "") then (Fail (Detailf ErrInvalidToken "RS256 token missing kid"), w)
            else let (r, w) := resolver_publicKey net jwks (tok_kid tok) w in
                 (let? k := r in Ok (RSAKey k), w)
        end
  | SigningMethodHMAC _ =>
      if negb acceptHS256 || (String.length hmacKey =? 0)%nat
      then (Fail (Detailf ErrInvalidToken "HS256 not accepted"), w)
      else (Ok (HMACKey hmacKey), w)
  | OtherMethod _ => (Fail (Detailf ErrInvalidToken "unexpected signing method"), w)
  end.

Definition validMethods (acceptHS256 : bool) : list string :=
  if acceptHS256 then ["RS256"; "HS256"] else ["RS256"].

Record Validator := mkValidator {
  v_jwks : option jwksCache;
  v_resolver : publicKeyResolver;
  v_hmacKey : string;
  v_acceptHS256 : bool;
  v_validMethods : list string;
  v_expectedIssuer : string
}.

(** [v.hmacKey], nil (here empty) unless the flag and a secret are set. *)
Definition effective_hmacKey (cfg : Config) : string :=
  if AcceptHS256 cfg && negb (bool_decide (SecretKey cfg = "")) then SecretKey cfg else "".
Definition effective_accept (cfg : Config) : bool := negb (bool_decide (effective_hmacKey cfg = "")).

Definition NewValidator (url_Parse : string -> result error (string * string)) (net : Net) (cfg : Config)
    (w : W) : result error Validator * W :=
  let accept := effective_accept cfg in
  let v jwks := mkValidator jwks NoResolver (effective_hmacKey cfg) accept (validMethods accept) (ExpectedIssuer cfg) in
  if negb (bool_decide (JWKSURL cfg = "")) then
    match validateJWKSURL url_Parse (JWKSURL cfg) with
    | Some err => (Fail err, w)
    | None =>
        let refresh := if JWKSRefresh cfg =? 0 then 15 * Minute else JWKSRefresh cfg in
        let timeout := if JWKSTimeout cfg =? 0 then 5 * Second else JWKSTimeout cfg in
        let c := newJWKSCacheWithFetcherMaxStale refresh timeout (JWKSMaxStale cfg) in
        let (err, w) := start net w in
        match err with
        | Some e =>
            if negb accept then (Fail (Wrapf "jwt: JWKS preload failed" e), w) else (Ok (v (Some c)), w)
        | None => (Ok (v (Some c)), w)
        end
    end
  else if negb accept then (Fail (New "jwt: validator needs JWKSURL or AcceptHS256 with a secret"), w)
  else (Ok (v None), w).

(** [NewLocalRS256Verifier]; a nil key is [None]. *)
Definition NewLocalRS256Verifier (cfg : Config) (keys : gmap string (option rsa_PublicKey))
    : result error Validator :=
  let accept := effective_accept cfg in
  let cp := delete "" (omap id keys) in
  let resolver := if bool_decide (cp = ∅) then NoResolver else StaticResolver cp in
  if bool_decide (cp = ∅) && negb accept
  then Fail (New "jwt: local verifier needs at least one RS256 key or HS256 dual-accept")
  else Ok (mkValidator None resolver (effective_hmacKey cfg) accept (validMethods accept) (ExpectedIssuer cfg)).

Definition Validator_resolver (v : Validator) : publicKeyResolver :=
  match v_resolver v, v_jwks v with
  | NoResolver, Some c => JWKSResolver c
  | r, _ => r
  end.

Definition Validator_keyFunc (net : Net) (v : Validator) : Token -> W -> result error VerifyKey * W :=
  buildKeyFunc net (Validator_resolver v) (v_hmacKey v) (v_acceptHS256 v).

(** [Parse]: the library calls the key function at most once, on the token it
    [asks] about, which is when the JWKS cache may be refreshed. *)
Definition Validator_Parse (net : Net) (v : Validator) (now : Time) (tokenString : string) (w : W)
    : result error Claims * W :=
  let kf tok := (Validator_keyFunc net v tok w).1 in
  let r := ParseWithClaims (v_validMethods v) (issuer_opt (v_expectedIssuer v)) now kf tokenString in
  (parsed r,
   match asks (v_validMethods v) tokenString with
   | Some tok => (Validator_keyFunc net v tok w).2
   | None => w
   end).

(** [Close] of the two verifiers: a manager has nothing to stop, a validator
    closes its cache, whose loop then returns; never an error. *)
Definition Manager_Close (m : Manager) : Error := None.
Definition Validator_Close (v : Validator) (s : JwksCache.Sys) : Error * JwksCache.Sys :=
  match v_jwks v with
  | Some _ => (None, JwksCache.set_closed s)
  | None => (None, s)
  end.

(** Closing twice is closing once, and leaves the keys usable. *)
Lemma Validator_Close_idem v s :
  let s' := (Validator_Close v s).2 in Validator_Close v s' = (None, s') /\ JwksCache.set s' = JwksCache.set s.
Proof. unfold Validator_Close. by destruct (v_jwks v). Qed.

Definition Validator_ValidateAccessToken (net : Net) (v : Validator) (now : Time) (t : string) (w : W) :=
  let (r, w) := Validator_Parse net v now t w in (of_type TokenTypeAccess r, w).
Definition Validator_ValidateRefreshToken (net : Net) (v : Validator) (now : Time) (t : string) (w : W) :=
  let (r, w) := Validator_Parse net v now t w in (of_type TokenTypeRefresh r, w).
End Minting.
