(* ===== verification/JwtToy.v ===== *)
(** * An instance of the token library's interface

    Tokens whose signature is the key itself: no security, but every law of
    [GoJWTLaws] holds, so the hypotheses of the theorems about tokens can be met
    and their statements evaluated. *)

From Stdlib Require Import Ascii.
From S2P Require Import Prelude GoError GoString Jwks Jwt.

Open Scope Z_scope.

#[export] Instance Claims_eq_dec : EqDecision Claims.
Proof. solve_decision. Defined.

#[export] Instance Claims_countable : Countable Claims.
Proof.
  refine (inj_countable'
    (fun c => (UserID c, Phone c, DeviceID c, TokenType c, App c, OrgID c, OrgType c, CityID c, OrgRole c,
               PlatformRoles c, OrgIDs c, ExpiresAt c, NotBefore c, IssuedAt c, Issuer c))
    (fun '(a, b, c, d, e, f, g, h, i, j, k, l, m, n, o) => mkClaims a b c d e f g h i j k l m n o) _).
  by intros [].
Defined.

(** Positive numbers as strings of bits. *)
Fixpoint to_bits (p : positive) : string :=
  match p with
  | xH => ""
  | xO p => String "0"%char (to_bits p)
  | xI p => String "1"%char (to_bits p)
  end.
Fixpoint of_bits (s : string) : positive :=
  match s with
  | EmptyString => xH
  | String a s => if Ascii.eqb a "0" then xO (of_bits s) else xI (of_bits s)
  end.
Lemma of_to_bits p : of_bits (to_bits p) = p.
Proof. induction p as [p IH|p IH|]; simpl; by rewrite ?IH. Qed.

(** The content of a token: is it RS256, kid, claims, and the signing key. *)
Definition content := (bool * string * Claims * (string + (Z * Z)))%type.
Definition toy_write (c : content) : string := to_bits (encode c).
Definition toy_read (s : string) : option content := decode (of_bits s).
Lemma toy_read_write c : toy_read (toy_write c) = Some c.
Proof. unfold toy_read, toy_write. by rewrite of_to_bits, decode_encode. Qed.

Definition toy_method (rsa : bool) : Method :=
  if rsa then SigningMethodRSA "RS256" else SigningMethodHMAC "HS256".

Definition toy_asks (ms : list string) (s : string) : option Token :=
  match toy_read s with
  | Some (rsa, kid, _, _) =>
      if bool_decide (Alg (toy_method rsa) ∈ ms) then Some (mkToken (toy_method rsa) kid) else None
  | None => None
  end.
Definition toy_payload (s : string) : option Claims := option_map (fun c : content => c.1.2) (toy_read s).
Definition toy_verifies (key : VerifyKey) (s : string) : bool :=
  match toy_read s, key with
  | Some (_, _, _, inl k), HMACKey k' => bool_decide (k = k')
  | Some (_, _, _, inr (n, e)), RSAKey p => bool_decide (p = mkPub n e)
  | _, _ => false
  end.

Definition toy_parse (ms : list string) (iss : option string) (now : Time)
    (kf : Token -> result error VerifyKey) (s : string) : result error (Claims * bool) :=
  match toy_asks ms s, toy_payload s with
  | Some tok, Some cl =>
      match kf tok with
      | Fail e => Fail (Err "gojwt" "token is unverifiable" [e])
      | Ok key =>
          if toy_verifies key s then
            match ExpiresAt cl with
            | Some e => if e <=? now then Fail (Err "gojwt" "expired" [Err "gojwt.ErrTokenExpired" "expired" []])
                        else if registered_valid now iss cl then Ok (cl, true) else Fail (New "claims")
            | None => if registered_valid now iss cl then Ok (cl, true) else Fail (New "claims")
            end
          else Fail (New "signature")
      end
  | _, _ => Fail (New "malformed")
  end.

#[export] Instance toy_GoJWT : GoJWT := {
  PrivateKey := rsa_PublicKey;
  PublicKey_of p := p;
  SignedString_HS256 cl k := Ok (toy_write (false, "", cl, inl k));
  SignedString_RS256 kid cl p := Ok (toy_write (true, kid, cl, inr (pk_N p, pk_E p)));
  ParseWithClaims := toy_parse;
  asks := toy_asks;
  verifies _ := toy_verifies;
  payload := toy_payload;
  json_safe _ := true
}.

Lemma toy_asks_alg ms s tok :
  toy_asks ms s = Some tok -> exists rsa, tok_Method tok = toy_method rsa /\ Alg (toy_method rsa) ∈ ms.
Proof.
  unfold toy_asks. destruct (toy_read s) as [[[[rsa k] c] g]|]; [|done].
  case_bool_decide; [|done]. intros Hq. simplify_eq. by exists rsa.
Qed.

#[export] Instance toy_GoJWTLaws : GoJWTLaws.
Proof.
  split; simpl.
  - intros ms iss now kf s cl v. unfold toy_parse.
    destruct (toy_asks ms s) as [tok|]; [|done]. destruct (toy_payload s) as [c|]; [|done].
    destruct (kf tok) as [key|] eqn:Ek; [|done]. destruct (toy_verifies key s) eqn:Ev; [|done].
    destruct (registered_valid now iss c) eqn:Er; destruct (ExpiresAt c) as [e|]; try destruct (e <=? now);
      intros Hq; simplify_eq; split_and!; try done; by exists tok, key.
  - intros ms iss now kf s cl tok key Ha Hk Hv Hp Hr. unfold toy_parse. rewrite Ha, Hp, Hk, Hv.
    pose proof Hr as Hr'. unfold registered_valid in Hr'.
    destruct (ExpiresAt cl) as [e|]; [|by rewrite Hr]. to_prop.
    rewrite (proj2 (Z.leb_gt _ _)) by lia. by rewrite Hr.
  - intros ms iss now kf s cl tok key e Ha Hk Hv Hp He Hle. unfold toy_parse.
    rewrite Ha, Hp, Hk, Hv, He, (proj2 (Z.leb_le _ _)) by lia. by eexists.
  - intros ms s tok Ha. apply toy_asks_alg in Ha as (rsa & -> & Hin). by apply list_elem_of_In.
  - intros ms s tok Ha. apply toy_asks_alg in Ha as ([] & -> & _); done.
  - intros ms s tok Ha. apply toy_asks_alg in Ha as ([] & -> & _); done.
  - intros cl k s ms Hs _ Hin. injection Hs as <-.
    unfold toy_asks, toy_payload, toy_verifies. rewrite toy_read_write. simpl.
    rewrite !bool_decide_eq_true_2 by (done || by apply list_elem_of_In). done.
  - intros kid cl p s ms Hs _ Hin. injection Hs as <-.
    unfold toy_asks, toy_payload, toy_verifies. rewrite toy_read_write. simpl.
    rewrite !bool_decide_eq_true_2 by ((by destruct p) || by apply list_elem_of_In). done.
Qed.
