(* ===== verification/JwtSecurity.v ===== *)
(** * What the token library guarantees

    The [Verifier] interface of jwt/verifier.go with its implementations, the
    constructor that chooses between them, and the security properties of
    minting, verifying and refreshing tokens. *)

From S2P Require Import Prelude GoError GoString Encoding GoJson GoJsonString Jwks Jwt JwtToy.

Open Scope Z_scope.

(** ** The Verifier interface *)

Class Verifier (V : Type) := {
  ver_Parse : V -> Time -> string -> W -> result error Claims * W;
  ver_ValidateAccessToken : V -> Time -> string -> W -> result error Claims * W;
  ver_ValidateRefreshToken : V -> Time -> string -> W -> result error Claims * W
}.

(** What its clients rely on: the two checks accept what [Parse] accepts, with
    the token type they are for. *)
Class VerifierLaws (V : Type) `{Verifier V} := {
  access_sound v now t w cl w' :
    ver_ValidateAccessToken v now t w = (Ok cl, w') ->
    ver_Parse v now t w = (Ok cl, w') /\ TokenType cl = TokenTypeAccess;
  refresh_sound v now t w cl w' :
    ver_ValidateRefreshToken v now t w = (Ok cl, w') ->
    ver_Parse v now t w = (Ok cl, w') /\ TokenType cl = TokenTypeRefresh
}.

Lemma of_type_ok ty r cl : of_type ty r = Ok cl <-> r = Ok cl /\ TokenType cl = ty.
Proof.
  unfold of_type. destruct r as [c|e]; simpl; [|split; [done|by intros []]].
  case_bool_decide; simpl; split.
  - intros Hq. by simplify_eq.
  - by intros [Hq _].
  - done.
  - intros [Hq Ht]. by simplify_eq.
Qed.

Section Interface.
Context `{GoJWT} (net : Net).

#[export] Instance Manager_Verifier : Verifier Manager := {
  ver_Parse m now t w := (Manager_Parse m now t, w);
  ver_ValidateAccessToken m now t w := (Manager_ValidateAccessToken m now t, w);
  ver_ValidateRefreshToken m now t w := (Manager_ValidateRefreshToken m now t, w)
}.
#[export] Instance Validator_Verifier : Verifier Validator := {
  ver_Parse := Validator_Parse net;
  ver_ValidateAccessToken := Validator_ValidateAccessToken net;
  ver_ValidateRefreshToken := Validator_ValidateRefreshToken net
}.

(** What [NewVerifier] returns. *)
Inductive AnyVerifier := VManager (m : Manager) | VValidator (v : Validator).

#[export] Instance AnyVerifier_Verifier : Verifier AnyVerifier := {
  ver_Parse a := match a with VManager m => ver_Parse m | VValidator v => ver_Parse v end;
  ver_ValidateAccessToken a :=
    match a with VManager m => ver_ValidateAccessToken m | VValidator v => ver_ValidateAccessToken v end;
  ver_ValidateRefreshToken a :=
    match a with VManager m => ver_ValidateRefreshToken m | VValidator v => ver_ValidateRefreshToken v end
}.

#[export] Instance Manager_VerifierLaws : VerifierLaws Manager.
Proof.
  split; simpl; intros v now t w cl w' Hv; injection Hv as Hv ->; apply of_type_ok in Hv as [-> Ht]; done.
Qed.

#[export] Instance Validator_VerifierLaws : VerifierLaws Validator.
Proof.
  split; simpl; intros v now t w cl w'; unfold Validator_ValidateAccessToken, Validator_ValidateRefreshToken;
    destruct (Validator_Parse net v now t w) as [r w1]; intros Hv; injection Hv as Hv ->;
    apply of_type_ok in Hv as [-> Ht]; done.
Qed.

#[export] Instance AnyVerifier_VerifierLaws : VerifierLaws AnyVerifier.
Proof.
  split; intros [m|v].
  - exact (access_sound m).
  - exact (access_sound v).
  - exact (refresh_sound m).
  - exact (refresh_sound v).
Qed.

Definition NewVerifier (url_Parse : string -> result error (string * string)) (cfg : Config) (w : W)
    : result error AnyVerifier * W :=
  if negb (bool_decide (JWKSURL cfg = "")) then
    let (r, w) := NewValidator url_Parse net cfg w in (let? v := r in Ok (VValidator v), w)
  else if negb (AcceptHS256 cfg) then
    (Fail (New "jwt: JWKSURL is required when AcceptHS256 is false"), w)
  else (let? m := NewManager cfg in Ok (VManager m), w).
End Interface.

(** ** Parsing *)

Section Parsing.
Context `{GoJWTLaws}.

(** What [Parse] makes of a token whose signature verifies. *)
Lemma parse_minted ms iss t kf s cl tok key e :
  asks ms s = Some tok -> kf tok = Ok key -> verifies tok key s = true -> payload s = Some cl ->
  ExpiresAt cl = Some e -> NotBefore cl = None -> (iss = None \/ iss = Some (Issuer cl)) ->
  parsed (ParseWithClaims ms iss t kf s) = if e <=? t then Fail ErrTokenExpired else Ok cl.
Proof.
  intros Ha Hk Hv Hp He Hn Hi. destruct (Z.leb_spec e t) as [Hle|Hlt].
  - destruct (parse_expired ms iss t kf s cl tok key e) as (err & -> & Hx); auto.
    simpl. by rewrite Hx.
  - erewrite parse_complete; [done|done|done|done|done|].
    unfold registered_valid. rewrite He, Hn, (proj2 (Z.ltb_lt _ _)) by lia.
    destruct Hi as [->| ->]; [done|]. by rewrite bool_decide_eq_true_2.
Qed.

(** A token that parses was signed by a key the key function gave for it. *)
Lemma parsed_ok ms iss t kf s cl :
  parsed (ParseWithClaims ms iss t kf s) = Ok cl ->
  payload s = Some cl /\ registered_valid t iss cl = true /\
  exists tok key, asks ms s = Some tok /\ kf tok = Ok key /\ verifies tok key s = true.
Proof.
  destruct (ParseWithClaims ms iss t kf s) as [[c v]|e] eqn:Ep; simpl.
  - apply parse_sound in Ep as (-> & ? & ? & ?). intros Hq. by simplify_eq/=.
  - by destruct (Is e _).
Qed.

Lemma Manager_generateToken_ok m now uid ph dev ctx ttl ty s exp :
  Manager_generateToken m now uid ph dev ctx ttl ty = Ok (s, exp) ->
  exp = now + ttl /\
  SignedString_HS256 (buildClaims now uid ph dev ctx ttl ty (m_issuer m)).1 (secretKey m) = Ok s.
Proof.
  unfold Manager_generateToken. simpl. destruct (SignedString_HS256 _ _); simpl; intros Hq; by simplify_eq.
Qed.

Lemma Signer_generateToken_ok g now uid ph dev ctx ttl ty s exp :
  Signer_generateToken g now uid ph dev ctx ttl ty = Ok (s, exp) ->
  exp = now + ttl /\
  SignedString_RS256 (kid g) (buildClaims now uid ph dev ctx ttl ty (s_issuer g)).1 (priv g) = Ok s.
Proof.
  unfold Signer_generateToken. simpl. destruct (SignedString_RS256 _ _ _); simpl; intros Hq; by simplify_eq.
Qed.

(** A manager's verdict on a token it minted. *)
Lemma Manager_Parse_minted m now uid ph dev ctx ttl ty s exp t :
  Manager_generateToken m now uid ph dev ctx ttl ty = Ok (s, exp) ->
  let cl := (buildClaims now uid ph dev ctx ttl ty (m_issuer m)).1 in
  json_safe cl = true ->
  Manager_Parse m t s = if NewNumericDate (now + ttl) <=? t then Fail ErrTokenExpired else Ok cl.
Proof.
  intros Hg cl Hj. apply Manager_generateToken_ok in Hg as [_ Hs].
  destruct (sign_hs256 _ _ _ ["HS256"] Hs Hj) as (Ha & Hp & Hv); [by left|].
  unfold Manager_Parse. eapply parse_minted; [exact Ha| |exact Hv|exact Hp|done|done|by left]. done.
Qed.

(** A signer's verdict on a token it minted. *)
Lemma parseSelf_minted g now uid ph dev ctx ttl ty s exp t :
  Signer_generateToken g now uid ph dev ctx ttl ty = Ok (s, exp) ->
  let cl := (buildClaims now uid ph dev ctx ttl ty (s_issuer g)).1 in
  json_safe cl = true ->
  parseSelf g t s = if NewNumericDate (now + ttl) <=? t then Fail ErrTokenExpired else Ok cl.
Proof.
  intros Hg cl Hj. apply Signer_generateToken_ok in Hg as [_ Hs].
  destruct (sign_rs256 _ _ _ _ ["RS256"] Hs Hj) as (Ha & Hp & Hv); [by left|].
  unfold parseSelf. eapply parse_minted; [exact Ha| |exact Hv|exact Hp|done|done|]; [done|].
  unfold issuer_opt. case_bool_decide; auto.
Qed.

Lemma pair_of_ok a r pair :
  pair_of a r = Ok pair ->
  a = Ok (AccessToken pair, pair_ExpiresAt pair) /\ r = Ok (RefreshToken pair, RefreshExpiresAt pair).
Proof.
  unfold pair_of. destruct a as [[]|], r as [[]|]; simpl; intros Hq; by simplify_eq.
Qed.
End Parsing.

(** ** Minted pairs *)

(** The verdicts on a minted token of type [ty] with claims [cl], expiring at
    [e]: its own check accepts it until then, the other check never does. *)
Definition token_verdicts (own other : Time -> result error Claims) (cl : Claims) (e : Time) : Prop :=
  forall t, own t = (if e <=? t then Fail ErrTokenExpired else Ok cl) /\
            other t = Fail (if e <=? t then ErrTokenExpired else ErrWrongTokenType).

Lemma of_type_verdicts ty ty' cl (r : Time -> result error Claims) e :
  (forall t, r t = if e <=? t then Fail ErrTokenExpired else Ok cl) -> TokenType cl = ty -> ty <> ty' ->
  token_verdicts (fun t => of_type ty (r t)) (fun t => of_type ty' (r t)) cl e.
Proof.
  intros Hr Ht Hne t. rewrite Hr. unfold of_type. destruct (e <=? t); [done|]. simpl. rewrite Ht.
  by rewrite bool_decide_eq_true_2, bool_decide_eq_false_2.
Qed.

(** C16: round trip of a token pair.  The access token a manager mints is
    accepted by [ValidateAccessToken] until its expiry, with exactly the claims
    it was minted with, platform roles included, and never by
    [ValidateRefreshToken]; the refresh token conversely, and it carries no
    platform roles.  After expiry both answer [ErrTokenExpired]. *)
Theorem minted_pair_validates `{GoJWTLaws} m now now' uid ph dev ctx pair :
  Manager_GenerateTokenPairWithContext m now now' uid ph dev ctx = Ok pair ->
  let ca := (buildClaims now uid ph dev ctx (accessTokenTTL m) TokenTypeAccess (m_issuer m)).1 in
  let cr := (buildClaims now' uid ph dev ctx (refreshTokenTTL m) TokenTypeRefresh (m_issuer m)).1 in
  json_safe ca = true -> json_safe cr = true ->
  token_verdicts (fun t => Manager_ValidateAccessToken m t (AccessToken pair))
    (fun t => Manager_ValidateRefreshToken m t (AccessToken pair)) ca (NewNumericDate (now + accessTokenTTL m)) /\
  token_verdicts (fun t => Manager_ValidateRefreshToken m t (RefreshToken pair))
    (fun t => Manager_ValidateAccessToken m t (RefreshToken pair)) cr (NewNumericDate (now' + refreshTokenTTL m)) /\
  PlatformRoles ca = ac_PlatformRoles ctx /\ PlatformRoles cr = [].
Proof.
  intros Hp ca cr Ha Hr. apply pair_of_ok in Hp as [Hpa Hpr]. split_and!; [| |done|done].
  - apply of_type_verdicts; [|done|done]. intros t. by eapply Manager_Parse_minted.
  - apply of_type_verdicts; [|done|done]. intros t. by eapply Manager_Parse_minted.
Qed.

Definition sample_manager : Manager :=
  mkManager "0123456789abcdef0123456789abcdef" (15 * Minute) (720 * Hour) "cg-platform".
Definition sample_ctx : AppContext := mkAppContext "partner" "o1" "sto" 7 "owner" ["super_admin"] (Some ["o1"; "o2"]).
Definition t0 : Time := 1750000000 * Second + 5.

Definition sample_pair : TokenPair :=
  match Manager_GenerateTokenPairWithContext sample_manager t0 t0 42 "+7700" "dev" sample_ctx with
  | Ok p => p | Fail _ => mkPair "" "" 0 0
  end.

Lemma minted_pair_validates_witness :
  exists cl, Manager_ValidateAccessToken sample_manager (t0 + Minute) (AccessToken sample_pair) = Ok cl /\
    UserID cl = 42 /\ PlatformRoles cl = ["super_admin"] /\
    Manager_ValidateAccessToken sample_manager (t0 + Minute) (RefreshToken sample_pair) = Fail ErrWrongTokenType.
Proof.
  destruct (minted_pair_validates sample_manager t0 t0 42 "+7700" "dev" sample_ctx sample_pair)
    as (Ha & Hr & _); [reflexivity|reflexivity|reflexivity|].
  eexists. split; [exact (proj1 (Ha (t0 + Minute)))|]. split; [reflexivity|]. split; [reflexivity|].
  exact (proj2 (Hr (t0 + Minute))).
Defined.

(** ** Refreshing *)

(** The claims of a renewed access token: those of the refresh token, without
    any platform role. *)
Definition renewed (cl cl' : Claims) : Prop :=
  UserID cl' = UserID cl /\ Phone cl' = Phone cl /\ DeviceID cl' = DeviceID cl /\ App cl' = App cl /\
  OrgID cl' = OrgID cl /\ OrgType cl' = OrgType cl /\ CityID cl' = CityID cl /\ OrgRole cl' = OrgRole cl /\
  OrgIDs cl' = OrgIDs cl /\ PlatformRoles cl' = [] /\ TokenType cl' = TokenTypeAccess.

(** C14: refreshing renews the session, not the authority.  A [Refresh] that
    succeeds, by a manager or by a signer, was given a refresh token they
    accept, and mints an access token that validates to the same user, device
    and application context with no platform role, even if the refresh token
    claims some.  ([json_safe]: strings that are not UTF-8 do not survive JSON.) *)
Theorem refresh_drops_platform_roles `{GoJWTLaws} (g : Signer) (m : Manager) now now1 now2 rt pair :
  (Manager_Refresh m now now1 now2 rt = Ok pair ->
   exists cl cl', Manager_ValidateRefreshToken m now rt = Ok cl /\ renewed cl cl' /\
     (json_safe cl' = true -> forall t, t < NewNumericDate (now1 + accessTokenTTL m) ->
       Manager_ValidateAccessToken m t (AccessToken pair) = Ok cl')) /\
  (Signer_Refresh g now now1 now2 rt = Ok pair ->
   exists cl cl', of_type TokenTypeRefresh (parseSelf g now rt) = Ok cl /\ renewed cl cl' /\
     (json_safe cl' = true -> forall t, t < NewNumericDate (now1 + accessTTL g) ->
       of_type TokenTypeAccess (parseSelf g t (AccessToken pair)) = Ok cl')).
Proof.
  split.
  - unfold Manager_Refresh. destruct (Manager_ValidateRefreshToken m now rt) as [cl|]; [|done].
    intros Hp. apply pair_of_ok in Hp as [Hp _]. eexists cl, _. split; [done|]. split;
      [|intros Hj t Ht; unfold Manager_ValidateAccessToken; erewrite Manager_Parse_minted by eauto;
        rewrite (proj2 (Z.leb_gt _ _)) by done; by apply of_type_ok]. done.
  - unfold Signer_Refresh. destruct (of_type TokenTypeRefresh (parseSelf g now rt)) as [cl|]; [|done].
    intros Hp. apply pair_of_ok in Hp as [Hp _]. eexists cl, _. split; [done|]. split;
      [|intros Hj t Ht; erewrite parseSelf_minted by eauto;
        rewrite (proj2 (Z.leb_gt _ _)) by done; by apply of_type_ok]. done.
Qed.

Definition sample_signer : Signer :=
  mkSigner (sample_pub : PrivateKey) "cg-users-2026-06" "cg-platform" (15 * Minute) (720 * Hour).

Lemma refresh_drops_platform_roles_witness :
  exists pair cl cl', Manager_Refresh sample_manager (t0 + Hour) (t0 + Hour) (t0 + Hour) (RefreshToken sample_pair)
      = Ok pair /\ renewed cl cl' /\
    Manager_ValidateAccessToken sample_manager (t0 + Hour) (AccessToken pair) = Ok cl'.
Proof.
  assert (is_ok (Manager_Refresh sample_manager (t0 + Hour) (t0 + Hour) (t0 + Hour) (RefreshToken sample_pair))
    = true) as Hok by (vm_compute; reflexivity).
  destruct (Manager_Refresh sample_manager (t0 + Hour) (t0 + Hour) (t0 + Hour) (RefreshToken sample_pair))
    as [pair|] eqn:Er; [|discriminate Hok].
  destruct (refresh_drops_platform_roles sample_signer sample_manager (t0 + Hour) (t0 + Hour) (t0 + Hour)
    (RefreshToken sample_pair) pair) as [H _].
  destruct (H Er) as (cl & cl' & _ & Hren & Hv). exists pair, cl, cl'. split; [reflexivity|].
  split; [exact Hren|]. apply Hv; vm_compute; reflexivity.
Defined.

(** ** Algorithm confusion *)

(** How token [s] was verified: with an RSA key the issuer's JWKS holds for its
    kid, or with the shared secret. *)
Definition rs256_verified `{GoJWT} (net : Net) (c : jwksCache) (s : string) (tok : Token) (w w' : W) : Prop :=
  tok_Method tok = SigningMethodRSA "RS256" /\ tok_kid tok <> "" /\
  exists k, publicKey net c (tok_kid tok) w = (Ok k, w') /\ verifies tok (RSAKey k) s = true.
Definition hs256_verified `{GoJWT} (cfg : Config) (s : string) (tok : Token) : Prop :=
  tok_Method tok = SigningMethodHMAC "HS256" /\ AcceptHS256 cfg = true /\ SecretKey cfg <> "" /\
  verifies tok (HMACKey (SecretKey cfg)) s = true.

(** The validator a configuration yields. *)
Definition validator_of (cfg : Config) (jwks : option jwksCache) : Validator :=
  mkValidator jwks NoResolver (effective_hmacKey cfg) (effective_accept cfg)
    (validMethods (effective_accept cfg)) (ExpectedIssuer cfg).

Lemma NewValidator_ok url_Parse net cfg w v w' :
  NewValidator url_Parse net cfg w = (Ok v, w') ->
  exists jwks, v = validator_of cfg jwks /\ (JWKSURL cfg = "" -> jwks = None /\ effective_accept cfg = true).
Proof.
  unfold NewValidator. case_bool_decide as Hu; simpl.
  - destruct (effective_accept cfg) eqn:Ea; simpl; [|done]. intros Hq. simplify_eq.
    exists None. split; [|done]. unfold validator_of. by rewrite Ea.
  - destruct (validateJWKSURL _ _); [done|]. destruct (start net w) as [[e|] w1].
    + destruct (effective_accept cfg) eqn:Ea; simpl; [|done]. intros Hq. simplify_eq.
      eexists. split; [unfold validator_of; by rewrite Ea|done].
    + intros Hq. simplify_eq. by eexists.
Qed.

Lemma effective_key cfg :
  effective_accept cfg = true ->
  AcceptHS256 cfg = true /\ SecretKey cfg <> "" /\ effective_hmacKey cfg = SecretKey cfg.
Proof.
  unfold effective_accept, effective_hmacKey. destruct (AcceptHS256 cfg); simpl; [|done].
  destruct (decide (SecretKey cfg = "")) as [Hs|Hs].
  - by rewrite (bool_decide_eq_true_2 _ Hs).
  - by rewrite (bool_decide_eq_false_2 _ Hs).
Qed.

(** The key function hands out a key only for the two algorithms, each with its
    own kind of key. *)
Lemma keyFunc_ok net cfg jwks tok w key w' :
  Validator_keyFunc net (validator_of cfg jwks) tok w = (Ok key, w') ->
  (exists c k, jwks = Some c /\ tok_Method tok = SigningMethodRSA "RS256" /\ tok_kid tok <> "" /\
     publicKey net c (tok_kid tok) w = (Ok k, w') /\ key = RSAKey k) \/
  (exists alg, tok_Method tok = SigningMethodHMAC alg /\ AcceptHS256 cfg = true /\ SecretKey cfg <> "" /\
     key = HMACKey (SecretKey cfg) /\ w' = w).
Proof.
  unfold Validator_keyFunc, buildKeyFunc, Validator_resolver. simpl.
  destruct (tok_Method tok) as [alg|alg|alg]; [| |done].
  - destruct (effective_accept cfg) eqn:Ea; simpl; [|done]. destruct (effective_key cfg Ea) as (H1 & H2 & ->).
    destruct (String.length (SecretKey cfg) =? 0)%nat; [done|]. intros Hq. simplify_eq. right. by exists alg.
  - case_bool_decide as Halg; simpl; [|done]. destruct jwks as [c|]; [|done].
    case_bool_decide as Hk; [done|]. simpl.
    destruct (publicKey net c (tok_kid tok) w) as [[k|e] w1] eqn:Ep; simpl; [|done].
    intros Hq. simplify_eq. left. by exists c, k.
Qed.

(** An HMAC token the parser lets through is HS256. *)
Lemma asks_hmac `{GoJWTLaws} accept s tok alg :
  asks (validMethods accept) s = Some tok -> tok_Method tok = SigningMethodHMAC alg ->
  tok_Method tok = SigningMethodHMAC "HS256".
Proof.
  intros Ha Hm. pose proof (asks_valid _ _ _ Ha) as Hin. pose proof (asks_RS256 _ _ _ Ha) as Hr.
  rewrite Hm in Hin, Hr |- *. simpl in Hin, Hr.
  destruct accept; simpl in Hin; destruct Hin as [Hin|Hin]; try (by specialize (Hr (eq_sym Hin))); [|done].
  by destruct Hin as [<-|[]].
Qed.

(** C13: no algorithm confusion.  A token the verifier of [NewVerifier] accepts
    is genuine under exactly one of two regimes: it declares RS256 and its
    signature verifies under the RSA key its kid has in the JWKS, or it declares
    HS256, HS256 was opted into, and its signature verifies under the configured
    secret.  Its registered claims are valid now, and a validator also enforces
    the expected issuer. *)
Theorem verifier_accepts_only `{GoJWTLaws} url_Parse net cfg w0 v w1 now s w cl w' :
  NewVerifier net url_Parse cfg w0 = (Ok v, w1) ->
  @ver_Parse _ (AnyVerifier_Verifier net) v now s w = (Ok cl, w') ->
  payload s = Some cl /\ registered_valid now None cl = true /\
  (JWKSURL cfg <> "" -> ExpectedIssuer cfg <> "" -> Issuer cl = ExpectedIssuer cfg) /\
  exists ms tok, asks ms s = Some tok /\
    ((exists c, JWKSURL cfg <> "" /\ rs256_verified net c s tok w w') \/ hs256_verified cfg s tok).
Proof.
  unfold NewVerifier. case_bool_decide as Hu; simpl.
  - destruct (AcceptHS256 cfg) eqn:Ha; simpl; [|done]. unfold NewManager.
    case_bool_decide as Hs; [done|]. destruct (String.length (SecretKey cfg) <? 32)%nat; [done|].
    simpl. intros Hq. simplify_eq. simpl. intros Hp. injection Hp as Hp ->.
    apply parsed_ok in Hp as (H1 & H2 & tok & key & H3 & H4 & H5).
    split_and!; [done|done|done|]. exists ["HS256"], tok. split; [done|]. right.
    pose proof (asks_valid _ _ _ H3) as [Halg|[]].
    pose proof (asks_HS256 _ _ _ H3 (eq_sym Halg)) as Hm. unfold Manager_keyFunc in H4. rewrite Hm in H4.
    simpl in H4. simplify_eq. done.
  - destruct (NewValidator url_Parse net cfg w0) as [[x|] w2] eqn:En; simpl; [|done].
    intros Hq. simplify_eq. apply NewValidator_ok in En as (jwks & -> & _).
    simpl. unfold Validator_Parse. intros Hp. injection Hp as Hp Hw.
    apply parsed_ok in Hp as (H1 & H2 & tok & key & H3 & H4 & H5). rewrite H3 in Hw.
    pose proof H2 as H2'. unfold registered_valid in H2'. to_prop.
    split_and!; [done| | |].
    + unfold registered_valid. rewrite H6, H8. done.
    + intros _ Hi. unfold issuer_opt in H7. simpl in H7. rewrite bool_decide_eq_false_2 in H7 by done.
      by apply bool_decide_eq_true in H7.
    + exists (v_validMethods (validator_of cfg jwks)), tok. split; [done|].
      destruct (Validator_keyFunc net (validator_of cfg jwks) tok w) as [rk wk] eqn:Ek. simpl in H4, Hw. subst.
      apply keyFunc_ok in Ek as [(c & k & -> & K1 & K2 & K3 & ->)|(alg & K1 & K2 & K3 & -> & ->)].
      * left. exists c. split; [done|]. split_and!; [done|done|by exists k].
      * right. split_and!; [|done|done|done]. by apply (asks_hmac _ _ _ _ H3 K1).
Qed.

Definition hs_cfg : Config :=
  mkConfig "0123456789abcdef0123456789abcdef" (15 * Minute) (720 * Hour) "cg-platform" "" "" "" "" 0 0 0 "" true false.

Lemma verifier_accepts_only_witness :
  exists v cl ms tok, NewVerifier (down 0) (fun _ => Fail (New "url")) hs_cfg w0 = (Ok v, w0) /\
    payload (AccessToken sample_pair) = Some cl /\ asks ms (AccessToken sample_pair) = Some tok /\
    hs256_verified hs_cfg (AccessToken sample_pair) tok.
Proof.
  exists (VManager sample_manager).
  assert (NewVerifier (down 0) (fun _ => Fail (New "url")) hs_cfg w0 = (Ok (VManager sample_manager), w0)) as Hn
    by (vm_compute; reflexivity).
  set (v := VManager sample_manager) in *.
  assert (is_ok (@ver_Parse _ (AnyVerifier_Verifier (down 0)) v (t0 + Minute) (AccessToken sample_pair) w0).1 = true)
    as Hok by (vm_compute; reflexivity).
  destruct (@ver_Parse _ (AnyVerifier_Verifier (down 0)) v (t0 + Minute) (AccessToken sample_pair) w0)
    as [[cl|] w'] eqn:Ep; [|discriminate Hok].
  destruct (verifier_accepts_only _ _ _ _ _ _ _ _ _ _ _ Hn Ep) as (H1 & _ & _ & ms & tok & H2 & H3).
  exists cl, ms, tok. split; [exact Hn|]. split; [exact H1|]. split; [exact H2|].
  destruct H3 as [(c & Hu & _)|H3]; [|exact H3]. by destruct Hu.
Defined.

(** ** From the issuer to a verifying service *)

Section EndToEnd.
Context `{GoJWTLaws} (net : Net) (g : Signer).
Hypothesis key_publishable : publishable (Signer_PublicKey g).
Hypothesis kid_set : kid g <> "".
Hypothesis kid_text : valid_utf8 (kid g) = true.
Hypothesis doc_served : forall n, fetch net n = Ok (JWKSJSON g).

Lemma parse_published_set : parseJWKS (JWKSJSON g) = Ok {[kid g := Signer_PublicKey g]}.
Proof.
  unfold parseJWKS, JWKSJSON. rewrite jwkSet_roundtrip.
  2:{ cbn [forallb]. unfold jwk_text, rsaPublicToJWK. cbn [Kty Kid Use Alg JN JE forallb].
      by rewrite kid_text, !(is_ascii_valid (Base64.EncodeToString _ _)) by apply Base64.is_ascii_EncodeToString. }
  cbn [rbind parse_keys]. cbn [Kty rsaPublicToJWK].
  rewrite bool_decide_eq_true_2 by done. simpl. rewrite parse_published by done. simpl.
  rewrite insert_empty. by rewrite bool_decide_eq_false_2 by apply map_non_empty_singleton.
Qed.

Lemma preload w : exists w1, start net w = (None, w1) /\
  keys (ks w1) = {[kid g := Signer_PublicKey g]} /\ exists n, lastFetch (ks w1) = now net n.
Proof.
  unfold start. destruct (refreshNow net w) as [err w1] eqn:Er. exists w1.
  unfold refreshNow, time_Now in Er. rewrite doc_served, parse_published_set in Er. simpl in Er. simplify_eq.
  simpl. eauto.
Qed.

(** The published key is resolved from the preloaded set. *)
Lemma resolve_published c w1 :
  keys (ks w1) = {[kid g := Signer_PublicKey g]} -> IsZero (lastFetch (ks w1)) = false ->
  Since (now net (wclk w1)) (lastFetch (ks w1)) <= maxStale c ->
  exists w2, publicKey net c (kid g) w1 = (Ok (Signer_PublicKey g), w2) /\ fetches w2 = fetches w1.
Proof.
  intros Hk Hz Hs. unfold publicKey, snapshot, missing_or_stale, isStale, time_Now.
  rewrite Hk, lookup_singleton_eq, Hz, (proj2 (Z.ltb_ge _ _)) by done. by eexists.
Qed.

(** A validator with that set accepts what the signer minted. *)
Lemma validator_accepts_minted cfg c w1 now0 uid ph dev ctx ttl ty s exp t :
  keys (ks w1) = {[kid g := Signer_PublicKey g]} -> IsZero (lastFetch (ks w1)) = false ->
  Since (now net (wclk w1)) (lastFetch (ks w1)) <= maxStale c ->
  Signer_generateToken g now0 uid ph dev ctx ttl ty = Ok (s, exp) ->
  let cl := (buildClaims now0 uid ph dev ctx ttl ty (s_issuer g)).1 in
  json_safe cl = true -> (ExpectedIssuer cfg = "" \/ ExpectedIssuer cfg = s_issuer g) ->
  exists w2, Validator_Parse net (validator_of cfg (Some c)) t s w1 =
      (if NewNumericDate (now0 + ttl) <=? t then Fail ErrTokenExpired else Ok cl, w2) /\
    fetches w2 = fetches w1.
Proof.
  intros Hk Hz Hs Hg cl Hj Hi. apply Signer_generateToken_ok in Hg as [_ Hg].
  destruct (sign_rs256 _ _ _ _ (validMethods (effective_accept cfg)) Hg Hj) as (Ha & Hp & Hv);
    [destruct (effective_accept cfg); by left|].
  destruct (resolve_published c w1 Hk Hz Hs) as (w2 & Hr & Hf). exists w2.
  assert (Validator_keyFunc net (validator_of cfg (Some c)) (mkToken (SigningMethodRSA "RS256") (kid g)) w1 =
    (Ok (RSAKey (Signer_PublicKey g)), w2)) as Hkf.
  { unfold Validator_keyFunc, buildKeyFunc, Validator_resolver. simpl.
    rewrite (bool_decide_eq_false_2 _ kid_set). by rewrite Hr. }
  split; [|done]. unfold Validator_Parse. cbn [v_validMethods validator_of]. rewrite Ha, Hkf. f_equal.
  eapply parse_minted; [exact Ha|by rewrite Hkf|exact Hv|exact Hp|done|done|].
  unfold issuer_opt. simpl. case_bool_decide; [by left|right]. destruct Hi as [|Hi]; [done|by rewrite Hi].
Qed.
End EndToEnd.

(** An HTTP 200 with a document within the limit is fetched as it is. *)
Lemma http_fetch_ok client_Do n doc :
  client_Do n = Ok (mkResponse 200 doc None None) -> Z.of_nat (String.length doc) <= maxJWKSBytes ->
  http_fetch None client_Do n = Ok doc.
Proof.
  intros Hc Hl. unfold http_fetch. rewrite Hc. cbn [rbind Body ReadErr CloseErr StatusCode]. f_equal.
  assert (forall k s, (String.length s <= k)%nat -> take_string k s = s) as Ht.
  { clear. induction k as [|k IH]; intros [|a s] Hs; try done; cbn in *; [lia|]. by rewrite IH by lia. }
  apply Ht. lia.
Qed.

(** C15: end to end.  A service that gets the issuer's JWKS document over HTTP
    (the text [JWKSJSON] publishes for an RSA key of up to 8192 bits, if it fits
    the response limit) accepts the access tokens the issuer's signer mints, with exactly their claims and without
    another fetch, until they expire, while the key set is within its staleness
    bound. *)
Theorem issuer_tokens_verify `{GoJWTLaws} url_Parse net client_Do g cfg w v w1 now0 now0' uid ph dev ctx pair t :
  publishable (Signer_PublicKey g) -> kid g <> "" -> valid_utf8 (kid g) = true ->
  (forall n, fetch net n = http_fetch None client_Do n) ->
  (forall n, client_Do n = Ok (mkResponse 200 (JWKSJSON g) None None)) ->
  Z.of_nat (String.length (JWKSJSON g)) <= maxJWKSBytes ->
  (forall i, 0 < now net i) -> (forall i j, now net j - now net i <= JWKSMaxStale cfg) ->
  0 < JWKSMaxStale cfg < int64_max ->
  JWKSURL cfg <> "" -> (ExpectedIssuer cfg = "" \/ ExpectedIssuer cfg = s_issuer g) ->
  NewValidator url_Parse net cfg w = (Ok v, w1) ->
  Signer_GenerateTokenPairWithContext g now0 now0' uid ph dev ctx = Ok pair ->
  let cl := (buildClaims now0 uid ph dev ctx (accessTTL g) TokenTypeAccess (s_issuer g)).1 in
  json_safe cl = true -> t < NewNumericDate (now0 + accessTTL g) ->
  exists w2, Validator_ValidateAccessToken net v t (AccessToken pair) w1 = (Ok cl, w2) /\ fetches w2 = fetches w1.
Proof.
  intros Hpub Hkid Hutf Hfetch Hdo Hlen Hpos Hwin Hmax Hurl Hiss Hnew Hpair cl Hj Ht.
  assert (forall n, fetch net n = Ok (JWKSJSON g)) as Hserved by (intros n; rewrite Hfetch; by apply http_fetch_ok).
  apply pair_of_ok in Hpair as [Hg _].
  destruct (preload net g Hpub Hutf Hserved w) as (w1' & Hst & Hk & n & Hl).
  unfold NewValidator in Hnew. rewrite bool_decide_eq_false_2 in Hnew by done. simpl in Hnew.
  destruct (validateJWKSURL _ _); [done|]. rewrite Hst in Hnew. injection Hnew as <- ->.
  set (c := newJWKSCacheWithFetcherMaxStale _ _ (JWKSMaxStale cfg)).
  assert (maxStale c = JWKSMaxStale cfg) as Hc
    by (unfold c, newJWKSCacheWithFetcherMaxStale; simpl; by rewrite (proj2 (Z.leb_gt _ _)) by lia).
  destruct (validator_accepts_minted net g Hkid cfg c w1 now0 uid ph dev ctx (accessTTL g) TokenTypeAccess
    (AccessToken pair) (pair_ExpiresAt pair) t) as (w2 & Hp & Hf); auto.
  - rewrite Hl. unfold IsZero, zero_time. specialize (Hpos n). apply Z.eqb_neq. lia.
  - rewrite Hc, Hl. apply Z.nlt_ge. intros Hlt. apply Since_gt in Hlt; [|lia|unfold int64_min; lia].
    specialize (Hwin n (wclk w1)). lia.
  - exists w2. unfold Validator_ValidateAccessToken, validator_of in *. rewrite Hp. split; [|done].
    by rewrite (proj2 (Z.leb_gt _ _)) by done.
Qed.

Definition rs_cfg : Config :=
  mkConfig "" 0 0 "" "" "" "" "https://users/jwks" 0 0 Hour "cg-platform" false false.
Definition issuer_Do (n : nat) : result error Response := Ok (mkResponse 200 (JWKSJSON sample_signer) None None).
Definition issuer_net : Net := mkNet (fun _ => t0) (http_fetch None issuer_Do).
Definition issuer_pair : TokenPair :=
  match Signer_GenerateTokenPairWithContext sample_signer t0 t0 42 "+7700" "dev" sample_ctx with
  | Ok p => p | Fail _ => mkPair "" "" 0 0
  end.

Lemma issuer_tokens_verify_witness :
  exists v w1 w2 cl, NewValidator (fun _ => Ok ("https", "users")) issuer_net rs_cfg w0 = (Ok v, w1) /\
    Validator_ValidateAccessToken issuer_net v t0 (AccessToken issuer_pair) w1 = (Ok cl, w2) /\ UserID cl = 42.
Proof.
  assert (is_ok (NewValidator (fun _ => Ok ("https", "users")) issuer_net rs_cfg w0).1 = true) as Hok
    by (vm_compute; reflexivity).
  destruct (NewValidator (fun _ => Ok ("https", "users")) issuer_net rs_cfg w0) as [[v|] w1] eqn:Er;
    [|discriminate Hok].
  destruct (issuer_tokens_verify (fun _ => Ok ("https", "users")) issuer_net issuer_Do sample_signer rs_cfg
    w0 v w1 t0 t0 42 "+7700" "dev"
    sample_ctx issuer_pair t0) as (w2 & H & _).
  - vm_compute. intuition congruence.
  - discriminate.
  - reflexivity.
  - reflexivity.
  - reflexivity.
  - vm_compute; discriminate.
  - vm_compute; reflexivity.
  - intros i j. vm_compute. discriminate.
  - vm_compute. split; reflexivity.
  - discriminate.
  - by right.
  - exact Er.
  - reflexivity.
  - vm_compute; reflexivity.
  - vm_compute. reflexivity.
  - eexists v, w1, w2, _. split; [reflexivity|]. split; [exact H|]. reflexivity.
Defined.
