(* ===== verification/ServiceToken.v ===== *)
(** * jwt/serviceprovider.go: cached service-to-service tokens

    The provider is proved against the minting interfaces: any [TokenMinter],
    and in particular the local one over a [LocalGenerator], which both [Manager]
    and [Signer] are.  Its mutex makes every [Token] call one step. *)

From S2P Require Import Prelude GoError GoString Jwks Jwt JwtToy JwtSecurity.

Open Scope Z_scope.

Definition defaultRefreshBuffer : Duration := 30 * Second.

Record ServiceTokenProvider := mkProvider {
  subject : string;
  deviceID : string;
  actAsUserID : Z;
  buffer : Duration;
  token : string;
  expiresAt : Time
}.

Inductive ServiceTokenOption :=
| WithDeviceID (d : string)
| WithActAsUserID (u : Z)
| WithRefreshBuffer (d : Duration).

Definition apply_service_option (p : ServiceTokenProvider) (o : ServiceTokenOption) : ServiceTokenProvider :=
  match o with
  | WithDeviceID d => mkProvider (subject p) d (actAsUserID p) (buffer p) (token p) (expiresAt p)
  | WithActAsUserID u => mkProvider (subject p) (deviceID p) u (buffer p) (token p) (expiresAt p)
  | WithRefreshBuffer d =>
      if 0 <? d then mkProvider (subject p) (deviceID p) (actAsUserID p) d (token p) (expiresAt p) else p
  end.

Definition NewServiceTokenProvider (subj : string) (opts : list ServiceTokenOption) : ServiceTokenProvider :=
  let p := fold_left apply_service_option opts (mkProvider subj "" 0 defaultRefreshBuffer "" zero_time) in
  if bool_decide (deviceID p = "")
  then mkProvider (subject p) subj (actAsUserID p) (buffer p) (token p) (expiresAt p)
  else p.

Section Provider.
(** [minter.Mint(subject, deviceID, actAsUserID)], at the time of the call. *)
Context (Mint : Time -> string -> string -> Z -> result error (string * Time)).

Definition cached (now : Time) (p : ServiceTokenProvider) : bool :=
  negb (bool_decide (token p = "")) && (now + buffer p <? expiresAt p).

(** [Token], called when the clock reads [now]. *)
Definition Provider_Token (now : Time) (p : ServiceTokenProvider) : result error string * ServiceTokenProvider :=
  if cached now p then (Ok (token p), p)
  else
    match Mint now (subject p) (deviceID p) (actAsUserID p) with
    | Fail err => (Fail (Wrapf "jwt: mint service token" err), p)
    | Ok (tok, exp) =>
        (Ok tok, mkProvider (subject p) (deviceID p) (actAsUserID p) (buffer p) tok exp)
    end.

(** [InjectAuth]: the outgoing metadata is a list of pairs. *)
Definition InjectAuth (now : Time) (md : list (string * string)) (p : ServiceTokenProvider)
    : list (string * string) * Error * ServiceTokenProvider :=
  let (r, p) := Provider_Token now p in
  match r with
  | Fail err => (md, Some err, p)
  | Ok tok => (md ++ [("authorization", "Bearer " +:+ tok)], None, p)
  end.

Fixpoint Token_calls (times : list Time) (p : ServiceTokenProvider) : list (result error string) * ServiceTokenProvider :=
  match times with
  | [] => ([], p)
  | t :: times =>
      let (r, p) := Provider_Token t p in
      let (rs, p) := Token_calls times p in
      (r :: rs, p)
  end.
End Provider.

(** ** Local generators *)

(** [localGenerator], the minting surface of managers and signers. *)
Class LocalGenerator (G : Type) := {
  GenerateAccessToken : G -> Time -> Z -> string -> string -> result error (string * Time)
}.

(** What a generator promises: tokens of a fixed lifetime and issuer, which the
    validators that accept it take as exactly the claims asked for, until the
    second of their expiry. *)
Class LocalGeneratorLaws `{GoJWT} (G : Type) `{LocalGenerator G} := {
  gen_ttl : G -> Duration;
  gen_issuer : G -> string;
  accepted_by : G -> (Time -> string -> result error Claims) -> Prop;
  generated g now uid ph dev s exp :
    GenerateAccessToken g now uid ph dev = Ok (s, exp) ->
    let cl := (buildClaims now uid ph dev no_context (gen_ttl g) TokenTypeAccess (gen_issuer g)).1 in
    exp = now + gen_ttl g /\
    forall verify t, accepted_by g verify -> json_safe cl = true -> t < NewNumericDate exp -> verify t s = Ok cl
}.

(** [LocalMinter] *)
Definition localMinter_Mint `{LocalGenerator G} (gen : G) (now : Time) (subj dev : string) (uid : Z)
    : result error (string * Time) :=
  GenerateAccessToken gen now uid subj dev.

#[export] Instance Manager_generator `{GoJWT} : LocalGenerator Manager := { GenerateAccessToken := Manager_GenerateAccessToken }.
#[export] Instance Signer_generator `{GoJWT} : LocalGenerator Signer := { GenerateAccessToken := Signer_GenerateAccessToken }.

Lemma Manager_generated `{GoJWTLaws} m now uid ph dev s exp : Manager_GenerateAccessToken m now uid ph dev = Ok (s, exp) ->
  let cl := (buildClaims now uid ph dev no_context (accessTokenTTL m) TokenTypeAccess (m_issuer m)).1 in
  exp = now + accessTokenTTL m /\
  forall verify t, verify = Manager_ValidateAccessToken m -> json_safe cl = true -> t < NewNumericDate exp -> verify t s = Ok cl.
Proof.
  intros Hm. destruct (Manager_generateToken_ok _ _ _ _ _ _ _ _ _ _ Hm) as [-> _].
  split; [done|]. intros verify t -> Hj Ht. unfold Manager_ValidateAccessToken.
  rewrite (Manager_Parse_minted _ _ _ _ _ _ _ _ _ _ t Hm) by apply Hj.
  rewrite (proj2 (Z.leb_gt _ _)) by done. by apply of_type_ok.
Qed.

#[export] Instance Manager_generator_laws `{GoJWTLaws} : LocalGeneratorLaws Manager := {
  gen_ttl := accessTokenTTL;
  gen_issuer := m_issuer;
  accepted_by m verify := verify = Manager_ValidateAccessToken m;
  generated := Manager_generated
}.

(** A validator that resolves the signer's key id to its public key, from a
    static set or a JWKS cache, and expects its issuer or none. *)
Definition trusts `{GoJWT} (net : Net) (v : Validator) (w : W) (g : Signer) : Prop :=
  (resolver_publicKey net (Validator_resolver v) (kid g) w).1 = Ok (Signer_PublicKey g) /\
  kid g <> "" /\ In "RS256" (v_validMethods v) /\ (v_expectedIssuer v = "" \/ v_expectedIssuer v = s_issuer g).

Lemma trusting_validator_accepts `{GoJWTLaws} net v w g now uid ph dev ctx ttl ty s exp t : trusts net v w g ->
  Signer_generateToken g now uid ph dev ctx ttl ty = Ok (s, exp) ->
  let cl := (buildClaims now uid ph dev ctx ttl ty (s_issuer g)).1 in
  json_safe cl = true -> t < NewNumericDate (now + ttl) -> (Validator_Parse net v t s w).1 = Ok cl.
Proof.
  intros (Hr & Hk & Hms & Hi) Hg cl Hj Ht. apply Signer_generateToken_ok in Hg as [_ Hg].
  destruct (sign_rs256 _ _ _ _ (v_validMethods v) Hg Hj) as (Ha & Hp & Hv); [done|].
  assert ((Validator_keyFunc net v (mkToken (SigningMethodRSA "RS256") (kid g)) w).1 = Ok (RSAKey (Signer_PublicKey g))) as Hkf.
  { unfold Validator_keyFunc, buildKeyFunc. simpl. rewrite (bool_decide_eq_false_2 _ Hk).
    destruct (Validator_resolver v); [done|..]; destruct (resolver_publicKey _ _ _ _); simpl in *; by rewrite Hr. }
  unfold Validator_Parse. cbn [fst]. erewrite parse_minted; [|exact Ha|exact Hkf|exact Hv|exact Hp|done|done|].
  - by rewrite (proj2 (Z.leb_gt _ _)) by done.
  - unfold issuer_opt. case_bool_decide; [by left|right]. destruct Hi as [|Hi]; [done|by rewrite Hi].
Qed.

Definition trusted_by `{GoJWT} (g : Signer) (verify : Time -> string -> result error Claims) : Prop :=
  exists net v w, trusts net v w g /\ verify = fun t s => (Validator_ValidateAccessToken net v t s w).1.

Lemma Signer_generated `{GoJWTLaws} g now uid ph dev s exp : Signer_GenerateAccessToken g now uid ph dev = Ok (s, exp) ->
  let cl := (buildClaims now uid ph dev no_context (accessTTL g) TokenTypeAccess (s_issuer g)).1 in
  exp = now + accessTTL g /\
  forall verify t, trusted_by g verify -> json_safe cl = true -> t < NewNumericDate exp -> verify t s = Ok cl.
Proof.
  intros Hm. destruct (Signer_generateToken_ok _ _ _ _ _ _ _ _ _ _ Hm) as [-> _].
  split; [done|]. intros verify t (net & v & w & Htr & ->) Hj Ht. unfold Validator_ValidateAccessToken.
  pose proof (trusting_validator_accepts net v w g _ _ _ _ _ _ _ _ _ t Htr Hm Hj Ht) as Hp.
  destruct (Validator_Parse net v t s w) as [r w']. cbn [fst] in *. by apply of_type_ok.
Qed.

#[export] Instance Signer_generator_laws `{GoJWTLaws} : LocalGeneratorLaws Signer := {
  gen_ttl := accessTTL;
  gen_issuer := s_issuer;
  accepted_by := trusted_by;
  generated := Signer_generated
}.

(** ** The cached token is good for the next call *)

Section LocalProvider.
Context `{GoJWTLaws} `{!LocalGenerator G} `{!LocalGeneratorLaws G} (g : G).

(** The claims a local mint at [t] signs for provider [p]. *)
Definition service_claims (p : ServiceTokenProvider) (t : Time) : Claims :=
  (buildClaims t (actAsUserID p) (subject p) (deviceID p) no_context (gen_ttl g) TokenTypeAccess (gen_issuer g)).1.

(** What the cache holds was minted by [g], for this provider. *)
Definition cache_ok (p : ServiceTokenProvider) : Prop :=
  token p <> "" -> exists t, localMinter_Mint g t (subject p) (deviceID p) (actAsUserID p) = Ok (token p, expiresAt p).

Definition same_identity (p p' : ServiceTokenProvider) : Prop :=
  subject p' = subject p /\ deviceID p' = deviceID p /\ actAsUserID p' = actAsUserID p /\ buffer p' = buffer p.

Lemma Provider_Token_spec now p r p' :
  cache_ok p -> Provider_Token (localMinter_Mint g) now p = (r, p') ->
  cache_ok p' /\ same_identity p p' /\
  match r with
  | Ok tok => exists t exp, localMinter_Mint g t (subject p) (deviceID p) (actAsUserID p) = Ok (tok, exp) /\
      (now + buffer p < exp \/ t = now)
  | Fail _ => p' = p
  end.
Proof.
  intros Hc. unfold Provider_Token, cached. case_bool_decide as Ht; simpl.
  2:{ destruct (Z.ltb_spec (now + buffer p) (expiresAt p)) as [Hlt|_].
      - intros Hq. simplify_eq. destruct (Hc Ht) as [t Hm]. split; [done|]. split; [done|]. eauto 6.
      - destruct (localMinter_Mint g now _ _ _) as [[tok exp]|e] eqn:Em; intros Hq; simplify_eq;
          [|done]. split; [|split; [done|eauto 6]]. intros _. by exists now. }
  destruct (localMinter_Mint g now _ _ _) as [[tok exp]|e] eqn:Em; intros Hq; simplify_eq;
    [|done]. split; [|split; [done|eauto 6]]. intros _. by exists now.
Qed.

Lemma numeric_date_bound x t : t + Second <= x -> t < NewNumericDate x.
Proof.
  unfold NewNumericDate. intros Ht. assert (0 < Second) by done.
  pose proof (Z.mod_pos_bound x Second). lia.
Qed.

(** A token the provider hands out at [now] validates until a second before
    the smaller of its buffer and the tokens' lifetime has passed. *)
Lemma handed_out_valid verify now p tok p' t :
  accepted_by g verify -> cache_ok p -> (forall t, json_safe (service_claims p t) = true) ->
  Provider_Token (localMinter_Mint g) now p = (Ok tok, p') ->
  t + Second <= now + Z.min (buffer p) (gen_ttl g) ->
  exists t', verify t tok = Ok (service_claims p t').
Proof.
  intros Ha Hc Hj Hp Ht. apply Provider_Token_spec in Hp as (_ & _ & t' & exp & Hm & Hexp); [|done].
  exists t'. destruct (generated _ _ _ _ _ _ _ Hm) as [-> Hv]. apply Hv; [done|apply Hj|].
  apply numeric_date_bound. destruct Hexp as [Hexp| ->]; lia.
Qed.

Lemma Token_calls_inv times p :
  cache_ok p -> let p1 := (Token_calls (localMinter_Mint g) times p).2 in cache_ok p1 /\ same_identity p p1.
Proof.
  revert p. induction times as [|x times IH]; intros p Hc; [done|]. simpl.
  destruct (Provider_Token (localMinter_Mint g) x p) as [r p1] eqn:Ep.
  apply Provider_Token_spec in Ep as (Hc1 & Hi1 & _); [|done].
  destruct (IH p1 Hc1) as [Hc2 Hi2]. destruct (Token_calls _ times p1) as [rs p2].
  simpl in *. split; [done|]. unfold same_identity in *. intuition congruence.
Qed.
End LocalProvider.

Lemma new_provider_token subj opts : token (NewServiceTokenProvider subj opts) = "".
Proof.
  unfold NewServiceTokenProvider.
  assert (forall p, token p = "" -> token (fold_left apply_service_option opts p) = "") as H.
  { induction opts as [|o opts IH]; intros p Hp; [done|]. simpl. apply IH.
    destruct o; simpl; [done|done|]. by destruct (0 <? d). }
  case_bool_decide; simpl; by apply H.
Qed.

(** C21: a service token is never handed out on the edge of expiry.  Whatever
    calls came before, and whether or not they failed, a token that a provider
    over a local generator returns is accepted for the whole refresh buffer (up
    to the one-second granularity of token dates, and no longer than the tokens
    live), as the subject it was made for: by a manager's own
    [ValidateAccessToken], or, for a signer, by every validator that resolves its
    key id to its public key. *)
Theorem service_token_valid `{GoJWTLaws} `{!LocalGenerator G} `{!LocalGeneratorLaws G} (g : G) verify subj opts times now tok p' t :
  let p0 := NewServiceTokenProvider subj opts in
  accepted_by g verify -> (forall t, json_safe (service_claims g p0 t) = true) ->
  Provider_Token (localMinter_Mint g) now (Token_calls (localMinter_Mint g) times p0).2 = (Ok tok, p') ->
  t + Second <= now + Z.min (buffer p0) (gen_ttl g) ->
  exists t', verify t tok = Ok (service_claims g p0 t').
Proof.
  intros p0 Ha Hj Hp Ht.
  assert (cache_ok g p0) as Hc0 by (intros Ht0; by destruct Ht0; apply new_provider_token).
  destruct (Token_calls_inv g times p0 Hc0) as [Hc (Hi1 & Hi2 & Hi3 & Hi4)].
  assert (forall t, service_claims g (Token_calls (localMinter_Mint g) times p0).2 t = service_claims g p0 t) as Hs.
  { intros t'. unfold service_claims. by rewrite Hi1, Hi2, Hi3. }
  destruct (handed_out_valid g verify now _ tok p' t Ha Hc) as [t' Hv]; [intros x; by rewrite Hs|exact Hp|by rewrite Hi4|].
  exists t'. by rewrite <- Hs.
Qed.

(** A manager, and a signer whose key a local verifier holds. *)
Definition sample_validator : Validator :=
  match NewLocalRS256Verifier rs_cfg {[kid sample_signer := Some (Signer_PublicKey sample_signer)]} with
  | Ok v => v
  | Fail _ => mkValidator None NoResolver "" false [] ""
  end.

Lemma service_token_valid_witness :
  let p0 := NewServiceTokenProvider "cg-orders" [WithRefreshBuffer Minute; WithActAsUserID 9] in
  let run {G} `{LocalGenerator G} (g : G) :=
    Provider_Token (localMinter_Mint g) (t0 + 3 * Minute) (Token_calls (localMinter_Mint g) [t0; t0 + Minute] p0).2 in
  let t := t0 + 3 * Minute + 59 * Second in
  (exists tok p' t', run sample_manager = (Ok tok, p') /\
    Manager_ValidateAccessToken sample_manager t tok = Ok (service_claims sample_manager p0 t')) /\
  (exists tok p' t', run sample_signer = (Ok tok, p') /\
    (Validator_ValidateAccessToken issuer_net sample_validator t tok w0).1 = Ok (service_claims sample_signer p0 t')).
Proof.
  intros p0 run t. split.
  - destruct (run Manager _ sample_manager) as [[tok|] p'] eqn:Ep; [|discriminate Ep].
    destruct (service_token_valid sample_manager (Manager_ValidateAccessToken sample_manager) "cg-orders"
      [WithRefreshBuffer Minute; WithActAsUserID 9] [t0; t0 + Minute] (t0 + 3 * Minute) tok p' t) as [t' H];
      [reflexivity|reflexivity|exact Ep|vm_compute; discriminate|].
    exists tok, p', t'. split; [reflexivity|exact H].
  - destruct (run Signer _ sample_signer) as [[tok|] p'] eqn:Ep; [|discriminate Ep].
    destruct (service_token_valid sample_signer
      (fun t s => (Validator_ValidateAccessToken issuer_net sample_validator t s w0).1) "cg-orders"
      [WithRefreshBuffer Minute; WithActAsUserID 9] [t0; t0 + Minute] (t0 + 3 * Minute) tok p' t) as [t' H];
      [|reflexivity|exact Ep|vm_compute; discriminate|].
    { exists issuer_net, sample_validator, w0. split; [|reflexivity].
      split; [vm_compute; reflexivity|]. split; [vm_compute; discriminate|]. split; [left; reflexivity|right; reflexivity]. }
    exists tok, p', t'. split; [reflexivity|exact H].
Defined.
