(* ===== verification/Grpc.v ===== *)
(** * gRPC: status errors, metadata, contexts and TLS settings

    The vocabulary the gRPC client and server share.  google.golang.org/grpc is
    the class [GrpcStatus] (status errors and their codes); metadata is a map
    from lower-case keys to values.  Also grpc/tls.go. *)

From S2P Require Import Prelude GoError GoString.

Open Scope Z_scope.

Inductive code :=
| OK | Canceled | Unknown | InvalidArgument | DeadlineExceeded | NotFound | AlreadyExists
| PermissionDenied | ResourceExhausted | FailedPrecondition | Aborted | OutOfRange | Unimplemented
| Internal | Unavailable | DataLoss | Unauthenticated.

#[export] Instance code_eq_dec : EqDecision code.
Proof. solve_decision. Defined.

(** [status.Error] and [status.Code]. *)
Class GrpcStatus := {
  status_Error : code -> string -> error;
  status_Code : error -> code;
  status_Code_Error c msg : status_Code (status_Error c msg) = c
}.

Abbreviation MD := (gmap string (list string)) (only parsing).

(** [md.Get(key)] for a lower-case key. *)
Definition md_Get (md : MD) (key : string) : list string := default [] (md !! key).
Definition md_Set (md : MD) (key value : string) : MD := <[key := [value]]> md.
Definition md_Append (md : MD) (key value : string) : MD := <[key := md_Get md key ++ [value]]> md.

(** ** grpc/tls.go *)

Record TLSConfig := mkTLS { Enabled : bool; CertFile : string; KeyFile : string; CAFile : string }.

(** crypto/tls: [tls.VersionTLS12]. *)
Definition VersionTLS12 : Z := 771.

(** The settings of crypto/tls the program makes: certificates and pools are
    what the loaders return; a nil pool of roots stands for the system's. *)
Record tls_Config (Cert Pool : Type) := mkTlsConfig {
  Certificates : list Cert;
  MinVersion : Z;
  ClientCAs : option Pool;
  RequireAndVerifyClientCert : bool;
  RootCAs : option Pool
}.
Arguments mkTlsConfig {Cert Pool}.
Arguments Certificates {Cert Pool}.
Arguments MinVersion {Cert Pool}.
Arguments ClientCAs {Cert Pool}.
Arguments RequireAndVerifyClientCert {Cert Pool}.
Arguments RootCAs {Cert Pool}.

Section TLS.
Context {Cert Pool : Type}.
Context (LoadX509KeyPair : string -> string -> result error Cert).
Context (os_ReadFile : string -> result error string).
Context (AppendCertsFromPEM : string -> option Pool).

Definition load_pool (file : string) : result error Pool :=
  let? caCert := map_err (Wrapf "read CA file") (os_ReadFile file) in
  match AppendCertsFromPEM caCert with
  | None => Fail (New "failed to append CA certs")
  | Some pool => Ok pool
  end.

(** [nil, nil] is [Ok None]. *)
Definition ServerCredentials (c : TLSConfig) : result error (option (tls_Config Cert Pool)) :=
  if negb (Enabled c) then Ok None
  else
    let? cert := map_err (Wrapf "load server key pair") (LoadX509KeyPair (CertFile c) (KeyFile c)) in
    if negb (bool_decide (CAFile c = "")) then
      let? pool := load_pool (CAFile c) in
      Ok (Some (mkTlsConfig [cert] VersionTLS12 (Some pool) true None))
    else Ok (Some (mkTlsConfig [cert] VersionTLS12 None false None)).

Definition ClientCredentials (c : TLSConfig) : result error (option (tls_Config Cert Pool)) :=
  if negb (Enabled c) then Ok None
  else
    let? roots :=
      (if negb (bool_decide (CAFile c = "")) then let? pool := load_pool (CAFile c) in Ok (Some pool)
       else Ok None) in
    let? certs :=
      (if negb (bool_decide (CertFile c = "")) && negb (bool_decide (KeyFile c = "")) then
         let? cert := map_err (Wrapf "load client key pair") (LoadX509KeyPair (CertFile c) (KeyFile c)) in
         Ok [cert]
       else Ok []) in
    Ok (Some (mkTlsConfig certs VersionTLS12 None false roots)).

(** The pool made of the certificates in a file. *)
Definition pool_of_file (file : string) (pool : Pool) : Prop :=
  exists pem, os_ReadFile file = Ok pem /\ AppendCertsFromPEM pem = Some pool.

Lemma load_pool_ok file pool : load_pool file = Ok pool <-> pool_of_file file pool.
Proof.
  unfold load_pool, pool_of_file. destruct (os_ReadFile file) as [pem|]; simpl; [|naive_solver].
  destruct (AppendCertsFromPEM pem) eqn:E; naive_solver.
Qed.

(** What the credentials of a server and of a client hold: TLS 1.2 at least, the
    configured key pair, and exactly the pool of the configured CA file, which
    makes a server demand client certificates. *)
Lemma ServerCredentials_spec c t : ServerCredentials c = Ok (Some t) ->
  771 <= MinVersion t /\ (exists cert, LoadX509KeyPair (CertFile c) (KeyFile c) = Ok cert /\ Certificates t = [cert]) /\
  (CAFile c = "" -> ClientCAs t = None /\ RequireAndVerifyClientCert t = false) /\
  (CAFile c <> "" -> RequireAndVerifyClientCert t = true /\
     exists pool, pool_of_file (CAFile c) pool /\ ClientCAs t = Some pool).
Proof.
  unfold ServerCredentials. destruct (Enabled c); simpl; [|done].
  destruct (LoadX509KeyPair _ _) as [cert|]; simpl; [|done]. case_bool_decide as Hca; simpl.
  - intros [= <-]. cbn. by split_and!; eauto.
  - rewrite rbind_ok. intros (pool & Hp & [= <-]). apply load_pool_ok in Hp. cbn. split_and!; eauto; done.
Qed.

Lemma ClientCredentials_spec c t : ClientCredentials c = Ok (Some t) ->
  771 <= MinVersion t /\
  (CAFile c = "" -> RootCAs t = None) /\
  (CAFile c <> "" -> exists pool, pool_of_file (CAFile c) pool /\ RootCAs t = Some pool) /\
  (CertFile c <> "" -> KeyFile c <> "" ->
     exists cert, LoadX509KeyPair (CertFile c) (KeyFile c) = Ok cert /\ Certificates t = [cert]).
Proof.
  unfold ClientCredentials. destruct (Enabled c); simpl; [|done].
  rewrite rbind_ok. intros (roots & Hroots & H). rewrite rbind_ok in H. destruct H as (certs & Hcerts & [= <-]).
  cbn [MinVersion RootCAs Certificates]. split; [done|]. split_and!.
  - intros Hca. rewrite bool_decide_eq_true_2 in Hroots by done. by injection Hroots as <-.
  - intros Hca. rewrite bool_decide_eq_false_2 in Hroots by done. cbn in Hroots.
    rewrite rbind_ok in Hroots. destruct Hroots as (pool & Hp & [= <-]). apply load_pool_ok in Hp. eauto.
  - intros Hc Hk. rewrite !bool_decide_eq_false_2 in Hcerts by done. cbn in Hcerts.
    destruct (LoadX509KeyPair _ _) as [cert|]; cbn in Hcerts; [|done]. injection Hcerts as <-. eauto.
Qed.
End TLS.

(** An instance: the code is the error's identity. *)
Definition code_name (c : code) : string :=
  match c with
  | OK => "OK" | Canceled => "Canceled" | Unknown => "Unknown" | InvalidArgument => "InvalidArgument"
  | DeadlineExceeded => "DeadlineExceeded" | NotFound => "NotFound" | AlreadyExists => "AlreadyExists"
  | PermissionDenied => "PermissionDenied" | ResourceExhausted => "ResourceExhausted"
  | FailedPrecondition => "FailedPrecondition" | Aborted => "Aborted" | OutOfRange => "OutOfRange"
  | Unimplemented => "Unimplemented" | Internal => "Internal" | Unavailable => "Unavailable"
  | DataLoss => "DataLoss" | Unauthenticated => "Unauthenticated"
  end.
Definition all_codes : list code :=
  [OK; Canceled; Unknown; InvalidArgument; DeadlineExceeded; NotFound; AlreadyExists; PermissionDenied;
   ResourceExhausted; FailedPrecondition; Aborted; OutOfRange; Unimplemented; Internal; Unavailable;
   DataLoss; Unauthenticated].
Definition toy_code (e : error) : code :=
  default Unknown (List.find (fun c => bool_decide (code_name c = ident_of e)) all_codes).
Definition toy_status : GrpcStatus :=
  {| status_Error c msg := Err (code_name c) msg []; status_Code := toy_code;
     status_Code_Error c msg := ltac:(by destruct c) |}.
