(* ===== verification/GrpcServer.v ===== *)
(** * grpc/server.go, grpc/jwt_adapter.go, grpc/adminrbac and grpc/orgauth

    A unary call is a context, a full method name and a handler; interceptors
    wrap handlers.  The state handlers thread is that of the token verifier (its
    JWKS cache).  The authorization components are proved against the [Verifier]
    interface of jwt/verifier.go, not against one of its implementations. *)

From S2P Require Import Prelude GoError GoString GoStrconv Jwks Jwt JwtToy JwtSecurity Grpc.

Open Scope Z_scope.

Record AuthInfo := mkAuth {
  ai_UserID : Z;
  ai_Phone : string;
  ai_DeviceID : string;
  ai_App : string;
  ai_OrgID : string;
  ai_OrgType : string;
  ai_CityID : Z;
  ai_OrgRole : string;
  ai_PlatformRoles : list string;
  ai_OrgIDs : option (list string) (* nil is None *)
}.

(** The values of a [context.Context] the server code reads and writes.  The
    auth value may be absent, or (in tests) a nil pointer. *)
Record Ctx := mkCtx {
  incoming : option MD;
  outgoing : option MD;
  auth : option (option AuthInfo);
  deadline : option Time;
  log_request_id : string;
  log_session_id : string
}.

Inductive outcome (A : Type) := Returned (resp : option A) (err : Error) | Panicked.
Arguments Returned {A}.
Arguments Panicked {A}.

Abbreviation Handler A := (Ctx -> W -> outcome A * W) (only parsing).
Abbreviation UnaryServerInterceptor A := (string -> Handler A -> Handler A) (only parsing).

(** ** Metadata *)

Definition GetMetadata (ctx : Ctx) (key : string) : string :=
  match incoming ctx with
  | None => ""
  | Some md => match md_Get md key with [] => "" | value :: _ => value end
  end.

Definition GetRequestID (ctx : Ctx) : string := GetMetadata ctx "x-request-id".
Definition GetSessionID (ctx : Ctx) : string := GetMetadata ctx "x-session-id".

(** A value that does not start with a number counts as no user. *)
Definition GetUserID (ctx : Ctx) : Z :=
  let val := GetMetadata ctx "x-user-id" in
  if bool_decide (val = "") then 0
  else match Sscanf_d val with Ok id => id | Fail _ => 0 end.

(** [metadata.AppendToOutgoingContext] *)
Definition AppendToOutgoing (ctx : Ctx) (key value : string) : Ctx :=
  mkCtx (incoming ctx) (Some (md_Append (default ∅ (outgoing ctx)) key value)) (auth ctx) (deadline ctx)
    (log_request_id ctx) (log_session_id ctx).

(** ** Auth info in the context *)

(** The auth value of the context: the pointer, and whether it is there. *)
Definition GetAuthInfo (ctx : Ctx) : option (option AuthInfo) := auth ctx.

Definition MustGetAuthInfo (ctx : Ctx) : option (option AuthInfo) := GetAuthInfo ctx. (* None: panic *)

Definition set_auth (a : option (option AuthInfo)) (ctx : Ctx) : Ctx :=
  mkCtx (incoming ctx) (outgoing ctx) a (deadline ctx) (log_request_id ctx) (log_session_id ctx).

Definition ContextWithAuthInfo (ctx : Ctx) (info : option AuthInfo) : Ctx := set_auth (Some info) ctx.

Definition with_roles (roles : list string) (i : AuthInfo) : AuthInfo :=
  mkAuth (ai_UserID i) (ai_Phone i) (ai_DeviceID i) (ai_App i) (ai_OrgID i) (ai_OrgType i) (ai_CityID i)
    (ai_OrgRole i) roles (ai_OrgIDs i).

Definition ContextWithPlatformRoles (ctx : Ctx) (roles : list string) : Ctx :=
  match GetAuthInfo ctx with
  | Some (Some info) => set_auth (Some (Some (with_roles roles info))) ctx
  | _ => ctx
  end.

(** ** Default interceptors *)

Section Interceptors.
Context `{GrpcStatus} {A : Type}.

Definition recoveryInterceptor : UnaryServerInterceptor A := fun _ handler ctx w =>
  match handler ctx w with
  | (Panicked, w) => (Returned None (Some (status_Error Internal "internal error")), w)
  | r => r
  end.

(** The request id is the caller's, or a fresh one; logging fields only. *)
Definition loggingInterceptor (generateRequestID : string) : UnaryServerInterceptor A := fun _ handler ctx w =>
  let requestID := if bool_decide (GetRequestID ctx = "") then generateRequestID else GetRequestID ctx in
  let sessionID := GetMetadata ctx "x-session-id" in
  handler (mkCtx (incoming ctx) (outgoing ctx) (auth ctx) (deadline ctx) requestID
             (if bool_decide (sessionID = "") then log_session_id ctx else sessionID)) w.

(** [context.WithTimeout]: the earlier of the two deadlines. *)
Definition timeoutInterceptor (now : Time) (timeout : Duration) : UnaryServerInterceptor A := fun _ handler ctx w =>
  let d := match deadline ctx with Some d => Z.min d (now + timeout) | None => now + timeout end in
  handler (mkCtx (incoming ctx) (outgoing ctx) (auth ctx) (Some d) (log_request_id ctx) (log_session_id ctx)) w.
End Interceptors.

(** ** Authentication *)

(** [JWTClaims] and [AuthInfo] have the same fields; one record serves for both. *)
Abbreviation JWTClaims := AuthInfo (only parsing).

Definition adapt (cl : Claims) : JWTClaims :=
  mkAuth (UserID cl) (Phone cl) (DeviceID cl) (App cl) (OrgID cl) (OrgType cl) (CityID cl) (OrgRole cl)
    (PlatformRoles cl) (OrgIDs cl).

Section Auth.
Context `{GrpcStatus} {A : Type} {V : Type} `{Verifier V}.

(** [JWTValidatorAdapter.ValidateAccessToken] *)
Definition Adapter_ValidateAccessToken (v : V) (now : Time) (token : string) (w : W) : result error JWTClaims * W :=
  let (r, w) := ver_ValidateAccessToken v now token w in
  (let? claims := r in Ok (adapt claims), w).

Definition strip_bearer (token : string) : string :=
  if (7 <? String.length token)%nat && bool_decide (take_string 7 token = "Bearer ")
  then drop_string 7 token else token.

Definition AuthInterceptor (v : V) (now : Time) (SkipMethods : list string) : UnaryServerInterceptor A :=
  fun FullMethod handler ctx w =>
    if bool_decide (FullMethod ∈ SkipMethods) then handler ctx w
    else
      let token := GetMetadata ctx "authorization" in
      if bool_decide (token = "")
      then (Returned None (Some (status_Error Unauthenticated "missing authorization token")), w)
      else
        match Adapter_ValidateAccessToken v now (strip_bearer token) w with
        | (Fail _, w) => (Returned None (Some (status_Error Unauthenticated "invalid token")), w)
        | (Ok claims, w) =>
            let ctx := set_auth (Some (Some claims)) ctx in
            handler (AppendToOutgoing ctx "x-user-id" (Itoa (ai_UserID claims))) w
        end.

(** ** grpc/adminrbac *)

Record Interceptor := mkInterceptor { adminMethods : list string; allowedRoles : gset string }.

Definition NewInterceptor (AdminMethods AllowedRoles : list string) : Interceptor :=
  let roles := match AllowedRoles with [] => ["admin"; "support"] | _ => AllowedRoles end in
  mkInterceptor AdminMethods (list_to_set roles).

Definition method_matches (fullMethod m : string) : bool :=
  (HasSuffix m "/*" && HasPrefix fullMethod (TrimSuffix m "/*" +:+ "/")) || bool_decide (m = fullMethod).

Definition isAdminMethod (i : Interceptor) (fullMethod : string) : bool :=
  existsb (method_matches fullMethod) (adminMethods i).

Definition Unary (i : Interceptor) : UnaryServerInterceptor A :=
  fun FullMethod handler ctx w =>
    if negb (isAdminMethod i FullMethod) then handler ctx w
    else
      match GetAuthInfo ctx with
      | Some (Some a) =>
          if existsb (fun r => bool_decide (r ∈ allowedRoles i)) (ai_PlatformRoles a)
          then handler ctx w
          else (Returned None (Some (status_Error PermissionDenied "admin or support role required")), w)
      | _ => (Returned None (Some (status_Error Unauthenticated "missing authorization token")), w)
      end.

Definition IsPlatformAdmin (ctx : Ctx) : bool :=
  match GetAuthInfo ctx with
  | Some (Some a) => existsb (fun r => bool_decide (r = "admin") || bool_decide (r = "support")) (ai_PlatformRoles a)
  | _ => false
  end.

(** ** grpc/orgauth *)

Definition ErrOrgMismatch : string := "caller is not a member of the target organization".

Definition EnforceOrgMatch (a : option AuthInfo) (requestedOrgID : string) : Error :=
  match a with
  | None => Some (status_Error Unauthenticated "authentication required")
  | Some a =>
      if ai_UserID a =? 0 then None
      else if bool_decide (requestedOrgID = "") then None
      else
        match ai_OrgIDs a with
        | Some orgs =>
            if bool_decide (requestedOrgID ∈ orgs) then None
            else Some (status_Error PermissionDenied ErrOrgMismatch)
        | None =>
            if bool_decide (ai_OrgID a = "") then None
            else if negb (bool_decide (ai_OrgID a = requestedOrgID))
            then Some (status_Error PermissionDenied ErrOrgMismatch)
            else None
        end
  end.
End Auth.

(** ** Building servers *)

Record ServerConfig := mkServerConfig {
  Host : string;
  Port : Z;
  MaxRecvMsgSize : Z;
  MaxSendMsgSize : Z;
  ConnectionLimit : Z;
  Timeout : Duration;
  TLS : TLSConfig
}.

Definition Server_Addr (c : ServerConfig) : string := Host c +:+ ":" +:+ Itoa (Port c).

(** The options handed to [grpc.NewServer], in order; [O] stands for the
    caller's own, [I] and [SI] for unary and stream interceptors. *)
Inductive ServerOption (C I SI O : Type) :=
| OptMaxRecv (n : Z)
| OptMaxSend (n : Z)
| OptKeepaliveEnforcement (minTime : Duration) (permitWithoutStream : bool)
| OptChainUnary (l : list I)
| OptChainStream (l : list SI)
| OptCreds (c : C)
| OptCaller (o : O).
Arguments OptMaxRecv {C I SI O}.
Arguments OptMaxSend {C I SI O}.
Arguments OptKeepaliveEnforcement {C I SI O}.
Arguments OptChainUnary {C I SI O}.
Arguments OptChainStream {C I SI O}.
Arguments OptCreds {C I SI O}.
Arguments OptCaller {C I SI O}.

Section NewServer.
Context {C I SI O : Type} (ServerCreds : TLSConfig -> result error (option C)).
Context (defaults : Duration -> list I). (* recovery, logging, timeout *)

Definition msg_size (n : Z) : Z := if n =? 0 then 4194304 else n.

(** The credentials option, when TLS is enabled. *)
Definition creds_opt (cfg : ServerConfig) : result error (list (ServerOption C I SI O)) :=
  if Enabled (TLS cfg) then
    let? creds := map_err (Wrapf "server TLS credentials") (ServerCreds (TLS cfg)) in
    match creds with Some c => Ok [OptCreds c] | None => Ok [] end
  else Ok [].

Definition NewServer (cfg : ServerConfig) (opts : list O) : result error (list (ServerOption C I SI O)) :=
  let? creds := creds_opt cfg in
  Ok ([OptMaxRecv (msg_size (MaxRecvMsgSize cfg)); OptMaxSend (msg_size (MaxSendMsgSize cfg));
       OptKeepaliveEnforcement (30 * Second) true; OptChainUnary (defaults (Timeout cfg))]
      ++ List.map OptCaller opts ++ creds).

Definition NewServerWithInterceptors (cfg : ServerConfig) (unaryInterceptors : list I)
    (streamInterceptors : list SI) (opts : list O) : result error (list (ServerOption C I SI O)) :=
  let allUnary := defaults (Timeout cfg) ++ unaryInterceptors in
  let? creds := creds_opt cfg in
  Ok ([OptMaxRecv (msg_size (MaxRecvMsgSize cfg)); OptMaxSend (msg_size (MaxSendMsgSize cfg));
       OptKeepaliveEnforcement (30 * Second) true; OptChainUnary allUnary]
      ++ match streamInterceptors with [] => [] | _ => [OptChainStream streamInterceptors] end
      ++ creds ++ List.map OptCaller opts).

(** *** The server and its life *)

(** gRPC's server [G] and the listeners [Lst] of the network. *)
Context {G Lst : Type} (grpc_NewServer : list (ServerOption C I SI O) -> G).
Context (net_Listen : string -> string -> result error Lst) (G_Serve : G -> Lst -> Error * G) (G_GracefulStop : G -> G).

Record Server := mkServer { server : G; listener : option Lst; config : ServerConfig }.

(** What both constructors return for the options they computed. *)
Definition make_server (cfg : ServerConfig) (opts : result error (list (ServerOption C I SI O))) : result error Server :=
  let? allOpts := opts in Ok (mkServer (grpc_NewServer allOpts) None cfg).

Definition Server_Server (s : Server) : G := server s.

(** [Serve] returns when the server is stopped; its state after is that of the
    gRPC server. *)
Definition Server_Start (s : Server) : Error * Server :=
  match net_Listen "tcp" (Server_Addr (config s)) with
  | Fail err => (Some (Wrapf "listen" err), s)
  | Ok l => let (err, g) := G_Serve (server s) l in (err, mkServer g (Some l) (config s))
  end.

Definition Server_Stop (s : Server) : Server := mkServer (G_GracefulStop (server s)) (listener s) (config s).

(** A server listens on the address of its configuration and on no other, and an
    address that cannot be bound leaves it as it was. *)
Lemma Start_listens cfg opts s err s' : make_server cfg opts = Ok s -> Server_Start s = (err, s') ->
  config s' = cfg /\
  match net_Listen "tcp" (Host cfg +:+ ":" +:+ Itoa (Port cfg)) with
  | Fail e => err = Some (Wrapf "listen" e) /\ s' = s
  | Ok l => listener s' = Some l /\ (err, Server_Server s') = G_Serve (Server_Server s) l
  end.
Proof.
  unfold make_server. rewrite rbind_ok. intros (o & _ & [= <-]). unfold Server_Start, Server_Addr. cbn [config server listener Server_Server].
  destruct (net_Listen _ _); [|intros [= <- <-]; done]. destruct (G_Serve _ _). by intros [= <- <-].
Qed.
End NewServer.

(** ** What the guarded methods guarantee *)

Lemma md_other ctx key value : auth (AppendToOutgoing ctx key value) = auth ctx.
Proof. done. Qed.

(** The metadata a call sends is what the callee finds. *)
Definition received (ctx : Ctx) : Ctx := mkCtx (outgoing ctx) None None None "" "".

Section Guard.
Context `{GrpcStatus} {A V : Type} `{VerifierLaws V}.

(** The token of a call was verified as an access token. *)
Definition authenticated (v : V) (now : Time) (ctx : Ctx) (w : W) (cl : Claims) (w' : W) : Prop :=
  ver_Parse v now (strip_bearer (GetMetadata ctx "authorization")) w = (Ok cl, w') /\
  TokenType cl = TokenTypeAccess.

(** A guarded call [r], as a function of the handler it guards, is refused: the
    handler is not run, whatever it is, and the answer is a status error. *)
Definition refuses (r : Handler A -> outcome A * W) : Prop :=
  exists e w', (status_Code e = Unauthenticated \/ status_Code e = PermissionDenied) /\
    forall h, r h = (Returned None (Some e), w').

(** A guarded call runs its handler once, in this context and state. *)
Definition runs (r : Handler A -> outcome A * W) (ctx : Ctx) (w : W) : Prop := forall h, r h = h ctx w.

Lemma refused_with r c msg w : c = Unauthenticated \/ c = PermissionDenied ->
  (forall h, r h = (Returned None (Some (status_Error c msg)), w)) -> refuses r.
Proof. intros Hc Hr. exists (status_Error c msg), w. by rewrite status_Code_Error. Qed.

Definition bearer (ctx : Ctx) : string := GetMetadata ctx "authorization".

Lemma AuthInterceptor_spec v now skip m ctx w :
  let r := fun h => AuthInterceptor (A := A) v now skip m h ctx w in
  (m ∈ skip /\ runs r ctx w) \/
  (exists cl w1 ctx', m ∉ skip /\ bearer ctx <> "" /\
     ver_ValidateAccessToken v now (strip_bearer (bearer ctx)) w = (Ok cl, w1) /\
     auth ctx' = Some (Some (adapt cl)) /\ incoming ctx' = incoming ctx /\ runs r ctx' w1) \/
  (m ∉ skip /\ (bearer ctx = "" \/
     forall cl w1, ver_ValidateAccessToken v now (strip_bearer (bearer ctx)) w <> (Ok cl, w1)) /\ refuses r).
Proof.
  unfold AuthInterceptor, Adapter_ValidateAccessToken, runs, bearer. case_bool_decide as Hs; [by left|right].
  case_bool_decide as Ht; [right; split_and!; [done|by left|eapply refused_with; [by left|done]]|].
  destruct (ver_ValidateAccessToken v now _ w) as [[cl|e] w1] eqn:Ev; cbn.
  - left. eexists cl, w1, _. split_and!; [done|done|reflexivity|..|intros h; reflexivity]; done.
  - right. split_and!; [done|by right|]. eapply refused_with; [by left|done].
Qed.

(** The user an authenticated handler calls other services for is the one of the
    verified token: they read it back from the metadata. *)
Lemma user_id_propagates v now skip m (h : Handler A) ctx w cl w1 : m ∉ skip ->
  GetMetadata ctx "authorization" <> "" -> ver_ValidateAccessToken v now (strip_bearer (GetMetadata ctx "authorization")) w = (Ok cl, w1) ->
  in_int64 (UserID cl) -> default ∅ (outgoing ctx) !! "x-user-id" = None ->
  exists ctx', AuthInterceptor v now skip m h ctx w = h ctx' w1 /\ GetUserID (received ctx') = UserID cl.
Proof.
  intros Hm Ht Hv Hr Ho. unfold AuthInterceptor, Adapter_ValidateAccessToken. rewrite bool_decide_eq_false_2 by done.
  rewrite bool_decide_eq_false_2 by done. rewrite Hv. simpl. eexists. split; [done|].
  unfold GetUserID, GetMetadata, received, AppendToOutgoing, md_Append, md_Get. cbn [incoming outgoing]. rewrite lookup_insert_eq.
  cbn [default from_option id set_auth outgoing]. rewrite Ho. cbn [default from_option id app]. rewrite Sscanf_Itoa by done.
  case_bool_decide as E; [|done]. pose proof (Sscanf_Itoa (UserID cl) Hr) as Hs. cbn in E. by rewrite E in Hs.
Qed.

Lemma Unary_spec i m ctx w :
  let r := fun h => Unary (A := A) i m h ctx w in
  isAdminMethod i m = true ->
  (exists a role, GetAuthInfo ctx = Some (Some a) /\ In role (ai_PlatformRoles a) /\
     role ∈ allowedRoles i /\ runs r ctx w) \/
  ((forall a role, GetAuthInfo ctx = Some (Some a) -> In role (ai_PlatformRoles a) -> role ∉ allowedRoles i) /\
   refuses r).
Proof.
  intros r Hm. unfold r, Unary, runs. rewrite Hm. cbn.
  destruct (GetAuthInfo ctx) as [[a|]|];
    [|right; split; [done|eapply refused_with; [by left|done]]..].
  destruct (existsb _ _) eqn:Ex.
  - left. apply existsb_exists in Ex as (role & Hin & Hr). apply bool_decide_eq_true in Hr. by exists a, role.
  - right. split; [|eapply refused_with; [by right|done]]. intros b role Hb Hin Hr. simplify_eq.
    rewrite (proj2 (existsb_exists _ _)) in Ex; [done|]. exists role. by rewrite bool_decide_eq_true.
Qed.

(** What recovery makes of an outcome. *)
Definition recovered (r : outcome A * W) : outcome A * W :=
  match r with
  | (Panicked, w) => (Returned None (Some (status_Error Internal "internal error")), w)
  | (Returned resp err, w) => (Returned resp err, w)
  end.

Lemma refuses_recovered r : refuses r -> refuses (fun h => recovered (r h)).
Proof. intros (e & w' & Hc & Hr). exists e, w'. split; [done|]. intros h. by rewrite Hr. Qed.

(** The signed roles behind a call: its bearer token validates as an access
    token and its claims carry a role the interceptor allows. *)
Definition entitled (v : V) (now : Time) (skip : list string) (i : Interceptor) (m : string) (ctx : Ctx) (w : W)
    (cl : Claims) (w1 : W) : Prop :=
  m ∉ skip /\ bearer ctx <> "" /\
  ver_ValidateAccessToken v now (strip_bearer (bearer ctx)) w = (Ok cl, w1) /\
  exists role, In role (PlatformRoles cl) /\ role ∈ allowedRoles i.

(** Authentication followed by admin RBAC, on a call that carries no auth yet. *)
Lemma guarded_spec v now skip i m ctx w :
  let r := fun h => AuthInterceptor (A := A) v now skip m (Unary i m h) ctx w in
  isAdminMethod i m = true -> auth ctx = None ->
  (exists cl w1 ctx', entitled v now skip i m ctx w cl w1 /\ auth ctx' = Some (Some (adapt cl)) /\
     incoming ctx' = incoming ctx /\ runs r ctx' w1) \/
  ((forall cl w1, ~ entitled v now skip i m ctx w cl w1) /\ refuses r).
Proof.
  intros r Hm Ha.
  destruct (AuthInterceptor_spec v now skip m ctx w)
    as [[Hs Hr]|[(cl & w1 & ctx' & Hs & Hb & Hv & Hc & Hin & Hr)|(Hs & Hv & e & w' & He & Hr)]].
  - right. split; [by intros cl w1 [? _]|].
    destruct (Unary_spec i m ctx w Hm) as [(a & role & Hg & _)|(_ & e & w' & He & Hu)];
      [unfold GetAuthInfo in Hg; congruence|].
    exists e, w'. split; [done|]. intros h. unfold r. by rewrite (Hr (Unary i m h)).
  - destruct (Unary_spec i m ctx' w1 Hm) as [(a & role & Hg & Hr1 & Hr2 & Hu)|(Hno & e & w' & He & Hu)];
      unfold GetAuthInfo in *; rewrite Hc in *.
    + left. exists cl, w1, ctx'. simplify_eq. split_and!; [|done|done|].
      * repeat split; eauto.
      * intros h. unfold r. by rewrite (Hr (Unary i m h)).
    + right. split.
      * intros cl' w1' (_ & _ & Hv' & role & Hr1 & Hr2). rewrite Hv in Hv'. simplify_eq.
        by apply (Hno (adapt cl') role).
      * exists e, w'. split; [done|]. intros h. unfold r. by rewrite (Hr (Unary i m h)).
  - right. split.
    + intros cl w1 (_ & Hb & Hv' & _). destruct Hv as [|Hv]; [done|]. by apply (Hv cl w1).
    + exists e, w'. split; [done|]. intros h. unfold r. apply (Hr (Unary i m h)).
Qed.
End Guard.

(** C22: admin methods are reached exactly with verified roles.  Behind the
    chain that [NewServerWithInterceptors] builds from recovery, logging,
    timeout, authentication and admin RBAC, take a method registered as
    admin-only (exactly or by wildcard).  Either the call is entitled (the method
    does not skip authentication, the bearer token validates as an access token,
    so that it was parsed and carries the access type, and its signed claims
    carry an allowed platform role): then the handler runs, in the state the
    verifier left, with exactly those claims, and its panic becomes an Internal
    error.  Or it is not entitled: then the outcome is the same for every
    handler, an Unauthenticated or PermissionDenied error in a state that does
    not depend on the handler, which is therefore not run; this includes methods
    that skip authentication.  Nothing else in the caller's metadata matters. *)
Theorem admin_methods_guarded `{GrpcStatus} `{VerifierLaws V} {A}
    (Chain : list (UnaryServerInterceptor A) -> UnaryServerInterceptor A)
    v now timeout gen skip i m ctx w :
  (forall m h, Chain [] m h = h) ->
  (forall x l m h, Chain (x :: l) m h = x m (Chain l m h)) ->
  isAdminMethod i m = true -> auth ctx = None ->
  let defaults := [recoveryInterceptor; loggingInterceptor gen; timeoutInterceptor now timeout] in
  let r := fun h => Chain (defaults ++ [AuthInterceptor v now skip; Unary i]) m h ctx w in
  (exists cl w1 ctx', entitled v now skip i m ctx w cl w1 /\ authenticated v now ctx w cl w1 /\
     auth ctx' = Some (Some (adapt cl)) /\ incoming ctx' = incoming ctx /\
     forall h, r h = recovered (h ctx' w1)) \/
  ((forall cl w1, ~ entitled v now skip i m ctx w cl w1) /\
   exists e w', (status_Code e = Unauthenticated \/ status_Code e = PermissionDenied) /\
     forall h, r h = (Returned None (Some e), w')).
Proof.
  intros Hnil Hcons Hm Ha defaults r.
  assert (exists ctx1, incoming ctx1 = incoming ctx /\ auth ctx1 = None /\
    forall h, r h = recovered (AuthInterceptor v now skip m (Unary i m h) ctx1 w)) as (ctx1 & Hin1 & Ha1 & Hr).
  { unfold r, defaults. simpl. eexists. split; [|split]; [| |intros h; rewrite !Hcons, Hnil; reflexivity]; done. }
  assert (bearer ctx1 = bearer ctx) as Hb by (unfold bearer, GetMetadata; by rewrite Hin1).
  destruct (guarded_spec (A := A) v now skip i m ctx1 w Hm Ha1)
    as [(cl & w1 & ctx' & He & Hc & Hin & Hruns)|[Hno Href]]; unfold entitled in *; rewrite Hb in *.
  - left. exists cl, w1, ctx'. split; [exact He|]. split_and!; [|done|congruence|].
    + destruct He as (_ & _ & Hv & _). by apply access_sound in Hv.
    + intros h. by rewrite Hr, (Hruns h).
  - right. split; [done|]. destruct (refuses_recovered _ Href) as (e & w' & Hc & Hr').
    exists e, w'. split; [done|]. intros h. by rewrite Hr.
Qed.

Definition sample_interceptor : Interceptor := NewInterceptor ["/users.AdminUserService/*"] ["super_admin"].
Definition sample_call : Ctx :=
  mkCtx (Some {["authorization" := ["Bearer " +:+ AccessToken sample_pair]; "x-platform-roles" := ["admin"]]})
    None None None "" "".
Definition run_chain {A} (l : list (UnaryServerInterceptor A)) : UnaryServerInterceptor A :=
  fun m h => fold_right (fun x k => x m k) h l.

(** The sample token carries the role; the forged metadata plays no part. *)
Lemma admin_methods_guarded_witness :
  let S := toy_status in
  let r := fun h => run_chain ([recoveryInterceptor; loggingInterceptor "rid"; timeoutInterceptor t0 (30 * Second)] ++
    [AuthInterceptor sample_manager t0 ["/users.AdminUserService/Ping"]; Unary sample_interceptor])
    "/users.AdminUserService/AdminListCars" h sample_call w0 in
  exists cl w1 ctx', entitled sample_manager t0 ["/users.AdminUserService/Ping"] sample_interceptor
      "/users.AdminUserService/AdminListCars" sample_call w0 cl w1 /\
    auth ctx' = Some (Some (adapt cl)) /\
    forall h : Handler Z, r h = recovered (h ctx' w1).
Proof.
  intros S r.
  destruct (admin_methods_guarded (A := Z) run_chain sample_manager t0 (30 * Second) "rid"
    ["/users.AdminUserService/Ping"] sample_interceptor "/users.AdminUserService/AdminListCars"
    sample_call w0) as [(cl & w1 & c' & He & _ & Ha & _ & Hr)|(_ & e & w' & _ & Hr)].
  - reflexivity.
  - reflexivity.
  - vm_compute. reflexivity.
  - reflexivity.
  - exists cl, w1, c'. split_and!; [exact He|exact Ha|exact Hr].
  - exfalso. assert ((r (fun _ w => (Returned (Some 7) None, w))).1 = Returned (Some 7) None) as H7
      by (vm_compute; reflexivity).
    unfold r in H7. rewrite Hr in H7. discriminate H7.
Defined.

(** No cross-organization access.  [EnforceOrgMatch] lets a call through
    exactly when the caller is a service (user id 0), no organization was asked
    for, the signed membership set contains it, or, for tokens without such a
    set, the single organization claim is absent or equal to it.  In particular
    a present but empty set grants nothing.  The refusal is [Unauthenticated]
    without a caller, else [PermissionDenied]. *)
Theorem org_match_exact `{GrpcStatus} (a : option AuthInfo) (req : string) :
  (EnforceOrgMatch a req = None <->
   exists i, a = Some i /\
     (ai_UserID i = 0 \/ req = "" \/
      match ai_OrgIDs i with
      | Some orgs => In req orgs
      | None => ai_OrgID i = "" \/ ai_OrgID i = req
      end)) /\
  (forall e, EnforceOrgMatch a req = Some e ->
     status_Code e = match a with None => Unauthenticated | Some _ => PermissionDenied end).
Proof.
  unfold EnforceOrgMatch. destruct a as [i|].
  2:{ split; [split; [done|by intros (i & ? & _)]|]. intros e He. simplify_eq. apply status_Code_Error. }
  destruct (Z.eqb_spec (ai_UserID i) 0) as [Hu|Hu]; [split; [split; eauto|done]|].
  case_bool_decide as Hr; [split; [split; eauto|done]|].
  destruct (ai_OrgIDs i) as [orgs|] eqn:Eo.
  - case_bool_decide as Hin; rewrite list_elem_of_In in Hin.
    + split; [split; [|done]|done]. intros _. exists i. rewrite Eo. auto.
    + split; [split; [done|]|intros e He; simplify_eq; apply status_Code_Error].
      intros (j & Hj & Hc). simplify_eq. rewrite Eo in Hc. naive_solver.
  - case_bool_decide as Ho; [split; [split; [|done]|done]; intros _; exists i; rewrite Eo; auto|].
    case_bool_decide as Hq; simpl.
    + split; [split; [|done]|done]. intros _. exists i. rewrite Eo. auto.
    + split; [split; [done|]|intros e He; simplify_eq; apply status_Code_Error].
      intros (j & Hj & Hc). simplify_eq. rewrite Eo in Hc. naive_solver.
Qed.
