(* ===== verification/Metrics.v ===== *)
(** * metrics/metrics.go: the counters and gauges the components update

    A Prometheus registry is modelled by the value of every labelled series;
    an absent series reads 0.  The per-service HTTP and gRPC metrics are in
    ServiceMetrics.v; the exposition format is not modelled. *)

From S2P Require Import Prelude.

(** A series: the metric's name and its label values. *)
Abbreviation series := (string * list string)%type (only parsing).
Abbreviation registry := (gmap (string * list string) Z) (only parsing).

Definition value (r : registry) (s : series) : Z := default 0%Z (r !! s).

Definition SetGauge (s : series) (v : Z) (r : registry) : registry := <[s := v]> r.
Definition Inc (s : series) (r : registry) : registry := <[s := (value r s + 1)%Z]> r.
Definition Dec (s : series) (r : registry) : registry := <[s := (value r s - 1)%Z]> r.

(** ** The series of metrics.go *)

Definition circuitBreakerState (name : string) : series := ("circuit_breaker_state", [name]).
Definition circuitBreakerFailures (name : string) : series := ("circuit_breaker_failures_total", [name]).
Definition circuitBreakerSuccesses (name : string) : series := ("circuit_breaker_successes_total", [name]).
Definition kafkaMessagesProduced (topic : string) : series := ("kafka_messages_produced_total", [topic]).
Definition kafkaMessagesConsumed (topic group : string) : series := ("kafka_messages_consumed_total", [topic; group]).
Definition kafkaUnmarshalErrors (topic group : string) : series := ("kafka_consumer_unmarshal_errors_total", [topic; group]).
Definition kafkaConsumerRetries (topic group : string) : series := ("kafka_consumer_retries_total", [topic; group]).
Definition kafkaConsumerRetainedRetries (topic group : string) : series := ("kafka_consumer_retained_retries_total", [topic; group]).
Definition kafkaConsumerRetainedOffsets (topic group : string) : series := ("kafka_consumer_retained_offsets", [topic; group]).
Definition kafkaDLQTotal (topic group : string) : series := ("kafka_consumer_dlq_total", [topic; group]).
Definition dbConnectionsActive (database : string) : series := ("db_connections_active", [database]).
Definition dbConnectionsIdle (database : string) : series := ("db_connections_idle", [database]).
Definition redisOperationsTotal (operation status : string) : series := ("redis_operations_total", [operation; status]).
Definition activeWebsockets : series := ("websocket_connections_active", []).
Definition requestsCreated : series := ("business_requests_created_total", []).
Definition bidsCreated : series := ("business_bids_created_total", []).

(** ** The recording functions *)

Definition SetCircuitBreakerState (name : string) (state : Z) : registry -> registry :=
  SetGauge (circuitBreakerState name) state.
Definition RecordCircuitBreakerFailure (name : string) : registry -> registry :=
  Inc (circuitBreakerFailures name).
Definition RecordCircuitBreakerSuccess (name : string) : registry -> registry :=
  Inc (circuitBreakerSuccesses name).
Definition RecordKafkaMessageProduced (topic : string) : registry -> registry :=
  Inc (kafkaMessagesProduced topic).
Definition RecordKafkaMessageConsumed (topic group : string) : registry -> registry :=
  Inc (kafkaMessagesConsumed topic group).
Definition RecordKafkaUnmarshalError (topic group : string) : registry -> registry :=
  Inc (kafkaUnmarshalErrors topic group).
Definition RecordKafkaConsumerRetry (topic group : string) : registry -> registry :=
  Inc (kafkaConsumerRetries topic group).
Definition RecordKafkaConsumerRetainedRetry (topic group : string) : registry -> registry :=
  Inc (kafkaConsumerRetainedRetries topic group).
Definition RetainKafkaConsumerOffset (topic group : string) : registry -> registry :=
  Inc (kafkaConsumerRetainedOffsets topic group).
Definition ReleaseKafkaConsumerOffset (topic group : string) : registry -> registry :=
  Dec (kafkaConsumerRetainedOffsets topic group).
Definition RecordKafkaDLQ (topic group : string) : registry -> registry :=
  Inc (kafkaDLQTotal topic group).
Definition SetDBConnections (database : string) (active idle : Z) (r : registry) : registry :=
  SetGauge (dbConnectionsIdle database) idle (SetGauge (dbConnectionsActive database) active r).
Definition RecordRedisOperation (operation statusLabel : string) : registry -> registry :=
  Inc (redisOperationsTotal operation statusLabel).
Definition SetActiveWebsockets (count : Z) : registry -> registry := SetGauge activeWebsockets count.
Definition RecordRequestCreated : registry -> registry := Inc requestsCreated.
Definition RecordBidCreated : registry -> registry := Inc bidsCreated.

(** ** Reading a series after an update *)

Lemma value_SetGauge_eq s v r : value (SetGauge s v r) s = v.
Proof. unfold value, SetGauge. by rewrite lookup_insert_eq. Qed.

Lemma value_SetGauge_ne s s' v r : s <> s' -> value (SetGauge s v r) s' = value r s'.
Proof. intros H. unfold value, SetGauge. by rewrite lookup_insert_ne. Qed.

Lemma value_Inc_eq s r : value (Inc s r) s = (value r s + 1)%Z.
Proof. unfold Inc. unfold value at 1. by rewrite lookup_insert_eq. Qed.

Lemma value_Inc_ne s s' r : s <> s' -> value (Inc s r) s' = value r s'.
Proof. intros H. unfold Inc. unfold value at 1. by rewrite lookup_insert_ne. Qed.

Lemma value_Dec_eq s r : value (Dec s r) s = (value r s - 1)%Z.
Proof. unfold Dec. unfold value at 1. by rewrite lookup_insert_eq. Qed.

Lemma value_Dec_ne s s' r : s <> s' -> value (Dec s r) s' = value r s'.
Proof. intros H. unfold Dec. unfold value at 1. by rewrite lookup_insert_ne. Qed.

#[export] Hint Rewrite value_SetGauge_eq value_Inc_eq value_Dec_eq : cg.
#[export] Hint Rewrite value_SetGauge_ne value_Inc_ne value_Dec_ne
  using (unfold circuitBreakerState, circuitBreakerFailures, circuitBreakerSuccesses,
    kafkaMessagesProduced, kafkaMessagesConsumed, kafkaUnmarshalErrors,
    kafkaConsumerRetries, kafkaConsumerRetainedRetries, kafkaConsumerRetainedOffsets,
    kafkaDLQTotal; congruence) : cg.
