(* ===== verification/CircuitBreaker.v ===== *)
(** * circuitbreaker/circuitbreaker.go

    The breaker's state is a record with the fields of the Go struct; every
    method that takes the mutex is one function on it, with the clock readings
    it makes as arguments and the metrics registry threaded through.  Because
    [Execute] holds the mutex only inside [beforeRequest] and [afterRequest],
    concurrent use is a step relation whose steps are those critical sections,
    with the number of admitted calls that have not returned as ghost state. *)

From S2P Require Import Prelude GoError Metrics.

Open Scope Z_scope.

Module CircuitBreaker.

Inductive State := StateClosed | StateOpen | StateHalfOpen.

#[global] Instance State_eq_dec : EqDecision State.
Proof. solve_decision. Defined.

Definition State_String (s : State) : string :=
  match s with
  | StateClosed => "closed"
  | StateOpen => "open"
  | StateHalfOpen => "half-open"
  end.

(** [int(state)]: the constants are an [iota]. *)
Definition State_int (s : State) : Z :=
  match s with
  | StateClosed => 0
  | StateOpen => 1
  | StateHalfOpen => 2
  end.

Definition ErrCircuitOpen : error :=
  Err "circuitbreaker.ErrCircuitOpen" "circuit breaker is open" [].

Record Config := mkConfig {
  Name : string;
  MaxFailures : Z;
  Timeout : Duration;
  MaxHalfOpenCalls : Z;
  IsFailure : option (error -> bool)
}.

Record CircuitBreaker := mkCB {
  name : string;
  maxFailures : Z;
  timeout : Duration;
  maxHalfOpenCalls : Z;
  isFailure : error -> bool;
  state : State;
  failures : Z;
  successes : Z;
  halfOpenCalls : Z;
  lastFailureTime : Time
}.

(** Field updates. *)
Definition set_state s cb := mkCB (name cb) (maxFailures cb) (timeout cb)
  (maxHalfOpenCalls cb) (isFailure cb) s (failures cb) (successes cb) (halfOpenCalls cb) (lastFailureTime cb).
Definition set_failures f cb := mkCB (name cb) (maxFailures cb) (timeout cb)
  (maxHalfOpenCalls cb) (isFailure cb) (state cb) f (successes cb) (halfOpenCalls cb) (lastFailureTime cb).
Definition set_successes s cb := mkCB (name cb) (maxFailures cb) (timeout cb)
  (maxHalfOpenCalls cb) (isFailure cb) (state cb) (failures cb) s (halfOpenCalls cb) (lastFailureTime cb).
Definition set_halfOpenCalls h cb := mkCB (name cb) (maxFailures cb) (timeout cb)
  (maxHalfOpenCalls cb) (isFailure cb) (state cb) (failures cb) (successes cb) h (lastFailureTime cb).
Definition set_lastFailureTime t cb := mkCB (name cb) (maxFailures cb) (timeout cb)
  (maxHalfOpenCalls cb) (isFailure cb) (state cb) (failures cb) (successes cb) (halfOpenCalls cb) t.

Definition New (cfg : Config) (r : registry) : CircuitBreaker * registry :=
  let maxFail := if MaxFailures cfg <=? 0 then 5 else MaxFailures cfg in
  let tmo := if Timeout cfg <=? 0 then 30 * Second else Timeout cfg in
  let maxHalf := if MaxHalfOpenCalls cfg <=? 0 then 3 else MaxHalfOpenCalls cfg in
  let isFail := match IsFailure cfg with None => fun _ => true | Some f => f end in
  let cb := mkCB (Name cfg) maxFail tmo maxHalf isFail StateClosed 0 0 0 zero_time in
  (cb, SetCircuitBreakerState (name cb) (State_int StateClosed) r).

Definition toClosed (cb : CircuitBreaker) (r : registry) : CircuitBreaker * registry :=
  let cb := set_state StateClosed cb in
  let cb := set_failures 0 cb in
  let cb := set_successes 0 cb in
  let cb := set_halfOpenCalls 0 cb in
  (cb, SetCircuitBreakerState (name cb) (State_int StateClosed) r).

Definition toOpen (now : Time) (cb : CircuitBreaker) (r : registry) : CircuitBreaker * registry :=
  let cb := set_state StateOpen cb in
  let cb := set_lastFailureTime now cb in
  (cb, SetCircuitBreakerState (name cb) (State_int StateOpen) r).

Definition toHalfOpen (cb : CircuitBreaker) (r : registry) : CircuitBreaker * registry :=
  let cb := set_state StateHalfOpen cb in
  let cb := set_successes 0 cb in
  let cb := set_halfOpenCalls 0 cb in
  (cb, SetCircuitBreakerState (name cb) (State_int StateHalfOpen) r).

Definition beforeRequest (now : Time) (cb : CircuitBreaker) (r : registry)
    : Error * CircuitBreaker * registry :=
  match state cb with
  | StateClosed => (None, cb, r)
  | StateOpen =>
      if timeout cb <? Since now (lastFailureTime cb) then
        let '(cb, r) := toHalfOpen cb r in (None, cb, r)
      else (Some ErrCircuitOpen, cb, r)
  | StateHalfOpen =>
      if maxHalfOpenCalls cb <=? halfOpenCalls cb then (Some ErrCircuitOpen, cb, r)
      else (None, set_halfOpenCalls (int_inc (halfOpenCalls cb)) cb, r)
  end.

Definition onSuccess (cb : CircuitBreaker) (r : registry) : CircuitBreaker * registry :=
  let r := RecordCircuitBreakerSuccess (name cb) r in
  match state cb with
  | StateClosed => (set_failures 0 cb, r)
  | StateHalfOpen =>
      let cb := set_successes (int_inc (successes cb)) cb in
      if maxHalfOpenCalls cb <=? successes cb then toClosed cb r else (cb, r)
  | StateOpen => (cb, r)
  end.

(** [now] is the reading of line 168 and [now'] the one [toOpen] makes. *)
Definition onFailure (now now' : Time) (cb : CircuitBreaker) (r : registry) : CircuitBreaker * registry :=
  let r := RecordCircuitBreakerFailure (name cb) r in
  match state cb with
  | StateClosed =>
      let cb := set_failures (int_inc (failures cb)) cb in
      let cb := set_lastFailureTime now cb in
      if maxFailures cb <=? failures cb then toOpen now' cb r else (cb, r)
  | StateHalfOpen => toOpen now' cb r
  | StateOpen => (cb, r)
  end.

(** Does an outcome of the protected call count against the breaker? *)
Definition is_failure (cb : CircuitBreaker) (err : Error) : bool :=
  match err with None => false | Some e => isFailure cb e end.

Definition afterRequest (now now' : Time) (err : Error) (cb : CircuitBreaker) (r : registry)
    : CircuitBreaker * registry :=
  if is_failure cb err then onFailure now now' cb r else onSuccess cb r.

(** [Execute] run alone: [fn] is given by what it returns; the clock is read
    before the call ([t0]) and after it. *)
Definition Execute (t0 t1 t2 : Time) (fn : Error) (cb : CircuitBreaker) (r : registry)
    : Error * CircuitBreaker * registry :=
  let '(err, cb, r) := beforeRequest t0 cb r in
  match err with
  | Some e => (Some e, cb, r)
  | None => let '(cb, r) := afterRequest t1 t2 fn cb r in (fn, cb, r)
  end.

Definition Reset (cb : CircuitBreaker) (r : registry) : CircuitBreaker * registry :=
  toClosed cb r.

(** [State()] *)
Definition GetState (cb : CircuitBreaker) : State := state cb.

(** ** Concurrent use *)

(** [pending] counts admitted calls whose [fn] has not returned; [episode]
    counts the calls admitted since the breaker last became half-open. *)
Record Sys := mkSys { cb : CircuitBreaker; reg : registry; pending : Z; episode : Z }.

Inductive event :=
| EvBefore (now : Time)
| EvAfter (now now' : Time) (err : Error)
| EvPanic
| EvReset.

Definition admit_episode (old new : CircuitBreaker) (n : Z) : Z :=
  match state new with
  | StateHalfOpen => if decide (state old = StateHalfOpen) then n + 1 else 1
  | _ => 0
  end.

Definition leave_episode (new : CircuitBreaker) (n : Z) : Z :=
  match state new with StateHalfOpen => n | _ => 0 end.

Inductive step : Sys -> event -> Sys -> Prop :=
| step_admit now s c r :
    beforeRequest now (cb s) (reg s) = (None, c, r) ->
    step s (EvBefore now) (mkSys c r (pending s + 1) (admit_episode (cb s) c (episode s)))
| step_reject now s e c r :
    beforeRequest now (cb s) (reg s) = (Some e, c, r) ->
    step s (EvBefore now) (mkSys c r (pending s) (episode s))
| step_return now now' err s c r :
    0 < pending s ->
    afterRequest now now' err (cb s) (reg s) = (c, r) ->
    step s (EvAfter now now' err) (mkSys c r (pending s - 1) (leave_episode c (episode s)))
| step_panic s :
    0 < pending s ->
    step s EvPanic (mkSys (cb s) (reg s) (pending s - 1) (episode s))
| step_reset s c r :
    Reset (cb s) (reg s) = (c, r) ->
    step s EvReset (mkSys c r (pending s) 0).

Definition initial (cfg : Config) (r : registry) : Sys :=
  let '(c, r) := New cfg r in mkSys c r 0 0.

(** The effect of one event, as a function. *)
Definition exec (s : Sys) (ev : event) : Sys :=
  match ev with
  | EvBefore now =>
      let '(e, c, r) := beforeRequest now (cb s) (reg s) in
      match e with
      | None => mkSys c r (pending s + 1) (admit_episode (cb s) c (episode s))
      | Some _ => mkSys c r (pending s) (episode s)
      end
  | EvAfter now now' err =>
      let '(c, r) := afterRequest now now' err (cb s) (reg s) in
      mkSys c r (pending s - 1) (leave_episode c (episode s))
  | EvPanic => mkSys (cb s) (reg s) (pending s - 1) (episode s)
  | EvReset => let '(c, r) := Reset (cb s) (reg s) in mkSys c r (pending s) 0
  end.

(** Only an admitted call can return or panic. *)
Definition enabled (s : Sys) (ev : event) : bool :=
  match ev with
  | EvAfter _ _ _ | EvPanic => 0 <? pending s
  | _ => true
  end.

Fixpoint enabled_all (s : Sys) (evs : list event) : bool :=
  match evs with
  | [] => true
  | ev :: evs => enabled s ev && enabled_all (exec s ev) evs
  end.

(** The states a breaker built from [cfg] reaches by steps [ok] allows. *)
Inductive reachable (ok : event -> Prop) (cfg : Config) (r0 : registry) : Sys -> Prop :=
| reach_init : reachable ok cfg r0 (initial cfg r0)
| reach_step s ev s' :
    reachable ok cfg r0 s -> ok ev -> step s ev s' -> reachable ok cfg r0 s'.

Definition any_event (ev : event) : Prop := True.
Definition no_panic (ev : event) : Prop := ev <> EvPanic.

(** A configuration whose integer fields are Go [int]s. *)
Definition cfg_ok (cfg : Config) : Prop :=
  in_int64 (MaxFailures cfg) /\ in_int64 (Timeout cfg) /\ in_int64 (MaxHalfOpenCalls cfg).

(** The well-formedness invariant: limits are positive, the counters that
    matter in a state are below their limit, and the gauge shows the state. *)
Definition limits_ok (c : CircuitBreaker) : Prop :=
  0 < maxFailures c <= int64_max /\ 0 < timeout c <= int64_max /\
  0 < maxHalfOpenCalls c <= int64_max.

Definition counters_ok (c : CircuitBreaker) : Prop :=
  match state c with
  | StateClosed => 0 <= failures c < maxFailures c
  | StateOpen => True
  | StateHalfOpen =>
      0 <= successes c < maxHalfOpenCalls c /\ 0 <= halfOpenCalls c <= maxHalfOpenCalls c
  end.

Definition gauge_ok (c : CircuitBreaker) (r : registry) : Prop :=
  value r (circuitBreakerState (name c)) = State_int (state c).

Definition wf (c : CircuitBreaker) (r : registry) : Prop :=
  limits_ok c /\ counters_ok c /\ gauge_ok c r.

(** ** Lemmas *)

Ltac unfold_cb :=
  unfold toClosed, toOpen, toHalfOpen, set_state, set_failures, set_successes,
    set_halfOpenCalls, set_lastFailureTime in *.

Lemma New_wf cfg r c r' : cfg_ok cfg -> New cfg r = (c, r') -> wf c r'.
Proof.
  unfold cfg_ok, in_int64, New. intros (H1 & H2 & H3) [= <- <-].
  unfold wf, limits_ok, counters_ok, gauge_ok; simpl.
  unfold SetCircuitBreakerState; autorewrite with cg.
  unfold Second, int64_max in *.
  split_and!; try done; split_cases; lia.
Qed.

Lemma toClosed_wf cb0 r : limits_ok cb0 -> wf (toClosed cb0 r).1 (toClosed cb0 r).2.
Proof.
  intros Hl. unfold_cb. unfold wf, limits_ok, counters_ok, gauge_ok in *; simpl.
  unfold SetCircuitBreakerState; autorewrite with cg. split_and!; try done; lia.
Qed.

Lemma toOpen_wf now cb0 r : limits_ok cb0 -> wf (toOpen now cb0 r).1 (toOpen now cb0 r).2.
Proof.
  intros Hl. unfold_cb. unfold wf, limits_ok, counters_ok, gauge_ok in *; simpl.
  unfold SetCircuitBreakerState; autorewrite with cg. split_and!; try done; lia.
Qed.

Lemma toHalfOpen_wf cb0 r : limits_ok cb0 -> wf (toHalfOpen cb0 r).1 (toHalfOpen cb0 r).2.
Proof.
  intros Hl. unfold_cb. unfold wf, limits_ok, counters_ok, gauge_ok in *; simpl.
  unfold SetCircuitBreakerState; autorewrite with cg. split_and!; try done; lia.
Qed.

Lemma beforeRequest_wf now c r err c' r' :
  wf c r -> beforeRequest now c r = (err, c', r') -> wf c' r'.
Proof.
  intros (Hl & Hc & Hg) Hb. unfold beforeRequest in Hb.
  destruct (state c) eqn:Hs; [by simplify_eq | |].
  - pose proof (toHalfOpen_wf c r Hl). destruct (toHalfOpen c r).
    split_cases; simplify_eq; done.
  - unfold counters_ok in Hc; rewrite Hs in Hc.
    case_match; simplify_eq; [by unfold wf, counters_ok; rewrite Hs |].
    to_prop. unfold wf, limits_ok, counters_ok, gauge_ok, set_halfOpenCalls in *; simpl.
    rewrite Hs in *. rewrite int_inc_small by (unfold int64_min in *; lia).
    split_and!; try done; lia.
Qed.

Lemma onSuccess_wf c r c' r' : wf c r -> onSuccess c r = (c', r') -> wf c' r'.
Proof.
  intros (Hl & Hc & Hg) Ho. unfold onSuccess in Ho.
  unfold counters_ok in Hc. destruct (state c) eqn:Hs.
  - simplify_eq. unfold wf, limits_ok, counters_ok, gauge_ok, set_failures,
      RecordCircuitBreakerSuccess in *; simpl. autorewrite with cg.
    rewrite Hs in *. split_and!; try done; lia.
  - simplify_eq. unfold wf, counters_ok, gauge_ok, RecordCircuitBreakerSuccess in *.
    autorewrite with cg. by rewrite Hs in *.
  - set (c1 := set_successes _ c) in *.
    assert (limits_ok c1) as Hl1 by done.
    case_match; [pose proof (toClosed_wf c1 (RecordCircuitBreakerSuccess (name c) r) Hl1)
      as Hw; by rewrite Ho in Hw |].
    simplify_eq. to_prop.
    unfold wf, limits_ok, counters_ok, gauge_ok, set_successes,
      RecordCircuitBreakerSuccess in *; simpl in *. autorewrite with cg. rewrite Hs in *.
    rewrite int_inc_small in * by (unfold int64_min; lia). split_and!; try done; lia.
Qed.

Lemma onFailure_wf now now' c r c' r' :
  wf c r -> onFailure now now' c r = (c', r') -> wf c' r'.
Proof.
  intros (Hl & Hc & Hg) Ho. unfold onFailure in Ho.
  unfold counters_ok in Hc. destruct (state c) eqn:Hs.
  - set (c1 := set_lastFailureTime now _) in *.
    assert (limits_ok c1) as Hl1 by done.
    case_match; [pose proof (toOpen_wf now' c1 (RecordCircuitBreakerFailure (name c) r) Hl1)
      as Hw; by rewrite Ho in Hw |].
    simplify_eq. to_prop.
    unfold wf, limits_ok, counters_ok, gauge_ok, set_failures, set_lastFailureTime,
      RecordCircuitBreakerFailure in *; simpl in *. autorewrite with cg. rewrite Hs in *.
    rewrite int_inc_small in * by (unfold int64_min; lia). split_and!; try done; lia.
  - simplify_eq. unfold wf, counters_ok, gauge_ok, RecordCircuitBreakerFailure in *.
    autorewrite with cg. by rewrite Hs in *.
  - pose proof (toOpen_wf now' c (RecordCircuitBreakerFailure (name c) r) Hl) as Hw.
    by rewrite Ho in Hw.
Qed.

Lemma afterRequest_wf now now' err c r c' r' :
  wf c r -> afterRequest now now' err c r = (c', r') -> wf c' r'.
Proof.
  unfold afterRequest. case_match; eauto using onFailure_wf, onSuccess_wf.
Qed.

Lemma step_wf s ev s' : wf (cb s) (reg s) -> step s ev s' -> wf (cb s') (reg s').
Proof.
  intros Hw Hst. destruct Hst; simpl; eauto using beforeRequest_wf, afterRequest_wf.
  unfold Reset in *. destruct Hw as (Hl & _ & _).
  pose proof (toClosed_wf (cb s) (reg s) Hl) as Hw'. by rewrite H in Hw'.
Qed.

Lemma exec_step s ev : enabled s ev = true -> step s ev (exec s ev).
Proof.
  destruct ev as [now|now now' err| |]; simpl; intros He; to_prop.
  - destruct (beforeRequest now (cb s) (reg s)) as [[[e|] c] r] eqn:E.
    + by eapply step_reject.
    + by apply step_admit.
  - destruct (afterRequest now now' err (cb s) (reg s)) as [c r] eqn:E.
    by apply step_return.
  - by apply step_panic.
  - by apply step_reset.
Qed.

Lemma exec_all_reachable ok cfg r0 evs s :
  reachable ok cfg r0 s -> enabled_all s evs = true -> Forall ok evs ->
  reachable ok cfg r0 (fold_left exec evs s).
Proof.
  revert s. induction evs as [|ev evs IH]; intros s Hr He Ho; [done|].
  simpl in *. to_prop. inversion_clear Ho.
  apply IH; try done. by eapply reach_step; [| |apply exec_step].
Qed.

Lemma exec_reachable ok cfg r0 evs :
  enabled_all (initial cfg r0) evs = true -> Forall ok evs ->
  reachable ok cfg r0 (fold_left exec evs (initial cfg r0)).
Proof. apply exec_all_reachable. constructor. Qed.

(** ** The counts a half-open breaker keeps *)

(** In a half-open state the breaker has admitted exactly one call more than
    [halfOpenCalls] counts. *)
Definition episode_ok (s : Sys) : Prop :=
  state (cb s) = StateHalfOpen -> episode s = halfOpenCalls (cb s) + 1.

(** Every half-open admission is answered by a success or still pending. *)
Definition pending_ok (s : Sys) : Prop :=
  0 <= pending s /\
  (state (cb s) = StateHalfOpen ->
   halfOpenCalls (cb s) + 1 <= successes (cb s) + pending s).

Lemma afterRequest_half_open now now' err c r c' r' :
  wf c r -> afterRequest now now' err c r = (c', r') -> state c' = StateHalfOpen ->
  state c = StateHalfOpen /\ halfOpenCalls c' = halfOpenCalls c /\
  successes c' = successes c + 1.
Proof.
  intros (Hl & Hc & _) Ha Hs. unfold counters_ok, limits_ok in *.
  unfold afterRequest, onFailure, onSuccess in Ha. unfold_cb.
  destruct (is_failure c err), (state c) eqn:Hs0; inv_cases; try congruence.
  split_and!; try done. apply int_inc_small. unfold int64_min. lia.
Qed.

Lemma beforeRequest_half_open now c r c' r' :
  wf c r -> beforeRequest now c r = (None, c', r') -> state c' = StateHalfOpen ->
  (state c = StateHalfOpen /\ halfOpenCalls c' = halfOpenCalls c + 1 /\ successes c' = successes c) \/
  (state c = StateOpen /\ halfOpenCalls c' = 0 /\ successes c' = 0).
Proof.
  intros (Hl & Hc & _) Hb Hs. unfold counters_ok, limits_ok in *.
  unfold beforeRequest in Hb. unfold_cb.
  destruct (state c) eqn:Hs0; inv_cases; try congruence.
  - by right.
  - left. split_and!; try done. apply int_inc_small. unfold int64_min. lia.
Qed.

Lemma beforeRequest_rejected now c r e c' r' :
  beforeRequest now c r = (Some e, c', r') -> e = ErrCircuitOpen /\ c' = c /\ r' = r.
Proof. unfold beforeRequest. intros H. by inv_cases. Qed.

Lemma step_episode s ev s' :
  wf (cb s) (reg s) -> step s ev s' -> episode_ok s -> episode_ok s'.
Proof.
  intros Hw Hst He. unfold episode_ok in *. destruct Hst; simpl; intros Hs.
  - destruct (beforeRequest_half_open _ _ _ _ _ Hw H Hs) as [(H1 & H2 & _)|(H1 & H2 & _)];
      unfold admit_episode; rewrite Hs; case_decide; try congruence;
      rewrite ?H2, ?He by done; lia.
  - apply beforeRequest_rejected in H as (_ & -> & _). by apply He.
  - destruct (afterRequest_half_open _ _ _ _ _ _ _ Hw H0 Hs) as (H1 & H2 & _).
    unfold leave_episode. rewrite Hs, H2. by apply He.
  - by apply He.
  - unfold Reset, toClosed in H. by simplify_eq.
Qed.

Lemma step_pending s ev s' :
  wf (cb s) (reg s) -> step s ev s' -> no_panic ev -> pending_ok s -> pending_ok s'.
Proof.
  intros Hw Hst Hnp [Hp He]. unfold pending_ok in *.
  destruct Hst; simpl; (split; [lia|]); try intros Hs.
  - destruct (beforeRequest_half_open _ _ _ _ _ Hw H Hs) as [(H1 & -> & ->)|(H1 & -> & ->)].
    + specialize (He H1). lia.
    + lia.
  - apply beforeRequest_rejected in H as (_ & -> & _). by apply He.
  - destruct (afterRequest_half_open _ _ _ _ _ _ _ Hw H0 Hs) as (H1 & -> & ->).
    specialize (He H1). lia.
  - by destruct Hnp.
  - unfold Reset, toClosed in H. by simplify_eq.
Qed.

Lemma initial_wf cfg r : cfg_ok cfg -> wf (cb (initial cfg r)) (reg (initial cfg r)).
Proof.
  intros Hc. unfold initial. destruct (New cfg r) as [c r'] eqn:E.
  by apply (New_wf _ _ _ _ Hc E).
Qed.

Lemma reachable_wf_any ok cfg r0 s :
  cfg_ok cfg -> reachable ok cfg r0 s -> wf (cb s) (reg s).
Proof. intros Hc. induction 1; eauto using initial_wf, step_wf. Qed.

Lemma reachable_episode_ok ok cfg r0 s :
  cfg_ok cfg -> reachable ok cfg r0 s -> episode_ok s.
Proof.
  intros Hc. induction 1; [done|]. eauto using step_episode, reachable_wf_any.
Qed.

Lemma reachable_pending_ok cfg r0 s :
  cfg_ok cfg -> reachable no_panic cfg r0 s -> pending_ok s.
Proof.
  intros Hc. induction 1; [by split; simpl|]. eauto using step_pending, reachable_wf_any.
Qed.

(** ** A run of calls, one after the other *)

(** A call: the clock readings of [Execute] and what [fn] returns. *)
Record call := mkCall { t0 : Time; t1 : Time; t2 : Time; out : Error }.

Fixpoint run (cs : list call) (c : CircuitBreaker) (r : registry)
    : list Error * CircuitBreaker * registry :=
  match cs with
  | [] => ([], c, r)
  | k :: cs =>
      let '(e, c, r) := Execute (t0 k) (t1 k) (t2 k) (out k) c r in
      let '(es, c, r) := run cs c r in
      (e :: es, c, r)
  end.

(** What a closed breaker promises: the number of consecutive failures so far,
    or [None] once it has reached [limit]. *)
Fixpoint streak (fails : Error -> bool) (limit n : Z) (outs : list Error) : option Z :=
  match outs with
  | [] => Some n
  | o :: outs =>
      if fails o then (if limit <=? n + 1 then None else streak fails limit (n + 1) outs)
      else streak fails limit 0 outs
  end.

Lemma Execute_closed k c r :
  wf c r -> state c = StateClosed ->
  let '(e, c', r') := Execute (t0 k) (t1 k) (t2 k) (out k) c r in
  e = out k /\ wf c' r' /\ isFailure c' = isFailure c /\ maxFailures c' = maxFailures c /\
  (if is_failure c (out k) then
     failures c' = failures c + 1 /\
     (if maxFailures c <=? failures c + 1 then state c' = StateOpen /\ lastFailureTime c' = t2 k
      else state c' = StateClosed)
   else state c' = StateClosed /\ failures c' = 0).
Proof.
  intros Hw Hs. pose proof Hw as (Hl & Hc & Hg).
  unfold counters_ok, limits_ok in Hc, Hl. rewrite Hs in Hc.
  unfold Execute, beforeRequest. rewrite Hs.
  destruct (afterRequest (t1 k) (t2 k) (out k) c r) as [c' r'] eqn:E.
  split; [done|]. split; [by eapply afterRequest_wf|].
  unfold afterRequest in E. destruct (is_failure c (out k)) eqn:Hf;
    unfold onFailure, onSuccess in E; rewrite Hs in E; unfold_cb; simpl in E;
    rewrite ?int_inc_small in E by (unfold int64_min; lia); split_cases; simplify_eq;
    simpl; rewrite ?int_inc_small by (unfold int64_min; lia); auto.
Qed.

(** Two breakers with the same classification and limit agree on [streak]. *)
Lemma is_failure_ext c c' : isFailure c' = isFailure c -> is_failure c' = is_failure c.
Proof. intros H. unfold is_failure. by rewrite H. Qed.

Lemma run_streak cs c r n :
  wf c r -> state c = StateClosed ->
  streak (is_failure c) (maxFailures c) (failures c) (map out cs) = Some n ->
  let '(es, c', r') := run cs c r in
  es = map out cs /\ wf c' r' /\ state c' = StateClosed /\ failures c' = n /\
  isFailure c' = isFailure c /\ maxFailures c' = maxFailures c.
Proof.
  revert c r. induction cs as [|k cs IH]; intros c r Hw Hs Hst; simpl in *.
  { by simplify_eq. }
  pose proof (Execute_closed k c r Hw Hs) as HE.
  destruct (Execute _ _ _ _ c r) as [[e c1] r1]. destruct HE as (-> & Hw1 & Hf1 & Hm1 & HE).
  destruct (is_failure c (out k)).
  - destruct HE as [Hn HE]. destruct (maxFailures c <=? failures c + 1); [done|].
    specialize (IH c1 r1 Hw1 HE). rewrite (is_failure_ext _ _ Hf1), Hm1, Hn in IH.
    specialize (IH Hst). destruct (run cs c1 r1) as [[es c2] r2].
    destruct IH as (-> & ? & ? & ? & ? & ?). split_and!; congruence.
  - destruct HE as [HE Hn].
    specialize (IH c1 r1 Hw1 HE). rewrite (is_failure_ext _ _ Hf1), Hm1, Hn in IH.
    specialize (IH Hst). destruct (run cs c1 r1) as [[es c2] r2].
    destruct IH as (-> & ? & ? & ? & ? & ?). split_and!; congruence.
Qed.

(** ** Properties *)

(** C1: in every state a breaker can reach, under any interleaving of the
    critical sections of concurrent calls (panicking ones included), the limits
    are positive, a closed breaker counts fewer failures than [maxFailures], a
    half-open one fewer successes than [maxHalfOpenCalls] and at most
    [maxHalfOpenCalls] counted calls, and the Prometheus gauge shows the
    state. *)
Theorem reachable_wf cfg r0 s :
  cfg_ok cfg -> reachable any_event cfg r0 s -> wf (cb s) (reg s).
Proof. apply reachable_wf_any. Qed.

(** A failure opens the breaker, a later call makes it half-open. *)
Lemma reachable_wf_witness :
  let cfg := mkConfig "users" 1 10 3 None in
  let s := fold_left exec [EvBefore 0; EvAfter 1 1 (Some ErrCircuitOpen); EvBefore 20; EvBefore 21] (initial cfg ∅) in
  state (cb s) = StateHalfOpen /\ halfOpenCalls (cb s) = 1 /\ wf (cb s) (reg s).
Proof.
  intros cfg s. split; [vm_compute; reflexivity|]. split; [vm_compute; reflexivity|]. apply (reachable_wf cfg ∅).
  - unfold cfg_ok, in_int64, int64_min, int64_max, cfg; simpl; lia.
  - apply exec_reachable; [vm_compute; reflexivity|]. repeat constructor.
Defined.

(** C2: a closed breaker counts consecutive failures and nothing else: running
    calls one after the other admits every one, returns what [fn] returned and
    keeps the length of the current run of failures, as long as that run stays
    below [maxFailures]; the call whose failure completes such a run opens the
    breaker at the time of the failure. *)
Theorem closed_breaker_counts_streak cs k c r n :
  wf c r -> state c = StateClosed ->
  streak (is_failure c) (maxFailures c) (failures c) (map out cs) = Some n ->
  let '(es, c', r') := run cs c r in
  es = map out cs /\ state c' = StateClosed /\ failures c' = n /\
  (is_failure c (out k) = true -> maxFailures c <= n + 1 ->
   let '(e, c'', _) := Execute (t0 k) (t1 k) (t2 k) (out k) c' r' in
   e = out k /\ state c'' = StateOpen /\ lastFailureTime c'' = t2 k).
Proof.
  intros Hw Hs Hst. pose proof (run_streak cs c r n Hw Hs Hst) as HR.
  destruct (run cs c r) as [[es c'] r'].
  destruct HR as (-> & Hw' & Hs' & Hn & Hf & Hm). split_and!; try done.
  intros Hk Hlim. pose proof (Execute_closed k c' r' Hw' Hs') as HE.
  destruct (Execute _ _ _ _ c' r') as [[e c''] r''].
  rewrite (is_failure_ext _ _ Hf), Hk, Hm, Hn in HE.
  destruct HE as (-> & _ & _ & _ & _ & HE).
  rewrite (proj2 (Z.leb_le _ _) Hlim) in HE. tauto.
Qed.

Lemma closed_breaker_counts_streak_witness :
  let cfg := mkConfig "users" 2 (30 * Second) 3 None in
  let bad := mkCall 1 2 3 (Some ErrCircuitOpen) in
  let good := mkCall 4 5 6 None in
  let '(es, c', _) := run [bad; good; bad] (New cfg ∅).1 (New cfg ∅).2 in
  es = [out bad; out good; out bad] /\ state c' = StateClosed /\ failures c' = 1.
Proof.
  intros cfg bad good.
  assert (wf (New cfg ∅).1 (New cfg ∅).2) as Hw by (eapply New_wf; [|done]; vm_compute; intuition congruence).
  pose proof (closed_breaker_counts_streak [bad; good; bad] bad (New cfg ∅).1 (New cfg ∅).2 1
    Hw eq_refl eq_refl) as H.
  destruct (run [bad; good; bad] _ _) as [[es c'] r'].
  destruct H as (? & ? & ? & _). by split_and!.
Defined.

(** An open breaker rejects every call with [ErrCircuitOpen], changing
    nothing, until strictly more than [timeout] has passed since the last
    failure; the first later call is admitted and starts a half-open episode
    with both counters at zero. *)
Theorem open_breaker_gate now c r :
  wf c r -> state c = StateOpen -> timeout c < int64_max ->
  (now - lastFailureTime c <= timeout c ->
     beforeRequest now c r = (Some ErrCircuitOpen, c, r)) /\
  (timeout c < now - lastFailureTime c ->
     exists c' r', beforeRequest now c r = (None, c', r') /\
       state c' = StateHalfOpen /\ successes c' = 0 /\ halfOpenCalls c' = 0).
Proof.
  intros (Hl & _ & _) Hs Ht. unfold limits_ok in Hl.
  assert (timeout c < Since now (lastFailureTime c) <->
          timeout c < now - lastFailureTime c) as Hiff
    by (apply Since_gt; unfold int64_min; lia).
  unfold beforeRequest. rewrite Hs. split; intros Hd.
  - destruct (Z.ltb_spec (timeout c) (Since now (lastFailureTime c))); [|done].
    exfalso. apply Hiff in H. lia.
  - destruct (Z.ltb_spec (timeout c) (Since now (lastFailureTime c))).
    + by eexists _, _.
    + exfalso. apply Hiff in Hd. lia.
Qed.

Lemma open_breaker_gate_witness :
  let c := mkCB "users" 5 (30 * Second) 3 (fun _ => true) StateOpen 5 0 0 100 in
  let r := SetCircuitBreakerState "users" 1 ∅ in
  beforeRequest (100 + 30 * Second) c r = (Some ErrCircuitOpen, c, r).
Proof.
  intros c r. apply (open_breaker_gate (100 + 30 * Second) c r).
  - unfold wf, limits_ok, counters_ok, gauge_ok, int64_max, Second; simpl.
    split_and!; try done; vm_compute; done.
  - done.
  - vm_compute. done.
  - vm_compute. done.
Defined.

(** C3: during one half-open episode the breaker admits at most
    [maxHalfOpenCalls + 1] calls: the call that turns the breaker half-open is
    admitted without being counted.  (The configuration documents
    [MaxHalfOpenCalls] as the maximum number of calls in the half-open
    state.) *)
Theorem half_open_admissions cfg r0 s :
  cfg_ok cfg -> reachable any_event cfg r0 s -> state (cb s) = StateHalfOpen ->
  1 <= episode s <= maxHalfOpenCalls (cb s) + 1.
Proof.
  intros Hc Hr Hs. rewrite (reachable_episode_ok _ _ _ _ Hc Hr Hs).
  destruct (reachable_wf_any _ _ _ _ Hc Hr) as (_ & Hcnt & _).
  unfold counters_ok in Hcnt. rewrite Hs in Hcnt. lia.
Qed.

Definition probe_cfg : Config := mkConfig "users" 1 10 3 None.

(** One failure opens the breaker; a call after the timeout turns it half-open
    and three more saturate it. *)
Definition probe_events : list event :=
  [EvBefore 0; EvAfter 1 1 (Some ErrCircuitOpen);
   EvBefore 20; EvBefore 21; EvBefore 22; EvBefore 23].

Lemma probe_cfg_ok : cfg_ok probe_cfg.
Proof. vm_compute. intuition congruence. Qed.

Lemma half_open_admissions_witness :
  exists s, reachable any_event probe_cfg ∅ s /\ episode s = 4 /\
    1 <= episode s <= maxHalfOpenCalls (cb s) + 1.
Proof.
  assert (reachable any_event probe_cfg ∅ (fold_left exec probe_events (initial probe_cfg ∅))) as Hr.
  { apply exec_reachable; [vm_compute; reflexivity|]. repeat constructor. }
  eexists. split; [exact Hr|]. split; [vm_compute; reflexivity|].
  apply (half_open_admissions probe_cfg ∅ _ probe_cfg_ok Hr). vm_compute; reflexivity.
Defined.

(** C4: a saturated half-open breaker always has admitted calls in flight, so
    as long as every protected call returns (none panics) the breaker cannot
    stay half-open and reject for ever. *)
Theorem half_open_never_stuck cfg r0 s :
  cfg_ok cfg -> reachable no_panic cfg r0 s -> state (cb s) = StateHalfOpen ->
  halfOpenCalls (cb s) = maxHalfOpenCalls (cb s) -> 2 <= pending s.
Proof.
  intros Hc Hr Hs Hm. destruct (reachable_pending_ok _ _ _ Hc Hr) as [_ Hp].
  destruct (reachable_wf_any _ _ _ _ Hc Hr) as (_ & Hcnt & _).
  unfold counters_ok in Hcnt. rewrite Hs in Hcnt. specialize (Hp Hs). lia.
Qed.

Lemma half_open_never_stuck_witness :
  exists s, reachable no_panic probe_cfg ∅ s /\
    halfOpenCalls (cb s) = maxHalfOpenCalls (cb s) /\ 2 <= pending s.
Proof.
  assert (reachable no_panic probe_cfg ∅ (fold_left exec probe_events (initial probe_cfg ∅))) as Hr.
  { apply exec_reachable; [vm_compute; reflexivity|]. by repeat constructor. }
  eexists. split; [exact Hr|]. split; [vm_compute; reflexivity|].
  apply (half_open_never_stuck probe_cfg ∅ _ probe_cfg_ok Hr); vm_compute; reflexivity.
Defined.

(** C5: a protected call that panics skips [afterRequest], and that can leave
    the breaker unusable: after two panics during a half-open episode a state
    is reachable with no call in flight that is half-open and saturated, where
    no event but [Reset] changes anything, whatever time passes. *)
Theorem half_open_panic_deadlock :
  exists s, reachable any_event probe_cfg ∅ s /\
    pending s = 0 /\ state (cb s) = StateHalfOpen /\
    (forall now, beforeRequest now (cb s) (reg s) = (Some ErrCircuitOpen, cb s, reg s)) /\
    (forall ev s', step s ev s' -> ev = EvReset \/ s' = s).
Proof.
  pose (evs := probe_events ++ [EvAfter 24 24 None; EvAfter 25 25 None; EvPanic; EvPanic]).
  pose (s := fold_left exec evs (initial probe_cfg ∅)).
  assert (pending s = 0) as Hp by (vm_compute; reflexivity).
  assert (state (cb s) = StateHalfOpen) as Hs by (vm_compute; reflexivity).
  assert ((maxHalfOpenCalls (cb s) <=? halfOpenCalls (cb s)) = true) as Hm by (vm_compute; reflexivity).
  assert (reachable any_event probe_cfg ∅ s) as Hr
    by (apply exec_reachable; [vm_compute; reflexivity|]; repeat constructor).
  clearbody s.
  assert (forall now, beforeRequest now (cb s) (reg s) = (Some ErrCircuitOpen, cb s, reg s)) as Hb
    by (intros now; unfold beforeRequest; by rewrite Hs, Hm).
  exists s. split_and!; try done.
  intros ev s' Hst. inversion Hst; subst; auto; try lia; rewrite Hb in *; simplify_eq.
  right. by destruct s.
Qed.

End CircuitBreaker.
