(* ===== verification/GrpcClient.v ===== *)
(** * grpc/client.go: targets, retries, circuit breakers and dialling

    The invoker, the context and the random source are an environment that
    answers the [n]-th interaction of a call; the breakers are those of
    CircuitBreaker.v, kept in the package's registry by target. *)

From S2P Require Import Prelude GoError GoString Metrics CircuitBreaker Grpc.
Import CircuitBreaker.

Open Scope Z_scope.

Record ClientConfig := mkClientConfig {
  cc_Host : string;
  cc_Port : Z;
  cc_Timeout : Duration;
  cc_MaxRetries : Z;
  RetryWaitTime : Duration;
  RetryMaxWaitTime : Duration;
  RetryableMethods : list string;
  RetryAllMethods : bool;
  cc_MaxRecvMsgSize : Z;
  cc_MaxSendMsgSize : Z;
  KeepAliveTime : Duration;
  KeepAliveTimeout : Duration;
  InitialWindowSize : Z; (* int32; not read by the package *)
  InitialConnWindow : Z;
  LoadBalancing : string;
  cc_TLS : TLSConfig
}.

(** ** Targets *)

Definition isRunningInLinkerd (LookupEnv : string -> option string) : bool :=
  bool_decide (LookupEnv "LINKERD2_PROXY_IDENTITY_LOCAL_NAME" <> None) ||
  bool_decide (LookupEnv "LINKERD2_PROXY_INBOUND_LISTEN_ADDR" <> None).

Definition Client_Addr (c : ClientConfig) : string := cc_Host c +:+ ":" +:+ Itoa (cc_Port c).

Definition Target (linkerd : bool) (c : ClientConfig) : string :=
  if linkerd then Client_Addr c
  else if negb (bool_decide (LoadBalancing c = "")) && negb (bool_decide (LoadBalancing c = "pick_first"))
  then "dns:///" +:+ cc_Host c +:+ ":" +:+ Itoa (cc_Port c)
  else Client_Addr c.

(** The service config, given as its load-balancing policy. *)
Definition ServiceConfig (linkerd : bool) (c : ClientConfig) : option string :=
  if linkerd then None
  else if bool_decide (LoadBalancing c = "") || bool_decide (LoadBalancing c = "pick_first") then None
  else Some (LoadBalancing c).

(** ** Retries *)

Definition defaultRetryMaxWaitTime : Duration := 2 * Second.
Definition defaultRetryTotalTimeout : Duration := 30 * Second.

Definition isRetryable (c : code) : bool := bool_decide (c = Unavailable).

Definition methodAllowsRetry (method : string) (cfg : ClientConfig) : bool :=
  RetryAllMethods cfg ||
  existsb (fun configured =>
    bool_decide (configured = method) ||
    (HasSuffix configured "/*" && HasPrefix method (TrimSuffix configured "/*" +:+ "/")))
    (RetryableMethods cfg).

(** The loop of [boundedRetryDelay], [n] iterations at most. *)
Fixpoint ceiling_loop (n : nat) (ceiling maximum : Duration) : Duration :=
  match n with
  | O => ceiling
  | S n =>
      if ceiling <? maximum then
        if maximum / 2 <? ceiling then maximum else ceiling_loop n (wrap64 (ceiling * 2)) maximum
      else ceiling
  end.

(** [cryptorand.Int(bound)] is [random bound], [None] when it fails. *)
Definition boundedRetryDelay (random : Z -> option Z) (base maximum : Duration) (attempt : Z) : Duration :=
  if base <=? 0 then 0
  else
    let maximum := if maximum <=? 0 then defaultRetryMaxWaitTime else maximum in
    let ceiling := ceiling_loop (Z.to_nat (attempt - 1)) base maximum in
    let ceiling := if maximum <? ceiling then maximum else ceiling in
    let floor := ceiling / 2 in
    let span := ceiling - floor in
    if span <=? 0 then ceiling
    else match random (span + 1) with
         | None => floor + span / 2
         | Some r => floor + r
         end.

Record CallEnv := mkCallEnv {
  invoke : nat -> Error;
  ctx_done : nat -> Error; (* while waiting: the context's error, or the timer *)
  FromContextError : error -> error;
  random : nat -> Z -> option Z
}.

Inductive call_effect := Invoked (out : Error) | Waited (d : Duration).

Definition effective_retries (method : string) (cfg : ClientConfig) : Z :=
  if (cc_MaxRetries cfg <? 0) || negb (methodAllowsRetry method cfg) then 0 else cc_MaxRetries cfg.

(** The timeout put on the whole call, given whether the caller set a deadline. *)
Definition total_timeout (maxRetries : Z) (hasCallerDeadline : bool) (cfg : ClientConfig) : option Duration :=
  let totalTimeout :=
    if (cc_Timeout cfg <=? 0) && (0 <? maxRetries) && negb hasCallerDeadline
    then defaultRetryTotalTimeout else cc_Timeout cfg in
  if 0 <? totalTimeout then Some totalTimeout else None.

Section Retry.
Context `{GrpcStatus} (E : CallEnv) (cfg : ClientConfig).

(** The loop of [retryInterceptor] from iteration [i] on, [todo] retries to go. *)
Fixpoint retry_loop (todo : nat) (i : Z) (n : nat) : Error * list call_effect :=
  let err := invoke E n in
  match err with
  | None => (None, [Invoked None])
  | Some e =>
      if negb (isRetryable (status_Code e)) then (Some e, [Invoked err])
      else
        match todo with
        | O => (Some e, [Invoked err])
        | S todo =>
            let d := boundedRetryDelay (random E (S n)) (RetryWaitTime cfg) (RetryMaxWaitTime cfg) (i + 1) in
            match ctx_done E (S n) with
            | Some ce => (Some (FromContextError E ce), [Invoked err; Waited d])
            | None =>
                let (r, l) := retry_loop todo (i + 1) (S (S n)) in
                (r, Invoked err :: Waited d :: l)
            end
        end
  end.

Definition retryInterceptor (method : string) (n : nat) : Error * list call_effect :=
  retry_loop (Z.to_nat (effective_retries method cfg)) 0 n.
End Retry.

(** ** Circuit breakers by target *)

Section Breakers.
Context `{GrpcStatus}.

Definition isBreakerFailure (err : error) : bool :=
  match status_Code err with
  | Unavailable | DeadlineExceeded | Internal | Unknown | DataLoss => true
  | _ => false
  end.

Definition breaker_cfg (target : string) : Config :=
  mkConfig target 5 (30 * Second) 0 (Some isBreakerFailure).

(** The package's registry and the metrics. *)
Record Breakers := mkBreakers { cbRegistry : gmap string CircuitBreaker; metrics : registry }.

Definition getOrCreateCircuitBreaker (target : string) (b : Breakers) : CircuitBreaker * Breakers :=
  match cbRegistry b !! target with
  | Some cb => (cb, b)
  | None =>
      let (cb, r) := New (breaker_cfg target) (metrics b) in
      (cb, mkBreakers (<[target := cb]> (cbRegistry b)) r)
  end.

(** A call through the interceptor, run alone: clock readings and the outcome
    the inner interceptors would give. *)
Definition circuitBreakerInterceptor (target : string) (k : call) (b : Breakers) : Error * Breakers :=
  let (cb, b) := getOrCreateCircuitBreaker target b in
  let '(e, cb, r) := Execute (t0 k) (t1 k) (t2 k) (out k) cb (metrics b) in
  (e, mkBreakers (<[target := cb]> (cbRegistry b)) r).

Definition GetCircuitBreakerState (target : string) (b : Breakers) : State :=
  match cbRegistry b !! target with Some cb => GetState cb | None => StateClosed end.

Definition ResetCircuitBreaker (target : string) (b : Breakers) : Breakers :=
  match cbRegistry b !! target with
  | Some cb => let (cb, r) := Reset cb (metrics b) in mkBreakers (<[target := cb]> (cbRegistry b)) r
  | None => b
  end.

Fixpoint calls (cs : list (string * call)) (b : Breakers) : list (string * Error) * Breakers :=
  match cs with
  | [] => ([], b)
  | (target, k) :: cs =>
      let (e, b) := circuitBreakerInterceptor target k b in
      let (es, b) := calls cs b in
      ((target, e) :: es, b)
  end.
End Breakers.

(** ** Request ids *)

Record ClientCtx := mkClientCtx { cc_out : option MD; cc_in : option MD }.

Definition first_value (md : option MD) (key : string) : option string :=
  match md with Some md => head (md_Get md key) | None => None end.

Definition GetRequestIDFromContext (ctx : ClientCtx) : string :=
  match first_value (cc_out ctx) "x-request-id" with
  | Some v => v
  | None => default "" (first_value (cc_in ctx) "x-request-id")
  end.

(** [clientLoggingInterceptor], the outgoing metadata it calls the invoker with;
    [fresh] is the generated id. *)
Definition clientLoggingInterceptor (fresh : string) (ctx : ClientCtx) : ClientCtx :=
  let requestID := GetRequestIDFromContext ctx in
  let md := default ∅ (cc_out ctx) in
  match md_Get md "x-request-id" with
  | _ :: _ => ctx
  | [] =>
      let requestID := if negb (bool_decide (requestID = "")) then requestID else fresh in
      mkClientCtx (Some (md_Set md "x-request-id" requestID)) (cc_in ctx)
  end.

(** ** Dialling *)

Inductive ClientInterceptor := CILogging | CIBreaker | CIRetry (cfg : ClientConfig).

(** gRPC's transport credentials: [credentials.NewTLS] of settings [C],
    [insecure.NewCredentials], or some the caller made, [K]. *)
Inductive TransportCredentials (C K : Type) := NewTLS (t : C) | Insecure | CallerCredentials (k : K).
Arguments NewTLS {C K}.
Arguments Insecure {C K}.
Arguments CallerCredentials {C K}.

(** The caller may pass any of them; [O] stands for the kinds the package does
    not use itself and which leave the transport alone. *)
Inductive DialOption (C K O : Type) :=
| DTransport (creds : option (TransportCredentials C K)) (* None: nil *)
| DCallSizes (recv send : Z)
| DKeepalive (time timeout : Duration) (permitWithoutStream : bool)
| DChain (l : list ClientInterceptor)
| DServiceConfig (policy : string)
| DTracing
| DOther (o : O).
Arguments DTransport {C K O}.
Arguments DCallSizes {C K O}.
Arguments DKeepalive {C K O}.
Arguments DChain {C K O}.
Arguments DServiceConfig {C K O}.
Arguments DTracing {C K O}.
Arguments DOther {C K O}.

Section Dial.
Context {C K O : Type} (ClientCreds : TLSConfig -> result error (option C)) (linkerd : bool).

Definition or_default (n d : Z) : Z := if n =? 0 then d else n.

Definition transport (cfg : ClientConfig) : result error (DialOption C K O) :=
  if Enabled (cc_TLS cfg) then
    let? creds := map_err (Wrapf "client TLS credentials") (ClientCreds (cc_TLS cfg)) in
    Ok (DTransport (option_map NewTLS creds))
  else Ok (DTransport (Some Insecure)).

(** The target and the options of [grpc.DialContext]. *)
Definition NewClient (cfg : ClientConfig) (opts : list (DialOption C K O))
    : result error (string * list (DialOption C K O)) :=
  let? creds := transport cfg in
  Ok (Target linkerd cfg,
      [creds; DCallSizes (or_default (cc_MaxRecvMsgSize cfg) 4194304) (or_default (cc_MaxSendMsgSize cfg) 4194304);
       DKeepalive (or_default (KeepAliveTime cfg) (30 * Second)) (or_default (KeepAliveTimeout cfg) (10 * Second)) true;
       DChain [CILogging; CIBreaker; CIRetry cfg]]
      ++ match ServiceConfig linkerd cfg with Some p => [DServiceConfig p] | None => [] end
      ++ [DTracing] ++ opts).

Definition NewClientWithCircuitBreaker (cfg : ClientConfig) (opts : list (DialOption C K O))
    : result error (string * list (DialOption C K O)) :=
  let? creds := transport cfg in
  Ok (Client_Addr cfg,
      [creds; DCallSizes (or_default (cc_MaxRecvMsgSize cfg) 4194304) (or_default (cc_MaxSendMsgSize cfg) 4194304);
       DChain [CILogging; CIBreaker; CIRetry cfg]; DTracing] ++ opts).
End Dial.

(** [Client] around a connection of gRPC; [conn] may be nil. *)
Section Client.
Context {Conn : Type} (Conn_Close : Conn -> Error).

Record Client := mkClient { conn : option Conn; client_config : ClientConfig }.

(** The last part of both constructors, for the target and options computed. *)
Definition dial {C K O} (grpc_DialContext : string -> list (DialOption C K O) -> result error Conn) (cfg : ClientConfig)
    (target_opts : result error (string * list (DialOption C K O))) : result error Client :=
  let? to := target_opts in
  let? c := map_err (Wrapf "dial grpc") (grpc_DialContext to.1 to.2) in
  Ok (mkClient (Some c) cfg).

Definition Client_Conn (c : Client) : option Conn := conn c.
Definition Client_Close (c : Client) : Error := match conn c with Some conn => Conn_Close conn | None => None end.

(** A client that was created holds the connection dialled, and closing it
    closes that connection. *)
Lemma dial_connected {C K O} grpc_DialContext cfg (to : result error (string * list (DialOption C K O))) c :
  dial grpc_DialContext cfg to = Ok c ->
  exists target opts k, to = Ok (target, opts) /\ grpc_DialContext target opts = Ok k /\ Client_Conn c = Some k /\
    Client_Close c = Conn_Close k.
Proof.
  unfold dial. rewrite rbind_ok. intros ([target opts] & -> & H). rewrite rbind_ok in H. destruct H as (k & Hk & [= <-]).
  exists target, opts, k. split; [done|]. simpl in Hk. destruct (grpc_DialContext target opts); [|done]. by injection Hk as <-.
Qed.
End Client.

(** ** Backoff bounds *)

Lemma ceiling_loop_spec n c m :
  0 < c -> 0 < m <= int64_max -> c <= int64_max ->
  Z.min (ceiling_loop n c m) m = Z.min (c * 2 ^ Z.of_nat n) m /\ 0 < ceiling_loop n c m.
Proof.
  intros Hc Hm. revert c Hc. induction n as [|n IH]; intros c Hc Hmax; simpl ceiling_loop.
  { rewrite Z.mul_1_r. done. }
  assert (1 <= 2 ^ Z.of_nat n) by (pose proof (Z.pow_pos_nonneg 2 (Z.of_nat n)); lia).
  rewrite Nat2Z.inj_succ, Z.pow_succ_r by lia.
  destruct (Z.ltb_spec c m); [|split; [nia|done]].
  destruct (Z.ltb_spec (m / 2) c).
  - assert (m < 2 * c) by (Z.to_euclidean_division_equations; lia). split; [nia|lia].
  - assert (2 * c <= m) by (Z.to_euclidean_division_equations; lia).
    rewrite wrap64_id by (unfold in_int64, int64_min; lia).
    destruct (IH (c * 2)) as [IH1 IH2]; [lia|lia|]. split; [|done]. rewrite IH1. f_equal. lia.
Qed.

(** Equal jitter within an exponential envelope.  For a positive base the
    wait before retry [attempt] lies between half of and all of
    [min(base * 2^(attempt-1), maximum)] (the maximum being 2 s by default),
    whatever the random source returns in its range, or if it fails; nothing
    overflows. *)
Theorem retry_delay_bounds (random : Z -> option Z) base maximum attempt :
  (forall bound r, random bound = Some r -> 0 <= r < bound) ->
  0 < base <= int64_max -> maximum <= int64_max -> 1 <= attempt ->
  let m := if maximum <=? 0 then defaultRetryMaxWaitTime else maximum in
  let c := Z.min (base * 2 ^ (attempt - 1)) m in
  c / 2 <= boundedRetryDelay random base maximum attempt <= c.
Proof.
  intros Hr Hb Hmax Ha m c.
  assert (0 < m <= int64_max) as Hm.
  { unfold m, defaultRetryMaxWaitTime, Second, int64_max in *. destruct (Z.leb_spec maximum 0); lia. }
  unfold boundedRetryDelay. rewrite (proj2 (Z.leb_gt _ _)) by lia. fold m.
  destruct (ceiling_loop_spec (Z.to_nat (attempt - 1)) base m) as [Hc1 Hc2]; [lia|lia|lia|].
  rewrite Z2Nat.id in Hc1 by lia. fold c in Hc1.
  assert ((if m <? ceiling_loop (Z.to_nat (attempt - 1)) base m then m
           else ceiling_loop (Z.to_nat (attempt - 1)) base m) = c) as Hcc.
  { destruct (Z.ltb_spec m (ceiling_loop (Z.to_nat (attempt - 1)) base m)); lia. }
  rewrite Hcc. assert (0 < c) by lia. assert (0 <= c / 2 <= c) by (Z.to_euclidean_division_equations; lia).
  destruct (Z.leb_spec (c - c / 2) 0); [lia|].
  destruct (random (c - c / 2 + 1)) as [r|] eqn:Er.
  - apply Hr in Er. lia.
  - Z.to_euclidean_division_equations; lia.
Qed.

Definition mid_random (bound : Z) : option Z := if 0 <? bound then Some (bound / 2) else None.

Lemma retry_delay_bounds_witness :
  400 * Millisecond / 2 <= boundedRetryDelay mid_random (100 * Millisecond) 0 3 <= 400 * Millisecond.
Proof.
  apply (retry_delay_bounds mid_random (100 * Millisecond) 0 3).
  - unfold mid_random. intros bound r. destruct (Z.ltb_spec 0 bound); [|done]. intros Hq. simplify_eq.
    Z.to_euclidean_division_equations; lia.
  - vm_compute. split; [reflexivity|discriminate].
  - vm_compute. discriminate.
  - lia.
Defined.

(** ** Retries *)

Section RetrySpec.
Context `{GrpcStatus} (E : CallEnv) (cfg : ClientConfig).

Definition unavailable (e : error) : Prop := status_Code e = Unavailable.

(** What a call with [k] retries may do: an attempt whose outcome is final, an
    unavailable attempt whose wait is cut short by the context, or one followed
    by a wait and the rest. *)
Inductive retry_trace : nat -> list call_effect -> Error -> Prop :=
| rt_final k err :
    (k = 0%nat \/ forall e, err = Some e -> ~ unavailable e) ->
    retry_trace k [Invoked err] err
| rt_cancelled k e d ce n :
    unavailable e -> ctx_done E n = Some ce ->
    retry_trace (S k) [Invoked (Some e); Waited d] (Some (FromContextError E ce))
| rt_retried k e d l err :
    unavailable e -> retry_trace k l err ->
    retry_trace (S k) (Invoked (Some e) :: Waited d :: l) err.

Lemma retry_loop_trace k i n :
  let (r, l) := retry_loop E cfg k i n in retry_trace k l r.
Proof.
  revert i n. induction k as [|k IH]; intros i n; simpl;
    destruct (invoke E n) as [e|]; try (by constructor; right);
    unfold isRetryable; case_bool_decide as Hu; simpl;
    try (constructor; right; intros x Hx; by simplify_eq).
  - by constructor; left.
  - destruct (ctx_done E (S n)) as [ce|] eqn:Ec; [by eapply rt_cancelled|].
    specialize (IH (i + 1) (S (S n))). destruct (retry_loop E cfg k _ _) as [r l]. by constructor.
Qed.

Definition invocations (l : list call_effect) : nat :=
  length (List.filter (fun ef => match ef with Invoked _ => true | Waited _ => false end) l).

Lemma retry_trace_count k l err : retry_trace k l err -> (1 <= invocations l <= S k)%nat.
Proof. induction 1; unfold invocations in *; simpl; lia. Qed.
End RetrySpec.

(** C23: only idempotent calls are retried, boundedly.  A call makes between
    one and [MaxRetries + 1] attempts, exactly one when the method is not
    configured as retryable; an attempt is repeated only after [Unavailable],
    and the call returns the outcome of its last attempt unless the context ends
    during a wait.  A call that may be retried always runs under a deadline: its
    own timeout, the caller's, or the 30 s default. *)
Theorem retry_discipline `{GrpcStatus} E cfg method hasCallerDeadline n :
  let (err, l) := retryInterceptor E cfg method n in
  let k := effective_retries method cfg in
  retry_trace E (Z.to_nat k) l err /\
  (1 <= invocations l)%nat /\ Z.of_nat (invocations l) <= Z.max 0 (cc_MaxRetries cfg) + 1 /\
  (methodAllowsRetry method cfg = false -> l = [Invoked err]) /\
  (0 < k -> hasCallerDeadline = true \/ exists d, total_timeout k hasCallerDeadline cfg = Some d /\ 0 < d).
Proof.
  unfold retryInterceptor. set (k := effective_retries method cfg).
  pose proof (retry_loop_trace E cfg (Z.to_nat k) 0 n) as Ht.
  destruct (retry_loop E cfg (Z.to_nat k) 0 n) as [err l].
  assert (0 <= k <= Z.max 0 (cc_MaxRetries cfg)) as Hk.
  { unfold k, effective_retries. destruct (Z.ltb_spec (cc_MaxRetries cfg) 0); simpl; [lia|].
    destruct (negb _); lia. }
  pose proof (retry_trace_count E _ _ _ Ht) as Hc. split_and!; [done|lia|lia| |].
  - intros Hm. assert (k = 0) as Hk0 by (unfold k, effective_retries; rewrite Hm, orb_true_r; done).
    rewrite Hk0 in Ht. by inversion Ht.
  - intros Hpos. destruct hasCallerDeadline; [by left|right]. unfold total_timeout.
    rewrite (proj2 (Z.ltb_lt 0 k)) by lia. rewrite !andb_true_r.
    destruct (Z.leb_spec (cc_Timeout cfg) 0).
    + exists defaultRetryTotalTimeout. done.
    + exists (cc_Timeout cfg). rewrite (proj2 (Z.ltb_lt 0 _)) by lia. done.
Qed.

(** ** Breakers *)

Section BreakerSpec.
Context `{GrpcStatus}.

(** What a call does to a breaker does not depend on the metrics. *)
Lemma afterRequest_metrics now now' err c r r' :
  (afterRequest now now' err c r).1 = (afterRequest now now' err c r').1.
Proof.
  unfold afterRequest, onSuccess, onFailure. destruct (is_failure c err), (state c); simpl; try done.
  - by destruct (maxFailures c <=? _).
  - by destruct (maxHalfOpenCalls c <=? _).
Qed.

Lemma beforeRequest_metrics now c r r' : (beforeRequest now c r).1 = (beforeRequest now c r').1.
Proof.
  unfold beforeRequest. destruct (state c); try done.
  - by destruct (timeout c <? _).
  - by destruct (maxHalfOpenCalls c <=? _).
Qed.

Lemma Execute_metrics k c r r' :
  (Execute (t0 k) (t1 k) (t2 k) (out k) c r).1 = (Execute (t0 k) (t1 k) (t2 k) (out k) c r').1.
Proof.
  unfold Execute. pose proof (beforeRequest_metrics (t0 k) c r r') as Hb.
  destruct (beforeRequest _ c r) as [[e1 c1] r1], (beforeRequest _ c r') as [[e2 c2] r2].
  simpl in Hb. simplify_eq. destruct e2; [done|].
  pose proof (afterRequest_metrics (t1 k) (t2 k) (out k) c2 r1 r2) as Ha.
  destruct (afterRequest _ _ _ c2 r1) as [c3 r3], (afterRequest _ _ _ c2 r2) as [c4 r4].
  simpl in *. by simplify_eq.
Qed.

Definition breaker_of (target : string) (b : Breakers) : CircuitBreaker :=
  default (New (breaker_cfg target) ∅).1 (cbRegistry b !! target).

Lemma interceptor_own target k b :
  let (e, b') := circuitBreakerInterceptor target k b in
  (e, breaker_of target b') = (Execute (t0 k) (t1 k) (t2 k) (out k) (breaker_of target b) ∅).1.
Proof.
  unfold circuitBreakerInterceptor, getOrCreateCircuitBreaker, breaker_of.
  destruct (cbRegistry b !! target) as [cb|]; simpl.
  - pose proof (Execute_metrics k cb (metrics b) ∅) as Hm. rewrite <- Hm.
    destruct (Execute _ _ _ _ cb (metrics b)) as [[e c] r]. simpl. by rewrite lookup_insert_eq.
  - match goal with |- context [Execute _ _ _ _ ?c ?r] =>
      pose proof (Execute_metrics k c r ∅) as Hm; rewrite <- Hm;
      destruct (Execute (t0 k) (t1 k) (t2 k) (out k) c r) as [[e c'] r'] end.
    simpl. by rewrite lookup_insert_eq.
Qed.

Lemma interceptor_other target target' k b :
  target <> target' ->
  breaker_of target' (circuitBreakerInterceptor target k b).2 = breaker_of target' b.
Proof.
  intros Hne. unfold circuitBreakerInterceptor, getOrCreateCircuitBreaker, breaker_of.
  destruct (cbRegistry b !! target) as [cb|]; simpl.
  - destruct (Execute _ _ _ _ cb (metrics b)) as [[e c] r]. simpl. by rewrite lookup_insert_ne.
  - destruct (Execute _ _ _ _ _ _) as [[e c] r]. simpl. by rewrite !lookup_insert_ne by done.
Qed.
Lemma run_metrics cs c r r' : (run cs c r).1 = (run cs c r').1.
Proof.
  revert c r r'. induction cs as [|k cs IH]; intros c r r'; [done|]. simpl.
  pose proof (Execute_metrics k c r r') as He.
  destruct (Execute _ _ _ _ c r) as [[e1 c1] r1], (Execute _ _ _ _ c r') as [[e2 c2] r2].
  simpl in He. simplify_eq. specialize (IH c2 r1 r2).
  destruct (run cs c2 r1) as [[es1 d1] q1], (run cs c2 r2) as [[es2 d2] q2]. simpl in *. by simplify_eq.
Qed.

(** The calls, and the outcomes, of one target. *)
Definition calls_of (target : string) (cs : list (string * call)) : list call :=
  omap (fun x => if bool_decide (x.1 = target) then Some x.2 else None) cs.
Definition outcomes_of (target : string) (es : list (string * Error)) : list Error :=
  omap (fun x => if bool_decide (x.1 = target) then Some x.2 else None) es.

Lemma calls_target target cs b :
  let (es, b') := calls cs b in
  (outcomes_of target es, breaker_of target b') = (run (calls_of target cs) (breaker_of target b) ∅).1.
Proof.
  revert b. induction cs as [|[target' k] cs IH]; intros b; [done|]. simpl.
  pose proof (interceptor_own target' k b) as Ho. pose proof (interceptor_other target' target k b) as Hx.
  destruct (circuitBreakerInterceptor target' k b) as [e b1]. specialize (IH b1).
  destruct (calls cs b1) as [es b2]. simpl in *.
  case_bool_decide as Ht.
  - subst target'. simpl.
    destruct (Execute _ _ _ _ (breaker_of target b) ∅) as [[e' c1] r1]. simpl in Ho. simplify_eq.
    pose proof (run_metrics (calls_of target cs) (breaker_of target b1) r1 ∅) as Hm.
    unfold calls_of in Hm, IH. destruct (run _ (breaker_of target b1) r1) as [[es1 d1] q1].
    simpl in *. rewrite <- Hm in IH. by simplify_eq.
  - rewrite IH. by rewrite Hx.
Qed.
End BreakerSpec.

(** One target's failures never block another.  However calls to several
    targets are interleaved, the outcomes for a target and the state of its
    breaker are those of running that target's calls alone. *)
Theorem breakers_isolated `{GrpcStatus} target cs b :
  let (es, b') := calls cs b in
  let '(es', cb', _) := run (calls_of target cs) (breaker_of target b) ∅ in
  outcomes_of target es = es' /\ breaker_of target b' = cb'.
Proof.
  pose proof (calls_target target cs b) as Ht. destruct (calls cs b) as [es b'].
  destruct (run _ _ _) as [[es' cb'] r]. simpl in Ht. by simplify_eq.
Qed.

(** The gRPC codes that say the target answered. *)
Definition answered `{GrpcStatus} (o : Error) : Prop :=
  match o with
  | None => True
  | Some e => ~ In (status_Code e) [Unavailable; DeadlineExceeded; Internal; Unknown; DataLoss]
  end.

Lemma answered_no_failure `{GrpcStatus} o : answered o ->
  match o with None => false | Some e => isBreakerFailure e end = false.
Proof.
  unfold answered, isBreakerFailure. destruct o as [e|]; [|done].
  destruct (status_Code e); simpl; intros Ha; try done; exfalso; apply Ha; tauto.
Qed.

Lemma streak_answered f limit outs :
  Forall (fun o => f o = false) outs -> streak f limit 0 outs = Some 0.
Proof. induction 1 as [|o outs Ho _ IH]; [done|]. simpl. by rewrite Ho. Qed.

Lemma breaker_cfg_ok `{GrpcStatus} target : cfg_ok (breaker_cfg target).
Proof. unfold cfg_ok, in_int64, int64_min, int64_max, breaker_cfg, Second; simpl. lia. Qed.

(** C25: a breaker counts only the target's own faults.  As long as every call
    to a target succeeds or fails with a code that shows the target answered
    (invalid arguments, rate limits, missing permissions and so on), its breaker
    stays closed with no failure counted and every outcome is passed through,
    whatever happens to other targets. *)
Theorem caller_faults_never_open `{GrpcStatus} target cs :
  Forall (fun k => answered (out k)) (calls_of target cs) ->
  let (es, b') := calls cs (mkBreakers ∅ ∅) in
  outcomes_of target es = map out (calls_of target cs) /\
  GetCircuitBreakerState target b' = StateClosed /\ failures (breaker_of target b') = 0.
Proof.
  intros Ha. pose proof (calls_target target cs (mkBreakers ∅ ∅)) as Ht.
  destruct (calls cs (mkBreakers ∅ ∅)) as [es b'].
  set (c := breaker_of target (mkBreakers ∅ ∅)) in *.
  assert (wf c (New (breaker_cfg target) ∅).2) as Hw by (by eapply New_wf; [apply breaker_cfg_ok|]).
  pose proof (run_streak (calls_of target cs) c _ 0 Hw eq_refl) as Hs.
  rewrite (run_metrics _ _ _ (New (breaker_cfg target) ∅).2) in Ht.
  destruct (run (calls_of target cs) c _) as [[es' c'] r']. simpl in Ht. simplify_eq.
  destruct Hs as (Hes & _ & Hst & Hf & _).
  { apply streak_answered, Forall_map. eapply Forall_impl; [exact Ha|]. intros k Hk.
    by apply answered_no_failure in Hk. }
  split_and!; [done| |done].
  unfold GetCircuitBreakerState, breaker_of in *. by destruct (cbRegistry b' !! target).
Qed.

Lemma caller_faults_never_open_witness :
  let S := toy_status in
  let limited := mkCall 1 2 3 (Some (status_Error ResourceExhausted "slow down")) in
  let broken := mkCall 1 2 3 (Some (status_Error Unavailable "connection refused")) in
  let cs := [("users", limited); ("orders", broken); ("users", limited); ("users", limited); ("users", limited);
             ("orders", broken); ("users", limited); ("users", mkCall 1 2 3 None)] in
  let (es, b') := calls cs (mkBreakers ∅ ∅) in
  outcomes_of "users" es = map out (calls_of "users" cs) /\
  GetCircuitBreakerState "users" b' = StateClosed /\ failures (breaker_of "users" b') = 0.
Proof.
  intros S limited broken cs. apply (caller_faults_never_open "users" cs).
  simpl. repeat (constructor; [simpl; intuition discriminate|]). constructor.
Defined.

(** ** Transport security *)

(** The credentials gRPC dials with: options are applied in order, and each
    [WithTransportCredentials] replaces those before it. *)
Definition dialled_with {C K O} (os : list (DialOption C K O)) : option (option (TransportCredentials C K)) :=
  fold_left (fun acc o => match o with DTransport creds => Some creds | _ => acc end) os None.

Lemma dialled_with_app {C K O} (os os' : list (DialOption C K O)) :
  dialled_with (os ++ os') =
    match dialled_with os' with Some creds => Some creds | None => dialled_with os end.
Proof.
  unfold dialled_with. rewrite fold_left_app. generalize (fold_left
    (fun acc (o : DialOption C K O) => match o with DTransport creds => Some creds | _ => acc end) os None).
  intros acc. enough (forall l acc, fold_left (fun acc (o : DialOption C K O) =>
      match o with DTransport creds => Some creds | _ => acc end) l acc =
    match fold_left (fun acc (o : DialOption C K O) =>
      match o with DTransport creds => Some creds | _ => acc end) l None with
    | Some creds => Some creds | None => acc end) as Hl by apply Hl.
  clear. induction l as [|o l IH]; intros acc; [done|]. cbn [fold_left].
  rewrite (IH (match o with DTransport creds => Some creds | _ => acc end)),
    (IH (match o with DTransport creds => Some creds | _ => None end)).
  destruct (fold_left _ l None); [done|]. by destruct o.
Qed.

Lemma dialled_with_cons {C K O} (o : DialOption C K O) os :
  dialled_with (o :: os) =
    match dialled_with os with
    | Some creds => Some creds
    | None => match o with DTransport creds => Some creds | _ => None end
    end.
Proof. apply (dialled_with_app [o] os). Qed.

Section Transport.
Context {Cert Pool K O : Type}.
Context (load : string -> string -> result error Cert) (read : string -> result error string).
Context (append : string -> option Pool) (linkerd : bool).

Lemma transport_tls cfg d :
  Enabled (cc_TLS cfg) = true ->
  transport (K := K) (O := O) (ClientCredentials load read append) cfg = Ok d ->
  exists t, d = DTransport (Some (NewTLS t)) /\ ClientCredentials load read append (cc_TLS cfg) = Ok (Some t).
Proof.
  intros Hen. unfold transport. rewrite Hen.
  destruct (ClientCredentials load read append (cc_TLS cfg)) as [[t|]|] eqn:Ec;
    simpl; intros Hq; simplify_eq; [by eexists|].
  exfalso. unfold ClientCredentials in Ec. rewrite Hen in Ec. simpl in Ec.
  apply rbind_ok in Ec as (roots & _ & Ec). by apply rbind_ok in Ec as (certs & _ & Ec).
Qed.

(** Both constructors put the transport first and the caller's options last, and
    nothing between them touches it. *)
Lemma constructors_dial cfg (opts : list (DialOption (tls_Config Cert Pool) K O)) addr os :
  NewClient (ClientCredentials load read append) linkerd cfg opts = Ok (addr, os) \/
  NewClientWithCircuitBreaker (ClientCredentials load read append) cfg opts = Ok (addr, os) ->
  exists creds, transport (K := K) (O := O) (ClientCredentials load read append) cfg = Ok (DTransport creds) /\
    dialled_with os = match dialled_with opts with Some c => Some c | None => Some creds end.
Proof.
  unfold NewClient, NewClientWithCircuitBreaker.
  intros Hnew. assert (exists creds, transport (K := K) (O := O) (ClientCredentials load read append) cfg = Ok (DTransport creds))
    as [creds Ht].
  { unfold transport in *. destruct (Enabled (cc_TLS cfg)); [|by eexists].
    destruct (ClientCredentials _ _ _ _) as [o|]; [by eexists|]. by destruct Hnew. }
  exists creds. split; [done|]. rewrite Ht in Hnew. cbn [rbind] in Hnew.
  destruct Hnew as [[= _ <-]|[= _ <-]];
    [destruct (ServiceConfig linkerd cfg)|]; cbn [app]; rewrite !dialled_with_cons; by destruct (dialled_with opts).
Qed.
End Transport.

(** C26: no fallback to plaintext.  A client configured for TLS, by either
    constructor, is created only when the files it names could be loaded, and
    unless the caller's own options carry transport credentials (which gRPC then
    uses instead, the last ones given) it dials with TLS: version 1.2 (771) or
    later, verifying the server against exactly the certificates of the
    configured CA file (the system's roots when none is configured), and
    presenting the configured key pair when both its files are given. *)
Theorem tls_never_downgraded {Cert Pool K O} (load : string -> string -> result error Cert)
    (read : string -> result error string) (append : string -> option Pool) linkerd cfg
    (opts : list (DialOption (tls_Config Cert Pool) K O)) addr os :
  Enabled (cc_TLS cfg) = true ->
  NewClient (ClientCredentials load read append) linkerd cfg opts = Ok (addr, os) \/
  NewClientWithCircuitBreaker (ClientCredentials load read append) cfg opts = Ok (addr, os) ->
  exists t,
    dialled_with os = match dialled_with opts with Some c => Some c | None => Some (Some (NewTLS t)) end /\
    771 <= MinVersion t /\
    (CAFile (cc_TLS cfg) = "" -> RootCAs t = None) /\
    (CAFile (cc_TLS cfg) <> "" -> exists pem pool, read (CAFile (cc_TLS cfg)) = Ok pem /\
       append pem = Some pool /\ RootCAs t = Some pool) /\
    (CertFile (cc_TLS cfg) <> "" -> KeyFile (cc_TLS cfg) <> "" -> exists cert,
       load (CertFile (cc_TLS cfg)) (KeyFile (cc_TLS cfg)) = Ok cert /\ Certificates t = [cert]).
Proof.
  intros Htls Hnew. destruct (constructors_dial load read append linkerd cfg opts addr os Hnew) as (creds & Ht & Hd).
  destruct (transport_tls load read append cfg _ Htls Ht) as (t & [= ->] & Hc).
  destruct (ClientCredentials_spec load read append (cc_TLS cfg) t Hc) as (Hmin & Hsys & Hca & Hcert).
  exists t. split_and!; [done|done|done| |done].
  intros Hne. destruct (Hca Hne) as (pool & (pem & Hr & Ha) & Hroot). eauto.
Qed.

Definition tls_client_cfg : ClientConfig :=
  mkClientConfig "users" 50051 0 3 (100 * Millisecond) 0 ["/users.UserService/*"] false 0 0 0 0 65536 65536 "round_robin"
    (mkTLS true "" "" "ca.pem").

(** Without transport credentials of the caller's own, the dialled ones are TLS
    with the pool read from ca.pem. *)
Lemma tls_never_downgraded_witness :
  let read f := Ok ("contents of " +:+ f) in
  exists addr os t, NewClient (K := unit) (O := unit)
      (ClientCredentials (Cert := unit) (fun _ _ => Fail (GoError.New "no key")) read (fun p => Some p))
      false tls_client_cfg [DTracing] = Ok (addr, os) /\ addr = "dns:///users:50051" /\
    dialled_with os = Some (Some (NewTLS t)) /\ 771 <= MinVersion t /\ RootCAs t = Some "contents of ca.pem".
Proof.
  intros read.
  assert (exists addr os, NewClient (K := unit) (O := unit)
      (ClientCredentials (Cert := unit) (fun _ _ => Fail (GoError.New "no key")) read (fun p => Some p))
      false tls_client_cfg [DTracing] = Ok (addr, os) /\ addr = "dns:///users:50051"%string) as (addr & os & Hn & Ha)
    by (eexists _, _; split; reflexivity).
  destruct (tls_never_downgraded _ _ _ false tls_client_cfg [DTracing] addr os eq_refl (or_introl Hn))
    as (t & Hd & Hm & _ & Hca & _).
  destruct Hca as (pem & pool & Hr & Hp & Hroot); [discriminate|].
  injection Hr as <-. injection Hp as <-.
  exists addr, os, t. split_and!; [exact Hn|exact Ha|exact Hd|exact Hm|exact Hroot].
Defined.
