(* ===== verification/GrpcCall.v ===== *)
(** * grpc/client.go: a unary call through the interceptor chain

    [NewClient] and [NewClientWithCircuitBreaker] chain logging, circuit breaker
    and retries in that order.  A call is the composition of the three: the
    retries run inside the breaker, so the breaker sees one outcome per call.
    Calls overlap: the breaker's mutex is held only while a call begins and while
    it returns, so concurrent traffic is a sequence of those two sections. *)

From S2P Require Import Prelude GoError GoString Metrics CircuitBreaker Grpc GrpcClient.
Import CircuitBreaker.

Open Scope Z_scope.

(** A call: the connection's target, the method, what the invoker, the context
    and the random source answer from interaction [rpc_n] on, and the readings of
    the breaker's clock. *)
Record rpc := mkRpc {
  rpc_target : string;
  rpc_method : string;
  rpc_env : CallEnv;
  rpc_n : nat;
  rpc_t0 : Time;
  rpc_t1 : Time;
  rpc_t2 : Time
}.

Section Call.
Context `{GrpcStatus} (cfg : ClientConfig).

(** What the retries make of the call if the breaker lets it through. *)
Definition inner (c : rpc) : Error * list call_effect := retryInterceptor (rpc_env c) cfg (rpc_method c) (rpc_n c).

Definition breaker_call (c : rpc) : call := mkCall (rpc_t0 c) (rpc_t1 c) (rpc_t2 c) (inner c).1.

(** Does [cb.Execute] run its function? *)
Definition admitted (c : rpc) (b : Breakers) : bool :=
  let (cb, b) := getOrCreateCircuitBreaker (rpc_target c) b in
  match (beforeRequest (rpc_t0 c) cb (metrics b)).1.1 with None => true | Some _ => false end.

(** One call: its outcome, what went over the wire, and the breakers. *)
Definition unary_call (c : rpc) (b : Breakers) : Error * list call_effect * Breakers :=
  let wire := if admitted c b then (inner c).2 else [] in
  let (e, b) := circuitBreakerInterceptor (rpc_target c) (breaker_call c) b in
  (e, wire, b).

(** The metadata it carries and the call, after the logging interceptor. *)
Definition client_call (fresh : string) (ctx : ClientCtx) (c : rpc) (b : Breakers)
    : ClientCtx * (Error * list call_effect * Breakers) :=
  (clientLoggingInterceptor fresh ctx, unary_call c b).

(** *** The two critical sections of a call *)

(** [getOrCreateCircuitBreaker] and [beforeRequest]. *)
Definition call_begin (c : rpc) (b : Breakers) : Error * Breakers :=
  let (cb, b) := getOrCreateCircuitBreaker (rpc_target c) b in
  let '(e, cb, r) := beforeRequest (rpc_t0 c) cb (metrics b) in
  (e, mkBreakers (<[rpc_target c := cb]> (cbRegistry b)) r).

(** [afterRequest] on the breaker the call began with, which the registry still
    holds. *)
Definition call_end (c : rpc) (b : Breakers) : Breakers :=
  let (cb, b) := getOrCreateCircuitBreaker (rpc_target c) b in
  let '(cb, r) := afterRequest (rpc_t1 c) (rpc_t2 c) (inner c).1 cb (metrics b) in
  mkBreakers (<[rpc_target c := cb]> (cbRegistry b)) r.

(** *** Overlapping calls *)









(** ** One call *)

Lemma admitted_breaker c b :
  admitted c b = match (beforeRequest (rpc_t0 c) (breaker_of (rpc_target c) b) ∅).1.1 with None => true | Some _ => false end.
Proof.
  unfold admitted. assert ((getOrCreateCircuitBreaker (rpc_target c) b).1 = breaker_of (rpc_target c) b) as Hg.
  { unfold getOrCreateCircuitBreaker, breaker_of. by destruct (cbRegistry b !! rpc_target c). }
  destruct (getOrCreateCircuitBreaker (rpc_target c) b) as [cb b1]. cbn [fst] in Hg. subst cb.
  by rewrite (beforeRequest_metrics (rpc_t0 c) _ (metrics b1) ∅).
Qed.

Lemma unary_call_spec c b e l b' : unary_call c b = (e, l, b') ->
  (e, breaker_of (rpc_target c) b') =
    (Execute (rpc_t0 c) (rpc_t1 c) (rpc_t2 c) (inner c).1 (breaker_of (rpc_target c) b) ∅).1 /\
  (if admitted c b then l = (inner c).2 /\ e = (inner c).1 else l = [] /\ e = Some ErrCircuitOpen).
Proof.
  unfold unary_call. pose proof (interceptor_own (rpc_target c) (breaker_call c) b) as Ho.
  destruct (circuitBreakerInterceptor _ _ b) as [e1 b1]. intros [= <- <- <-]. split; [done|].
  rewrite admitted_breaker. cbn [breaker_call t0 t1 t2 out] in Ho. unfold Execute in Ho.
  destruct (beforeRequest (rpc_t0 c) _ ∅) as [[[e0|] c1] r1] eqn:Eb; cbn [fst].
  - apply beforeRequest_rejected in Eb as (-> & _ & _). by injection Ho as ->.
  - destruct (afterRequest _ _ _ c1 r1) as [c2 r2]. by injection Ho as ->.
Qed.


(** ** A target that is down *)








(** A call run alone is its two sections in a row. *)
Lemma unary_call_sections c b :
  unary_call c b =
    match call_begin c b with
    | (Some e, b) => (Some e, [], b)
    | (None, b) => ((inner c).1, (inner c).2, call_end c b)
    end.
Proof.
  unfold unary_call, admitted, circuitBreakerInterceptor, call_begin, call_end, Execute. cbn [breaker_call t0 t1 t2 out].
  destruct (getOrCreateCircuitBreaker (rpc_target c) b) as [cb b1].
  destruct (beforeRequest _ cb _) as [[[e|] c1] r1]; cbn [fst]; [done|].
  unfold getOrCreateCircuitBreaker. cbn [cbRegistry]. rewrite lookup_insert_eq. cbn [metrics cbRegistry].
  destruct (afterRequest _ _ _ _ _) as [c2 r2]. by rewrite insert_insert_eq.
Qed.





(** ** The invariant of an outage *)

Section Outage.
Context (target : string).
















End Outage.
End Call.



