(* ===== verification/Kafka.v ===== *)
(** * kafka/kafka.go: configuration, topic names, error dispositions, producer

    The broker client (kafka-go's [Writer]) and the JSON of the payload's type are
    parameters: a writer is its configuration, [WriteMessages] answers each write
    and [json_Marshal] encodes the payload (KafkaEvent.v has the events').  What a producer does is the list of
    messages the broker acknowledged, with the writer each went through. *)

From S2P Require Import Prelude GoError GoString Metrics.

Open Scope Z_scope.

(** ** Error dispositions *)

Module KafkaError.

Definition NewUnmarshalError (cause : error) : error :=
  Err "*kafka.UnmarshalError" ("unmarshal error: " +:+ ErrorText cause) [cause].

Definition IsUnmarshalError (err : error) : bool := Is err "*kafka.UnmarshalError".

Definition retryUntilCanceledError (cause : error) : error :=
  Err "*kafka.retryUntilCanceledError" ("retry until canceled: " +:+ ErrorText cause) [cause].

Definition RetryUntilCanceled (err : Error) : Error :=
  match err with
  | None => None
  | Some e => Some (retryUntilCanceledError e)
  end.

Definition IsRetryUntilCanceled (err : error) : bool := Is err "*kafka.retryUntilCanceledError".

Definition eventDecodeError (cause : error) : error :=
  Err "*kafka.eventDecodeError" "event envelope decode failed" [cause].

End KafkaError.

(** ** Configuration and names *)

Record Config := mkConfig {
  Brokers : list string;
  GroupID : string;
  TopicSuffix : string;
  GroupIDSuffix : string;
  StartOffset : string;
  MinBytes : Z;
  MaxBytes : Z;
  MaxWait : Duration;
  CommitTimeout : Duration;
  BatchSize : Z;
  BatchTimeout : Duration;
  MaxRetries : Z;
  BackoffMin : Duration;
  BackoffMax : Duration;
  DLQEnabled : bool;
  ReadBackoffMin : Duration;
  ReadBackoffMax : Duration
}.

Definition qualifyTopic (topic suffix : string) : string :=
  let topic := TrimSpace topic in
  let suffix := TrimSpace suffix in
  if bool_decide (topic = "") || bool_decide (suffix = "") ||
     HasSuffix topic suffix || Contains topic (suffix +:+ ".")
  then topic
  else topic +:+ suffix.

Definition Topic (c : Config) (topic : string) : string := qualifyTopic topic (TopicSuffix c).

Definition ConsumerGroup (c : Config) (groupID : string) : string :=
  let groupID := TrimSpace groupID in
  let suffix := TrimSpace (GroupIDSuffix c) in
  if bool_decide (groupID = "") || bool_decide (suffix = "") || HasSuffix groupID suffix
  then groupID
  else groupID +:+ suffix.

(** kafka-go's [FirstOffset] and [LastOffset]. *)
Definition FirstOffset : Z := -2.
Definition LastOffset : Z := -1.

Definition consumerStartOffset `{Unicode} (value : string) : Z * bool :=
  let v := ToLower (TrimSpace value) in
  if bool_decide (v ∈ [""; "earliest"; "first"]) then (FirstOffset, true)
  else if bool_decide (v ∈ ["latest"; "last"]) then (LastOffset, true)
  else (FirstOffset, false).

(** ** Producer *)

Inductive Balancer := LeastBytes | Murmur2Balancer (consistent : bool).
Inductive Acks := RequireNone | RequireOne | RequireAll.

Record Writer := mkWriter {
  Addr : list string;
  w_Topic : string;
  w_Balancer : Balancer;
  w_BatchSize : Z;
  w_BatchTimeout : Duration;
  RequiredAcks : Acks;
  Async : bool
}.

Record Message := mkMessage {
  Partition : Z;
  Offset : Z;
  Key : string;
  Value : string;
  MsgTime : Time
}.

Record Producer := mkProducer {
  writer : Writer;
  p_topic : string;
  topicSuffix : string;
  requireKey : bool;
  extraWriters : option (gmap string Writer)
}.

Definition newWriterWithBalancer (cfg : Config) (topic : string) (b : Balancer) : Writer :=
  mkWriter (Brokers cfg) (Topic cfg topic) b (BatchSize cfg) (BatchTimeout cfg) RequireAll false.

Definition newWriter (cfg : Config) (topic : string) : Writer :=
  newWriterWithBalancer cfg topic LeastBytes.

Definition newProducer (cfg : Config) (topic : string) (b : Balancer) (requireKey : bool) : Producer :=
  let topic := Topic cfg topic in
  mkProducer (newWriterWithBalancer cfg topic b) topic (TopicSuffix cfg) requireKey None.

Definition NewProducer (cfg : Config) (topic : string) : Producer :=
  newProducer cfg topic LeastBytes false.

Definition NewKeyedProducer (cfg : Config) (topic : string) : Producer :=
  newProducer cfg topic (Murmur2Balancer true) true.

(** The producer's world: acknowledged messages, oldest first, and metrics. *)
Record Broker := mkBroker {
  acked : list (Writer * Message);
  metrics : registry
}.

Definition set_extraWriters (ws : option (gmap string Writer)) (p : Producer) : Producer :=
  mkProducer (writer p) (p_topic p) (topicSuffix p) (requireKey p) ws.

Definition writerFor (topic : string) (p : Producer) : Writer * Producer :=
  let topic := qualifyTopic topic (topicSuffix p) in
  let ws := default ∅ (extraWriters p) in
  match ws !! topic with
  | Some w => (w, set_extraWriters (Some ws) p)
  | None =>
      let src := writer p in
      let w := mkWriter (Addr src) topic (w_Balancer src) (w_BatchSize src)
                 (w_BatchTimeout src) (RequiredAcks src) (Async src) in
      (w, set_extraWriters (Some (<[topic := w]> ws)) p)
  end.

Section Publish.
Context {A : Type} (json_Marshal : A -> result error string).
Context (WriteMessages : Writer -> Message -> Error).

(** [w.WriteMessages(ctx, msg)] *)
Definition write (w : Writer) (msg : Message) (b : Broker) : Error * Broker :=
  match WriteMessages w msg with
  | Some e => (Some e, b)
  | None => (None, mkBroker (acked b ++ [(w, msg)]) (metrics b))
  end.

Definition produced (topic : string) (b : Broker) : Broker :=
  mkBroker (acked b) (RecordKafkaMessageProduced topic (metrics b)).

(** [Publish] and [PublishJSON] differ in their messages and in that [Publish]
    wraps the write error. *)
Definition Publish (now : Time) (key : string) (event : A) (p : Producer) (b : Broker) : Error * Broker :=
  if requireKey p && bool_decide (key = "") then (Some (New "publish keyed event: key is required"), b)
  else
  match json_Marshal event with
  | Fail e => (Some (Wrapf "marshal event" e), b)
  | Ok data =>
      match write (writer p) (mkMessage 0 0 key data now) b with
      | (Some e, b) => (Some (Wrapf "write message" e), b)
      | (None, b) => (None, produced (p_topic p) b)
      end
  end.

Definition PublishJSON (now : Time) (key : string) (data : A) (p : Producer) (b : Broker) : Error * Broker :=
  if requireKey p && bool_decide (key = "") then (Some (New "publish keyed JSON: key is required"), b)
  else
  match json_Marshal data with
  | Fail e => (Some (Wrapf "marshal data" e), b)
  | Ok value =>
      match write (writer p) (mkMessage 0 0 key value now) b with
      | (Some e, b) => (Some e, b)
      | (None, b) => (None, produced (p_topic p) b)
      end
  end.

Definition PublishJSONTo (now : Time) (topic key : string) (data : A) (p : Producer) (b : Broker)
    : Error * Producer * Broker :=
  let topic := qualifyTopic topic (topicSuffix p) in
  if bool_decide (topic = "") || bool_decide (topic = p_topic p) then
    let '(e, b) := PublishJSON now key data p b in (e, p, b)
  else if requireKey p then
    (Some (New "publish keyed JSON: cross-topic publishing is not supported"), p, b)
  else
  match json_Marshal data with
  | Fail e => (Some (Wrapf "marshal data" e), p, b)
  | Ok value =>
      let '(w, p) := writerFor topic p in
      match write w (mkMessage 0 0 key value now) b with
      | (Some e, b) => (Some e, p, b)
      | (None, b) => (None, p, produced topic b)
      end
  end.

End Publish.

(** [Close]: every writer is closed; [close] answers each one, and the extra
    writers are visited in an order Go leaves open. *)
Definition first_error (a b : Error) : Error := match a with Some e => Some e | None => b end.

Definition Producer_Close (close : Writer -> Error) (order : list Writer) (p : Producer)
    : Error * Producer :=
  (fold_left (fun acc w => first_error acc (close w)) order (close (writer p)),
   set_extraWriters None p).

(** ** Topics *)

Definition TopicCRMDealEvents : string := "crm.deal.events".
Definition TopicCRMTaskEvents : string := "crm.task.events".
Definition TopicCRMLeadEvents : string := "crm.lead.events".
Definition TopicCRMDealToWorkshop : string := "crm.deal.to_workshop".
Definition TopicCRMTelephonyEvents : string := "crm.telephony.events".
Definition TopicOrderEvents : string := "order.events".
Definition TopicBidEvents : string := "bid.events".
Definition TopicRequestEvents : string := "request.events".
Definition TopicWorkshopEvents : string := "workshop.events".
Definition TopicChatEvents : string := "chat.events".
Definition TopicNotificationEvents : string := "notification.events".
Definition TopicAdminEvents : string := "admin.events".
Definition TopicMemberEvents : string := "member.events".

(** Every topic of the package. *)
Definition topics : list string :=
  [TopicCRMDealEvents; TopicCRMTaskEvents; TopicCRMLeadEvents; TopicCRMDealToWorkshop; TopicCRMTelephonyEvents;
   TopicOrderEvents; TopicBidEvents; TopicRequestEvents; TopicWorkshopEvents; TopicChatEvents; TopicNotificationEvents;
   TopicAdminEvents; TopicMemberEvents].

Definition AllRealtimeTopics : list string :=
  [TopicChatEvents; TopicOrderEvents; TopicBidEvents; TopicRequestEvents;
   TopicWorkshopEvents; TopicNotificationEvents; TopicAdminEvents].

(** ** Lemmas *)

(** No two topics coincide, and the topic that ends sessions is not among those
    the websocket service reads by default. *)
Lemma topics_distinct : NoDup topics /\ AllRealtimeTopics ⊆ topics /\ TopicMemberEvents ∉ AllRealtimeTopics.
Proof. split_and!; apply (bool_decide_unpack _); by vm_compute. Qed.

(** A qualified topic is trimmed and stays as it is when qualified again. *)
Lemma qualifyTopic_ascii t s :
  is_ascii t = true -> is_ascii s = true -> is_ascii (qualifyTopic t s) = true.
Proof.
  intros Ht Hs. unfold qualifyTopic. case_match; rewrite ?is_ascii_app, ?is_ascii_TrimSpace; done.
Qed.

Lemma qualifyTopic_trimmed t s :
  is_ascii t = true -> is_ascii s = true -> TrimSpace (qualifyTopic t s) = qualifyTopic t s.
Proof.
  intros Ht Hs. unfold qualifyTopic. case_match; to_prop; [by apply TrimSpace_idem|].
  apply TrimSpace_app; auto using is_ascii_TrimSpace, TrimSpace_idem.
Qed.

(** What qualification guarantees: the name is empty, there is no suffix, or
    the name carries the suffix at its end or before a dot. *)
Lemma qualifyTopic_qualified t s :
  let q := qualifyTopic t s in
  q = "" \/ TrimSpace s = "" \/ HasSuffix q (TrimSpace s) = true \/
  Contains q (TrimSpace s +:+ ".") = true.
Proof.
  unfold qualifyTopic. case_match eqn:E.
  - apply orb_true_iff in E as [E|E]; [|auto].
    apply orb_true_iff in E as [E|E]; [|auto].
    apply orb_true_iff in E as [E|E]; to_prop; auto.
  - right; right; left. apply HasSuffix_app.
Qed.

Lemma qualifyTopic_noop t s :
  TrimSpace t = t ->
  (t = "" \/ TrimSpace s = "" \/ HasSuffix t (TrimSpace s) = true \/
   Contains t (TrimSpace s +:+ ".") = true) ->
  qualifyTopic t s = t.
Proof.
  intros Ht H. unfold qualifyTopic. rewrite Ht. case_match eqn:E; [done|].
  to_prop. destruct H as [?|[?|[?|?]]]; congruence.
Qed.

Lemma qualifyTopic_idem t s :
  is_ascii t = true -> is_ascii s = true ->
  qualifyTopic (qualifyTopic t s) s = qualifyTopic t s.
Proof.
  intros Ht Hs. apply qualifyTopic_noop; [by apply qualifyTopic_trimmed|].
  apply qualifyTopic_qualified.
Qed.

Lemma TrimSpace_dlq t : is_ascii t = true -> t <> "" -> TrimSpace t = t ->
  TrimSpace (t +:+ ".dlq") = t +:+ ".dlq".
Proof. intros H Hn Ht. by apply TrimSpace_app. Qed.

(** Appending [".dlq"] to a qualified topic keeps it qualified. *)
Lemma qualifyTopic_dlq t s :
  is_ascii t = true -> is_ascii s = true -> qualifyTopic t s <> "" ->
  qualifyTopic (qualifyTopic t s +:+ ".dlq") s = qualifyTopic t s +:+ ".dlq".
Proof.
  intros Ht Hs Hne. apply qualifyTopic_noop.
  - apply TrimSpace_dlq; auto using qualifyTopic_ascii, qualifyTopic_trimmed.
  - destruct (qualifyTopic_qualified t s) as [?|[?|[H|H]]]; [done|auto| |].
    + right; right; right. apply HasSuffix_spec in H as [u ->].
      apply Contains_spec. exists u, "dlq". by rewrite !app_assoc_str.
    + right; right; right. by apply Contains_app.
Qed.

(** ** Properties *)

(** Qualification of topic names is idempotent, also for the dead-letter
    topic derived from a qualified name: the producer of [NewConsumer]'s DLQ
    and its writer, which qualify the name twice more, write to exactly
    ["<qualified topic>.dlq"]. *)
Theorem qualification_idempotent cfg t :
  is_ascii t = true -> is_ascii (TopicSuffix cfg) = true -> Topic cfg t <> "" ->
  Topic cfg (Topic cfg t) = Topic cfg t /\
  p_topic (NewProducer cfg (Topic cfg t +:+ ".dlq")) = Topic cfg t +:+ ".dlq" /\
  w_Topic (writer (NewProducer cfg (Topic cfg t +:+ ".dlq"))) = Topic cfg t +:+ ".dlq".
Proof.
  intros Ht Hs Hne. unfold NewProducer, newProducer, newWriterWithBalancer, Topic in *; simpl.
  rewrite !qualifyTopic_dlq by done. auto using qualifyTopic_idem.
Qed.

Definition stage_cfg : Config :=
  mkConfig ["localhost:9092"] "users" " .stage " ".stage" "earliest" 10000 10000000
    (500 * Millisecond) (5 * Second) 100 (100 * Millisecond) 5 (100 * Millisecond) (30 * Second)
    true (100 * Millisecond) Second.

Lemma qualification_idempotent_witness :
  Topic stage_cfg (Topic stage_cfg "order.events") = "order.events.stage" /\
  w_Topic (writer (NewProducer stage_cfg (Topic stage_cfg "order.events" +:+ ".dlq")))
    = "order.events.stage.dlq".
Proof.
  destruct (qualification_idempotent stage_cfg "order.events") as (H1 & _ & H2);
    [vm_compute; reflexivity|vm_compute; reflexivity|vm_compute; discriminate|].
  rewrite H1, H2. split; vm_compute; reflexivity.
Defined.

(** A synchronous writer that waits for every in-sync replica. *)
Definition durable (w : Writer) : Prop := RequiredAcks w = RequireAll /\ Async w = false.

(** The producer's invariant: its own writer is bound to its topic, every cached
    writer to the topic it is cached under, and all of them are durable. *)
Definition producer_wf (p : Producer) : Prop :=
  w_Topic (writer p) = p_topic p /\ durable (writer p) /\
  is_ascii (topicSuffix p) = true /\
  (forall ws t w, extraWriters p = Some ws -> ws !! t = Some w -> w_Topic w = t /\ durable w).

Lemma newProducer_wf cfg t b k :
  is_ascii t = true -> is_ascii (TopicSuffix cfg) = true -> producer_wf (newProducer cfg t b k).
Proof.
  intros Ht Hs. unfold producer_wf, newProducer, newWriterWithBalancer, durable, Topic; simpl.
  split_and!; try done. by apply qualifyTopic_idem.
Qed.

Lemma writerFor_wf t p w p' :
  producer_wf p -> writerFor t p = (w, p') ->
  producer_wf p' /\ w_Topic w = qualifyTopic t (topicSuffix p) /\ durable w /\
  writer p' = writer p /\ p_topic p' = p_topic p /\ requireKey p' = requireKey p /\
  topicSuffix p' = topicSuffix p.
Proof.
  intros (H1 & H2 & H3 & H4) H. unfold writerFor in H.
  destruct (default ∅ (extraWriters p) !! qualifyTopic t (topicSuffix p)) as [w0|] eqn:E; simplify_eq.
  - assert (w_Topic w = qualifyTopic t (topicSuffix p) /\ durable w) as [? ?].
    { destruct (extraWriters p) as [ws|] eqn:Ew; [by eapply H4|]. simpl in E.
      by rewrite lookup_empty in E. }
    split_and!; try done. split_and!; try done. simpl. intros ws u v [= <-] Hu.
    destruct (extraWriters p) as [ws|] eqn:Ew; [by eapply H4|by simpl in Hu; rewrite lookup_empty in Hu].
  - split_and!; try done. split_and!; try done. simpl. intros ws u v [= <-] Hu.
    apply lookup_insert_Some in Hu as [[<- <-]|[Hne Hu]]; [done|].
    destruct (extraWriters p) as [ws|] eqn:Ew; [by eapply H4|by simpl in Hu; rewrite lookup_empty in Hu].
Qed.

(** What one publishing call did: nothing on an error, one acknowledged message
    on success. *)
Definition published_one (b b' : Broker) (e : Error) (w : Writer) (key value : string) : Prop :=
  match e with
  | Some _ => acked b' = acked b
  | None => exists now, acked b' = acked b ++ [(w, mkMessage 0 0 key value now)]
  end.

Section PublishLemmas.
Context {A : Type} (json_Marshal : A -> result error string).
Context (WriteMessages : Writer -> Message -> Error).

Lemma write_spec w m b e b' :
  write WriteMessages w m b = (e, b') ->
  (e = None /\ acked b' = acked b ++ [(w, m)]) \/ (exists x, e = Some x /\ b' = b).
Proof. unfold write. intros H. inv_cases; eauto. Qed.

Lemma PublishJSON_spec now key data p b e b' :
  PublishJSON json_Marshal WriteMessages now key data p b = (e, b') ->
  match e with
  | Some _ => acked b' = acked b
  | None => (requireKey p = true -> key <> "") /\
      exists value, json_Marshal data = Ok value /\
        acked b' = acked b ++ [(writer p, mkMessage 0 0 key value now)]
  end.
Proof.
  unfold PublishJSON. intros H.
  destruct (requireKey p && bool_decide (key = "")) eqn:Ek; [by simplify_eq|].
  destruct (json_Marshal data) as [v|x] eqn:Ej; [|by simplify_eq].
  destruct (write _ _ _ _) as [[x|] b1] eqn:Ew;
    destruct (write_spec _ _ _ _ _ Ew) as [[He Ha]|(y & He & ->)]; simplify_eq; simpl.
  - done.
  - split; [|by exists v]. intros Hk ->. by rewrite Hk, bool_decide_eq_true_2 in Ek.
Qed.

(** [PublishJSONTo] keeps the producer well formed and is all or nothing: a
    non-nil error leaves the broker as it was; success acknowledges exactly one
    message with the caller's key, through a synchronous writer that required
    every replica's acknowledgement and is bound to the qualified topic (the
    producer's own topic when the name is blank).  A keyed producer never
    writes an empty key nor to another topic. *)
Theorem publish_to_routes now topic key data p b e p' b' :
  producer_wf p -> is_ascii topic = true ->
  PublishJSONTo json_Marshal WriteMessages now topic key data p b = (e, p', b') ->
  producer_wf p' /\
  match e with
  | Some _ => acked b' = acked b
  | None =>
      (requireKey p = true -> key <> "") /\
      exists w value, json_Marshal data = Ok value /\
        acked b' = acked b ++ [(w, mkMessage 0 0 key value now)] /\ durable w /\
        w_Topic w = (let q := qualifyTopic topic (topicSuffix p) in
                     if decide (q = "") then p_topic p else q) /\
        (requireKey p = true -> w = writer p)
  end.
Proof.
  intros Hp Hasc H. pose proof Hp as (Hw & Hd & Hsuf & _). unfold PublishJSONTo in H.
  set (q := qualifyTopic topic (topicSuffix p)) in *.
  destruct (bool_decide (q = "") || bool_decide (q = p_topic p)) eqn:Eq.
  - destruct (PublishJSON _ _ _ _ _ _ _) as [e0 b0] eqn:E. simplify_eq. split; [done|].
    apply PublishJSON_spec in E. destruct e; [done|].
    destruct E as (Hk & v & Hj & Ha). split; [done|]. exists (writer p'), v.
    split_and!; try done. simpl. rewrite Hw. case_decide; [done|].
    apply orb_true_iff in Eq as [Eq|Eq]; to_prop; done.
  - destruct (requireKey p) eqn:Ek; [by simplify_eq|].
    destruct (json_Marshal data) as [v|x] eqn:Ej; [|by simplify_eq].
    destruct (writerFor q p) as [w p1] eqn:Ewf.
    destruct (writerFor_wf q p w p1 Hp Ewf) as (Hp1 & Ht & Hdw & _).
    destruct (write _ _ _ _) as [[x|] b1] eqn:Ew;
      destruct (write_spec _ _ _ _ _ Ew) as [[He Ha]|(y & He & ->)]; simplify_eq; [done|].
    split; [done|]. split; [done|]. exists w, v. to_prop. simpl.
    split_and!; try done. rewrite decide_False by done. rewrite Ht.
    by apply qualifyTopic_idem.
Qed.
End PublishLemmas.

Lemma publish_to_routes_witness :
  let p := NewProducer stage_cfg "order.events" in
  let '(e, p', b') := PublishJSONTo (fun s : string => Ok s) (fun _ _ => None) 7
    "bid.events" "k1" "{}" p (mkBroker [] ∅) in
  producer_wf p' /\ e = None /\
  exists w, acked b' = [(w, mkMessage 0 0 "k1" "{}" 7)] /\ durable w /\ w_Topic w = "bid.events.stage".
Proof.
  intros p.
  assert (producer_wf p) as Hp by (apply newProducer_wf; vm_compute; reflexivity).
  destruct (PublishJSONTo _ _ _ _ _ _ _ _) as [[e p'] b'] eqn:E.
  pose proof (publish_to_routes (fun s : string => Ok s) (fun _ _ => None) 7 "bid.events" "k1" "{}"
    p (mkBroker [] ∅) e p' b' Hp eq_refl E) as [Hp' H].
  assert (e = None) as -> by (vm_compute in E; congruence).
  destruct H as (_ & w & v & [= <-] & Ha & Hd & Ht & _).
  split_and!; try done. exists w. by split_and!.
Defined.
