(* ===== verification/KafkaConsumer.v ===== *)
(** * kafka/retry.go and the consumer of kafka/kafka.go

    The consumer's control flow is modelled with everything outside it (the
    message handler, the context, the timers, the DLQ publisher, the reader) as
    an environment that answers the consumer's [n]-th interaction.  A run
    threads the number of interactions so far, the metrics registry and the
    list of effects in the order they happened.  The retry loops of the source
    are unbounded, so their models take fuel and return [None] when it runs
    out; termination is proved separately, as a statement about enough fuel. *)

From S2P Require Import Prelude GoError GoString GoJson Metrics Kafka.
Import KafkaError.

Open Scope Z_scope.

(** ** Backoff *)

Module Backoff.

Definition defaultMaxRetries : Z := 5.
Definition defaultBackoffMin : Duration := 100 * Millisecond.
Definition defaultBackoffMax : Duration := 30 * Second.

Record retryConfig := mkRetryConfig {
  maxRetries : Z;
  backoffMin : Duration;
  backoffMax : Duration
}.

Definition newRetryConfig (cfg : Config) : retryConfig :=
  mkRetryConfig
    (if MaxRetries cfg <=? 0 then defaultMaxRetries else MaxRetries cfg)
    (if BackoffMin cfg <=? 0 then defaultBackoffMin else BackoffMin cfg)
    (if BackoffMax cfg <=? 0 then defaultBackoffMax else BackoffMax cfg).

(** The loop of [calcBackoff], [n] iterations to go. *)
Fixpoint backoff_loop (n : nat) (limit delay : Duration) : Duration :=
  match n with
  | O => delay
  | S n =>
      let delay := wrap64 (delay * 2) in
      if limit <=? delay then limit else backoff_loop n limit delay
  end.

Definition calcBackoff (rc : retryConfig) (attempt : Z) : Duration :=
  if attempt <=? 0 then backoffMin rc
  else backoff_loop (Z.to_nat attempt) (backoffMax rc) (backoffMin rc).

Definition rc_ok (rc : retryConfig) : Prop :=
  0 < maxRetries rc <= int64_max /\ 0 < backoffMin rc < 2 ^ 62 /\ 0 < backoffMax rc <= 2 ^ 62.

Lemma pow2_ge_1 n : 0 <= n -> 1 <= 2 ^ n.
Proof. intros H. pose proof (Z.pow_pos_nonneg 2 n). lia. Qed.

(** Doubling past the limit stays past it. *)
Lemma doubled_min d p limit : 0 < d -> 1 <= p -> limit <= d * 2 -> Z.min (d * (2 * p)) limit = limit.
Proof. intros Hd Hp Hl. apply Z.min_r. nia. Qed.

Lemma backoff_loop_spec n limit delay :
  0 < limit <= 2 ^ 62 -> 0 < delay < limit ->
  backoff_loop n limit delay = Z.min (delay * 2 ^ Z.of_nat n) limit.
Proof.
  revert delay. induction n as [|n IH]; intros delay Hl Hd; [simpl; lia|].
  cbn [backoff_loop].
  rewrite wrap64_id by (unfold in_int64, int64_min, int64_max; lia).
  rewrite Nat2Z.inj_succ, Z.pow_succ_r by lia.
  assert (1 <= 2 ^ Z.of_nat n) by (apply pow2_ge_1; lia).
  destruct (Z.leb_spec limit (delay * 2)); [rewrite doubled_min; lia|].
  rewrite IH by lia. f_equal. lia.
Qed.

Lemma calcBackoff_spec rc attempt :
  rc_ok rc -> 0 < attempt ->
  calcBackoff rc attempt = Z.min (backoffMin rc * 2 ^ attempt) (backoffMax rc).
Proof.
  intros (_ & Hmin & Hmax) Ha. unfold calcBackoff.
  rewrite (proj2 (Z.leb_gt _ _)) by lia.
  destruct (Z.to_nat attempt) as [|n] eqn:En; [lia|].
  replace attempt with (Z.succ (Z.of_nat n)) by lia. cbn [backoff_loop].
  rewrite wrap64_id by (unfold in_int64, int64_min, int64_max; lia).
  rewrite Z.pow_succ_r by lia.
  assert (1 <= 2 ^ Z.of_nat n) by (apply pow2_ge_1; lia).
  destruct (Z.leb_spec (backoffMax rc) (backoffMin rc * 2)); [rewrite doubled_min; lia|].
  rewrite backoff_loop_spec by lia. f_equal. lia.
Qed.

(** From the first retry on, the delay is [min(backoffMin * 2^n,
    backoffMax)]; only attempt 0 ignores the cap.  (The comment states the
    formula for attempt 0 too: with [backoffMin > backoffMax] the code waits
    longer than the cap once.)  Configured durations below 2^62 ns cannot make
    the doubling overflow. *)
Theorem calcBackoff_exponential rc attempt :
  rc_ok rc ->
  calcBackoff rc 0 = backoffMin rc /\
  (0 < attempt ->
     calcBackoff rc attempt = Z.min (backoffMin rc * 2 ^ attempt) (backoffMax rc) /\
     0 < calcBackoff rc attempt <= backoffMax rc).
Proof.
  intros H. split; [done|]. intros Ha. rewrite calcBackoff_spec by done.
  destruct H as (_ & ? & ?). assert (1 <= 2 ^ attempt) by (apply pow2_ge_1; lia). nia.
Qed.

Lemma calcBackoff_exponential_witness :
  let rc := newRetryConfig stage_cfg in
  calcBackoff rc 3 = 800 * Millisecond /\ 0 < calcBackoff rc 3 <= backoffMax rc.
Proof.
  intros rc. assert (rc_ok rc) as H by (vm_compute; intuition congruence).
  destruct (calcBackoff_exponential rc 3 H) as [_ Hc].
  destruct Hc as [E B]; [lia|]. split; [|exact B]. rewrite E. vm_compute. reflexivity.
Defined.

(** Every configuration resolves to positive retry parameters. *)
Lemma newRetryConfig_positive cfg :
  0 < maxRetries (newRetryConfig cfg) /\ 0 < backoffMin (newRetryConfig cfg) /\
  0 < backoffMax (newRetryConfig cfg).
Proof.
  unfold newRetryConfig, defaultMaxRetries, defaultBackoffMin, defaultBackoffMax,
    Millisecond, Second; simpl.
  destruct (Z.leb_spec (MaxRetries cfg) 0), (Z.leb_spec (BackoffMin cfg) 0),
    (Z.leb_spec (BackoffMax cfg) 0); lia.
Qed.

End Backoff.
Import Backoff.

(** ** The consumer *)

Record dlqPayload := mkPayload {
  OriginalTopic : string;
  OriginalKey : string;
  OriginalValue : string;
  ErrorString : string;
  RetryCount : Z;
  FailedAt : Time
}.

(** A redactor may consult its context, so its answer may depend on when it is
    called. *)
Abbreviation DLQRedactor := (nat -> string -> result error string) (only parsing).

Record Consumer := mkConsumer {
  topic : string;
  groupID : string;
  retryCfg : retryConfig;
  dlqProducer : bool; (* is it non-nil? *)
  dlqTopic : string;
  dlqValueRedactor : option DLQRedactor;
  dlqKeyRedactor : option DLQRedactor;
  eventDecodeErrorsToDLQ : bool;
  eventDecodeRedactor : option DLQRedactor
}.

Inductive ConsumerOption :=
| NilOption
| WithDLQValueRedactor (r : option DLQRedactor)
| WithDLQKeyRedactor (r : option DLQRedactor)
| WithEventDecodeErrorsToDLQ (r : option DLQRedactor).

Definition apply_option (c : Consumer) (o : ConsumerOption) : Consumer :=
  match o with
  | NilOption => c
  | WithDLQValueRedactor r =>
      mkConsumer (topic c) (groupID c) (retryCfg c) (dlqProducer c) (dlqTopic c)
        r (dlqKeyRedactor c) (eventDecodeErrorsToDLQ c) (eventDecodeRedactor c)
  | WithDLQKeyRedactor r =>
      mkConsumer (topic c) (groupID c) (retryCfg c) (dlqProducer c) (dlqTopic c)
        (dlqValueRedactor c) r (eventDecodeErrorsToDLQ c) (eventDecodeRedactor c)
  | WithEventDecodeErrorsToDLQ r =>
      mkConsumer (topic c) (groupID c) (retryCfg c) (dlqProducer c) (dlqTopic c)
        (dlqValueRedactor c) (dlqKeyRedactor c) true r
  end.

Definition missing_redactor : DLQRedactor :=
  fun _ _ => Fail (New "event decode DLQ value redactor is required").
Definition drop_key : DLQRedactor := fun _ _ => Ok "".

Definition finalizeOptions (c : Consumer) : Consumer :=
  if negb (eventDecodeErrorsToDLQ c) then c
  else
    let r := default missing_redactor (eventDecodeRedactor c) in
    mkConsumer (topic c) (groupID c) (retryCfg c) (dlqProducer c) (dlqTopic c)
      (Some r) (Some drop_key) (eventDecodeErrorsToDLQ c) (Some r).

Definition NewConsumerWithOptions (cfg : Config) (t : string) (options : list ConsumerOption) : Consumer :=
  let t := Topic cfg t in
  let group := ConsumerGroup cfg (GroupID cfg) in
  let c := mkConsumer t group (newRetryConfig cfg) (DLQEnabled cfg) (t +:+ ".dlq")
             None None false None in
  finalizeOptions (fold_left apply_option options c).

Definition NewConsumer (cfg : Config) (t : string) : Consumer := NewConsumerWithOptions cfg t [].

(** ** The environment and the effects of a run *)

Record Env := mkEnv {
  handler : nat -> Message -> Error;
  wait_done : nat -> Error;  (* a [select] on the context and a timer: the context's error, or the timer *)
  ctx_Err : nat -> Error;
  publish : nat -> string -> dlqPayload -> Error;
  fetch : nat -> result error Message;
  commit : nat -> Message -> Error;
  clock : nat -> Time
}.

Inductive effect :=
| EFetch (m : Message)
| EHandle (m : Message) (out : Error)
| ESleep (d : Duration)
| EDLQ (key : string) (p : dlqPayload) (out : Error)
| ECommit (m : Message) (out : Error).

Record St := mkSt { clk : nat; reg : registry; log : list effect }.

Definition tick (s : St) : St := mkSt (S (clk s)) (reg s) (log s).
Definition emit (e : effect) (s : St) : St := mkSt (S (clk s)) (reg s) (log s ++ [e]).
Definition upd (f : registry -> registry) (s : St) : St := mkSt (clk s) (f (reg s)) (log s).

Section Run.
Context (E : Env) (c : Consumer).

Definition dlqKey (key : string) (s : St) : result error string * St :=
  match dlqKeyRedactor c with
  | None => (Ok key, s)
  | Some redact =>
      match ctx_Err E (clk s) with
      | Some e => (Fail e, tick s)
      | None => (map_err (Wrapf "redact DLQ key") (redact (S (clk s)) key), tick (tick s))
      end
  end.

Definition dlqValue (value : string) (s : St) : result error string * St :=
  match dlqValueRedactor c with
  | None => (Ok value, s)
  | Some redact =>
      match ctx_Err E (clk s) with
      | Some e => (Fail e, tick s)
      | None =>
          (match redact (S (clk s)) value with
           | Fail e => Fail (Wrapf "redact DLQ value" e)
           | Ok v => if GoJson.Valid v then Ok v
                     else Fail (New "redact DLQ value: result is not valid JSON")
           end, tick (tick s))
      end
  end.

Definition sendToDLQ (msg : Message) (key value : string) (handlerErr : error) (s : St) : Error * St :=
  let p := mkPayload (topic c) key value (ErrorText handlerErr) (maxRetries (retryCfg c)) (clock E (clk s)) in
  let out := publish E (clk s) key p in
  (option_map (Wrapf "publish to DLQ") out, emit (EDLQ key p out) s).

(** [if !retainingOffset { metrics.Retain...; retainingOffset = true }] *)
Definition retain (retaining : bool) (s : St) : St :=
  if retaining then s else upd (RetainKafkaConsumerOffset (topic c) (groupID c)) s.

(** The deferred [if retainingOffset { metrics.Release... }] *)
Definition release (retaining : bool) (s : St) : St :=
  if retaining then upd (ReleaseKafkaConsumerOffset (topic c) (groupID c)) s else s.

(** [select { case <-ctx.Done(): ...; case <-time.After(d): }] *)
Definition sleep (d : Duration) (s : St) : Error * St :=
  (wait_done E (clk s), emit (ESleep d) s).

(** The three failure branches of the DLQ loop: retain the offset once, count
    the retry (in [logRetainedDLQRetry]) and wait. *)
Definition dlq_wait (retaining : bool) (attempt : Z) (s : St) : Error * St :=
  let s := retain retaining s in
  let s := upd (RecordKafkaConsumerRetainedRetry (topic c) (groupID c)) s in
  sleep (calcBackoff (retryCfg c) attempt) s.

Fixpoint sendToDLQUntilSuccess (fuel : nat) (retaining : bool) (attempt : Z)
    (msg : Message) (handlerErr : error) (s : St) : option (Error * St) :=
  match fuel with
  | O => None
  | S fuel =>
      let retry s :=
        match dlq_wait retaining attempt s with
        | (Some e, s) => Some (Some e, release true s)
        | (None, s) => sendToDLQUntilSuccess fuel true (int_inc attempt) msg handlerErr s
        end in
      match dlqValue (Value msg) s with
      | (Fail _, s) => retry s
      | (Ok originalValue, s) =>
          match dlqKey (Key msg) s with
          | (Fail _, s) => retry s
          | (Ok originalKey, s) =>
              match sendToDLQ msg originalKey originalValue handlerErr s with
              | (None, s) =>
                  Some (None, release retaining (upd (RecordKafkaDLQ (topic c) (groupID c)) s))
              | (Some _, s) => retry s
              end
          end
      end
  end.

(** [handleWithRetry]: the returned pair is [(commit, err)]. *)
Fixpoint handleWithRetry (fuel : nat) (normalRetries nonCommittableRetries : Z) (retaining : bool)
    (msg : Message) (s : St) : option (bool * Error * St) :=
  match fuel with
  | O => None
  | S fuel =>
      let out := handler E (clk s) msg in
      let s := emit (EHandle msg out) s in
      match out with
      | None => Some (true, None, release retaining s)
      | Some handlerErr =>
          if IsRetryUntilCanceled handlerErr then
            let s := retain retaining s in
            let delay := calcBackoff (retryCfg c) nonCommittableRetries in
            let s := upd (RecordKafkaConsumerRetainedRetry (topic c) (groupID c)) s in
            match sleep delay s with
            | (Some e, s) => Some (false, Some e, release true s)
            | (None, s) =>
                handleWithRetry fuel normalRetries (int_inc nonCommittableRetries) true msg s
            end
          else
            let s := release retaining s in
            if IsUnmarshalError handlerErr then
              Some (true, None, upd (RecordKafkaUnmarshalError (topic c) (groupID c)) s)
            else if normalRetries <? maxRetries (retryCfg c) then
              let delay := calcBackoff (retryCfg c) normalRetries in
              let s := upd (RecordKafkaConsumerRetry (topic c) (groupID c)) s in
              match sleep delay s with
              | (Some e, s) => Some (false, Some e, s)
              | (None, s) =>
                  handleWithRetry fuel (int_inc normalRetries) nonCommittableRetries false msg s
              end
            else
              let err := Wrapf ("max retries (" +:+ Itoa (maxRetries (retryCfg c)) +:+ ") exhausted") handlerErr in
              if dlqProducer c then
                match sendToDLQUntilSuccess fuel false 0 msg handlerErr s with
                | None => None
                | Some (Some e, s) => Some (false, Some e, s)
                | Some (None, s) => Some (true, Some err, s)
                end
              else Some (true, Some err, upd (RecordKafkaDLQ (topic c) (groupID c)) s)
      end
  end.

(** [Consume] *)
Fixpoint Consume (fuel : nat) (s : St) : option (Error * St) :=
  match fuel with
  | O => None
  | S fuel =>
      match ctx_Err E (clk s) with
      | Some e => Some (Some e, tick s)
      | None =>
          let s := tick s in
          match fetch E (clk s) with
          | Fail _ =>
              let s := tick s in
              match ctx_Err E (clk s) with
              | Some e => Some (Some e, tick s)
              | None => Consume fuel (tick s)
              end
          | Ok msg =>
              let s := emit (EFetch msg) s in
              match handleWithRetry fuel 0 0 false msg s with
              | None => None
              | Some (false, handleErr, s) => Some (handleErr, s)
              | Some (true, handleErr, s) =>
                  let out := commit E (clk s) msg in
                  let s := emit (ECommit msg out) s in
                  match out, handleErr with
                  | None, None =>
                      Consume fuel (upd (RecordKafkaMessageConsumed (topic c) (groupID c)) s)
                  | _, _ => Consume fuel s
                  end
              end
          end
      end
  end.
End Run.

(** ** What a run leaves behind *)

Definition b2z (b : bool) : Z := if b then 1 else 0.

(** A failure that is neither a retained one nor a decode error. *)
Definition ordinary (e : error) : bool :=
  negb (IsRetryUntilCanceled e) && negb (IsUnmarshalError e).

Definition ordinary_failure (ef : effect) : bool :=
  match ef with EHandle _ (Some e) => ordinary e | _ => false end.

Definition count_ordinary (l : list effect) : Z :=
  Z.of_nat (length (List.filter ordinary_failure l)).

Lemma count_ordinary_app l k : count_ordinary (l ++ k) = count_ordinary l + count_ordinary k.
Proof. unfold count_ordinary. rewrite List.filter_app, length_app. lia. Qed.

Section Spec.
Context (E : Env) (c : Consumer).

(** The gauge of messages whose offset this consumer retains. *)
Definition held (s : St) : Z :=
  value (reg s) (kafkaConsumerRetainedOffsets (topic c) (groupID c)).

(** A dead-letter record of [msg]: its key and value are what the configured
    redactors made of the message's, or the message's own without one. *)
Definition record_of (msg : Message) (key : string) (p : dlqPayload) : Prop :=
  OriginalTopic p = topic c /\ OriginalKey p = key /\
  match dlqValueRedactor c with
  | None => OriginalValue p = Value msg
  | Some r => (exists n, r n (Value msg) = Ok (OriginalValue p)) /\ GoJson.Valid (OriginalValue p) = true
  end /\
  match dlqKeyRedactor c with
  | None => key = Key msg
  | Some r => exists n, r n (Key msg) = Ok key
  end.

(** The effects handling [msg] may have. *)
Definition effect_of (msg : Message) (ef : effect) : Prop :=
  match ef with
  | EHandle m _ => m = msg
  | ESleep _ => True
  | EDLQ key p _ => record_of msg key p
  | EFetch _ | ECommit _ _ => False
  end.

(** Why it is safe to commit [msg] after the effects [l]: the handler accepted
    it, it can never be decoded, or more than [k] ordinary failures used up its
    retries and, with a DLQ, a record of it was published. *)
Definition justified_after (k : Z) (msg : Message) (l : list effect) : Prop :=
  In (EHandle msg None) l \/
  (exists e, In (EHandle msg (Some e)) l /\ IsUnmarshalError e = true) \/
  (k < count_ordinary l /\
   (dlqProducer c = true -> exists key p, In (EDLQ key p None) l /\ record_of msg key p)).

Definition justified (msg : Message) (l : list effect) : Prop :=
  justified_after (maxRetries (retryCfg c)) msg l.

Lemma justified_app k k' msg l l' :
  justified_after k' msg l' -> k <= k' + count_ordinary l -> justified_after k msg (l ++ l').
Proof.
  intros [H|[(e & H & He)|[H Hd]]] Hk.
  - left. apply in_or_app. by right.
  - right; left. exists e. split; [|done]. apply in_or_app. by right.
  - right; right. rewrite count_ordinary_app. split; [lia|].
    intros Hp. destruct (Hd Hp) as (key & p & Hin & Hr).
    exists key, p. split; [|done]. apply in_or_app. by right.
Qed.

Lemma held_tick s : held (tick s) = held s.
Proof. done. Qed.
Lemma held_emit e s : held (emit e s) = held s.
Proof. done. Qed.
Lemma held_retain b s : held (retain c b s) = held s + 1 - b2z b.
Proof.
  unfold held, retain, b2z. destruct b; simpl; [lia|].
  unfold RetainKafkaConsumerOffset. autorewrite with cg. lia.
Qed.
Lemma held_release b s : held (release c b s) = held s - b2z b.
Proof.
  unfold held, release, b2z. destruct b; simpl; [|lia].
  unfold ReleaseKafkaConsumerOffset. by autorewrite with cg.
Qed.
Lemma held_other f s :
  (forall r, value (f r) (kafkaConsumerRetainedOffsets (topic c) (groupID c)) =
             value r (kafkaConsumerRetainedOffsets (topic c) (groupID c))) ->
  held (upd f s) = held s.
Proof. intros H. unfold held; simpl. apply H. Qed.

Lemma held_retained_retry s :
  held (upd (RecordKafkaConsumerRetainedRetry (topic c) (groupID c)) s) = held s.
Proof. apply held_other. intros r. unfold RecordKafkaConsumerRetainedRetry. by autorewrite with cg. Qed.
Lemma held_retry s : held (upd (RecordKafkaConsumerRetry (topic c) (groupID c)) s) = held s.
Proof. apply held_other. intros r. unfold RecordKafkaConsumerRetry. by autorewrite with cg. Qed.
Lemma held_dlq s : held (upd (RecordKafkaDLQ (topic c) (groupID c)) s) = held s.
Proof. apply held_other. intros r. unfold RecordKafkaDLQ. by autorewrite with cg. Qed.
Lemma held_unmarshal s : held (upd (RecordKafkaUnmarshalError (topic c) (groupID c)) s) = held s.
Proof. apply held_other. intros r. unfold RecordKafkaUnmarshalError. by autorewrite with cg. Qed.

Lemma log_retain b s : log (retain c b s) = log s.
Proof. by destruct b. Qed.
Lemma log_release b s : log (release c b s) = log s.
Proof. by destruct b. Qed.
Lemma clk_retain b s : clk (retain c b s) = clk s.
Proof. by destruct b. Qed.
Lemma clk_release b s : clk (release c b s) = clk s.
Proof. by destruct b. Qed.

Lemma dlqValue_spec v s r s' :
  dlqValue E c v s = (r, s') ->
  log s' = log s /\ held s' = held s /\ (clk s <= clk s')%nat /\
  forall w, r = Ok w ->
    match dlqValueRedactor c with
    | None => w = v
    | Some f => (exists n, f n v = Ok w) /\ GoJson.Valid w = true
    end.
Proof.
  unfold dlqValue. intros H. destruct (dlqValueRedactor c) as [f|];
    [|simplify_eq; split_and!; [done|done|lia|congruence]].
  destruct (ctx_Err E (clk s)); simplify_eq; (split_and!; [done|done|simpl; lia|]); [done|].
  intros w Hw. destruct (f (S (clk s)) v) as [x|] eqn:Ef; [|done].
  destruct (GoJson.Valid x) eqn:Ej; simplify_eq. eauto.
Qed.

Lemma dlqKey_spec k s r s' :
  dlqKey E c k s = (r, s') ->
  log s' = log s /\ held s' = held s /\ (clk s <= clk s')%nat /\
  forall w, r = Ok w ->
    match dlqKeyRedactor c with
    | None => w = k
    | Some f => exists n, f n k = Ok w
    end.
Proof.
  unfold dlqKey. intros H. destruct (dlqKeyRedactor c) as [f|];
    [|simplify_eq; split_and!; [done|done|lia|congruence]].
  destruct (ctx_Err E (clk s)); simplify_eq; (split_and!; [done|done|simpl; lia|]); [done|].
  intros w Hw. apply map_err_ok in Hw. eauto.
Qed.

Lemma dlq_wait_spec b n s r s' :
  dlq_wait E c b n s = (r, s') ->
  (exists d, log s' = log s ++ [ESleep d]) /\ held s' = held s + 1 - b2z b /\
  clk s' = S (clk s) /\ r = wait_done E (clk s).
Proof.
  unfold dlq_wait, sleep. intros H. simplify_eq.
  split_and!.
  - eexists. simpl. by rewrite log_retain.
  - by rewrite held_emit, held_retained_retry, held_retain.
  - simpl. by rewrite clk_retain.
  - simpl. by rewrite clk_retain.
Qed.

(** What handling a message from [s] to [s'] added to the log and the gauge. *)
Definition handled (msg : Message) (s s' : St) (rel : Z) (P : list effect -> Prop) : Prop :=
  exists l, log s' = log s ++ l /\ Forall (effect_of msg) l /\ held s' = held s - rel /\ P l.

Lemma handled_app msg s s1 s2 l r P (Q : list effect -> Prop) :
  log s1 = log s ++ l -> Forall (effect_of msg) l -> held s1 = held s + r ->
  (forall l', P l' -> Q (l ++ l')) ->
  forall r', handled msg s1 s2 r' P -> handled msg s s2 (r' - r) Q.
Proof.
  intros H1 H2 H3 H4 r' (l' & K1 & K2 & K3 & K4).
  exists (l ++ l'). rewrite K1, H1, app_assoc. split_and!; auto.
  - by apply Forall_app.
  - lia.
Qed.

Lemma handled_r msg s s' r r' P : r = r' -> handled msg s s' r P -> handled msg s s' r' P.
Proof. by intros ->. Qed.

(** The DLQ loop releases what it retains, and returns nil only after a
    publication the broker accepted. *)
Lemma sendToDLQUntilSuccess_spec fuel b n msg he s e s' :
  sendToDLQUntilSuccess E c fuel b n msg he s = Some (e, s') ->
  handled msg s s' (b2z b)
    (fun l => count_ordinary l = 0 /\
      (e = None -> exists key p, In (EDLQ key p None) l /\ record_of msg key p)).
Proof.
  revert b n s. induction fuel as [|fuel IH]; intros b n s H; [done|].
  cbn [sendToDLQUntilSuccess] in H.
  assert (forall s1 s0 l, log s1 = log s0 ++ l -> held s1 = held s0 ->
    Forall (effect_of msg) l -> count_ordinary l = 0 ->
    match dlq_wait E c b n s1 with
    | (Some e, s) => Some (Some e, release c true s)
    | (None, s) => sendToDLQUntilSuccess E c fuel true (int_inc n) msg he s
    end = Some (e, s') ->
    handled msg s0 s' (b2z b) (fun l => count_ordinary l = 0 /\
      (e = None -> exists key p, In (EDLQ key p None) l /\ record_of msg key p))) as Hretry.
  { intros s1 s0 l Hl Hh Hf Hc Hw. destruct (dlq_wait E c b n s1) as [r s2] eqn:Ew.
    destruct (dlq_wait_spec _ _ _ _ _ Ew) as ([d Hd] & Hh2 & _ & _).
    assert (Forall (effect_of msg) (l ++ [ESleep d])) as Hf2
      by (apply Forall_app; split; [done|]; by repeat constructor).
    assert (count_ordinary (l ++ [ESleep d]) = 0) as Hc2.
    { rewrite count_ordinary_app, Hc. done. }
    destruct r as [x|].
    - simplify_eq. exists (l ++ [ESleep d]). rewrite log_release, held_release, Hd, Hl, app_assoc.
      split_and!; try done. simpl. lia.
    - apply IH in Hw. eapply handled_r; [|eapply (handled_app msg s0 s2 s' (l ++ [ESleep d])
        (1 - b2z b)); [| | | |exact Hw]]; try done.
      + simpl. lia.
      + by rewrite Hd, Hl, app_assoc.
      + lia.
      + intros l' [Hc' He]. split.
        * rewrite count_ordinary_app. lia.
        * intros Hn. destruct (He Hn) as (key & p & Hin & Hr). exists key, p. split; [|done].
          apply in_or_app; by right. }
  destruct (dlqValue E c (Value msg) s) as [rv s1] eqn:Ev.
  destruct (dlqValue_spec _ _ _ _ Ev) as (Hl1 & Hh1 & _ & Hv).
  destruct rv as [v|]; [|apply (Hretry s1 s []); rewrite ?app_nil_r; done].
  destruct (dlqKey E c (Key msg) s1) as [rk s2] eqn:Ek.
  destruct (dlqKey_spec _ _ _ _ Ek) as (Hl2 & Hh2 & _ & Hk).
  destruct rk as [k|]; [|apply (Hretry s2 s []); rewrite ?app_nil_r; congruence || done].
  unfold sendToDLQ in H.
  set (p := mkPayload (topic c) k v (ErrorText he) (maxRetries (retryCfg c)) (clock E (clk s2))) in *.
  assert (record_of msg k p) as Hrec.
  { unfold record_of, p; simpl. split_and!; [done|done|by apply Hv|by apply Hk]. }
  destruct (publish E (clk s2) k p) as [x|]; simpl in H.
  - apply (Hretry (emit (EDLQ k p (Some x)) s2) s [EDLQ k p (Some x)]); simpl; try done.
    + congruence.
    + rewrite held_emit. congruence.
    + by apply Forall_singleton.
  - simplify_eq. exists [EDLQ k p None]. rewrite log_release, held_release, held_dlq, held_emit.
    split_and!; [simpl; congruence|by apply Forall_singleton|lia|done|].
    intros _. exists k, p. split; [by left|done].
Qed.

(** What the spec of [handleWithRetry] says of the effects, with [k] retries
    left and the answer [cm] to "commit the offset?". *)
Definition retry_post (k : Z) (cm : bool) (msg : Message) (l : list effect) : Prop :=
  count_ordinary l <= k + 1 /\ (cm = true -> justified_after k msg l).

Lemma retry_post_app k k' cm msg l l' :
  retry_post k' cm msg l' -> k = k' + count_ordinary l -> retry_post k cm msg (l ++ l').
Proof.
  intros [H1 H2] Hk. split; [rewrite count_ordinary_app; lia|].
  intros Hc. eapply justified_app; [by apply H2|lia].
Qed.

(** A run that stops after the effects [l], and one that goes on after them. *)
Lemma handled_stop msg s s' l r k cm :
  log s' = log s ++ l -> Forall (effect_of msg) l -> held s' = held s - r ->
  retry_post k cm msg l -> handled msg s s' r (retry_post k cm msg).
Proof. intros. by exists l. Qed.

Lemma handled_step msg s s1 s' l r r' k k' cm :
  log s1 = log s ++ l -> Forall (effect_of msg) l -> held s1 = held s - r + r' ->
  k = k' + count_ordinary l ->
  handled msg s1 s' r' (retry_post k' cm msg) -> handled msg s s' r (retry_post k cm msg).
Proof.
  intros H1 H2 H3 H4 (l' & K1 & K2 & K3 & K4).
  exists (l ++ l'). rewrite K1, H1, app_assoc. split_and!; auto.
  - by apply Forall_app.
  - lia.
  - by eapply retry_post_app.
Qed.

(** The effects of one failed attempt followed by a wait. *)
Lemma attempt_effects msg he d :
  Forall (effect_of msg) [EHandle msg (Some he); ESleep d] /\
  count_ordinary [EHandle msg (Some he); ESleep d] = b2z (ordinary he) /\
  count_ordinary [EHandle msg (Some he)] = b2z (ordinary he).
Proof.
  split; [by repeat constructor|]. unfold count_ordinary; simpl. by destruct (ordinary he).
Qed.

Lemma retry_post_none k msg : 0 <= k -> retry_post k true msg [EHandle msg None].
Proof. intros Hk. split; [unfold count_ordinary; simpl; lia|]. intros _. left. by left. Qed.

Lemma retry_post_unmarshal k msg he :
  0 <= k -> IsUnmarshalError he = true -> retry_post k true msg [EHandle msg (Some he)].
Proof.
  intros Hk Hu. destruct (attempt_effects msg he 0) as (_ & _ & Hc). split.
  - rewrite Hc. unfold b2z. case_match; lia.
  - intros _. right; left. exists he. split; [by left|done].
Qed.

(** The last attempt failed: into the DLQ, or just counted. *)
Lemma exhausted_spec fuel b k err msg he s s1 cm e s' :
  log s1 = log s ++ [EHandle msg (Some he)] -> held s1 = held s - b2z b ->
  ordinary he = true -> k = 0 ->
  (if dlqProducer c then
     match sendToDLQUntilSuccess E c fuel false 0 msg he s1 with
     | None => None
     | Some (Some e, s) => Some (false, Some e, s)
     | Some (None, s) => Some (true, Some err, s)
     end
   else Some (true, Some err, upd (RecordKafkaDLQ (topic c) (groupID c)) s1)) = Some (cm, e, s') ->
  handled msg s s' (b2z b) (retry_post k cm msg).
Proof.
  intros Hl Hh Ho -> H. destruct (attempt_effects msg he 0) as (_ & _ & Hc1).
  rewrite Ho in Hc1. simpl in Hc1. destruct (dlqProducer c) eqn:Ed.
  - destruct (sendToDLQUntilSuccess _ _ _ _ _ _ _ _) as [[e0 s3]|] eqn:Es; [|done].
    apply sendToDLQUntilSuccess_spec in Es as (l' & K1 & K2 & K3 & Hc' & Hd).
    assert (s3 = s') as -> by (destruct e0; congruence).
    apply (handled_stop _ _ _ (EHandle msg (Some he) :: l')).
    + by rewrite K1, Hl, <- app_assoc.
    + by constructor.
    + rewrite K3, Hh. simpl. lia.
    + change (EHandle msg (Some he) :: l') with ([EHandle msg (Some he)] ++ l').
      split; [rewrite count_ordinary_app; lia|]. intros ->. right; right.
      rewrite count_ordinary_app. split; [lia|]. intros _.
      destruct e0; simplify_eq. destruct (Hd eq_refl) as (key & p & Hin & Hr).
      exists key, p. split; [by right|done].
  - simplify_eq. eapply handled_stop; [done|by apply Forall_singleton|by rewrite held_dlq|].
    split; [lia|]. intros _. right; right. split; [lia|congruence].
Qed.

Ltac solve_log :=
  rewrite ?log_release; simpl; rewrite ?log_retain, ?log_release; simpl; by rewrite <- ?app_assoc.

Lemma handleWithRetry_spec fuel nr nc b msg s cm err s' :
  0 <= nr <= maxRetries (retryCfg c) -> maxRetries (retryCfg c) <= int64_max ->
  handleWithRetry E c fuel nr nc b msg s = Some (cm, err, s') ->
  handled msg s s' (b2z b) (retry_post (maxRetries (retryCfg c) - nr) cm msg).
Proof.
  revert nr nc b s. induction fuel as [|fuel IH]; intros nr nc b s Hnr Hmax H; [done|].
  cbn [handleWithRetry] in H.
  destruct (handler E (clk s) msg) as [he|].
  2:{ simplify_eq. eapply handled_stop; [by rewrite log_release|by apply Forall_singleton| |].
      - by rewrite held_release.
      - apply retry_post_none. lia. }
  destruct (attempt_effects msg he (calcBackoff (retryCfg c) nc)) as (Hf & Hc & _).
  destruct (attempt_effects msg he (calcBackoff (retryCfg c) nr)) as (Hf' & Hc' & _).
  destruct (IsRetryUntilCanceled he) eqn:Er; [|destruct (IsUnmarshalError he) eqn:Eu].
  - assert (ordinary he = false) as Ho by (unfold ordinary; by rewrite Er).
    rewrite Ho in Hc. unfold sleep in H. destruct (wait_done E _) as [x|].
    + simplify_eq. eapply handled_stop; [|exact Hf| |by split; [rewrite Hc; simpl; lia|]].
      * solve_log.
      * rewrite held_release, held_emit, held_retained_retry, held_retain, held_emit. simpl. lia.
    + apply IH in H; [|done|done]. eapply handled_step; [|exact Hf| | |exact H].
      * solve_log.
      * rewrite held_emit, held_retained_retry, held_retain, held_emit. simpl. lia.
      * rewrite Hc. simpl. lia.
  - simplify_eq. eapply handled_stop; [by simpl; rewrite log_release|by apply Forall_singleton| |].
    + by rewrite held_unmarshal, held_release.
    + apply retry_post_unmarshal; [lia|done].
  - assert (ordinary he = true) as Ho by (unfold ordinary; by rewrite Er, Eu).
    rewrite Ho in Hc'. destruct (Z.ltb_spec nr (maxRetries (retryCfg c))) as [Hlt|Hge].
    + unfold sleep in H. destruct (wait_done E _) as [x|].
      * simplify_eq. eapply handled_stop; [|exact Hf'| |by split; [rewrite Hc'; simpl; lia|]].
        -- solve_log.
        -- by rewrite held_emit, held_retry, held_release, held_emit.
      * rewrite int_inc_small in H by (unfold int64_min; lia).
        apply IH in H; [|lia|done]. eapply handled_step; [|exact Hf'| | |exact H].
        -- solve_log.
        -- rewrite held_emit, held_retry, held_release, held_emit. simpl. lia.
        -- rewrite Hc'. simpl. lia.
    + eapply exhausted_spec; [| |exact Ho|lia|exact H]; [by rewrite log_release|by rewrite held_release].
Qed.
End Spec.
