(* ===== verification/KafkaDelivery.v ===== *)
(** * The delivery guarantees of the Kafka consumer

    What the retry and dead-letter loops of KafkaConsumer.v add up to: an offset
    is committed only when the message was dealt with, the retained-offset gauge
    is balanced, shutdown stops every loop, a poison message is retried on a
    fixed schedule, and malformed event envelopes never reach the DLQ raw.  Also
    the event decoder and the multi-topic consumer of kafka/kafka.go. *)

From S2P Require Import Prelude GoError GoString GoJson Metrics Kafka KafkaConsumer.
Import KafkaError Backoff.

Open Scope Z_scope.

(** ** Event envelopes *)

(** [encoding/json]'s decoder for an [Event] is a parameter. *)
Definition decodeEvent {Event} (json_Unmarshal : string -> result error Event)
    (c : Consumer) (value : string) : result error Event :=
  match json_Unmarshal value with
  | Ok event => Ok event
  | Fail err =>
      let decodeErr := eventDecodeError err in
      if eventDecodeErrorsToDLQ c then Fail decodeErr else Fail (NewUnmarshalError decodeErr)
  end.

(** The message handler [ConsumeEvent] builds from an event handler. *)
Definition event_handler {Event} (json_Unmarshal : string -> result error Event) (c : Consumer)
    (h : nat -> Event -> Error) : nat -> Message -> Error :=
  fun n msg =>
    match decodeEvent json_Unmarshal c (Value msg) with
    | Fail err => Some err
    | Ok event => h n event
    end.

Definition with_handler (E : Env) (h : nat -> Message -> Error) : Env :=
  mkEnv h (wait_done E) (ctx_Err E) (publish E) (fetch E) (commit E) (clock E).

Definition ConsumeEvent {Event} (json_Unmarshal : string -> result error Event) (E : Env) (c : Consumer)
    (h : nat -> Event -> Error) (fuel : nat) (s : St) : option (Error * St) :=
  Consume (with_handler E (event_handler json_Unmarshal c h)) c fuel s.

(** ** Closing, and consuming several topics *)

Section Closing.
(** What closing the reader and the DLQ producer of a consumer answers. *)
Context (close_reader close_dlq : Consumer -> Error).

(** [Consumer.Close]: both are closed, the first error is returned. *)
Definition Consumer_Close (c : Consumer) : Error :=
  let firstErr := close_reader c in
  if dlqProducer c then
    match close_dlq c with
    | Some err => match firstErr with None => Some err | Some _ => firstErr end
    | None => firstErr
    end
  else firstErr.

(** [MultiConsumer.Close]: the consumers that were closed, and the answer. *)
Fixpoint MultiConsumer_Close (consumers : list Consumer) : list Consumer * Error :=
  match consumers with
  | [] => ([], None)
  | c :: rest =>
      match Consumer_Close c with
      | Some err => ([c], Some err)
      | None => let (closed, err) := MultiConsumer_Close rest in (c :: closed, err)
      end
  end.
End Closing.

Definition NewMultiConsumer (cfg : Config) (topics : list string) : list Consumer :=
  List.map (NewConsumer cfg) topics.

(** [ConsumeAll]: every consumer's loop ends on its own; the first of the
    [finished] answers is returned, unless the context ends first. *)
Inductive ConsumeAll_event := Finished (i : nat) (err : Error) | CtxDone (err : Error).
Definition ConsumeAll (events : list ConsumeAll_event) : option Error :=
  match events with
  | [] => None
  | Finished _ err :: _ => Some err
  | CtxDone err :: _ => Some err
  end.

(** ** Commit safety *)

(** Every commit in [l] is of the message fetched last, whose handling since
    then justifies it. *)
Definition commits_justified (c : Consumer) (l : list effect) : Prop :=
  forall l1 m out l2, l = l1 ++ ECommit m out :: l2 ->
  exists l0 lm, l1 = l0 ++ EFetch m :: lm /\ Forall (effect_of c m) lm /\
    count_ordinary lm <= maxRetries (retryCfg c) + 1 /\ justified c m lm.

Lemma commits_justified_nil c : commits_justified c [].
Proof. intros l1 m out l2 H. by destruct l1. Qed.

(** A list without commits puts no obligation on what follows it. *)
Lemma app_commit_split (l k l1 l2 : list effect) m out :
  l ++ k = l1 ++ ECommit m out :: l2 ->
  (exists l2', l = l1 ++ ECommit m out :: l2') \/ (exists k1, l1 = l ++ k1 /\ k = k1 ++ ECommit m out :: l2).
Proof.
  intros H. destruct (app_eq_inv _ _ _ _ H) as [(d & H1 & H2)|(d & H1 & H2)].
  - destruct d as [|e d].
    + right. exists []. rewrite app_nil_r in *. by subst.
    + left. exists d. simplify_eq/=. done.
  - right. exists d. by subst.
Qed.

Lemma commits_justified_app c l k :
  commits_justified c l -> commits_justified c k -> commits_justified c (l ++ k).
Proof.
  intros Hl Hk l1 m out l2 H. destruct (app_commit_split _ _ _ _ _ _ H) as [[l2' H1]|(k1 & H1 & H2)].
  - by apply (Hl l1 m out l2').
  - destruct (Hk _ _ _ _ H2) as (l0 & lm & H3 & H4). exists (l ++ l0), lm.
    by rewrite H1, H3, <- app_assoc.
Qed.

Lemma effect_of_no_commit c m l l1 m' out l2 :
  Forall (effect_of c m) l -> l <> l1 ++ ECommit m' out :: l2.
Proof.
  intros H ->. apply Forall_app in H as [_ H]. by inversion H.
Qed.

(** A fetch and the handling of its message, with or without the commit. *)
Lemma commits_justified_turn c m lm :
  Forall (effect_of c m) lm -> commits_justified c (EFetch m :: lm).
Proof.
  intros H l1 m' out l2 Heq. destruct l1 as [|e l1]; [done|]. simplify_eq/=.
  by destruct (effect_of_no_commit _ _ _ l1 m' out l2 H).
Qed.

Lemma commits_justified_commit c m lm out :
  Forall (effect_of c m) lm -> count_ordinary lm <= maxRetries (retryCfg c) + 1 ->
  justified c m lm -> commits_justified c (EFetch m :: lm ++ [ECommit m out]).
Proof.
  intros H Hn Hj l1 m' out' l2 Heq.
  destruct (app_commit_split (EFetch m :: lm) [ECommit m out] l1 l2 m' out') as [[l2' H1]|(k1 & H1 & H2)];
    [done| |].
  - exact (commits_justified_turn c m lm H l1 m' out' l2' H1).
  - destruct k1 as [|x k1]; [|by destruct k1]. simplify_eq/=.
    exists [], lm. by rewrite app_nil_r.
Qed.

(** What one run of [Consume] adds to the log, and the gauge it leaves. *)
Definition dlq_recorded (c : Consumer) (ef : effect) : Prop :=
  match ef with EDLQ key p _ => exists m, record_of c m key p | _ => True end.

Definition consume_post (c : Consumer) (s s' : St) : Prop :=
  (exists l, log s' = log s ++ l /\ commits_justified c l /\ Forall (dlq_recorded c) l) /\
  held c s' = held c s.

Lemma effect_of_recorded c m l : Forall (effect_of c m) l -> Forall (dlq_recorded c) l.
Proof. intros H. eapply Forall_impl; [exact H|]. intros [] He; simpl in *; eauto. Qed.

Lemma consume_post_refl c s s' : log s' = log s -> held c s' = held c s -> consume_post c s s'.
Proof.
  intros Hl Hh. split; [|done]. exists []. rewrite app_nil_r.
  split_and!; [done|apply commits_justified_nil|constructor].
Qed.

Lemma consume_post_trans c s s1 s' l :
  log s1 = log s ++ l -> commits_justified c l -> Forall (dlq_recorded c) l -> held c s1 = held c s ->
  consume_post c s1 s' -> consume_post c s s'.
Proof.
  intros Hl Hj Hr Hh [(k & Hk & Hjk & Hrk) Hh']. split; [|congruence].
  exists (l ++ k). rewrite Hk, Hl, app_assoc. split_and!; [done|by apply commits_justified_app|by apply Forall_app].
Qed.

Lemma held_consumed c s : held c (upd (RecordKafkaMessageConsumed (topic c) (groupID c)) s) = held c s.
Proof. apply held_other. intros r. unfold RecordKafkaMessageConsumed. by autorewrite with cg. Qed.

Lemma Consume_spec E c fuel s e s' :
  rc_ok (retryCfg c) -> Consume E c fuel s = Some (e, s') -> consume_post c s s'.
Proof.
  intros (Hmax & _). revert s. induction fuel as [|fuel IH]; intros s H; [done|].
  cbn [Consume] in H. destruct (ctx_Err E (clk s)); [simplify_eq; by apply consume_post_refl|].
  destruct (fetch E _) as [msg|].
  2:{ destruct (ctx_Err E _); [simplify_eq; by apply consume_post_refl|].
      eapply (consume_post_trans _ _ _ _ []), IH, H; [by rewrite app_nil_r|apply commits_justified_nil|constructor|done]. }
  destruct (handleWithRetry _ _ _ _ _ _ _ _) as [[[cm herr] s1]|] eqn:Eh; [|done].
  apply handleWithRetry_spec in Eh as (l & Hl & Hf & Hh & Hn & Hj); [|lia|lia].
  rewrite Z.sub_0_r in Hn, Hj. simpl in Hl, Hh. rewrite Z.sub_0_r in Hh.
  rewrite <- app_assoc in Hl. simpl in Hl.
  assert (held c s1 = held c s) as Hh' by (rewrite Hh; by rewrite held_emit).
  destruct cm.
  - set (s2 := emit (ECommit msg (commit E (clk s1) msg)) s1) in *.
    assert (log s2 = log s ++ EFetch msg :: l ++ [ECommit msg (commit E (clk s1) msg)]) as Hl2.
    { unfold s2; simpl. by rewrite Hl, <- app_assoc. }
    assert (exists s3, log s3 = log s2 /\ held c s3 = held c s2 /\ Consume E c fuel s3 = Some (e, s'))
      as (s3 & H3 & H4 & H5).
    { destruct (commit E (clk s1) msg), herr; eexists; (split_and!; [| |exact H]); try done.
      apply held_consumed. }
    eapply consume_post_trans, IH, H5.
    + by rewrite H3, Hl2.
    + apply commits_justified_commit; auto. by apply Hj.
    + constructor; [done|]. apply Forall_app. split; [by eapply effect_of_recorded|by repeat constructor].
    + rewrite H4. unfold s2. by rewrite held_emit.
  - simplify_eq. split; [|done]. exists (EFetch msg :: l). split_and!; [done|by apply commits_justified_turn|].
    constructor; [done|by eapply effect_of_recorded].
Qed.

(** C6: at-least-once delivery.  In a run of [Consume] that ends (at shutdown,
    whenever that is), every committed offset is that of the message fetched
    last, and since that fetch the handler accepted it, or reported that it can
    never be decoded, or failed more than [maxRetries] times, in which case a
    consumer with a DLQ had a (redacted) record of it accepted by the DLQ; the
    handler never fails more than [maxRetries + 1] ordinary times per message.
    The gauge of retained offsets is back where it was. *)
Theorem commits_are_justified E c fuel s e s' :
  rc_ok (retryCfg c) -> Consume E c fuel s = Some (e, s') ->
  exists l, log s' = log s ++ l /\ commits_justified c l /\ held c s' = held c s.
Proof. intros Hrc H. destruct (Consume_spec _ _ _ _ _ _ Hrc H) as [(l & Hl & Hj & _) Hh]. eauto. Qed.

(** A consumer on a script: two messages, the first is poison. *)
Definition sample_msg (n : Z) (v : string) : Message := mkMessage 0 n "k" v 0.
Definition sample_err : error := New "db down".
Definition canceled : error := Err "context.Canceled" "context canceled" [].

Definition sample_env (cancelled : nat -> bool) : Env :=
  mkEnv (fun _ m => if bool_decide (Value m = "poison") then Some sample_err else None)
    (fun n => if cancelled n then Some canceled else None)
    (fun n => if cancelled n then Some canceled else None)
    (fun _ _ _ => None)
    (fun n => Ok (if (n <=? 1)%nat then sample_msg 0 "poison" else sample_msg 1 "{}"))
    (fun _ _ => None) (fun _ => 0).

Definition st0 : St := mkSt 0 ∅ [].
Definition committed (l : list effect) : list Z :=
  omap (fun ef => match ef with ECommit m None => Some (Offset m) | _ => None end) l.

Lemma commits_are_justified_witness :
  let c := NewConsumer stage_cfg "order.events" in
  let E := sample_env (Nat.leb 18) in
  exists e s', Consume E c 20 st0 = Some (e, s') /\ committed (log s') = [0; 1] /\
    commits_justified c (log s') /\ held c s' = 0.
Proof.
  intros c E.
  assert (option_map (fun r => committed (log r.2)) (Consume E c 20 st0) = Some [0; 1]) as Hrun
    by (vm_compute; reflexivity).
  destruct (Consume E c 20 st0) as [[e s']|] eqn:Ec; [|discriminate Hrun].
  injection Hrun as Hrun. simpl in Hrun.
  destruct (commits_are_justified E c 20 st0 e s') as (l & Hl & Hj & Hh);
    [vm_compute; intuition congruence|exact Ec|].
  simpl in Hl. exists e, s'. rewrite Hl in *. split_and!; [reflexivity|exact Hrun|exact Hj|].
  rewrite Hh. vm_compute. reflexivity.
Defined.

(** ** Shutdown *)

Section Shutdown.
Context (E : Env) (c : Consumer) (N : nat).
Hypothesis cancelled_wait : forall n, (N <= n)%nat -> wait_done E n <> None.
Hypothesis cancelled_ctx : forall n, (N <= n)%nat -> ctx_Err E n <> None.

Lemma dlqValue_clk v s r s' : dlqValue E c v s = (r, s') -> (clk s <= clk s')%nat.
Proof. intros H. by apply dlqValue_spec in H as (_ & _ & ? & _). Qed.
Lemma dlqKey_clk v s r s' : dlqKey E c v s = (r, s') -> (clk s <= clk s')%nat.
Proof. intros H. by apply dlqKey_spec in H as (_ & _ & ? & _). Qed.

(** Waiting at clock [k] either stops the loop or shows that [k < N]. *)
Lemma dlq_wait_stops b n s r s' :
  dlq_wait E c b n s = (r, s') -> clk s' = S (clk s) /\ (r = None -> (clk s < N)%nat).
Proof.
  intros H. apply dlq_wait_spec in H as (_ & _ & -> & ->). split; [done|].
  intros Hn. destruct (decide (N <= clk s)%nat); [|lia]. by destruct (cancelled_wait (clk s)).
Qed.

Lemma sendToDLQ_returns fuel b n msg he s :
  (0 < fuel)%nat -> (N < clk s + fuel)%nat ->
  exists e s', sendToDLQUntilSuccess E c fuel b n msg he s = Some (e, s') /\ (clk s <= clk s')%nat.
Proof.
  revert b n s. induction fuel as [|fuel IH]; intros b n s H0 Hf; [lia|].
  cbn [sendToDLQUntilSuccess].
  assert (forall s1, (clk s <= clk s1)%nat -> exists e s',
    match dlq_wait E c b n s1 with
    | (Some e, s) => Some (Some e, release c true s)
    | (None, s) => sendToDLQUntilSuccess E c fuel true (int_inc n) msg he s
    end = Some (e, s') /\ (clk s <= clk s')%nat) as Hretry.
  { intros s1 H1. destruct (dlq_wait E c b n s1) as [[x|] s2] eqn:Ew;
      destruct (dlq_wait_stops _ _ _ _ _ Ew) as [H2 H3].
    - eexists _, _. split; [done|]. rewrite clk_release. lia.
    - specialize (H3 eq_refl). destruct (IH true (int_inc n) s2) as (e & s' & H4 & H5); [lia|lia|].
      exists e, s'. split; [done|lia]. }
  destruct (dlqValue E c (Value msg) s) as [[v|] s1] eqn:Ev; apply dlqValue_clk in Ev; [|auto].
  destruct (dlqKey E c (Key msg) s1) as [[k|] s2] eqn:Ek; apply dlqKey_clk in Ek; [|apply Hretry; lia].
  unfold sendToDLQ. destruct (publish E _ _ _); simpl.
  - apply Hretry. simpl. lia.
  - eexists _, _. split; [done|]. rewrite clk_release. simpl. lia.
Qed.

Lemma handleWithRetry_returns fuel nr nc b msg s :
  (1 < fuel)%nat -> (N + 1 < clk s + fuel)%nat ->
  exists r s', handleWithRetry E c fuel nr nc b msg s = Some (r, s') /\ (clk s < clk s')%nat.
Proof.
  revert nr nc b s. induction fuel as [|fuel IH]; intros nr nc b s H0 Hf; [lia|].
  cbn [handleWithRetry]. destruct (handler E (clk s) msg) as [he|].
  2:{ eexists _, _. split; [done|]. rewrite clk_release. simpl. lia. }
  set (s1 := emit (EHandle msg (Some he)) s).
  assert (forall d nr nc b s2 (g : St -> St),
    clk s2 = S (clk s) -> (forall s, clk (g s) = clk s) -> exists q s',
    match sleep E d s2 with
    | (Some e, s) => Some (false, Some e, g s)
    | (None, s) => handleWithRetry E c fuel nr nc b msg s
    end = Some (q, s') /\ (clk s < clk s')%nat) as Hwait.
  { intros d nr' nc' b' s2 g H2 Hg. unfold sleep. destruct (wait_done E (clk s2)) as [x|] eqn:Ew.
    - eexists _, _. split; [done|]. rewrite Hg. simpl. lia.
    - assert (clk s2 < N)%nat by (destruct (decide (N <= clk s2)%nat); [by destruct (cancelled_wait (clk s2))|lia]).
      destruct (IH nr' nc' b' (emit (ESleep d) s2)) as (q & s' & H3 & H4);
        [lia|simpl; lia|].
      exists q, s'. split; [done|]. simpl in H4. lia. }
  destruct (IsRetryUntilCanceled he); [|destruct (IsUnmarshalError he); [|destruct (Z.ltb nr _)]].
  - apply (Hwait _ _ _ _ _ (release c true)); [simpl; by rewrite clk_retain|apply clk_release].
  - eexists _, _. split; [done|]. simpl. rewrite clk_release. simpl. lia.
  - apply (Hwait _ _ _ _ _ (fun s => s)); [simpl; by rewrite clk_release|done].
  - destruct (dlqProducer c).
    + destruct (sendToDLQ_returns fuel false 0 msg he (release c b s1)) as (e & s' & -> & Hc);
        rewrite ?clk_release in *; simpl in *; [lia|lia|].
      destruct e; eexists _, _; (split; [done|lia]).
    + eexists _, _. split; [done|]. simpl. rewrite clk_release. simpl. lia.
Qed.

Lemma Consume_returns fuel s :
  (2 < fuel)%nat -> (N + 2 < clk s + fuel)%nat -> exists r, Consume E c fuel s = Some r.
Proof.
  revert s. induction fuel as [|fuel IH]; intros s H0 Hf; [lia|].
  cbn [Consume]. destruct (ctx_Err E (clk s)) eqn:Ec; [by eexists|].
  assert (clk s < N)%nat.
  { destruct (decide (N <= clk s)%nat); [by destruct (cancelled_ctx (clk s))|lia]. }
  destruct (fetch E (clk (tick s))) as [msg|].
  2:{ destruct (ctx_Err E (clk (tick (tick s)))); [by eexists|]. apply IH; simpl; lia. }
  destruct (handleWithRetry_returns fuel 0 0 false msg (emit (EFetch msg) (tick s)))
    as ([cm herr] & s1 & -> & Hc); [lia|simpl; lia|]. simpl in Hc.
  destruct cm; [|by eexists]. destruct (commit E _ _), herr; apply IH; simpl; lia.
Qed.
End Shutdown.

(** C7: shutdown is prompt.  When the context is cancelled from the [N]-th
    interaction on (a [select] on it and a timer then sees the cancellation),
    the consumer's loop returns, whatever the handler, the redactors, the DLQ
    and the broker do, within [N + 3] turns of its loops, counting what it is
    nested in. *)
Theorem shutdown_stops_consumer E c N s fuel :
  (forall n, (N <= n)%nat -> wait_done E n <> None) ->
  (forall n, (N <= n)%nat -> ctx_Err E n <> None) ->
  (N + 3 <= fuel)%nat ->
  exists e s', Consume E c fuel s = Some (e, s').
Proof.
  intros Hw Hc Hf. destruct (Consume_returns E c N Hw Hc fuel s) as [[e s'] H]; [lia|lia|eauto].
Qed.

Lemma shutdown_stops_consumer_witness :
  exists e s', Consume (sample_env (Nat.leb 4)) (NewConsumer stage_cfg "order.events") 7 st0 = Some (e, s').
Proof.
  apply (shutdown_stops_consumer (sample_env (Nat.leb 4)) (NewConsumer stage_cfg "order.events") 4 st0 7).
  - intros n Hn. simpl. destruct n as [|[|[|[|n]]]]; [lia|lia|lia|lia|]. discriminate.
  - intros n Hn. simpl. destruct n as [|[|[|[|n]]]]; [lia|lia|lia|lia|]. discriminate.
  - lia.
Defined.

(** ** A message whose handler keeps failing *)

(** The wait before attempt [i + 1], in closed form: the minimum once, then
    doubled every time up to the cap. *)
Definition scheduled_delay (rc : retryConfig) (i : Z) : Duration :=
  if i =? 0 then backoffMin rc else Z.min (backoffMin rc * 2 ^ i) (backoffMax rc).

(** [k] failed attempts from the [i]-th on, each followed by its wait. *)
Fixpoint retries (rc : retryConfig) (msg : Message) (he : error) (k : nat) (i : Z) : list effect :=
  match k with
  | O => []
  | S k => EHandle msg (Some he) :: ESleep (scheduled_delay rc i) :: retries rc msg he k (i + 1)
  end.

Lemma calcBackoff_scheduled rc i : rc_ok rc -> 0 <= i -> calcBackoff rc i = scheduled_delay rc i.
Proof.
  intros Hrc Hi. unfold scheduled_delay. destruct (Z.eqb_spec i 0) as [->|]; [done|].
  apply calcBackoff_spec; [done|lia].
Qed.

Section Poison.
Context (E : Env) (c : Consumer) (msg : Message) (he : error).
Hypothesis poison : forall n, handler E n msg = Some he.
Hypothesis he_ordinary : ordinary he = true.
Hypothesis not_cancelled : forall n, wait_done E n = None.
Hypothesis configured : rc_ok (retryCfg c).

Lemma he_kind : IsRetryUntilCanceled he = false /\ IsUnmarshalError he = false.
Proof.
  unfold ordinary in he_ordinary. by destruct (IsRetryUntilCanceled he), (IsUnmarshalError he).
Qed.

Lemma poison_attempts k fuel nr nc s :
  0 <= nr -> maxRetries (retryCfg c) = nr + Z.of_nat k ->
  exists s1, handleWithRetry E c (k + fuel) nr nc false msg s =
    handleWithRetry E c fuel (maxRetries (retryCfg c)) nc false msg s1 /\
    log s1 = log s ++ retries (retryCfg c) msg he k nr.
Proof.
  destruct he_kind as [Hr Hu]. pose proof configured as (Hmax & _).
  revert nr s. induction k as [|k IH]; intros nr s Hnr Hk; simpl.
  - exists s. rewrite app_nil_r. split; [|done]. f_equal. lia.
  - rewrite poison, Hr, Hu, not_cancelled. rewrite (proj2 (Z.ltb_lt _ _)) by lia.
    rewrite int_inc_small by (unfold int64_min; lia).
    destruct (IH (nr + 1) (emit (ESleep (calcBackoff (retryCfg c) nr))
      (upd (RecordKafkaConsumerRetry (topic c) (groupID c)) (release c false (emit (EHandle msg (Some he)) s)))))
      as (s1 & H1 & H2); [lia|lia|].
    exists s1. split; [exact H1|]. rewrite H2, calcBackoff_scheduled by (done || lia).
    simpl. by rewrite <- !app_assoc.
Qed.

Definition rejected_payload (n : nat) : dlqPayload :=
  mkPayload (topic c) (Key msg) (Value msg) (ErrorText he) (maxRetries (retryCfg c)) (clock E n).

(** What handling a poison message adds to the log. *)
Definition poison_log (n : nat) : list effect :=
  retries (retryCfg c) msg he (Z.to_nat (maxRetries (retryCfg c))) 0 ++
  EHandle msg (Some he) :: (if dlqProducer c then [EDLQ (Key msg) (rejected_payload n) None] else []).

Lemma handleWithRetry_poison fuel s :
  (dlqProducer c = true ->
     dlqValueRedactor c = None /\ dlqKeyRedactor c = None /\ forall n k p, publish E n k p = None) ->
  maxRetries (retryCfg c) + 1 < Z.of_nat fuel ->
  exists err s' n, handleWithRetry E c fuel 0 0 false msg s = Some (true, Some err, s') /\
    log s' = log s ++ poison_log n.
Proof.
  intros Hd Hf. pose proof configured as (Hmax & _). unfold poison_log.
  set (k := Z.to_nat (maxRetries (retryCfg c))) in *.
  replace fuel with (k + S (S (fuel - k - 2)))%nat by lia.
  destruct (poison_attempts k (S (S (fuel - k - 2))) 0 0 s) as (s1 & -> & Hl); [lia|lia|].
  destruct he_kind as [Hr Hu]. set (f := S (fuel - k - 2)).
  cbn [handleWithRetry]. rewrite poison, Hr, Hu, Z.ltb_irrefl.
  destruct (dlqProducer c).
  - destruct (Hd eq_refl) as (Hv & Hk & Hp). unfold f. simpl. unfold dlqValue, dlqKey, sendToDLQ.
    rewrite Hv, Hk, Hp. eexists _, _, _. split; [done|]. simpl. rewrite Hl, <- !app_assoc. done.
  - eexists _, _, 0%nat. split; [done|]. simpl. by rewrite Hl, <- app_assoc.
Qed.
End Poison.

(** C8: one turn of the consumer's loop on a poison message, uncancelled.  When
    [Consume] fetches a message that the handler always fails on with an
    ordinary error, and no wait is cut short by the context, it calls the
    handler exactly [maxRetries + 1] times, waiting [backoffMin] after the first
    failure and [min(backoffMin * 2^i, backoffMax)] after failure [i] of the
    later ones; then it publishes one record with the message's own key and
    value to the DLQ, if it has one (which is assumed to accept records, with no
    redactor configured), asks the broker to commit the message's offset, and
    goes on to the next fetch whatever the broker answered. *)
Theorem poison_message_schedule E c msg he fuel s :
  ctx_Err E (clk s) = None -> fetch E (S (clk s)) = Ok msg ->
  (forall n, handler E n msg = Some he) -> ordinary he = true -> (forall n, wait_done E n = None) ->
  rc_ok (retryCfg c) ->
  (dlqProducer c = true ->
     dlqValueRedactor c = None /\ dlqKeyRedactor c = None /\ forall n k p, publish E n k p = None) ->
  maxRetries (retryCfg c) + 1 < Z.of_nat fuel ->
  exists s' n out, Consume E c (S fuel) s = Consume E c fuel s' /\
    log s' = log s ++ EFetch msg ::
      retries (retryCfg c) msg he (Z.to_nat (maxRetries (retryCfg c))) 0 ++
      EHandle msg (Some he) ::
      (if dlqProducer c then [EDLQ (Key msg) (rejected_payload E c msg he n) None] else []) ++
      [ECommit msg out].
Proof.
  intros Hc Hfe Hh Ho Hw Hrc Hd Hf.
  destruct (handleWithRetry_poison E c msg he Hh Ho Hw Hrc fuel (emit (EFetch msg) (tick s)) Hd Hf)
    as (err & s1 & n & Hr & Hl).
  exists (emit (ECommit msg (commit E (clk s1) msg)) s1), n, (commit E (clk s1) msg).
  cbn [Consume]. rewrite Hc. simpl. rewrite Hfe, Hr. split; [by destruct (commit E _ _)|].
  rewrite Hl. unfold poison_log. simpl. by rewrite <- !app_assoc.
Qed.

(** The configured defaults give waits of 100, 200, 400, 800 and 1600 ms. *)
Lemma poison_message_schedule_witness :
  let c := NewConsumer stage_cfg "order.events" in
  let E := sample_env (fun _ => false) in
  let m := sample_msg 0 "poison" in
  let failed d := [EHandle m (Some sample_err); ESleep (d * Millisecond)] in
  exists s' n out, Consume E c 8 st0 = Consume E c 7 s' /\
    log s' = EFetch m :: failed 100 ++ failed 200 ++ failed 400 ++ failed 800 ++ failed 1600 ++
      [EHandle m (Some sample_err); EDLQ "k" (rejected_payload E c m sample_err n) None; ECommit m out].
Proof.
  intros c E m failed.
  destruct (poison_message_schedule E c m sample_err 7 st0)
    as (s' & n & out & Hr & Hl);
    [done|done|done|done|done|vm_compute; intuition congruence|done|done|].
  exists s', n, out. split; [exact Hr|]. rewrite Hl. reflexivity.
Defined.

(** ** Redaction *)

Definition decode_redactor (opts : list ConsumerOption) : option (option DLQRedactor) :=
  fold_left (fun acc o => match o with WithEventDecodeErrorsToDLQ r => Some r | _ => acc end) opts None.

Lemma apply_options_decode opts c acc :
  (eventDecodeErrorsToDLQ c = true -> acc = Some (eventDecodeRedactor c)) ->
  (eventDecodeErrorsToDLQ c = false -> acc = None) ->
  let c' := fold_left apply_option opts c in
  let acc' := fold_left (fun acc o => match o with WithEventDecodeErrorsToDLQ r => Some r | _ => acc end) opts acc in
  (forall r, acc' = Some r -> eventDecodeErrorsToDLQ c' = true /\ eventDecodeRedactor c' = r).
Proof.
  revert c acc. induction opts as [|o opts IH]; intros c acc H1 H2 c' acc' r Hr.
  - simpl in acc', c'. subst c' acc'. destruct (eventDecodeErrorsToDLQ c).
    + rewrite H1 in Hr by done. by simplify_eq.
    + rewrite H2 in Hr by done. done.
  - simpl in acc', c'. eapply (IH (apply_option c o)); [| |exact Hr].
    + by destruct o; simpl.
    + by destruct o; simpl.
Qed.

Lemma decode_options_final cfg t opts r :
  decode_redactor opts = Some r ->
  let c := NewConsumerWithOptions cfg t opts in
  dlqValueRedactor c = Some (default missing_redactor r) /\ dlqKeyRedactor c = Some drop_key.
Proof.
  intros H. unfold NewConsumerWithOptions, finalizeOptions.
  set (c0 := mkConsumer _ _ _ _ _ _ _ _ _).
  destruct (apply_options_decode opts c0 None) with (r := r) as [-> ->]; [done|done|exact H|].
  done.
Qed.

Lemma retryCfg_options cfg t opts : retryCfg (NewConsumerWithOptions cfg t opts) = newRetryConfig cfg.
Proof.
  unfold NewConsumerWithOptions, finalizeOptions. set (c0 := mkConsumer _ _ _ _ _ _ _ _ _).
  assert (retryCfg (fold_left apply_option opts c0) = retryCfg c0) as H.
  { generalize c0. induction opts as [|o opts IH]; intros c1; [done|]. simpl. rewrite IH. by destruct o. }
  destruct (negb _); [by rewrite H|]. simpl. by rewrite H.
Qed.

(** C9: redaction of malformed events cannot be bypassed.  However the options
    are ordered, a consumer built with [WithEventDecodeErrorsToDLQ] publishes to
    the DLQ only records with an empty key whose value is an output of the last
    redactor given to that option, checked to be JSON; with a nil redactor it
    publishes nothing. *)
Theorem decode_dlq_is_redacted E cfg t opts r fuel s e s' key p out :
  rc_ok (newRetryConfig cfg) -> decode_redactor opts = Some r ->
  Consume E (NewConsumerWithOptions cfg t opts) fuel s = Some (e, s') ->
  exists l, log s' = log s ++ l /\
    (In (EDLQ key p out) l ->
       key = "" /\ OriginalKey p = "" /\ GoJson.Valid (OriginalValue p) = true /\
       exists f m n, r = Some f /\ f n (Value m) = Ok (OriginalValue p)).
Proof.
  intros Hrc Hopt H. destruct (decode_options_final cfg t opts r Hopt) as [Hv Hk].
  set (c := NewConsumerWithOptions cfg t opts) in *.
  assert (retryCfg c = newRetryConfig cfg) as Hc by apply retryCfg_options.
  apply Consume_spec in H as [(l & Hl & _ & Hr) _]; [|by rewrite Hc].
  exists l. split; [done|]. intros Hin.
  rewrite List.Forall_forall in Hr. destruct (Hr _ Hin) as (m & _ & H2 & H3 & H4).
  rewrite Hv in H3. rewrite Hk in H4. destruct H3 as [[n Hn] Hj], H4 as [n' Hn'].
  unfold drop_key in Hn'. simplify_eq. split_and!; [done|done|done|].
  destruct r as [f|]; [|done]. by exists f, m, n.
Qed.


Definition hide : DLQRedactor := fun _ _ => Ok "{}".
Definition raw : DLQRedactor := fun _ v => Ok v.

Lemma decode_dlq_is_redacted_witness :
  let opts := [WithEventDecodeErrorsToDLQ (Some hide); NilOption; WithDLQValueRedactor (Some raw);
               WithDLQKeyRedactor None] in
  let E := sample_env (Nat.leb 18) in
  exists e s' p out, Consume E (NewConsumerWithOptions stage_cfg "order.events" opts) 20 st0 = Some (e, s') /\
    In (EDLQ "" p out) (log s') /\ OriginalKey p = "" /\ GoJson.Valid (OriginalValue p) = true.
Proof.
  intros opts E. set (c := NewConsumerWithOptions stage_cfg "order.events" opts).
  set (p := mkPayload (topic c) "" "{}" "db down" 5 0).
  assert (option_map (fun r => nth 12 (log r.2) (EFetch (sample_msg 0 ""))) (Consume E c 20 st0) =
    Some (EDLQ "" p None)) as Hrun by (vm_compute; reflexivity).
  destruct (Consume E c 20 st0) as [[e s']|] eqn:Ec; [|discriminate Hrun].
  injection Hrun as Hrun. simpl in Hrun.
  destruct (decode_dlq_is_redacted E stage_cfg "order.events" opts (Some hide) 20 st0 e s' "" p None)
    as (l & Hl & Hin); [vm_compute; intuition congruence|reflexivity|exact Ec|].
  simpl in Hl. exists e, s', p, None. rewrite Hl in *. split; [reflexivity|].
  assert (In (EDLQ "" p None) l) as Hi.
  { rewrite <- Hrun. apply nth_In. destruct (decide (12 < length l)%nat); [done|].
    rewrite nth_overflow in Hrun by lia. discriminate Hrun. }
  destruct (Hin Hi) as (_ & H1 & H2 & _). auto.
Defined.
