(* ===== verification/KafkaEvent.v ===== *)
(** * The event envelope of kafka/kafka.go

    [FlexibleTime] with its two JSON methods, [Event] and [Metadata] as
    encoding/json reads and writes them, and the dead-letter envelope of
    kafka/retry.go.  A [FlexibleTime] is a [Stamp]: the instant and the offset of
    its location.  The location of the process and the result of converting a
    float that is no int64 are parameters. *)

From Stdlib Require Import Ascii.
From S2P Require Import Prelude GoError GoString GoStrconv GoJson GoJsonString GoTime Metrics Kafka KafkaConsumer KafkaDelivery.
Import KafkaError Backoff.

Open Scope Z_scope.

(** ** Numbers as float64 *)

(** A JSON number as sign, digits and decimal exponent. *)
Definition literal_parts (s : string) : option (bool * Z * Z) :=
  let (m, s1) := scan_minus s in
  '(i, s2) ← scan_int s1;
  '(f, s3) ← scan_frac s2;
  '(e, _) ← scan_exp s3;
  let frac := drop_string 1 f in
  let (sg, d) := scan_sign (drop_string 1 e) in
  let x := digits_value 0 d in
  Some (bool_decide (m = "-"), digits_value 0 (i +:+ frac),
        (if bool_decide (sg = "-") then - x else x) - Z.of_nat (String.length frac)).

(** [p / q] rounded to an integer, ties to even. *)
Definition round_even (p q : Z) : Z :=
  let n := p / q in
  let r := p mod q in
  if (2 * r <? q) || ((2 * r =? q) && Z.even n) then n else n + 1.

(** The integer part of the float64 nearest to [p / q]; [None] when it is out of
    the float64 range. *)
Definition float64_trunc (p q : Z) : option Z :=
  if p =? 0 then Some 0
  else
    let l := Z.log2 p - Z.log2 q in
    let k := if p * 2 ^ Z.max 0 (- l) <? q * 2 ^ Z.max 0 l then l - 1 else l in
    let sh := k - 52 in
    let n := round_even (p * 2 ^ Z.max 0 (- sh)) (q * 2 ^ Z.max 0 sh) in
    let v := n * 2 ^ Z.max 0 sh / 2 ^ Z.max 0 (- sh) in
    if 2 ^ 1024 <=? v then None else Some v.

(** [ParseFloat(lit, 64)], its integer part. *)
Definition ParseFloat_trunc (lit : string) : option Z :=
  '(neg, m, e) ← literal_parts lit;
  v ← float64_trunc (m * 10 ^ Z.max 0 e) (10 ^ Z.max 0 (- e));
  Some (if neg : bool then - v else v).

Example float_1 : ParseFloat_trunc "1700000000.999" = Some 1700000000.
Proof. reflexivity. Qed.
Example float_2 : ParseFloat_trunc "-1.5e3" = Some (-1500).
Proof. reflexivity. Qed.
Example float_3 : ParseFloat_trunc "9007199254740993" = Some 9007199254740992.
Proof. reflexivity. Qed.
Example float_4 : ParseFloat_trunc "0.99999999999999999" = Some 1.
Proof. reflexivity. Qed.
Example float_5 : ParseFloat_trunc "1e400" = None.
Proof. reflexivity. Qed.

Section Codec.
Context (local_offset : Z -> Z) (int64_of_float : Z -> Z).

(** ** FlexibleTime *)

(** [time.Unix(sec, 0)]: in the local zone; the seconds are counted from year 1 in
    an int64. *)
Definition Unix (sec : Z) : Stamp :=
  let s := wrap64 (sec + 62135596800) - 62135596800 in mkStamp (s * Second) (local_offset s).

(** [int64(f)] of a float with integer part [v]. *)
Definition to_int64 (v : Z) : Z := if (int64_min <=? v) && (v <=? int64_max) then v else int64_of_float v.

(** The texts of the errors leave out the quoted input. *)
Definition time_of_text (str : string) : result error Stamp :=
  match Parse_RFC3339 str with
  | Some t => Ok t
  | None =>
    match Parse_RFC3339Nano str with
    | Some t => Ok t
    | None =>
      match ParseInt str with
      | Ok unix => Ok (Unix unix)
      | Fail _ => Fail (New "failed to parse time string")
      end
    end
  end.

(** [ft.UnmarshalJSON(data)]; json.Unmarshal of null into a string leaves it
    empty and is no error. *)
Definition FlexibleTime_UnmarshalJSON (data : string) : result error Stamp :=
  match parse data with
  | Some (JStr r) => time_of_text (unquote r)
  | Some JNull => time_of_text ""
  | Some (JNum lit) =>
    match ParseFloat_trunc lit with
    | Some v => Ok (Unix (to_int64 v))
    | None => Fail (New "time value is not a string or number")
    end
  | _ => Fail (New "time value is not a string or number")
  end.

(** [ft.MarshalJSON()] *)
Definition FlexibleTime_MarshalJSON (t : Stamp) : string := print (jstr (Format_RFC3339 t)).

(** ** Event *)

Record Metadata := mkMetadata { UserID : Z; RequestID : string; TraceID : string }.

(** [Data] is nil or bytes. *)
Record Event := mkEvent {
  ID : string;
  Type_ : string;
  Source : string;
  Data : option string;
  Timestamp : Stamp;
  ev_Metadata : Metadata
}.

Definition zero_event : Event := mkEvent "" "" "" None (mkStamp zero_time 0) (mkMetadata 0 "" "").

Definition metadata_json (m : Metadata) : json :=
  JObj (omit (UserID m =? 0) ("user_id", JNum (Itoa (UserID m))) ++
        omit (bool_decide (RequestID m = "")) ("request_id", jstr (RequestID m)) ++
        omit (bool_decide (TraceID m = "")) ("trace_id", jstr (TraceID m))).

(** [RawMessage.MarshalJSON], copied into the surrounding text: nil is null, what
    is not JSON is an error. *)
Definition raw_json (d : option string) : option json :=
  match d with
  | None => Some JNull
  | Some s => escaped <$> parse s
  end.

Definition event_json (e : Event) (data : json) : json :=
  JObj [("id", jstr (ID e)); ("type", jstr (Type_ e)); ("source", jstr (Source e)); ("data", data);
        ("timestamp", jstr (Format_RFC3339 (Timestamp e))); ("metadata", metadata_json (ev_Metadata e))].

Definition MarshalerError : error := New "json: error calling MarshalJSON for type json.RawMessage".

(** [json.Marshal(event)] *)
Definition Event_Marshal (e : Event) : result error string :=
  match raw_json (Data e) with
  | Some data => Ok (print (event_json e data))
  | None => Fail MarshalerError
  end.

Definition metadata_member (st : Metadata * bool) (kv : string * json) : Metadata * bool :=
  let (k, v) := kv in
  let m := st.1 in
  if same_name "user_id" k then store (into_int64 v (UserID m)) (fun n => mkMetadata n (RequestID m) (TraceID m)) st
  else if same_name "request_id" k then
    store (into_string v (RequestID m)) (fun s => mkMetadata (UserID m) s (TraceID m)) st
  else if same_name "trace_id" k then
    store (into_string v (TraceID m)) (fun s => mkMetadata (UserID m) (RequestID m) s) st
  else st.

Definition into_metadata (v : json) (m : Metadata) : Metadata * bool :=
  match v with
  | JObj l => fold_left metadata_member l (m, false)
  | JNull => (m, false)
  | _ => (m, true)
  end.

Definition set_ID s e := mkEvent s (Type_ e) (Source e) (Data e) (Timestamp e) (ev_Metadata e).
Definition set_Type s e := mkEvent (ID e) s (Source e) (Data e) (Timestamp e) (ev_Metadata e).
Definition set_Source s e := mkEvent (ID e) (Type_ e) s (Data e) (Timestamp e) (ev_Metadata e).
Definition set_Data d e := mkEvent (ID e) (Type_ e) (Source e) d (Timestamp e) (ev_Metadata e).
Definition set_Timestamp t e := mkEvent (ID e) (Type_ e) (Source e) (Data e) t (ev_Metadata e).
Definition set_Metadata m e := mkEvent (ID e) (Type_ e) (Source e) (Data e) (Timestamp e) m.

(** One member of the object; an error of [UnmarshalJSON] ends the decoding. *)
Definition event_member (st : Event * bool) (m : string * json * string) : result error (Event * bool) :=
  let '(k, v, text) := m in
  let e := st.1 in
  if same_name "id" k then Ok (store (into_string v (ID e)) (fun s => set_ID s e) st)
  else if same_name "type" k then Ok (store (into_string v (Type_ e)) (fun s => set_Type s e) st)
  else if same_name "source" k then Ok (store (into_string v (Source e)) (fun s => set_Source s e) st)
  else if same_name "data" k then Ok (set_Data (Some text) e, st.2)
  else if same_name "timestamp" k then
    let? t := FlexibleTime_UnmarshalJSON text in Ok (set_Timestamp t e, st.2)
  else if same_name "metadata" k then
    let (md, bad) := into_metadata v (ev_Metadata e) in Ok (set_Metadata md e, st.2 || bad)
  else Ok st.

Fixpoint event_members (st : Event * bool) (l : list (string * json * string)) : result error (Event * bool) :=
  match l with
  | [] => Ok st
  | m :: l => let? st' := event_member st m in event_members st' l
  end.

(** [var event Event; json.Unmarshal(value, &event)] *)
Definition Event_Unmarshal (text : string) : result error Event :=
  match parse text with
  | None => Fail SyntaxError
  | Some JNull => Ok zero_event
  | Some (JObj _) =>
    match top_members text with
    | Some l =>
      let? st := event_members (zero_event, false) l in
      if (st.2 : bool) then Fail UnmarshalTypeError else Ok st.1
    | None => Fail SyntaxError
    end
  | Some _ => Fail UnmarshalTypeError
  end.
End Codec.

(** ** Round trip *)

(** What the type's strings must be for JSON to keep them. *)
Definition text_ok (e : Event) : bool :=
  forallb valid_utf8 [ID e; Type_ e; Source e; RequestID (ev_Metadata e); TraceID (ev_Metadata e)].

Definition stamp_ok (t : Stamp) : Prop := 0 <= shown_year t <= 9999 /\ zone_ok (zone t) = true.

(** The event a consumer gets: the payload compacted, the time cut to seconds. *)
Definition delivered (e : Event) (data : json) : Event :=
  set_Timestamp (whole (Timestamp e)) (set_Data (Some (print data)) e).

Lemma dig_ascii n : 0 <= n < 10 -> is_ascii_byte (dig n) = true.
Proof. intros Hn. unfold is_ascii_byte, dig. rewrite code_byte_of by lia. lia. Qed.

Lemma two_ascii n : 0 <= n < 100 -> is_ascii (two n) = true.
Proof.
  intros Hn. unfold two. cbn [is_ascii byte1].
  by rewrite !dig_ascii by (Z.to_euclidean_division_equations; lia).
Qed.

Lemma four_ascii n : 0 <= n < 10000 -> is_ascii (four n) = true.
Proof.
  intros Hn. unfold four. cbn [is_ascii byte1].
  by rewrite !dig_ascii by (Z.to_euclidean_division_equations; lia).
Qed.

Lemma Format_ascii t : stamp_ok t -> is_ascii (Format_RFC3339 t) = true.
Proof.
  intros [Hy Hz]. unfold Format_RFC3339. cbv zeta. fold (local_day t). unfold shown_year in Hy.
  set (secs := (instant t / Second + zone t) mod 86400).
  assert (0 <= secs < 86400) as Hs by (apply Z.mod_pos_bound; lia).
  pose proof (date_of_day_spec (local_day t)) as Hd.
  assert ((date_of_day (local_day t)).1.1 = year_of (local_day t)) as Hyear.
  { unfold date_of_day. cbv zeta. by destruct (locate _ _ _). }
  destruct (date_of_day (local_day t)) as [[y m] d]. cbn [fst] in Hyear. subst y. destruct Hd as [Hv _].
  apply valid_date_range in Hv as [Hm Hd]. rewrite !is_ascii_app, !two_ascii by (Z.to_euclidean_division_equations; lia).
  unfold append_year. rewrite Z.abs_eq, is_ascii_app, (proj2 (Z.ltb_ge _ 0)), (proj2 (Z.ltb_lt _ 10000)), four_ascii by lia.
  unfold format_zone, zone_ok in *. to_prop. destruct (zone t =? 0); [done|]. cbv zeta.
  rewrite !is_ascii_app, !two_ascii by (Z.to_euclidean_division_equations; lia). by destruct (_ <? 0).
Qed.

Section RoundTrip.
Context (local_offset : Z -> Z) (int64_of_float : Z -> Z).

Lemma FlexibleTime_roundtrip t : stamp_ok t ->
  FlexibleTime_UnmarshalJSON local_offset int64_of_float (FlexibleTime_MarshalJSON t) = Ok (whole t).
Proof.
  intros Ht. pose proof (Format_ascii t Ht) as Ha. destruct Ht as [Hy Hz].
  unfold FlexibleTime_UnmarshalJSON, FlexibleTime_MarshalJSON. rewrite parse_print; [|apply jstr_wf|simpl; lia].
  unfold jstr, time_of_text. by rewrite unquote_quote, Parse_Format by (done || by apply is_ascii_valid).
Qed.

Lemma metadata_roundtrip m :
  valid_utf8 (RequestID m) = true -> valid_utf8 (TraceID m) = true -> in_int64 (UserID m) ->
  into_metadata (metadata_json m) (mkMetadata 0 "" "") = (m, false).
Proof.
  intros Hr Ht Hu. destruct m as [u r t]. unfold into_metadata, metadata_json, omit. cbn [UserID RequestID TraceID] in *.
  assert (into_int64 (JNum (Itoa u)) 0 = Some u) as Hi by (cbn; by rewrite ParseInt_Itoa).
  destruct (Z.eqb_spec u 0) as [->|], (bool_decide_reflect (r = "")) as [->|], (bool_decide_reflect (t = "")) as [->|];
    cbn [app fold_left]; unfold metadata_member; names; cbn [fst snd UserID RequestID TraceID store];
    rewrite ?Hi; cbn [fst snd UserID RequestID TraceID store]; rewrite ?into_jstr by done; done.
Qed.

Lemma metadata_wf m : wf (metadata_json m) = true /\ jdepth (metadata_json m) = 1%nat.
Proof.
  unfold metadata_json, omit. destruct (UserID m =? 0), (bool_decide _), (bool_decide _);
    cbn [app wf forallb jdepth foldr fst snd]; unfold jstr; cbn [wf jdepth]; rewrite ?num_ok_Itoa, ?quote_raw_ok; done.
Qed.

Lemma event_wf e data : wf data = true -> (jdepth data < maxNestingDepth)%nat ->
  wf (event_json e data) = true /\ (jdepth (event_json e data) <= maxNestingDepth)%nat.
Proof.
  intros Hw Hd. destruct (metadata_wf (ev_Metadata e)) as [Hm Hmd]. unfold event_json.
  cbn [wf forallb jdepth foldr fst snd]. rewrite Hw, Hm, Hmd, !jstr_wf. split; [done|].
  unfold jstr. cbn [jdepth]. pose proof maxNestingDepth_3. lia.
Qed.

(** Reading back the text of an event. *)
Lemma Event_Unmarshal_print e data :
  text_ok e = true -> in_int64 (UserID (ev_Metadata e)) -> stamp_ok (Timestamp e) ->
  wf data = true -> (jdepth data < maxNestingDepth)%nat ->
  Event_Unmarshal local_offset int64_of_float (print (event_json e data)) = Ok (delivered e data).
Proof.
  intros Ht Hu Hs Hw Hd. destruct (event_wf e data Hw Hd) as [Hew Hed].
  unfold Event_Unmarshal. rewrite parse_print by done. unfold event_json in *. rewrite top_members_print by done.
  unfold text_ok in Ht. cbn [forallb] in Ht. to_prop. cbn [map]. unfold with_text. cbn [snd event_members].
  unfold event_member at 1. names. rewrite into_jstr by done. cbn [store rbind fst snd].
  unfold event_member at 1. names. rewrite into_jstr by done. cbn [store rbind fst snd].
  unfold event_member at 1. names. rewrite into_jstr by done. cbn [store rbind fst snd].
  unfold event_member at 1. names. cbn [rbind fst snd].
  unfold event_member at 1. names.
  fold (FlexibleTime_MarshalJSON (Timestamp e)). rewrite FlexibleTime_roundtrip by done. cbn [rbind fst snd].
  unfold event_member at 1. names. cbn [set_Timestamp set_Data set_Source set_Type set_ID zero_event ev_Metadata fst].
  rewrite metadata_roundtrip by done. by destruct e.
Qed.
End RoundTrip.

(** The payload of an event as JSON of a depth that leaves room for the envelope. *)
Definition payload_of (e : Event) (data : json) : Prop :=
  raw_json (Data e) = Some data /\ (jdepth data < maxNestingDepth)%nat.

Lemma raw_json_wf d data : raw_json d = Some data -> wf data = true.
Proof.
  destruct d as [s|]; cbn; [|by intros [= <-]]. destruct (parse s) as [v|] eqn:E; [|done]. intros [= <-].
  apply parse_wf in E as [Hw _]. by apply escaped_wf.
Qed.

(** C11: publishing an event and consuming it are inverse.  An event whose payload
    is JSON, whose strings are UTF-8, whose time shows a year of four digits and
    whose zone is of whole minutes reaches the handler of every consumer of the
    topic as it was published, with the payload compacted and the time cut to the
    second.  An event whose payload is not JSON is refused before anything is
    written. *)
Theorem event_roundtrip local_offset int64_of_float WriteMessages now key e data p b b' err c h n :
  Publish Event_Marshal WriteMessages now key e p b = (err, b') ->
  text_ok e = true -> in_int64 (UserID (ev_Metadata e)) -> stamp_ok (Timestamp e) ->
  (raw_json (Data e) = None -> err <> None /\ b' = b) /\
  (payload_of e data -> err = None ->
   exists msg, acked b' = acked b ++ [(writer p, msg)] /\ Key msg = key /\
     event_handler (Event_Unmarshal local_offset int64_of_float) c h n msg = h n (delivered e data)).
Proof.
  unfold Publish. intros H Ht Hu Hs. destruct (requireKey p && bool_decide (key = "")).
  { injection H as <- <-. split; [by intros|by intros ? ?]. }
  unfold Event_Marshal in H. split.
  - intros Hn. rewrite Hn in H. by injection H as <- <-.
  - intros [Hd Hdep] ->. rewrite Hd in H. unfold write in H.
    destruct (WriteMessages (writer p) _) eqn:Ew; [done|]. injection H as <-.
    exists (mkMessage 0 0 key (print (event_json e data)) now).
    split; [done|]. split; [done|]. unfold event_handler, decodeEvent. cbn [Value].
    by rewrite Event_Unmarshal_print by (done || by eapply raw_json_wf).
Qed.

Definition sample_payload : string := "{ " +:+ qt +:+ "a" +:+ qt +:+ ": [1, " +:+ qt +:+ "<b>" +:+ qt +:+ "] }".

(** An event of order 7, published with a payload that has white space and HTML. *)
Definition sample_event : Event :=
  mkEvent "7" "order.created" "orders" (Some sample_payload) (mkStamp (1709192096 * Second + 250000000) 18000)
    (mkMetadata 42 "req-1" "").

Definition sample_data : json := JObj [("a", JArr [JNum "1"; JStr "\u003cb\u003e"])].

Lemma event_roundtrip_witness :
  exists b' msg, Publish Event_Marshal (fun _ _ => None) 0 "k" sample_event (NewProducer stage_cfg "order.events")
      (mkBroker [] ∅) = (None, b') /\
    acked b' = [(writer (NewProducer stage_cfg "order.events"), msg)] /\
    event_handler (Event_Unmarshal (fun _ => 0) (fun z => z)) (NewConsumer stage_cfg "order.events")
      (fun _ e => Some (New (default "" (Data e)))) 0 msg = Some (New (print sample_data)).
Proof.
  destruct (Publish Event_Marshal (fun _ _ => None) 0 "k" sample_event (NewProducer stage_cfg "order.events")
    (mkBroker [] ∅)) as [err b'] eqn:E.
  destruct (event_roundtrip (fun _ => 0) (fun z => z) (fun _ _ => None) 0 "k" sample_event sample_data
    (NewProducer stage_cfg "order.events") (mkBroker [] ∅) b' err (NewConsumer stage_cfg "order.events")
    (fun _ e => Some (New (default "" (Data e)))) 0 E) as [_ H]; [reflexivity|split; discriminate|split; [|reflexivity]|].
  - split; discriminate.
  - assert (err = None) as Herr.
    { assert ((err, b').1 = None) as He by (rewrite <- E; vm_compute; reflexivity). exact He. }
    destruct H as (msg & Hm & _ & Hh); [|exact Herr|].
    + split; [vm_compute; reflexivity|]. unfold lt. exact maxNestingDepth_3.
    + exists b', msg. rewrite Herr. split; [reflexivity|]. split; [exact Hm|exact Hh].
Defined.

(** ** The notations of a time *)









(** ** The dead-letter envelope *)

Section DeadLetter.
(** Whether an empty value is the nil slice of a tombstone. *)
Context (empty_is_nil : bool).

(** [json.RawMessage(value)] *)
Definition raw_of (v : string) : option string := if empty_is_nil && bool_decide (v = "") then None else Some v.

(** [json.Marshal(payload)] *)
Definition dlqPayload_Marshal (p : dlqPayload) : result error string :=
  match raw_json (raw_of (OriginalValue p)), Time_MarshalJSON (FailedAt p) with
  | None, _ => Fail MarshalerError
  | _, None => Fail (New "json: error calling MarshalJSON for type time.Time: year outside of range [0,9999]")
  | Some v, Some t =>
    Ok (print (JObj [("original_topic", jstr (OriginalTopic p)); ("original_key", jstr (OriginalKey p));
      ("original_value", v); ("error", jstr (ErrorString p)); ("retry_count", JNum (Itoa (RetryCount p)));
      ("failed_at", jstr t)]))
  end.

(** The DLQ publisher of a consumer is a producer; its [n]-th write. *)
Definition dlq_publish (WriteMessages : nat -> Writer -> Message -> Error) (clock : nat -> Time) (prod : Producer)
    (n : nat) (key : string) (p : dlqPayload) : Error :=
  (PublishJSON dlqPayload_Marshal (WriteMessages n) (clock n) key p prod (mkBroker [] ∅)).1.

(** The answer does not depend on what was published before. *)
Lemma PublishJSON_answer {A} (m : A -> result error string) W now key (d : A) prod b b' :
  (PublishJSON m W now key d prod b).1 = (PublishJSON m W now key d prod b').1.
Proof.
  unfold PublishJSON, write. destruct (requireKey prod && bool_decide (key = "")); [done|].
  destruct (m d); [|done]. by destruct (W (writer prod) _).
Qed.

Lemma Valid_parse s : Valid s = false -> parse s = None.
Proof. unfold Valid. intros H. apply bool_decide_eq_false in H. by apply eq_None_not_Some. Qed.

(** A value that is not JSON cannot be put into the envelope. *)
Lemma dlq_publish_refuses W clock prod n key p :
  Valid (OriginalValue p) = false -> OriginalValue p <> "" -> dlq_publish W clock prod n key p <> None.
Proof.
  intros Hv Hne. unfold dlq_publish, PublishJSON. destruct (requireKey prod && bool_decide (key = "")); [done|].
  unfold dlqPayload_Marshal, raw_of. rewrite (bool_decide_eq_false_2 (OriginalValue p = "")), andb_false_r by done.
  cbn [raw_json]. by rewrite Valid_parse.
Qed.

(** C10: the DLQ envelope embeds the raw value as JSON, so encoding a record
    whose value is not JSON fails.  A consumer with a DLQ and no value redactor
    whose handler keeps rejecting such a message never gets past it, whatever the
    broker answers: until it is cancelled it neither commits nor returns, and the
    partition is blocked. *)
Theorem non_json_poison_blocks E c msg he fuel s W prod :
  (forall n, handler E n msg = Some he) -> ordinary he = true -> (forall n, wait_done E n = None) ->
  rc_ok (retryCfg c) -> dlqProducer c = true -> dlqValueRedactor c = None ->
  (forall n k p, publish E n k p = dlq_publish W (clock E) prod n k p) ->
  Valid (Value msg) = false -> Value msg <> "" ->
  handleWithRetry E c fuel 0 0 false msg s = None.
Proof.
  intros Hh Ho Hw (Hmax & _) Hd Hv Hp Hj Hne.
  destruct (he_kind he Ho) as [Hr Hu].
  assert (forall f b n s, sendToDLQUntilSuccess E c f b n msg he s = None) as Hdlq.
  { induction f as [|f IH]; intros b n s1; [done|]. simpl. unfold dlqValue. rewrite Hv.
    unfold dlq_wait, sleep. destruct (dlqKey E c (Key msg) s1) as [[key|] s2]; [|by rewrite Hw].
    unfold sendToDLQ. destruct (publish E _ _ _) eqn:Ep; simpl; [by rewrite Hw|].
    rewrite Hp in Ep. exfalso. revert Ep. by apply dlq_publish_refuses. }
  assert (forall f nr s, 0 <= nr <= maxRetries (retryCfg c) ->
    handleWithRetry E c f nr 0 false msg s = None) as Hloop; [|apply Hloop; lia].
  induction f as [|f IH]; intros nr s1 Hnr; [done|]. simpl. rewrite Hh, Hr, Hu, Hw, Hd, Hdlq.
  destruct (Z.ltb_spec nr (maxRetries (retryCfg c))); [|done].
  rewrite int_inc_small by (unfold int64_min; lia). apply IH. lia.
Qed.
End DeadLetter.

(** The environment of [sample_env] with a producer that writes every record. *)
Definition encoding_env : Env :=
  let E := sample_env (fun _ => false) in
  mkEnv (handler E) (wait_done E) (ctx_Err E)
    (dlq_publish false (fun _ _ _ => None) (clock E) (NewProducer stage_cfg "order.events.dlq"))
    (fetch E) (commit E) (clock E).

Lemma non_json_poison_blocks_witness :
  handleWithRetry encoding_env (NewConsumer stage_cfg "order.events") 1000 0 0 false
    (sample_msg 0 "poison") st0 = None.
Proof.
  apply (non_json_poison_blocks false encoding_env (NewConsumer stage_cfg "order.events")
    (sample_msg 0 "poison") sample_err 1000 st0 (fun _ _ _ => None) (NewProducer stage_cfg "order.events.dlq"));
    [done|done|done|vm_compute; intuition congruence|done|done|done|vm_compute; reflexivity|done].
Defined.

(** The envelope of a record with a JSON value. *)
Example dlq_envelope : dlqPayload_Marshal false (mkPayload "t" "k" "[1, 2]" "db down" 5 0) =
  Ok (print (JObj [("original_topic", JStr "t"); ("original_key", JStr "k"); ("original_value", JArr [JNum "1"; JNum "2"]);
    ("error", JStr "db down"); ("retry_count", JNum "5"); ("failed_at", JStr "1970-01-01T00:00:00Z")])).
Proof. vm_compute. reflexivity. Qed.
