(* ===== verification/Csrf.v ===== *)
(** * middleware/csrf.go: CSRF protection

    A request is its method, path, headers and cookies; Gin's context adds what
    the auth middleware left in it.  A response is what the middleware set before
    handing over, and whether it handed over.  The token store is the interface
    [CSRFStore]; crypto/rand is a parameter. *)

From Stdlib Require Import Ascii.
From S2P Require Import Prelude GoError GoString Encoding.

Open Scope Z_scope.

Definition CSRFTokenHeader : string := "X-CSRF-Token".
Definition CSRFCookieName : string := "_csrf".
Definition CSRFTokenLength : nat := 32.
Definition CSRFKeyPrefix : string := "csrf:".

Record CSRFConfig := mkCSRFConfig {
  Enabled : bool;
  TokenExpiry : Duration;
  CookieDomain : string;
  CookiePath : string;
  CookieSecure : bool;
  CookieSameSite : Z;
  ExcludedPaths : list string
}.

Definition SameSiteStrictMode : Z := 3.
Definition DefaultCSRFConfig : CSRFConfig := mkCSRFConfig true Hour "" "/" true SameSiteStrictMode [].

Record Request := mkRequest {
  Method : string;
  Path : string;
  Header : gmap string string;
  Cookies : gmap string string
}.

(** [gin.Context]: the request, and what it holds under ["user_id"]. *)
Inductive ctx_value := VInt64 (n : Z) | VString (s : string) | VOther.
Record Context := mkContext { request : Request; ctx_user_id : option ctx_value }.

Definition GetHeader (r : Request) (h : string) : string := default "" (Header r !! h).

Record Cookie := mkCookie {
  ck_Name : string; ck_Value : string; ck_Path : string; ck_Domain : string; ck_MaxAge : Z;
  ck_Secure : bool; ck_HttpOnly : bool; ck_SameSite : Z
}.

Inductive verdict := Next | Forbidden.

Record Response := mkResponse {
  set_header : option (string * string);
  set_cookie : option Cookie;
  disposition : verdict
}.
Definition pass : Response := mkResponse None None Next.

(** The store: tokens under keys, with an expiry. *)
Class CSRFStore := {
  store : Type;
  Set_ : Time -> string -> string -> Duration -> store -> Error * store;
  Get_ : Time -> string -> store -> result error string
}.

(** A stored token can be read back until it expires, and storing one leaves
    those of other keys alone. *)
Class CSRFStoreLaws `{CSRFStore} := {
  Get_Set now key token expiry s s' t :
    Set_ now key token expiry s = (None, s') -> now <= t < now + expiry -> Get_ t key s' = Ok token;
  Get_Set_other now key token expiry s e s' t key' :
    Set_ now key token expiry s = (e, s') -> now <= t -> key' <> key -> Get_ t key' s' = Get_ t key' s
}.

(** [RedisCSRFStore] over a Redis client's SET, GET and DEL. *)
Section RedisStore.
Context {R : Type} (redis_Set : Time -> string -> string -> Duration -> R -> Error * R).
Context (redis_Get : Time -> string -> R -> result error string) (redis_Del : Time -> string -> R -> Error * R).

Definition RedisCSRFStore_Set (now : Time) (key token : string) (expiry : Duration) (r : R) : Error * R :=
  redis_Set now (CSRFKeyPrefix +:+ key) token expiry r.
Definition RedisCSRFStore_Get (now : Time) (key : string) (r : R) : result error string :=
  redis_Get now (CSRFKeyPrefix +:+ key) r.
Definition RedisCSRFStore_Delete (now : Time) (key : string) (r : R) : Error * R :=
  redis_Del now (CSRFKeyPrefix +:+ key) r.
End RedisStore.

(** ** Helpers *)

Definition generateCSRFToken (random : result error string) : result error string :=
  let? bytes := random in Ok (Base64.EncodeToString Base64.URLEncoding bytes).

(** [subtle.ConstantTimeCompare(a, b) == 1] *)
Definition constantTimeCompare (a b : string) : bool := bool_decide (a = b).

Definition isReadOnlyMethod (m : string) : bool :=
  bool_decide (m = "GET") || bool_decide (m = "HEAD") || bool_decide (m = "OPTIONS").

Definition isMobileEndpoint (path : string) : bool :=
  HasPrefix path "/api/v1/mobile/" || HasPrefix path "/mobile/" || Contains path "/mobile/".

Definition hasBearerToken (r : Request) : bool := HasPrefix (GetHeader r "Authorization") "Bearer ".

Definition isWebSocketUpgrade `{Unicode} (r : Request) : bool :=
  EqualFold (GetHeader r "Upgrade") "websocket" ||
  Contains (ToLower (GetHeader r "Connection")) "upgrade".

Definition isExcludedPath (path : string) (excludedPaths : list string) : bool :=
  existsb (HasPrefix path) excludedPaths.

(** The loop of [formatInt64] for a positive [n]; a 64-bit number has at most
    19 decimal digits, so [fuel] 20 never runs out. *)
Fixpoint format_loop (fuel : nat) (n : Z) (digits : string) : string :=
  match fuel with
  | O => digits
  | S fuel =>
      if 0 <? n then format_loop fuel (n / 10) (String (byte_of (48 + n mod 10)) digits) else digits
  end.

Definition formatInt64 (n : Z) : string :=
  if n =? 0 then "0"
  else
    let negative := n <? 0 in
    let n := if negative then wrap64 (- n) else n in
    let digits := format_loop 20 n "" in
    if negative then String "-" digits else digits.

Definition getSessionIdentifier (c : Context) : string :=
  let fallback :=
    match Cookies (request c) !! "session_id" with
    | Some c => if negb (bool_decide (c = "")) then c else ""
    | None => ""
    end in
  match ctx_user_id c with
  | Some (VInt64 n) => formatInt64 n
  | Some (VString s) => s
  | _ => fallback
  end.

(** [int(d.Seconds())] truncates toward zero. *)
Definition csrf_cookie (token : string) (cfg : CSRFConfig) : Cookie :=
  mkCookie CSRFCookieName token (CookiePath cfg) (CookieDomain cfg) (Z.quot (TokenExpiry cfg) Second)
    (CookieSecure cfg) false (CookieSameSite cfg).

Definition setCSRFResponse (token : string) (cfg : CSRFConfig) : Response :=
  mkResponse (Some (CSRFTokenHeader, token)) (Some (csrf_cookie token cfg)) Next.

Section Middleware.
Context `{CSRFStore} `{Unicode}.

Definition validateCSRFToken (now : Time) (r : Request) (sessionID : string) (s : store) : bool :=
  let headerToken := GetHeader r CSRFTokenHeader in
  let cookieToken := default "" (Cookies r !! CSRFCookieName) in
  match Get_ now sessionID s with
  | Fail _ => false
  | Ok storedToken =>
      if negb (bool_decide (headerToken = "")) && constantTimeCompare headerToken storedToken then true
      else if negb (bool_decide (headerToken = "")) && negb (bool_decide (cookieToken = "")) then
        constantTimeCompare headerToken cookieToken && constantTimeCompare headerToken storedToken
      else false
  end.

(** The same check for a plain [http.Request]. *)
Definition validateHTTPCSRFToken (now : Time) (r : Request) (sessionID : string) (s : store) : bool :=
  let headerToken := GetHeader r CSRFTokenHeader in
  let cookieToken := match Cookies r !! CSRFCookieName with Some cookie => cookie | None => "" end in
  match Get_ now sessionID s with
  | Fail _ => false
  | Ok storedToken =>
      if negb (bool_decide (headerToken = "")) && constantTimeCompare headerToken storedToken then true
      else if negb (bool_decide (headerToken = "")) && negb (bool_decide (cookieToken = "")) then
        if constantTimeCompare headerToken cookieToken && constantTimeCompare headerToken storedToken then true else false
      else false
  end.

(** The part of both middlewares after the exemptions, for a session id and the
    middleware's check of the token. *)
Definition csrf_check (cfg : CSRFConfig) (now : Time) (random : result error string) (sessionID : string)
    (validate : Request -> string -> store -> bool) (r : Request) (s : store) : Response * store :=
  if bool_decide (sessionID = "") then
    if isReadOnlyMethod (Method r) then
      match generateCSRFToken random with
      | Fail _ => (pass, s)
      | Ok token => (setCSRFResponse token cfg, s)
      end
    else (pass, s)
  else if isReadOnlyMethod (Method r) then
    match generateCSRFToken random with
    | Fail _ => (pass, s)
    | Ok token => (setCSRFResponse token cfg, (Set_ now sessionID token (TokenExpiry cfg) s).2)
    end
  else if negb (validate r sessionID s) then (mkResponse None None Forbidden, s)
  else (pass, s).

Definition csrf_exempt (cfg : CSRFConfig) (r : Request) : bool :=
  negb (Enabled cfg) || isExcludedPath (Path r) (ExcludedPaths cfg) || isMobileEndpoint (Path r) ||
  hasBearerToken r.

Definition CSRFMiddleware (cfg : CSRFConfig) (now : Time) (random : result error string) (c : Context) (s : store)
    : Response * store :=
  if csrf_exempt cfg (request c) || isWebSocketUpgrade (request c) then (pass, s)
  else csrf_check cfg now random (getSessionIdentifier c) (validateCSRFToken now) (request c) s.

(** [HTTPCSRFMiddleware]; [getUserID] is the caller's function, possibly nil; its
    answer is [None] when it reports that there is no user. *)
Definition HTTPCSRFMiddleware (cfg : CSRFConfig) (getUserID : option (Request -> option string)) (now : Time)
    (random : result error string) (r : Request) (s : store) : Response * store :=
  if csrf_exempt cfg r || EqualFold (GetHeader r "Upgrade") "websocket" then (pass, s)
  else
    let sessionID := match getUserID with Some f => default "" (f r) | None => "" end in
    csrf_check cfg now random sessionID (validateHTTPCSRFToken now) r s.
End Middleware.

(** ** formatInt64 *)

Lemma digit_char n : 0 <= n < 10 -> byte_of (48 + n) = pretty_N_char (Z.to_N n).
Proof.
  intros Hn.
  assert (forallb (fun z => bool_decide (byte_of (48 + z) = pretty_N_char (Z.to_N z))) (List.map Z.of_nat (seq 0 10))
    = true) as Hall by (vm_compute; reflexivity).
  rewrite forallb_forall in Hall. apply (bool_decide_eq_true (byte_of (48 + n) = pretty_N_char (Z.to_N n))).
  apply (Hall n), in_map_iff. exists (Z.to_nat n). rewrite in_seq. lia.
Qed.

(** The digit loop is the decimal printer. *)
Lemma format_loop_pretty fuel n digits :
  0 <= n < 10 ^ Z.of_nat fuel -> format_loop fuel n digits = pretty_N_go (Z.to_N n) digits.
Proof.
  revert n digits. induction fuel as [|fuel IH]; intros n digits Hn; simpl.
  { simpl in Hn. assert (n = 0) as -> by lia. by rewrite pretty_N_go_0. }
  destruct (Z.ltb_spec 0 n) as [Hp|Hp]; [|assert (n = 0) as -> by lia; by rewrite pretty_N_go_0].
  rewrite Nat2Z.inj_succ, Z.pow_succ_r in Hn by lia.
  rewrite IH by (split; [apply Z.div_pos|apply Z.div_lt_upper_bound]; lia).
  rewrite (pretty_N_go_step (Z.to_N n)) by lia.
  rewrite digit_char by (apply Z.mod_pos_bound; lia).
  rewrite Z2N.inj_div, Z2N.inj_mod by lia. done.
Qed.

Lemma pretty_pos n : 0 < n -> pretty_N_go (Z.to_N n) "" = Itoa n.
Proof.
  intros Hn. destruct n as [|p|p]; [lia| |lia]. unfold Itoa, pretty, pretty_Z, pretty, pretty_positive, pretty, pretty_N.
  rewrite decide_False by done. done.
Qed.

(** [formatInt64] is the decimal rendering of every [int64] except the
    smallest one, which it renders as ["-"]: negating it overflows, and the digit
    loop does not run. *)
Theorem formatInt64_correct n :
  in_int64 n -> formatInt64 n = if bool_decide (n = int64_min) then "-" else Itoa n.
Proof.
  intros Hn. unfold in_int64 in Hn. case_bool_decide as Hmin; [by subst|].
  unfold formatInt64. destruct (Z.eqb_spec n 0) as [->|H0]; [done|].
  destruct (Z.ltb_spec n 0) as [Hneg|Hpos].
  - rewrite wrap64_id by (unfold in_int64, int64_min, int64_max in *; lia).
    rewrite format_loop_pretty by (unfold int64_min, int64_max in *; simpl; lia).
    rewrite pretty_pos by lia. destruct n as [|p|p]; [lia|lia|]. done.
  - rewrite format_loop_pretty by (unfold int64_min, int64_max in *; simpl; lia). apply pretty_pos. lia.
Qed.

Lemma formatInt64_correct_witness :
  formatInt64 (-9007199254740993) = "-9007199254740993" /\ formatInt64 int64_min = "-".
Proof.
  split.
  - rewrite (formatInt64_correct (-9007199254740993)) by (vm_compute; intuition congruence).
    vm_compute. reflexivity.
  - rewrite (formatInt64_correct int64_min) by (vm_compute; intuition congruence). reflexivity.
Defined.

(** ** Protection *)

(** The double-submit fallback adds nothing: a request is valid exactly when
    its header carries the stored token. *)
Lemma validate_exact `{CSRFStore} now r sid s :
  validateCSRFToken now r sid s = true <->
  GetHeader r CSRFTokenHeader <> "" /\ Get_ now sid s = Ok (GetHeader r CSRFTokenHeader).
Proof.
  unfold validateCSRFToken, constantTimeCompare. destruct (Get_ now sid s) as [stored|e]; [|split; [done|by intros [_ ?]]].
  destruct (decide (GetHeader r CSRFTokenHeader = "")) as [Hh|Hh].
  - rewrite (bool_decide_eq_true_2 _ Hh). simpl. split; [done|]. by intros [? _].
  - rewrite (bool_decide_eq_false_2 _ Hh). simpl.
    case_bool_decide as Hs; [split; [intros _; split; [done|by rewrite Hs]|done]|].
    split; [|intros [_ Hq]; congruence]. destruct (negb _); [|done]. by rewrite andb_false_r.
Qed.

(** The two checks agree, also when there is no cookie. *)
Lemma validate_agree `{CSRFStore} now r sid s : validateHTTPCSRFToken now r sid s = validateCSRFToken now r sid s.
Proof.
  unfold validateHTTPCSRFToken, validateCSRFToken. destruct (Get_ now sid s); [|done].
  destruct (Cookies r !! CSRFCookieName); simpl; repeat case_match; congruence.
Qed.

Lemma mobile_contains path : isMobileEndpoint path = Contains path "/mobile/".
Proof.
  unfold isMobileEndpoint.
  assert (forall pre, HasPrefix path pre = true -> Contains pre "/mobile/" = true -> Contains path "/mobile/" = true) as Hp.
  { intros pre H1 H2. apply HasPrefix_spec in H1 as [t ->]. by apply Contains_app. }
  destruct (HasPrefix path "/api/v1/mobile/") eqn:E1; [by rewrite (Hp _ E1)|].
  destruct (HasPrefix path "/mobile/") eqn:E2; [by rewrite (Hp _ E2)|done].
Qed.

(** ** The specification *)

Section Spec.
Context `{CSRFStore} `{Unicode} (cfg : CSRFConfig).

(** Requests that are not looked at: protection is off, the path has an excluded
    prefix or a ["/mobile/"] in it, or there is a bearer token. *)
Definition unprotected (r : Request) : Prop :=
  Enabled cfg = false \/ (exists p, In p (ExcludedPaths cfg) /\ HasPrefix (Path r) p = true) \/
  Contains (Path r) "/mobile/" = true \/ HasPrefix (GetHeader r "Authorization") "Bearer " = true.

(** The request carries, in the header, the token stored for the session. *)
Definition carries_token (now : Time) (sid : string) (r : Request) (s : store) : Prop :=
  GetHeader r CSRFTokenHeader <> "" /\ Get_ now sid s = Ok (GetHeader r CSRFTokenHeader).

Lemma csrf_exempt_spec r : csrf_exempt cfg r = true <-> unprotected r.
Proof.
  unfold csrf_exempt, unprotected, hasBearerToken, isExcludedPath. rewrite mobile_contains, !orb_true_iff, negb_true_iff, existsb_exists.
  tauto.
Qed.

Lemma read_only_spec m : isReadOnlyMethod m = true <-> In m ["GET"; "HEAD"; "OPTIONS"].
Proof. unfold isReadOnlyMethod. rewrite !orb_true_iff, !bool_decide_eq_true. cbn. intuition congruence. Qed.

(** The common part, for any check that agrees with [carries_token]. *)
Lemma csrf_check_spec now random sid validate r s :
  (validate r sid s = true <-> carries_token now sid r s) ->
  (disposition (csrf_check cfg now random sid validate r s).1 = Next <->
     sid = "" \/ In (Method r) ["GET"; "HEAD"; "OPTIONS"] \/ carries_token now sid r s) /\
  (isReadOnlyMethod (Method r) = false \/ sid = "" -> (csrf_check cfg now random sid validate r s).2 = s).
Proof.
  intros Hv. unfold csrf_check. rewrite <- read_only_spec. case_bool_decide as Hs.
  { destruct (isReadOnlyMethod (Method r)); [destruct (generateCSRFToken random)|]; cbn; tauto. }
  destruct (isReadOnlyMethod (Method r)) eqn:Em.
  { destruct (generateCSRFToken random); cbn; (split; [tauto|]); intros [|]; done. }
  destruct (validate r sid s) eqn:Ev; cbn; (split; [|done]).
  - split; [|done]. intros _. right; right. by apply Hv.
  - split; [done|]. intros [|[|Hc]]; [done..|]. apply Hv in Hc. congruence.
Qed.
End Spec.

(** C28: the CSRF check is exact, in both middlewares.  A request reaches the
    handler if and only if it is unprotected (see above), or asks for a WebSocket
    upgrade, or has no session, or is a GET, HEAD or OPTIONS, or carries the
    token stored for its session in a non-empty [X-CSRF-Token] header; a cookie
    is neither needed nor sufficient.  The session of a Gin request is its
    context's user id or session cookie, that of a plain request what
    [getUserID] says, none when the function is nil or reports no user.  Gin's
    middleware also takes a [Connection: upgrade] header for an upgrade, the
    other only [Upgrade: websocket].  State-changing requests and requests
    without a session leave the store as it was. *)
Theorem csrf_check_exact `{CSRFStore} `{Unicode} cfg now random s :
  (forall c, let r := request c in let sid := getSessionIdentifier c in
   (disposition (CSRFMiddleware cfg now random c s).1 = Next <->
      unprotected cfg r \/
      (EqualFold (GetHeader r "Upgrade") "websocket" = true \/
       Contains (ToLower (GetHeader r "Connection")) "upgrade" = true) \/
      sid = "" \/ In (Method r) ["GET"; "HEAD"; "OPTIONS"] \/ carries_token now sid r s) /\
   (~ In (Method r) ["GET"; "HEAD"; "OPTIONS"] \/ sid = "" -> (CSRFMiddleware cfg now random c s).2 = s)) /\
  (forall getUserID r, let sid := match getUserID with Some f => default "" (f r) | None => "" end in
   (disposition (HTTPCSRFMiddleware cfg getUserID now random r s).1 = Next <->
      unprotected cfg r \/ EqualFold (GetHeader r "Upgrade") "websocket" = true \/
      sid = "" \/ In (Method r) ["GET"; "HEAD"; "OPTIONS"] \/ carries_token now sid r s) /\
   (~ In (Method r) ["GET"; "HEAD"; "OPTIONS"] \/ sid = "" -> (HTTPCSRFMiddleware cfg getUserID now random r s).2 = s)).
Proof.
  split.
  - intros c r sid. unfold CSRFMiddleware. rewrite <- (csrf_exempt_spec cfg r). fold r sid.
    unfold isWebSocketUpgrade. rewrite <- orb_true_iff.
    destruct (csrf_exempt cfg r); [cbn; tauto|]. destruct (EqualFold _ _ || Contains _ _); [cbn; tauto|]. cbn [orb].
    destruct (csrf_check_spec cfg now random sid (validateCSRFToken now) r s (validate_exact now r sid s)) as [Hd Hst].
    rewrite Hd. split; [intuition discriminate|]. rewrite <- read_only_spec, not_true_iff_false. done.
  - intros getUserID r sid. unfold HTTPCSRFMiddleware. rewrite <- (csrf_exempt_spec cfg r). fold sid.
    destruct (csrf_exempt cfg r); [cbn; tauto|]. destruct (EqualFold _ _); [cbn; tauto|]. cbn [orb].
    assert (validateHTTPCSRFToken now r sid s = true <-> carries_token now sid r s) as Hv
      by (rewrite validate_agree; apply validate_exact).
    destruct (csrf_check_spec cfg now random sid (validateHTTPCSRFToken now) r s Hv) as [Hd Hst].
    rewrite Hd. split; [intuition discriminate|]. rewrite <- read_only_spec, not_true_iff_false. done.
Qed.

(** ** Traffic through both middlewares on one store *)

Inductive incoming := ViaGin (c : Context) | ViaHTTP (getUserID : option (Request -> option string)) (r : Request).

Definition request_of (i : incoming) : Request := match i with ViaGin c => request c | ViaHTTP _ r => r end.
Definition session_of (i : incoming) : string :=
  match i with
  | ViaGin c => getSessionIdentifier c
  | ViaHTTP getUserID r => match getUserID with Some f => default "" (f r) | None => "" end
  end.

Section Traffic.
Context `{CSRFStoreLaws} `{Unicode} (cfg : CSRFConfig).

Definition handle (now : Time) (random : result error string) (i : incoming) (s : store) : Response * store :=
  match i with
  | ViaGin c => CSRFMiddleware cfg now random c s
  | ViaHTTP getUserID r => HTTPCSRFMiddleware cfg getUserID now random r s
  end.

(** The request is looked at: protected, and no WebSocket upgrade. *)
Definition guarded (i : incoming) : bool :=
  negb (csrf_exempt cfg (request_of i)) &&
  negb (match i with ViaGin c => isWebSocketUpgrade (request c) | ViaHTTP _ r => EqualFold (GetHeader r "Upgrade") "websocket" end).

(** The requests that store a token for a session. *)
Definition issues (sid : string) (i : incoming) : bool :=
  guarded i && isReadOnlyMethod (Method (request_of i)) && bool_decide (session_of i = sid).

(** Requests handled one after the other, each with its time and random bytes. *)
Fixpoint serve (reqs : list (Time * result error string * incoming)) (s : store) : store :=
  match reqs with
  | [] => s
  | (now, random, i) :: reqs => serve reqs (handle now random i s).2
  end.

Lemma handle_guarded now random i s : guarded i = true ->
  exists validate, (validate (request_of i) (session_of i) s = true <-> carries_token now (session_of i) (request_of i) s) /\
    handle now random i s = csrf_check cfg now random (session_of i) validate (request_of i) s.
Proof.
  unfold guarded. rewrite andb_true_iff, !negb_true_iff. intros [He Hw].
  destruct i as [c|f r]; cbn [handle request_of session_of] in *.
  - exists (validateCSRFToken now). split; [apply validate_exact|]. unfold CSRFMiddleware. by rewrite He, Hw.
  - exists (validateHTTPCSRFToken now). split; [rewrite validate_agree; apply validate_exact|].
    unfold HTTPCSRFMiddleware. by rewrite He, Hw.
Qed.

Lemma handle_unguarded now random i s : guarded i = false -> handle now random i s = (pass, s).
Proof.
  unfold guarded. rewrite andb_false_iff, !negb_false_iff.
  destruct i as [c|f r]; cbn [handle request_of]; unfold CSRFMiddleware, HTTPCSRFMiddleware; intros [-> | ->]; cbn;
    by rewrite ?orb_true_r.
Qed.

(** A request that issues no token for a session leaves its token alone. *)
Lemma handle_keeps sid now random i s t : issues sid i = false -> now <= t ->
  Get_ t sid (handle now random i s).2 = Get_ t sid s.
Proof.
  unfold issues. intros Hi Ht. destruct (guarded i) eqn:Eg; [|by rewrite handle_unguarded].
  destruct (handle_guarded now random i s Eg) as (validate & _ & ->). cbn [andb] in Hi. unfold csrf_check.
  destruct (bool_decide (session_of i = "")).
  { destruct (isReadOnlyMethod _); [destruct (generateCSRFToken random)|]; done. }
  destruct (isReadOnlyMethod _); [|destruct (negb _); done]. apply bool_decide_eq_false in Hi.
  destruct (generateCSRFToken random) as [token|]; [|done]. cbn [snd].
  destruct (Set_ now (session_of i) token (TokenExpiry cfg) s) as [e s'] eqn:Es. cbn [snd].
  eapply Get_Set_other; [exact Es|done|congruence].
Qed.

Lemma serve_keeps sid reqs s t :
  Forall (fun x => issues sid x.2 = false /\ x.1.1 <= t) reqs -> Get_ t sid (serve reqs s) = Get_ t sid s.
Proof.
  revert s. induction reqs as [|[[now random] i] reqs IH]; intros s Hr; [done|].
  apply Forall_cons in Hr as [[Hi Ht] Hr]. cbn [serve]. rewrite IH by done. by apply handle_keeps.
Qed.

(** A request that issues a token for its session. *)
Lemma handle_issues now random i s token : issues (session_of i) i = true -> session_of i <> "" ->
  generateCSRFToken random = Ok token ->
  handle now random i s = (setCSRFResponse token cfg, (Set_ now (session_of i) token (TokenExpiry cfg) s).2).
Proof.
  unfold issues. rewrite !andb_true_iff. intros [[Hg Hm] _] Hs Ht.
  destruct (handle_guarded now random i s Hg) as (validate & _ & ->). unfold csrf_check.
  by rewrite (bool_decide_eq_false_2 _ Hs), Hm, Ht.
Qed.
End Traffic.

(** C29: the token handed out last is the one that works.  A protected read-only
    request of a session, through either middleware, stores a fresh token and
    returns it in header and cookie.  Then let any requests of any sessions
    follow, through both middlewares, none of them a protected read-only request
    of this session (each of which would replace the token).  Until the token
    expires, a protected state-changing request of the session reaches the
    handler if its header carries this token, and is refused (403) if it carries
    any other value, such as a token handed out before. *)
Theorem csrf_token_roundtrip `{CSRFStoreLaws} `{Unicode} cfg now random i1 s token reqs t random2 i2 :
  issues cfg (session_of i1) i1 = true -> session_of i1 <> "" ->
  generateCSRFToken random = Ok token -> token <> "" ->
  (Set_ now (session_of i1) token (TokenExpiry cfg) s).1 = None ->
  Forall (fun x => issues cfg (session_of i1) x.2 = false /\ x.1.1 <= t) reqs ->
  now <= t < now + TokenExpiry cfg ->
  guarded cfg i2 = true -> isReadOnlyMethod (Method (request_of i2)) = false -> session_of i2 = session_of i1 ->
  let (resp, s') := handle cfg now random i1 s in
  disposition resp = Next /\ set_header resp = Some (CSRFTokenHeader, token) /\
  option_map ck_Value (set_cookie resp) = Some token /\
  disposition (handle cfg t random2 i2 (serve cfg reqs s')).1 =
    if bool_decide (GetHeader (request_of i2) CSRFTokenHeader = token) then Next else Forbidden.
Proof.
  intros Hi1 Hs1 Hg Htok Hset Hreqs Ht Hg2 Hm2 Hsid. rewrite (handle_issues cfg now random i1 s token) by done.
  split_and!; [done..|].
  destruct (Set_ now (session_of i1) token (TokenExpiry cfg) s) as [e s1] eqn:Es. cbn [fst snd] in *. subst e.
  assert (Get_ t (session_of i1) (serve cfg reqs s1) = Ok token) as Hget
    by (rewrite (serve_keeps cfg) by done; by eapply Get_Set).
  destruct (handle_guarded cfg t random2 i2 (serve cfg reqs s1) Hg2) as (validate & Hv & ->).
  destruct (csrf_check_spec cfg t random2 (session_of i2) validate (request_of i2) _ Hv) as [Hd _].
  rewrite <- read_only_spec, Hm2 in Hd. unfold carries_token in Hd. rewrite Hsid, Hget in *.
  case_bool_decide as Hh; [apply Hd; right; right; split; congruence|].
  destruct (disposition _) in Hd |- *; [|done]. destruct (proj1 Hd eq_refl) as [|[|[_ Hq]]]; [done..|congruence].
Qed.

(** ** An instance: a map from keys to tokens with an expiry time *)

#[export] Instance map_CSRFStore : CSRFStore := {
  store := gmap string (string * Time);
  Set_ now key token expiry s := (None, <[key := (token, now + expiry)]> s);
  Get_ now key s :=
    match s !! key with
    | Some (token, e) => if now <? e then Ok token else Fail (New "redis: nil")
    | None => Fail (New "redis: nil")
    end
}.

#[export] Instance map_CSRFStoreLaws : CSRFStoreLaws.
Proof.
  split; simpl.
  - intros now key token expiry s s' t Hs Ht. injection Hs as <-.
    rewrite lookup_insert_eq. by rewrite (proj2 (Z.ltb_lt _ _)) by lia.
  - intros now key token expiry s e s' t key' Hs Ht Hk. injection Hs as _ <-. by rewrite lookup_insert_ne.
Qed.

(** The case tables of a toolchain that knows ASCII only. *)
Definition ascii_Unicode : Unicode := {| unicode_ToLower r := r; unicode_SameFold _ _ := false |}.

Definition page : Context := mkContext (mkRequest "GET" "/profile" ∅ ∅) (Some (VInt64 42)).
Definition post (token : string) : Context :=
  mkContext (mkRequest "POST" "/profile" {[CSRFTokenHeader := token]} ∅) (Some (VInt64 42)).
Definition by_cookie (r : Request) : option string := Cookies r !! "session_id".

(** Both middlewares on a right and a wrong token; a plain request with a
    [Connection: upgrade] header is still checked. *)
Example csrf_check_examples :
  let U := ascii_Unicode in
  let s : store := {["42" := ("secret", Hour)]} in
  let plain t := mkRequest "POST" "/profile" {[CSRFTokenHeader := t; "Connection" := "Upgrade"]} {["session_id" := "42"]} in
  disposition (CSRFMiddleware DefaultCSRFConfig 0 (Ok "") (post "secret") s).1 = Next /\
  disposition (CSRFMiddleware DefaultCSRFConfig 0 (Ok "") (post "forged") s).1 = Forbidden /\
  disposition (HTTPCSRFMiddleware DefaultCSRFConfig (Some by_cookie) 0 (Ok "") (plain "secret") s).1 = Next /\
  disposition (HTTPCSRFMiddleware DefaultCSRFConfig (Some by_cookie) 0 (Ok "") (plain "forged") s).1 = Forbidden.
Proof. vm_compute. auto. Qed.

Lemma csrf_check_exact_witness :
  let U := ascii_Unicode in
  let s : store := {["42" := ("secret", Hour)]} in
  disposition (CSRFMiddleware DefaultCSRFConfig 0 (Ok "") (post "secret") s).1 = Next /\
  disposition (HTTPCSRFMiddleware DefaultCSRFConfig (Some (fun _ => Some "42")) 0 (Ok "") (request (post "secret")) s).1 = Next.
Proof.
  intros U s. destruct (csrf_check_exact DefaultCSRFConfig 0 (Ok "") s) as [Hg Hh].
  assert (carries_token 0 "42" (request (post "secret")) s) as Hc by (split; [discriminate|reflexivity]).
  split.
  - apply (Hg (post "secret")). right; right; right; right. exact Hc.
  - apply (Hh (Some (fun _ => Some "42")) (request (post "secret"))). right; right; right; right. exact Hc.
Defined.

(** A page load, then a page load of another session and a post without a
    token: the first token still works 59 minutes later. *)
Lemma csrf_token_roundtrip_witness :
  let U := ascii_Unicode in
  let random := Ok "0123456789abcdef0123456789abcdef" in
  let token := Base64.EncodeToString Base64.URLEncoding "0123456789abcdef0123456789abcdef" in
  let other := ViaHTTP (Some by_cookie) (mkRequest "GET" "/" ∅ {["session_id" := "43"]}) in
  let reqs := [(Minute, Ok "fedcba9876543210fedcba9876543210", other); (2 * Minute, random, ViaGin (post ""))] in
  let s' := (handle DefaultCSRFConfig 0 random (ViaGin page) (∅ : store)).2 in
  disposition (handle DefaultCSRFConfig (59 * Minute) random (ViaGin (post token)) (serve DefaultCSRFConfig reqs s')).1 = Next.
Proof.
  intros U random token other reqs s'.
  pose proof (csrf_token_roundtrip DefaultCSRFConfig 0 random (ViaGin page) (∅ : store) token reqs (59 * Minute)
    random (ViaGin (post token))) as H.
  unfold s'. destruct (handle DefaultCSRFConfig 0 random (ViaGin page) (∅ : store)) as [resp s1].
  destruct H as (_ & _ & _ & H).
  - vm_compute. reflexivity.
  - vm_compute. discriminate.
  - reflexivity.
  - vm_compute. discriminate.
  - reflexivity.
  - constructor; [split; [vm_compute; reflexivity|discriminate]|].
    constructor; [split; [vm_compute; reflexivity|discriminate]|constructor].
  - split; [discriminate|reflexivity].
  - vm_compute. reflexivity.
  - reflexivity.
  - reflexivity.
  - cbn [snd]. rewrite H. vm_compute. reflexivity.
Defined.
