(* ===== verification/GoNet.v ===== *)
(** * Go's package net: IP addresses and CIDR networks

    What the URL validator and the IP allowlist use: [net.ParseIP] and
    [net.ParseCIDR] with the parsers of net/netip, [IP.To4], [IP.Equal],
    [IP.IsLoopback], [CIDRMask] and [IPNet.Contains].  The mask arithmetic is
    proved to be the comparison of the leading bits of the addresses. *)

From Stdlib Require Import Ascii.
From S2P Require Import Prelude GoString Encoding.

Open Scope Z_scope.

(** A [net.IP] is a byte slice, nil being the empty one. *)
Abbreviation IP := (list Z) (only parsing).

Definition is_byte (b : Z) : Prop := 0 <= b < 256.

Definition wf_ip (ip : IP) : Prop := (length ip = 4%nat \/ length ip = 16%nat) /\ Forall is_byte ip.

(** ** Parsing *)

Definition is_digit (a : ascii) : bool := (48 <=? code a) && (code a <=? 57).

(** netip's [parseIPv4Fields]: [val] and [digLen] are those of the current field. *)
Fixpoint parseIPv4Fields (s : string) (val digLen : Z) (fields : list Z) : option (list Z) :=
  match s with
  | EmptyString => if (length fields <? 3)%nat then None else Some (fields ++ [val])
  | String c rest =>
      if is_digit c then
        if (digLen =? 1) && (val =? 0) then None
        else
          let val := val * 10 + (code c - 48) in
          if 255 <? val then None else parseIPv4Fields rest val (digLen + 1) fields
      else if Ascii.eqb c "." then
        if (digLen =? 0) || bool_decide (rest = "") then None
        else if (length fields =? 3)%nat then None
        else parseIPv4Fields rest 0 0 (fields ++ [val])
      else None
  end.

(** A run of hexadecimal digits: its value, its length and what follows. *)
Fixpoint hex_run (s : string) (off acc : Z) : option (Z * Z * string) :=
  match s with
  | EmptyString => Some (acc, off, s)
  | String c rest =>
      match Hex.nibble c with
      | None => Some (acc, off, s)
      | Some d => if 3 <? off then None else hex_run rest (off + 1) (acc * 16 + d)
      end
  end.

(** The group loop of netip's [parseIPv6]: one turn per 16-bit group, [turns]
    being how many fit into what is left of the 16 bytes.  [ellipsis] is where
    [::] was.  The result is the unread input, the bytes and the ellipsis. *)
Fixpoint parseIPv6Groups (turns : nat) (s : string) (ip : list Z) (ellipsis : option nat)
    : option (string * list Z * option nat) :=
  match turns with
  | O => Some (s, ip, ellipsis)
  | S turns =>
      match hex_run s 0 0 with
      | None => None
      | Some (acc, off, rest) =>
          let ip' := ip ++ [acc / 256; acc mod 256] in
          if off =? 0 then None
          else
            match rest with
            | EmptyString => Some ("", ip', ellipsis)
            | String c rest =>
                if Ascii.eqb c "." then
                  if bool_decide (ellipsis = None) && negb (length ip =? 12)%nat then None
                  else if (16 <? length ip + 4)%nat then None
                  else
                    match parseIPv4Fields s 0 0 [] with
                    | None => None
                    | Some fields => Some ("", ip ++ fields, ellipsis)
                    end
                else if negb (Ascii.eqb c ":") then None
                else
                  match rest with
                  | EmptyString => None
                  | String c' rest' =>
                      if Ascii.eqb c' ":" then
                        if bool_decide (ellipsis <> None) then None
                        else if bool_decide (rest' = "") then Some ("", ip', Some (length ip'))
                        else parseIPv6Groups turns rest' ip' (Some (length ip'))
                      else parseIPv6Groups turns rest ip' ellipsis
                  end
            end
      end
  end.

(** [s[:i], s[i+1:]] for the first [c] of [s]. *)
Fixpoint cut (c : ascii) (s : string) : option (string * string) :=
  match s with
  | EmptyString => None
  | String a rest =>
      if Ascii.eqb a c then Some ("", rest)
      else option_map (fun p => (String a p.1, p.2)) (cut c rest)
  end.

(** The end of [parseIPv6]: the ellipsis stands for the zeros that are missing. *)
Definition expandEllipsis (ip : list Z) (ellipsis : option nat) : option (list Z) :=
  if (length ip <? 16)%nat then
    match ellipsis with
    | None => None
    | Some e => Some (take e ip ++ repeat 0 (16 - length ip) ++ drop e ip)
    end
  else match ellipsis with Some _ => None | None => Some ip end.

Definition parseIPv6Addr (s : string) : option (list Z) :=
  let leading := HasPrefix s "::" in
  let s := if leading then drop_string 2 s else s in
  if leading && bool_decide (s = "") then Some (repeat 0 16)
  else
    match parseIPv6Groups 8 s [] (if leading then Some 0%nat else None) with
    | Some (rest, ip, ellipsis) => if bool_decide (rest = "") then expandEllipsis ip ellipsis else None
    | None => None
    end.

(** netip.Addr: an IPv4 address, or an IPv6 address with its zone. *)
Inductive Addr := Addr4 (ip : list Z) | Addr6 (ip : list Z) (zone : string).

Definition parseIPv6 (s : string) : option Addr :=
  match cut "%" s with
  | Some (_, "") => None
  | Some (s, zone) => option_map (fun ip => Addr6 ip zone) (parseIPv6Addr s)
  | None => option_map (fun ip => Addr6 ip "") (parseIPv6Addr s)
  end.

(** [netip.ParseAddr]: the first of [.], [:] and [%] decides. *)
Fixpoint ParseAddr_from (whole s : string) : option Addr :=
  match s with
  | EmptyString => None
  | String c rest =>
      if Ascii.eqb c "." then option_map Addr4 (parseIPv4Fields whole 0 0 [])
      else if Ascii.eqb c ":" then parseIPv6 whole
      else if Ascii.eqb c "%" then None
      else ParseAddr_from whole rest
  end.
Definition ParseAddr (s : string) : option Addr := ParseAddr_from s s.

Definition v4InV6Prefix : list Z := [0; 0; 0; 0; 0; 0; 0; 0; 0; 0; 255; 255].

Definition As16 (a : Addr) : list Z :=
  match a with Addr4 ip => v4InV6Prefix ++ ip | Addr6 ip _ => ip end.

(** [net.ParseIP(s)]; nil for what is not an address. *)
Definition ParseIP (s : string) : IP :=
  match ParseAddr s with
  | Some (Addr6 ip zone) => if bool_decide (zone = "") then ip else []
  | Some a => As16 a
  | None => []
  end.

(** ** Operations on addresses *)

(** [ip.To4()] *)
Definition To4 (ip : IP) : IP :=
  if (length ip =? 4)%nat then ip
  else if (length ip =? 16)%nat && bool_decide (take 12 ip = v4InV6Prefix) then drop 12 ip
  else [].

Definition IPv6loopback : IP := repeat 0 15 ++ [1].

(** [ip.Equal(x)]: an IPv4 address and its IPv6 form are the same. *)
Definition Equal (ip x : IP) : bool :=
  if (length ip =? length x)%nat then bool_decide (ip = x)
  else if (length ip =? 4)%nat && (length x =? 16)%nat then
    bool_decide (take 12 x = v4InV6Prefix) && bool_decide (ip = drop 12 x)
  else if (length ip =? 16)%nat && (length x =? 4)%nat then
    bool_decide (take 12 ip = v4InV6Prefix) && bool_decide (drop 12 ip = x)
  else false.

(** [ip.IsLoopback()] *)
Definition IsLoopback (ip : IP) : bool :=
  match To4 ip with
  | b :: _ => b =? 127
  | [] => Equal ip IPv6loopback
  end.

(** ** Networks *)

Record IPNet := mkIPNet { net_IP : IP; net_Mask : list Z }.

(** [net.CIDRMask(n, 8 * len)] *)
Fixpoint CIDRMask (len : nat) (n : Z) : list Z :=
  match len with
  | O => []
  | S len =>
      if 8 <=? n then 255 :: CIDRMask len (n - 8)
      else Z.lxor 255 (Z.shiftr 255 n) :: CIDRMask len 0
  end.

Definition and_bytes (a b : list Z) : list Z := zip_with Z.land a b.

(** [dtoi], all of the input being digits. *)
Fixpoint dtoi (s : string) (n : Z) : option Z :=
  match s with
  | EmptyString => Some n
  | String c rest =>
      if is_digit c then
        let n := n * 10 + (code c - 48) in
        if 16777215 <=? n then None else dtoi rest n
      else None
  end.

(** [net.ParseCIDR(s)], the network part of the result. *)
Definition ParseCIDR (s : string) : option IPNet :=
  match cut "/" s with
  | None | Some (_, "") => None
  | Some (addr, mask) =>
      match ParseAddr addr, dtoi mask 0 with
      | Some (Addr4 ip), Some n =>
          if 32 <? n then None else Some (mkIPNet (and_bytes ip (CIDRMask 4 n)) (CIDRMask 4 n))
      | Some (Addr6 ip zone), Some n =>
          if negb (bool_decide (zone = "")) || (128 <? n) then None
          else Some (mkIPNet (and_bytes ip (CIDRMask 16 n)) (CIDRMask 16 n))
      | _, _ => None
      end
  end.

(** [networkNumberAndMask(n)]; nil and nil where they do not fit together. *)
Definition networkNumberAndMask (n : IPNet) : IP * list Z :=
  let ip := match To4 (net_IP n) with [] => net_IP n | ip4 => ip4 end in
  let m := net_Mask n in
  if negb ((length ip =? 4)%nat || (length ip =? 16)%nat) then ([], [])
  else if (length m =? length ip)%nat then (ip, m)
  else if (length m =? 16)%nat && (length ip =? 4)%nat then (ip, drop 12 m)
  else ([], []).

(** [n.Contains(ip)] *)
Definition IPNet_Contains (n : IPNet) (ip : IP) : bool :=
  let (nn, m) := networkNumberAndMask n in
  let ip := match To4 ip with [] => ip | ip4 => ip4 end in
  (length ip =? length nn)%nat && bool_decide (and_bytes nn m = and_bytes ip m).

(** ** Parsed addresses are well formed *)

Lemma is_digit_byte c : is_digit c = true -> 0 <= code c - 48 <= 9.
Proof. unfold is_digit. intros. to_prop. lia. Qed.

Lemma parseIPv4Fields_wf s val digLen fields ip :
  is_byte val -> Forall is_byte fields -> (length fields <= 3)%nat ->
  parseIPv4Fields s val digLen fields = Some ip -> length ip = 4%nat /\ Forall is_byte ip.
Proof.
  revert val digLen fields. induction s as [|c rest IH]; simpl; intros val digLen fields Hv Hf Hl H.
  - destruct (length fields <? 3)%nat eqn:E; [done|]. simplify_eq. apply Nat.ltb_ge in E.
    rewrite length_app, Forall_app, Forall_singleton. simpl. split_and!; [lia|done|done].
  - destruct (is_digit c) eqn:Ed.
    + destruct ((digLen =? 1) && (val =? 0)); [done|].
      destruct (255 <? val * 10 + (code c - 48)) eqn:Eb; [done|]. apply is_digit_byte in Ed. to_prop.
      apply IH in H; [done| |done|done]. unfold is_byte in *. lia.
    + destruct (Ascii.eqb c "."); [|done]. destruct ((digLen =? 0) || _); [done|].
      destruct (length fields =? 3)%nat eqn:E3; [done|]. apply Nat.eqb_neq in E3.
      apply IH in H; [done|unfold is_byte; lia| |].
      * by rewrite Forall_app, Forall_singleton.
      * rewrite length_app. simpl. lia.
Qed.

Lemma parseIPv4_wf s ip : parseIPv4Fields s 0 0 [] = Some ip -> length ip = 4%nat /\ Forall is_byte ip.
Proof. apply parseIPv4Fields_wf; [unfold is_byte; lia|constructor|simpl; lia]. Qed.

Lemma nibble_range c d : Hex.nibble c = Some d -> 0 <= d < 16.
Proof.
  assert (forallb (fun n => match Hex.nibble (ascii_of_nat n) with Some d => (0 <=? d) && (d <? 16) | None => true end)
    (seq 0 256) = true) as Hall by (vm_compute; reflexivity).
  intros H. rewrite forallb_forall in Hall. specialize (Hall (nat_of_ascii c)).
  rewrite ascii_nat_embedding, H in Hall. assert (nat_of_ascii c < 256)%nat by apply nat_ascii_bounded.
  assert (In (nat_of_ascii c) (seq 0 256)) as Hin by (apply in_seq; lia). specialize (Hall Hin). to_prop. lia.
Qed.

Lemma hex_run_range s off acc a o rest :
  0 <= off <= 4 -> 0 <= acc < 16 ^ off -> hex_run s off acc = Some (a, o, rest) -> 0 <= a < 65536.
Proof.
  assert (forall off acc, 0 <= off <= 4 -> 0 <= acc < 16 ^ off -> 0 <= acc < 65536) as Hlift.
  { intros off' acc' Ho Ha. pose proof (Z.pow_le_mono_r 16 off' 4 ltac:(lia) ltac:(lia)). simpl in *. lia. }
  revert off acc. induction s as [|c s IH]; simpl; intros off acc Ho Ha H; [simplify_eq; eauto|].
  destruct (Hex.nibble c) as [d|] eqn:En; [|simplify_eq; eauto].
  destruct (3 <? off) eqn:E3; [done|]. apply nibble_range in En. to_prop.
  apply IH in H; [done|lia|]. rewrite Z.add_1_r, Z.pow_succ_r by lia. lia.
Qed.

Lemma group_bytes acc : 0 <= acc < 65536 -> Forall is_byte [acc / 256; acc mod 256].
Proof.
  intros H. rewrite !Forall_cons. unfold is_byte. pose proof (Z.mod_pos_bound acc 256 ltac:(lia)).
  assert (0 <= acc / 256) by (apply Z.div_pos; lia).
  assert (acc / 256 < 256) by (apply Z.div_lt_upper_bound; lia). split_and!; (lia || constructor).
Qed.

(** The loop keeps the bytes it has and never more than 16 of them, and the
    ellipsis inside them. *)
Definition groups_ok (ip : list Z) (ellipsis : option nat) : Prop :=
  Forall is_byte ip /\ (length ip <= 16)%nat /\ forall e, ellipsis = Some e -> (e <= length ip)%nat.

Lemma groups_ok_app ip k e e' :
  groups_ok ip e -> Forall is_byte k -> (length (ip ++ k) <= 16)%nat ->
  e' = e \/ e' = Some (length (ip ++ k)) -> groups_ok (ip ++ k) e'.
Proof.
  intros (Hf & Hl & He) Hk Hlen Hor. split_and!; [by apply Forall_app|done|].
  rewrite length_app in *. intros x ->. destruct Hor as [Hx|Hx]; [specialize (He x (eq_sym Hx))|simplify_eq]; lia.
Qed.

Lemma parseIPv6Groups_ok turns s ip e rest ip' e' :
  (length ip + 2 * turns = 16)%nat -> groups_ok ip e ->
  parseIPv6Groups turns s ip e = Some (rest, ip', e') -> groups_ok ip' e'.
Proof.
  revert s ip e. induction turns as [|turns IH]; intros s ip e Hl Hok H; cbn [parseIPv6Groups] in H; [by simplify_eq|].
  destruct (hex_run s 0 0) as [[[acc off] r]|] eqn:Eh; [|done].
  apply hex_run_range in Eh; [|lia|simpl; lia]. apply group_bytes in Eh. cbv zeta in H.
  assert (forall e', e' = e \/ e' = Some (length (ip ++ [acc / 256; acc mod 256])) ->
    groups_ok (ip ++ [acc / 256; acc mod 256]) e') as Hnext.
  { intros. eapply groups_ok_app; [done|done|rewrite length_app; cbn [length]; lia|done]. }
  assert (length (ip ++ [(acc / 256)%Z; (acc mod 256)%Z]) + 2 * turns = 16)%nat as Hlen
    by (rewrite length_app; cbn [length]; lia).
  destruct (off =? 0); [done|]. destruct r as [|c r]; [simplify_eq; auto|].
  destruct (Ascii.eqb c ".").
  { destruct (_ && _); [done|]. destruct (16 <? length ip + 4)%nat eqn:E16; [done|]. apply Nat.ltb_ge in E16.
    destruct (parseIPv4Fields s 0 0 []) as [f|] eqn:E4; [|done]. simplify_eq. apply parseIPv4_wf in E4 as [H4 Hb].
    eapply groups_ok_app; [done|done|rewrite length_app; lia|by left]. }
  destruct (negb _); [done|]. destruct r as [|c' r']; [done|].
  destruct (Ascii.eqb c' ":"); [|apply (IH _ _ _ Hlen) in H; auto].
  case_bool_decide; [done|]. case_bool_decide; [simplify_eq; auto|]. apply (IH _ _ _ Hlen) in H; auto.
Qed.

Lemma Forall_zeros n : Forall is_byte (repeat 0 n).
Proof. induction n; simpl; constructor; [unfold is_byte; lia|done]. Qed.

Lemma expandEllipsis_wf ip e ip' :
  groups_ok ip e -> expandEllipsis ip e = Some ip' -> length ip' = 16%nat /\ Forall is_byte ip'.
Proof.
  intros (Hf & Hl & He). unfold expandEllipsis. destruct (length ip <? 16)%nat eqn:E.
  - apply Nat.ltb_lt in E. destruct e as [e|]; [|done]. intros H. specialize (He e eq_refl). simplify_eq.
    rewrite !length_app, repeat_length, length_take, length_drop. split; [lia|].
    rewrite !Forall_app. split_and!; [by apply Forall_take|apply Forall_zeros|by apply Forall_drop].
  - apply Nat.ltb_ge in E. destruct e; [done|]. intros. simplify_eq. split; [lia|done].
Qed.

Lemma parseIPv6Addr_wf s ip : parseIPv6Addr s = Some ip -> length ip = 16%nat /\ Forall is_byte ip.
Proof.
  unfold parseIPv6Addr. destruct (_ && _).
  - intros [= <-]. split; [done|apply (Forall_zeros 16)].
  - destruct (parseIPv6Groups _ _ _ _) as [[[rest k] e]|] eqn:E; [|done].
    apply parseIPv6Groups_ok in E; [|done|].
    + case_bool_decide; [|done]. by apply expandEllipsis_wf.
    + split_and!; [constructor|simpl; lia|]. destruct (HasPrefix s "::"); intros; by simplify_eq.
Qed.

Definition wf_addr (a : Addr) : Prop :=
  match a with
  | Addr4 ip => length ip = 4%nat /\ Forall is_byte ip
  | Addr6 ip _ => length ip = 16%nat /\ Forall is_byte ip
  end.

Lemma ParseAddr_wf s a : ParseAddr s = Some a -> wf_addr a.
Proof.
  unfold ParseAddr. generalize s at 2 as t. induction t as [|c t IH]; simpl; [done|].
  destruct (Ascii.eqb c ".").
  { destruct (parseIPv4Fields s 0 0 []) eqn:E; [|done]. intros [= <-]. by apply parseIPv4_wf in E. }
  destruct (Ascii.eqb c ":"); [|by destruct (Ascii.eqb c "%")].
  unfold parseIPv6. intros H. assert (exists s' ip zone, parseIPv6Addr s' = Some ip /\ a = Addr6 ip zone) as
    (s' & ip & zone & E & ->); [|by apply parseIPv6Addr_wf in E].
  destruct (cut "%" s) as [[s1 [|z zs]]|]; [done| |].
  - destruct (parseIPv6Addr s1) eqn:E; naive_solver.
  - destruct (parseIPv6Addr s) eqn:E; naive_solver.
Qed.

Lemma Forall_prefix : Forall is_byte v4InV6Prefix.
Proof. apply (Forall_app_2 _ (repeat 0 10) [255; 255]); [apply Forall_zeros|]. by rewrite !Forall_cons. Qed.

(** [ParseIP] returns nil or an address of 16 bytes. *)
Lemma ParseIP_wf s : ParseIP s = [] \/ (length (ParseIP s) = 16%nat /\ Forall is_byte (ParseIP s)).
Proof.
  unfold ParseIP. destruct (ParseAddr s) as [[ip|ip zone]|] eqn:E; [| |by left].
  - right. apply ParseAddr_wf in E as [Hl Hf]. simpl. split; [by rewrite Hl|].
    by apply (Forall_app_2 _ v4InV6Prefix); [apply Forall_prefix|].
  - case_bool_decide; [right|by left]. by apply ParseAddr_wf in E.
Qed.

Lemma To4_wf ip : wf_ip ip -> To4 ip <> [] -> length (To4 ip) = 4%nat /\ Forall is_byte (To4 ip).
Proof.
  intros [Hl Hf]. unfold To4. destruct (length ip =? 4)%nat eqn:E4; [apply Nat.eqb_eq in E4; done|].
  destruct (_ && _); [|done]. apply Nat.eqb_neq in E4. intros _.
  rewrite length_drop. split; [lia|by apply Forall_drop].
Qed.

(** ** Masks compare leading bits *)

(** The number an address is, in network byte order. *)
Fixpoint ip_value (ip : list Z) : Z :=
  match ip with
  | [] => 0
  | b :: ip => b * 256 ^ Z.of_nat (length ip) + ip_value ip
  end.

(** The first [n] bits of an address. *)
Definition leading_bits (ip : list Z) (n : Z) : Z := ip_value ip / 2 ^ (8 * Z.of_nat (length ip) - n).

(** Is [ip] in the block [net/n]? *)
Definition in_cidr (ip net : list Z) (n : Z) : bool :=
  (length ip =? length net)%nat && (leading_bits ip n =? leading_bits net n).

Lemma pow256 k : 0 <= k -> 256 ^ k = 2 ^ (8 * k).
Proof. intros Hk. change 256 with (2 ^ 8). rewrite <- Z.pow_mul_r by lia. done. Qed.

Lemma ip_value_range ip : Forall is_byte ip -> 0 <= ip_value ip < 256 ^ Z.of_nat (length ip).
Proof.
  induction 1 as [|b ip Hb _ IH]; [done|]. cbn [ip_value length]. unfold is_byte in Hb.
  rewrite Nat2Z.inj_succ, Z.pow_succ_r by lia. nia.
Qed.

(** A partial mask of a byte keeps its top [n] bits. *)
Lemma land_mask_byte n a b : 0 <= n < 8 -> is_byte a -> is_byte b ->
  Z.land a (Z.lxor 255 (Z.shiftr 255 n)) = Z.land b (Z.lxor 255 (Z.shiftr 255 n)) <->
  a / 2 ^ (8 - n) = b / 2 ^ (8 - n).
Proof.
  unfold is_byte. intros Hn Ha Hb.
  assert (forallb (fun n => forallb (fun a =>
    Z.land a (Z.lxor 255 (Z.shiftr 255 n)) =? a / 2 ^ (8 - n) * 2 ^ (8 - n))
    (List.map Z.of_nat (seq 0 256))) (List.map Z.of_nat (seq 0 8)) = true) as Hall by (vm_compute; reflexivity).
  assert (forall x, 0 <= x < 256 -> Z.land x (Z.lxor 255 (Z.shiftr 255 n)) = x / 2 ^ (8 - n) * 2 ^ (8 - n)) as Heq.
  { intros x Hx. rewrite forallb_forall in Hall. specialize (Hall n). rewrite forallb_forall in Hall.
    apply Z.eqb_eq, Hall; apply in_map_iff; [exists (Z.to_nat n)|exists (Z.to_nat x)]; rewrite in_seq; lia. }
  rewrite !Heq by done. pose proof (Z.pow_pos_nonneg 2 (8 - n)). split; [|by intros ->]. nia.
Qed.

Lemma land_255 a : is_byte a -> Z.land a 255 = a.
Proof. unfold is_byte. intros Ha. change 255 with (Z.ones 8). rewrite Z.land_ones by lia. by apply Z.mod_small. Qed.

Lemma CIDRMask_zero l k : length l = length k -> and_bytes l (CIDRMask (length l) 0) = and_bytes k (CIDRMask (length l) 0).
Proof.
  revert k. induction l as [|a l IH]; intros [|b k] Hl; try done. cbn [length CIDRMask and_bytes zip_with].
  change (8 <=? 0) with false. cbn iota. change (Z.lxor 255 (Z.shiftr 255 0)) with 0. rewrite !Z.land_0_r.
  f_equal. apply IH. by injection Hl.
Qed.

(** The leading bits of a longer address. *)
Lemma leading_bits_cons b ip n : is_byte b -> Forall is_byte ip -> 0 <= n <= 8 * Z.of_nat (S (length ip)) ->
  leading_bits (b :: ip) n =
    if 8 <=? n then b * 2 ^ (n - 8) + leading_bits ip (n - 8) else b / 2 ^ (8 - n).
Proof.
  intros Hb Hip Hn. apply ip_value_range in Hip. unfold leading_bits. cbn [ip_value length].
  rewrite pow256 in * by lia. set (L := 8 * Z.of_nat (length ip)) in *.
  replace (8 * Z.of_nat (S (length ip))) with (L + 8) in * by lia.
  destruct (Z.leb_spec 8 n) as [H8|H8].
  - replace (L + 8 - n) with (L - (n - 8)) by lia.
    replace (2 ^ L) with (2 ^ (n - 8) * 2 ^ (L - (n - 8))) by (rewrite <- Z.pow_add_r by lia; f_equal; lia).
    rewrite Z.mul_assoc, Z.div_add_l; [done|]. apply Z.pow_nonzero; lia.
  - replace (L + 8 - n) with (L + (8 - n)) by lia. rewrite Z.pow_add_r, <- Z.div_div by lia.
    rewrite Z.div_add_l by (apply Z.pow_nonzero; lia). rewrite (Z.div_small (ip_value ip)) by done.
    by rewrite Z.add_0_r.
Qed.

Lemma leading_bits_range ip n : Forall is_byte ip -> 0 <= n <= 8 * Z.of_nat (length ip) ->
  0 <= leading_bits ip n < 2 ^ n.
Proof.
  intros Hip Hn. apply ip_value_range in Hip. rewrite pow256 in Hip by lia. unfold leading_bits.
  split; [apply Z.div_pos; [lia|apply Z.pow_pos_nonneg; lia]|].
  apply Z.div_lt_upper_bound; [apply Z.pow_pos_nonneg; lia|].
  rewrite <- Z.pow_add_r by lia. replace (8 * Z.of_nat (length ip) - n + n) with (8 * Z.of_nat (length ip)) by lia. lia.
Qed.

(** Two addresses agree under a CIDR mask exactly when their leading bits do. *)
Lemma mask_leading_bits l k n :
  length l = length k -> Forall is_byte l -> Forall is_byte k -> 0 <= n <= 8 * Z.of_nat (length l) ->
  and_bytes l (CIDRMask (length l) n) = and_bytes k (CIDRMask (length l) n) <-> leading_bits l n = leading_bits k n.
Proof.
  revert k n. induction l as [|a l IH]; intros [|b k] n Hl Ha Hb Hn; try done.
  injection Hl as Hl. apply Forall_cons in Ha as [Ha Hla], Hb as [Hb Hkb]. cbn [length] in Hn.
  rewrite !leading_bits_cons by (rewrite <- ?Hl; done). cbn [length CIDRMask].
  destruct (Z.leb_spec 8 n) as [H8|H8]; cbn [and_bytes zip_with].
  - rewrite !land_255 by done.
    pose proof (leading_bits_range l (n - 8) Hla ltac:(lia)).
    pose proof (leading_bits_range k (n - 8) Hkb ltac:(rewrite <- Hl; lia)).
    specialize (IH k (n - 8) Hl Hla Hkb ltac:(lia)). split.
    + intros [= -> Heq]. f_equal. by apply IH.
    + intros Heq. assert (a = b) as -> by nia. f_equal. apply IH. lia.
  - pose proof (land_mask_byte n a b ltac:(lia) Ha Hb) as Hm. pose proof (CIDRMask_zero l k Hl) as Hz.
    unfold and_bytes in Hz. rewrite Hz. rewrite <- Hm. split; [by intros [= ->]|by intros ->].
Qed.

(** ** Networks as blocks of addresses *)

(** The four-byte form of an address that has one. *)
Definition canon (ip : IP) : IP := match To4 ip with [] => ip | ip4 => ip4 end.

(** Membership in [a/n]; a block of IPv4-mapped IPv6 addresses is an IPv4 block. *)
Definition cidr_match (a : Addr) (n : Z) (ip : IP) : bool :=
  match a with
  | Addr4 net => in_cidr (canon ip) net n
  | Addr6 net _ =>
      if (96 <=? n) && bool_decide (take 12 net = v4InV6Prefix) then in_cidr (canon ip) (drop 12 net) (n - 96)
      else in_cidr (canon ip) net n
  end.

Lemma dtoi_nonneg s n m : 0 <= n -> dtoi s n = Some m -> 0 <= m.
Proof.
  revert n. induction s as [|c s IH]; simpl; intros n Hn H; [by simplify_eq|].
  destruct (is_digit c) eqn:Ed; [|done]. apply is_digit_byte in Ed. destruct (16777215 <=? _); [done|].
  apply IH in H; lia.
Qed.

Lemma length_CIDRMask len n : length (CIDRMask len n) = len.
Proof. revert n. induction len as [|len IH]; intros n; simpl; [done|]. destruct (8 <=? n); simpl; by rewrite IH. Qed.

Lemma CIDRMask_split k len n : 8 * Z.of_nat k <= n ->
  CIDRMask (k + len) n = repeat 255 k ++ CIDRMask len (n - 8 * Z.of_nat k).
Proof.
  revert n. induction k as [|k IH]; intros n Hn; cbn [Nat.add CIDRMask repeat app].
  - f_equal. lia.
  - rewrite (proj2 (Z.leb_le 8 n)) by lia. f_equal. rewrite IH by lia. do 2 f_equal. lia.
Qed.

Lemma length_and_bytes l m : length l = length m -> length (and_bytes l m) = length l.
Proof. intros H. unfold and_bytes. rewrite length_zip_with. lia. Qed.

Lemma and_bytes_idem l m : and_bytes (and_bytes l m) m = and_bytes l m.
Proof.
  unfold and_bytes. revert m. induction l as [|a l IH]; intros [|b m]; simpl; [done..|].
  rewrite IH. f_equal. by rewrite <- Z.land_assoc, Z.land_diag.
Qed.

Lemma and_bytes_ones l : Forall is_byte l -> and_bytes l (repeat 255 (length l)) = l.
Proof. induction 1 as [|b l Hb _ IH]; [done|]. unfold and_bytes in *. simpl. by rewrite land_255, IH. Qed.

Lemma and_bytes_app l1 l2 m1 m2 : length l1 = length m1 ->
  and_bytes (l1 ++ l2) (m1 ++ m2) = and_bytes l1 m1 ++ and_bytes l2 m2.
Proof. intros H. unfold and_bytes. by apply zip_with_app. Qed.

(** With 96 leading bits or more, the mask leaves the first 12 bytes alone. *)
Lemma and_bytes_split12 ip n : length ip = 16%nat -> Forall is_byte ip -> 96 <= n ->
  and_bytes ip (CIDRMask 16 n) = take 12 ip ++ and_bytes (drop 12 ip) (CIDRMask 4 (n - 96)).
Proof.
  intros Hl Hf Hn. change (CIDRMask 16 n) with (CIDRMask (12 + 4) n).
  rewrite CIDRMask_split by lia. rewrite <- (take_drop 12 ip) at 1.
  rewrite and_bytes_app by (by rewrite length_take, repeat_length, Hl). f_equal.
  assert (length (take 12 ip) = 12%nat) as H12 by (rewrite length_take, Hl; done).
  rewrite <- H12 at 2. apply and_bytes_ones. by apply Forall_take.
Qed.

(** The twelfth byte of a shorter mask is not full. *)
Lemma CIDRMask_12 n : 0 <= n < 96 -> exists v, CIDRMask 16 n !! 11%nat = Some v /\ 0 <= v < 255.
Proof.
  intros Hn.
  assert (forallb (fun n => match CIDRMask 16 n !! 11%nat with Some v => (0 <=? v) && (v <? 255) | None => false end)
    (List.map Z.of_nat (seq 0 96)) = true) as Hall by (vm_compute; reflexivity).
  rewrite forallb_forall in Hall. specialize (Hall n).
  destruct (CIDRMask 16 n !! 11%nat) as [v|].
  - exists v. split; [done|]. assert ((0 <=? v) && (v <? 255) = true); [|to_prop; lia].
    apply Hall, in_map_iff. exists (Z.to_nat n). rewrite in_seq. lia.
  - assert (false = true); [|done]. apply Hall, in_map_iff. exists (Z.to_nat n). rewrite in_seq. lia.
Qed.

Lemma mapped_masked ip n : length ip = 16%nat -> Forall is_byte ip -> 0 <= n ->
  take 12 (and_bytes ip (CIDRMask 16 n)) = v4InV6Prefix <-> 96 <= n /\ take 12 ip = v4InV6Prefix.
Proof.
  intros Hl Hf Hn. destruct (decide (96 <= n)) as [H96|H96].
  - rewrite and_bytes_split12 by done. rewrite take_app_le by (rewrite length_take, Hl; lia).
    rewrite take_take. tauto.
  - split; [|lia]. intros Heq. exfalso. destruct (CIDRMask_12 n) as (v & Hv & Hr); [lia|].
    destruct (lookup_lt_is_Some_2 ip 11%nat) as [x Hx]; [lia|].
    assert (and_bytes ip (CIDRMask 16 n) !! 11%nat = Some (Z.land x v)) as Hand
      by (apply lookup_zip_with_Some; eauto).
    assert (take 12 (and_bytes ip (CIDRMask 16 n)) !! 11%nat = Some 255) as H255 by (by rewrite Heq).
    rewrite lookup_take_lt in H255 by lia. rewrite Hand in H255. injection H255 as H255.
    assert (Z.land 255 v = 255) as Hfull by (rewrite <- H255 at 1; by rewrite <- Z.land_assoc, Z.land_diag).
    rewrite Z.land_comm, land_255 in Hfull by (unfold is_byte; lia). lia.
Qed.

Lemma canon_wf ip : wf_ip ip -> wf_ip (canon ip).
Proof.
  intros Hw. unfold canon. destruct (To4 ip) as [|b l] eqn:E; [done|].
  destruct (To4_wf ip Hw) as [Hl Hf]; [by rewrite E|]. rewrite E in *. split; [by left|done].
Qed.

Lemma in_cidr_mask ip net len n : length net = len -> Forall is_byte net -> Forall is_byte ip ->
  0 <= n <= 8 * Z.of_nat len ->
  (length ip =? len)%nat && bool_decide (and_bytes net (CIDRMask len n) = and_bytes ip (CIDRMask len n)) =
  in_cidr ip net n.
Proof.
  intros <- Hf Hi Hn. unfold in_cidr. destruct (length ip =? length net)%nat eqn:El; [|done]. simpl.
  apply Nat.eqb_eq in El. apply eq_bool_prop_intro. rewrite !Is_true_true, bool_decide_eq_true, Z.eqb_eq.
  rewrite (mask_leading_bits net ip n) by done. split; congruence.
Qed.

Lemma canon_4 ip : length ip = 4%nat -> canon ip = ip.
Proof. intros H. unfold canon, To4. rewrite H. by destruct ip. Qed.

Lemma canon_mapped ip : length ip = 16%nat ->
  canon ip = if bool_decide (take 12 ip = v4InV6Prefix) then drop 12 ip else ip.
Proof.
  intros H. unfold canon, To4. rewrite H. simpl. case_bool_decide; [|done].
  destruct (drop 12 ip) eqn:E; [|done]. apply (f_equal length) in E. rewrite length_drop, H in E. done.
Qed.

(** [Contains] where address and mask have one length, and where the mask is
    that of the sixteen-byte form. *)
Lemma Contains_fit nn m ip : wf_ip (canon nn) -> length m = length (canon nn) ->
  IPNet_Contains (mkIPNet nn m) ip =
  (length (canon ip) =? length (canon nn))%nat && bool_decide (and_bytes (canon nn) m = and_bytes (canon ip) m).
Proof.
  intros [Hl _] Hm. unfold IPNet_Contains, networkNumberAndMask. cbn [net_IP net_Mask]. fold (canon nn) (canon ip).
  destruct Hl as [Hl|Hl]; rewrite Hm, Hl; cbn [Nat.eqb negb orb]; by rewrite Hl.
Qed.

Lemma Contains_mapped nn m ip : length (canon nn) = 4%nat -> length m = 16%nat ->
  IPNet_Contains (mkIPNet nn m) ip =
  (length (canon ip) =? 4)%nat && bool_decide (and_bytes (canon nn) (drop 12 m) = and_bytes (canon ip) (drop 12 m)).
Proof.
  intros Hl Hm. unfold IPNet_Contains, networkNumberAndMask. cbn [net_IP net_Mask]. fold (canon nn) (canon ip).
  rewrite Hm, Hl. cbn [Nat.eqb negb orb andb]. by rewrite Hl.
Qed.

Lemma Forall_and_bytes l m : Forall is_byte l -> Forall is_byte m -> Forall is_byte (and_bytes l m).
Proof.
  intros Hl. unfold and_bytes. revert m. induction Hl as [|a l Ha _ IH]; intros m Hm; simpl; [constructor|].
  destruct Hm as [|b m Hb Hm]; [constructor|]. constructor; [|by apply IH]. unfold is_byte in *.
  split; [apply Z.land_nonneg; lia|]. rewrite <- (land_255 b), Z.land_assoc by done.
  change 255 with (Z.ones 8). rewrite Z.land_ones by lia. apply Z.mod_pos_bound. lia.
Qed.

Lemma Forall_CIDRMask len n : 0 <= n -> Forall is_byte (CIDRMask len n).
Proof.
  revert n. induction len as [|len IH]; intros n Hn; cbn [CIDRMask]; [constructor|].
  destruct (Z.leb_spec 8 n) as [H8|H8]; constructor; [unfold is_byte; lia|apply IH; lia| |apply IH; lia].
  assert (forallb (fun n => (0 <=? Z.lxor 255 (Z.shiftr 255 n)) && (Z.lxor 255 (Z.shiftr 255 n) <? 256))
    (List.map Z.of_nat (seq 0 8)) = true) as Hall by (vm_compute; reflexivity).
  rewrite forallb_forall in Hall. specialize (Hall n).
  assert (In n (List.map Z.of_nat (seq 0 8))) as Hin by (apply in_map_iff; exists (Z.to_nat n); rewrite in_seq; lia).
  specialize (Hall Hin). unfold is_byte. to_prop. lia.
Qed.

Lemma Contains_block4 ip n x : wf_addr (Addr4 ip) -> 0 <= n <= 32 -> wf_ip x ->
  IPNet_Contains (mkIPNet (and_bytes ip (CIDRMask 4 n)) (CIDRMask 4 n)) x = cidr_match (Addr4 ip) n x.
Proof.
  intros [Hl Hf] Hn Hx. apply canon_wf in Hx as [_ Hxb].
  assert (length (and_bytes ip (CIDRMask 4 n)) = 4%nat) as Hla by (by rewrite length_and_bytes; rewrite ?length_CIDRMask).
  pose proof (canon_4 _ Hla) as Hc. rewrite Contains_fit; rewrite ?Hc, ?Hla, ?length_CIDRMask; try done.
  - rewrite and_bytes_idem. apply in_cidr_mask; [done..|lia].
  - split; [by left|]. apply Forall_and_bytes; [done|]. apply Forall_CIDRMask. lia.
Qed.

Lemma Contains_block6 ip zone n x : wf_addr (Addr6 ip zone) -> 0 <= n <= 128 -> wf_ip x ->
  IPNet_Contains (mkIPNet (and_bytes ip (CIDRMask 16 n)) (CIDRMask 16 n)) x = cidr_match (Addr6 ip zone) n x.
Proof.
  intros [Hl Hf] Hn Hx. apply canon_wf in Hx as [_ Hxb]. unfold cidr_match.
  assert (length (and_bytes ip (CIDRMask 16 n)) = 16%nat) as Hla by (by rewrite length_and_bytes; rewrite ?length_CIDRMask).
  pose proof (mapped_masked ip n Hl Hf ltac:(lia)) as Hm. pose proof (canon_mapped _ Hla) as Hc.
  destruct (decide (take 12 (and_bytes ip (CIDRMask 16 n)) = v4InV6Prefix)) as [Ht|Ht].
  - apply Hm in Ht as [H96 Ht]. rewrite (proj2 (Z.leb_le 96 n)), (bool_decide_eq_true_2 _ Ht) by lia.
    assert (length (take 12 ip) = 12%nat) as H12 by (rewrite length_take, Hl; done).
    rewrite and_bytes_split12 in Hc |- * by done.
    rewrite (bool_decide_eq_true_2 (take 12 (take 12 ip ++ _) = _)), (drop_app_length' (take 12 ip)) in Hc
      by (rewrite ?take_app_length'; done).
    assert (length (and_bytes (drop 12 ip) (CIDRMask 4 (n - 96))) = 4%nat) as H4.
    { by rewrite length_and_bytes; rewrite length_drop, ?length_CIDRMask, Hl. }
    rewrite Contains_mapped; rewrite ?Hc, ?length_CIDRMask, ?H4; try done.
    change (CIDRMask 16 n) with (CIDRMask (12 + 4) n). rewrite CIDRMask_split by lia.
    rewrite (drop_app_length' (repeat 255 12)) by done. replace (n - 8 * Z.of_nat 12) with (n - 96) by lia.
    rewrite and_bytes_idem. cbn [andb].
    apply in_cidr_mask; [by rewrite length_drop, Hl|by apply Forall_drop|done|lia].
  - assert ((96 <=? n) && bool_decide (take 12 ip = v4InV6Prefix) = false) as ->.
    { apply not_true_iff_false. intros Hx. to_prop. tauto. }
    rewrite (bool_decide_eq_false_2 _ Ht) in Hc.
    rewrite Contains_fit; rewrite ?Hc, ?Hla, ?length_CIDRMask; try done.
    + rewrite and_bytes_idem. apply in_cidr_mask; [done..|lia].
    + split; [by right|]. apply Forall_and_bytes; [done|]. apply Forall_CIDRMask. lia.
Qed.

(** A network [ParseCIDR] returns contains exactly the addresses of its block. *)
Lemma ParseCIDR_block s net :
  ParseCIDR s = Some net -> exists addr mask a n,
    cut "/" s = Some (addr, mask) /\ ParseAddr addr = Some a /\ dtoi mask 0 = Some n /\ 0 <= n /\
    forall ip, wf_ip ip -> IPNet_Contains net ip = cidr_match a n ip.
Proof.
  unfold ParseCIDR. destruct (cut "/" s) as [[addr mask]|] eqn:Ec; [|done]. intros H.
  destruct mask as [|mc ms]; [done|]. set (mask := String mc ms) in *.
  destruct (ParseAddr addr) as [a|] eqn:Ea; [|done].
  destruct (dtoi mask 0) as [n|] eqn:En; [|by destruct a].
  exists addr, mask, a, n. assert (0 <= n) as Hn by (eapply dtoi_nonneg; [|done]; lia). split_and!; [done..|].
  intros x Hx. apply ParseAddr_wf in Ea. destruct a as [ip|ip zone].
  - destruct (32 <? n) eqn:E32; [done|]. simplify_eq. to_prop. by apply Contains_block4.
  - destruct (negb _ || (128 <? n)) eqn:E128; [done|]. simplify_eq. to_prop. by apply Contains_block6.
Qed.
