(* ===== verification/Security.v ===== *)
(** * security/url_validator.go: URLs that are safe to request

    Parsing a URL and resolving a host name are parameters: the theorems hold
    for every parser and for every answer of the resolver. *)

From Stdlib Require Import Ascii.
From S2P Require Import Prelude GoError GoString GoNet.

Open Scope Z_scope.

Record URLValidatorConfig := mkURLValidatorConfig {
  AllowedSchemes : list string;
  AllowedHosts : list string;
  BlockPrivateIPs : bool;
  BlockLocalhost : bool;
  MaxRedirects : Z
}.

Definition DefaultURLValidatorConfig : URLValidatorConfig := mkURLValidatorConfig ["https"] [] true true 3.

Record URLValidator := mkURLValidator { config : URLValidatorConfig }.

Definition NewURLValidator (cfg : URLValidatorConfig) : URLValidator :=
  mkURLValidator
    (if bool_decide (AllowedSchemes cfg = []) then
       mkURLValidatorConfig ["https"] (AllowedHosts cfg) (BlockPrivateIPs cfg) (BlockLocalhost cfg) (MaxRedirects cfg)
     else cfg).

Record ValidationError := mkValidationError { URL_ : string; Reason : string; Details : string }.

(** [e.Error()]; [quote] is the [%q] verb. *)
Definition ValidationError_Error (quote : string -> string) (e : ValidationError) : string :=
  if negb (bool_decide (Details e = "")) then
    "URL validation failed for " +:+ quote (URL_ e) +:+ ": " +:+ Reason e +:+ " (" +:+ Details e +:+ ")"
  else "URL validation failed for " +:+ quote (URL_ e) +:+ ": " +:+ Reason e.

(** What a check returns: nil, an error, or no value because an index was out
    of range. *)
Inductive outcome (E : Type) := Nil | Invalid (e : E) | Panic.
Arguments Nil {E}.
Arguments Invalid {E} e.
Arguments Panic {E}.

(** [if err := c; err != nil { return err }; k] *)
Definition and_then {E} (c k : outcome E) : outcome E := match c with Nil => k | _ => c end.
Notation "c 'and?' k" := (and_then c k) (at level 85, right associativity) : cg_scope.

Lemma and_then_nil {E} (c k : outcome E) : and_then c k = Nil <-> c = Nil /\ k = Nil.
Proof. destruct c; simpl; intuition congruence. Qed.

(** ** Address ranges *)

(** The first loop of [ipInRange]. *)
Fixpoint range_loop (ip start end_ : IP) : bool :=
  match ip, start, end_ with
  | b :: ip, s :: start, e :: end_ =>
      if (b <? s) || (e <? b) then
        if b <? s then false
        else if (e <? b) && negb (bool_decide (ip = [])) then false
        else range_loop ip start end_
      else range_loop ip start end_
  | _, _, _ => true
  end.

(** The second loop, with its two flags. *)
Fixpoint precise_loop (gteStart lteEnd : bool) (ip start end_ : IP) : bool :=
  match ip, start, end_ with
  | b :: ip, s :: start, e :: end_ =>
      if gteStart && (b <? s) then false
      else if lteEnd && (e <? b) then false
      else precise_loop (if s <? b then true else gteStart) (if b <? e then true else lteEnd) ip start end_
  | _, _, _ => true
  end.

Definition ipInRange (ip start end_ : IP) : bool :=
  if negb (length ip =? length start)%nat || negb (length ip =? length end_)%nat then false
  else if negb (range_loop ip start end_) then false
  else precise_loop true true ip start end_.

Definition privateRanges : list (IP * IP) :=
  [(ParseIP "10.0.0.0", ParseIP "10.255.255.255");
   (ParseIP "172.16.0.0", ParseIP "172.31.255.255");
   (ParseIP "192.168.0.0", ParseIP "192.168.255.255");
   (ParseIP "169.254.0.0", ParseIP "169.254.255.255");
   (ParseIP "127.0.0.0", ParseIP "127.255.255.255");
   (ParseIP "0.0.0.0", ParseIP "0.255.255.255")].

(** [isPrivateIP]; [None] if [ip[0]] or [ip[1]] is out of range. *)
Definition isPrivateIP (ip : IP) : option bool :=
  if bool_decide (ip = []) then Some true
  else
    let ip4 := To4 ip in
    if negb (bool_decide (ip4 = [])) && existsb (fun r => ipInRange ip4 (To4 r.1) (To4 r.2)) privateRanges then Some true
    else if bool_decide (ip4 = []) then
      match ip with
      | b0 :: b1 :: _ =>
          Some (((b0 =? 254) && (Z.land b1 192 =? 128)) || (Z.land b0 254 =? 252) || Equal ip IPv6loopback)
      | _ => None
      end
    else Some false.

(** ** Hosts *)

(** What [url.Parse] returns, as far as the validator looks at it. *)
Record URL := mkURL { Scheme : string; Host : string; url_String : string }.

Fixpoint all_digits (s : string) : bool :=
  match s with EmptyString => true | String c s => is_digit c && all_digits s end.

(** [validOptionalPort(port)] *)
Definition validOptionalPort (port : string) : bool :=
  match port with EmptyString => true | String c rest => Ascii.eqb c ":" && all_digits rest end.

(** [host[:i], host[i:]] for the last [c] of [host]. *)
Fixpoint cut_last (c : ascii) (s : string) : option (string * string) :=
  match s with
  | EmptyString => None
  | String a rest =>
      match cut_last c rest with
      | Some (x, y) => Some (String a x, y)
      | None => if Ascii.eqb a c then Some ("", s) else None
      end
  end.

(** [u.Hostname()] *)
Definition Hostname (u : URL) : string :=
  let host :=
    match cut_last ":" (Host u) with
    | Some (h, port) => if validOptionalPort port then h else Host u
    | None => Host u
    end in
  if HasPrefix host "[" && HasSuffix host "]" then take_string (String.length host - 2) (drop_string 1 host) else host.

Definition isLocalhost `{Unicode} (host : string) : bool :=
  let host := ToLower host in
  bool_decide (host = "localhost") || bool_decide (host = "127.0.0.1") || bool_decide (host = "::1") ||
  bool_decide (host = "[::1]") || bool_decide (host = "0.0.0.0").

Definition isHostAllowed `{Unicode} (v : URLValidator) (host : string) : bool :=
  let host := ToLower host in
  existsb (fun pattern =>
    let pattern := ToLower pattern in
    bool_decide (pattern = host) || (HasPrefix pattern "*." && HasSuffix host (drop_string 1 pattern)))
    (AllowedHosts (config v)).

(** ** Validation *)

(** A [[]string] as [%v] prints it. *)
Definition show_strings (l : list string) : string := "[" +:+ String.concat " " l +:+ "]".

Section Validate.
Context `{Unicode} (url_Parse : string -> result error URL) (LookupIPAddr : string -> result error (list IP)).
Context (ip_String : IP -> string).

Definition validateScheme (v : URLValidator) (parsed : URL) : outcome ValidationError :=
  let scheme := ToLower (Scheme parsed) in
  if existsb (fun allowed => EqualFold allowed scheme) (AllowedSchemes (config v)) then Nil
  else Invalid (mkValidationError (url_String parsed) "scheme not allowed"
    ("allowed: " +:+ show_strings (AllowedSchemes (config v)) +:+ ", got: " +:+ scheme)).

Definition validateHost (v : URLValidator) (parsed : URL) : outcome ValidationError :=
  let host := Hostname parsed in
  if bool_decide (host = "") then Invalid (mkValidationError (url_String parsed) "empty host" "")
  else if negb (bool_decide (AllowedHosts (config v) = [])) && negb (isHostAllowed v host) then
    Invalid (mkValidationError (url_String parsed) "host not in allowed list" "")
  else if BlockLocalhost (config v) && isLocalhost host then
    Invalid (mkValidationError (url_String parsed) "localhost not allowed" "")
  else Nil.

Definition checkIP (v : URLValidator) (ip : IP) (rawURL : string) : outcome ValidationError :=
  if BlockLocalhost (config v) && IsLoopback ip then
    Invalid (mkValidationError rawURL "loopback address not allowed" "")
  else if BlockPrivateIPs (config v) then
    match isPrivateIP ip with
    | None => Panic
    | Some true => Invalid (mkValidationError rawURL "private IP address not allowed" (ip_String ip))
    | Some false => Nil
    end
  else Nil.

Fixpoint checkIPs (v : URLValidator) (ips : list IP) (rawURL : string) : outcome ValidationError :=
  match ips with
  | [] => Nil
  | ip :: ips => checkIP v ip rawURL and? checkIPs v ips rawURL
  end.

Definition validateResolvedIP (v : URLValidator) (parsed : URL) : outcome ValidationError :=
  let host := Hostname parsed in
  let ip := ParseIP host in
  if negb (bool_decide (ip = [])) then checkIP v ip (url_String parsed)
  else
    match LookupIPAddr host with
    | Fail err => Invalid (mkValidationError (url_String parsed) "hostname resolution failed" (ErrorText err))
    | Ok addresses => checkIPs v addresses (url_String parsed)
    end.

Definition Validate (v : URLValidator) (rawURL : string) : outcome ValidationError :=
  match url_Parse rawURL with
  | Fail err => Invalid (mkValidationError rawURL "invalid URL format" (ErrorText err))
  | Ok parsed => validateScheme v parsed and? validateHost v parsed and? validateResolvedIP v parsed
  end.

(** The errors of [ValidateRedirectURL]. *)
Inductive RedirectError :=
| InvalidRedirectTarget (e : ValidationError)
| InvalidOriginalURL (e : error)
| InvalidRedirectURL (e : error)
| ProtocolDowngrade (e : ValidationError).

Definition ValidateRedirectURL (v : URLValidator) (originalURL redirectURL : string) : outcome RedirectError :=
  match Validate v redirectURL with
  | Panic => Panic
  | Invalid e => Invalid (InvalidRedirectTarget e)
  | Nil =>
      match url_Parse originalURL with
      | Fail e => Invalid (InvalidOriginalURL e)
      | Ok original =>
          match url_Parse redirectURL with
          | Fail e => Invalid (InvalidRedirectURL e)
          | Ok redirect =>
              if EqualFold (Scheme original) "https" && EqualFold (Scheme redirect) "http" then
                Invalid (ProtocolDowngrade (mkValidationError redirectURL "protocol downgrade not allowed" ""))
              else Nil
          end
      end
  end.
End Validate.

(** ** Private addresses *)

(** [ipInRange] compares byte by byte: it tests membership in the box between
    the two addresses, which contains fewer addresses than the interval. *)
Lemma ipInRange_box ip start end_ : length ip = length start -> length ip = length end_ ->
  ipInRange ip start end_ = true <->
  Forall2 (fun b s => s <= b) ip start /\ Forall2 (fun b e => b <= e) ip end_.
Proof.
  intros Hs He. unfold ipInRange. rewrite <- Hs, <- He, Nat.eqb_refl. cbn [negb orb].
  assert (precise_loop true true ip start end_ = true <->
    Forall2 (fun b s => s <= b) ip start /\ Forall2 (fun b e => b <= e) ip end_) as Hp.
  { revert start end_ Hs He. induction ip as [|b ip IH]; intros [|s start] [|e end_] Hs He; try done.
    injection Hs as Hs. injection He as He. cbn [precise_loop andb]. rewrite !Forall2_cons.
    assert (forall x y, (if x : bool then true else y : bool) = x || y) as Hor by (by intros [] []).
    rewrite !Hor, !orb_true_r. destruct (Z.ltb_spec b s); [split; [done|lia]|].
    destruct (Z.ltb_spec e b); [split; [done|lia]|]. rewrite IH by done. tauto. }
  destruct (negb _) eqn:E; [|done]. to_prop. split; [done|]. intros [H1 H2]. exfalso.
  clear Hp. revert start end_ Hs He E H1 H2. induction ip as [|b ip IH]; intros [|s start] [|e end_] Hs He E H1 H2; try done.
  apply Forall2_cons in H1 as [H1 H1'], H2 as [H2 H2']. cbn [range_loop] in E.
  rewrite (proj2 (Z.ltb_ge b s)), (proj2 (Z.ltb_ge e b)) in E by lia. injection Hs as Hs. injection He as He.
  by apply (IH start end_).
Qed.

(** The blocks the validator means, as networks with their prefix length. *)
Definition private4 : list (IP * Z) :=
  [([10; 0; 0; 0], 8); ([172; 16; 0; 0], 12); ([192; 168; 0; 0], 16); ([169; 254; 0; 0], 16);
   ([127; 0; 0; 0], 8); ([0; 0; 0; 0], 8)].
Definition private6 : list (IP * Z) :=
  [([254; 128] ++ repeat 0 14, 10); ([252] ++ repeat 0 15, 7); (IPv6loopback, 128)].

(** [ip] is in a private, link-local, loopback or "this network" block. *)
Definition in_private (ip : IP) : bool :=
  existsb (fun b => in_cidr (canon ip) b.1 b.2) (if (length (canon ip) =? 4)%nat then private4 else private6).

(** Boxes whose bounds are those of a block of addresses. *)
Lemma box_block a b c d s e n :
  Forall is_byte [a; b; c; d] -> In (s, e, n)
    [([10; 0; 0; 0], [10; 255; 255; 255], 8); ([172; 16; 0; 0], [172; 31; 255; 255], 12);
     ([192; 168; 0; 0], [192; 168; 255; 255], 16); ([169; 254; 0; 0], [169; 254; 255; 255], 16);
     ([127; 0; 0; 0], [127; 255; 255; 255], 8); ([0; 0; 0; 0], [0; 255; 255; 255], 8)] ->
  ipInRange [a; b; c; d] s e = in_cidr [a; b; c; d] s n.
Proof.
  rewrite !Forall_cons. unfold is_byte. intros (Ha & Hb & Hc & Hd & _) Hin.
  apply eq_bool_prop_intro. rewrite !Is_true_true. simpl in Hin.
  repeat (destruct Hin as [Hin|Hin]; [injection Hin as <- <- <-|]); [..|done].
  all: rewrite ipInRange_box by done; unfold in_cidr, leading_bits.
  all: rewrite !Forall2_cons, !Forall2_nil; cbn [length Nat.eqb andb ip_value]; rewrite Z.eqb_eq.
  all: change (256 ^ Z.of_nat 3) with 16777216; change (256 ^ Z.of_nat 2) with 65536;
    change (256 ^ Z.of_nat 1) with 256; change (256 ^ Z.of_nat 0) with 1.
  all: match goal with |- context [2 ^ ?e] => let r := eval vm_compute in (2 ^ e) in change (2 ^ e) with r end.
  all: Z.div_mod_to_equations; lia.
Qed.

Lemma private4_exact ip4 : length ip4 = 4%nat -> Forall is_byte ip4 ->
  existsb (fun r => ipInRange ip4 (To4 r.1) (To4 r.2)) privateRanges = existsb (fun b => in_cidr ip4 b.1 b.2) private4.
Proof.
  intros Hl Hf. destruct ip4 as [|a [|b [|c [|d [|x l]]]]]; try done.
  unfold privateRanges, private4. cbn [existsb fst snd].
  repeat match goal with |- context [To4 (ParseIP ?s)] =>
    let r := eval vm_compute in (To4 (ParseIP s)) in change (To4 (ParseIP s)) with r end.
  rewrite (box_block a b c d _ _ 8), (box_block a b c d _ _ 12), (box_block a b c d _ _ 16),
    (box_block a b c d _ _ 16), (box_block a b c d _ _ 8), (box_block a b c d _ _ 8); [done|..].
  all: first [done|simpl; tauto].
Qed.

(** A whole address of leading bits is the address. *)
Lemma in_cidr_full ip net : length ip = 16%nat -> length net = 16%nat -> Forall is_byte ip -> Forall is_byte net ->
  in_cidr ip net 128 = Equal ip net.
Proof.
  intros Hi Hn Hif Hnf. rewrite <- (in_cidr_mask ip net 16 128) by (try done; lia). unfold Equal. rewrite Hi, Hn.
  pose proof (and_bytes_ones ip Hif) as Ei. pose proof (and_bytes_ones net Hnf) as En. rewrite Hi in Ei. rewrite Hn in En.
  change (CIDRMask 16 128) with (repeat 255 16). rewrite Ei, En. cbn [Nat.eqb andb]. apply bool_decide_ext. split; congruence.
Qed.

Lemma private6_exact b0 b1 rest : let ip := b0 :: b1 :: rest in
  length ip = 16%nat -> Forall is_byte ip ->
  ((b0 =? 254) && (Z.land b1 192 =? 128)) || (Z.land b0 254 =? 252) || Equal ip IPv6loopback =
  existsb (fun b => in_cidr ip b.1 b.2) private6.
Proof.
  intros ip Hl Hf. unfold private6. cbn [existsb fst snd]. rewrite orb_false_r, orb_assoc. f_equal.
  2: { symmetry. apply in_cidr_full; [done..|]. unfold IPv6loopback.
    apply Forall_app. split; [apply Forall_zeros|apply Forall_singleton; unfold is_byte; lia]. }
  assert (length rest = 14%nat) as Hr by (by injection Hl).
  pose proof Hf as Hf'. apply Forall_cons in Hf' as [H0 Hf1]. pose proof Hf1 as Hf2. apply Forall_cons in Hf2 as [H1 Hf2].
  unfold in_cidr, ip. cbn [length app repeat]. rewrite Hr. cbn [Nat.eqb andb].
  assert (leading_bits (b0 :: b1 :: rest) 10 = b0 * 2 ^ 2 + b1 / 2 ^ 6) as ->.
  { rewrite leading_bits_cons by (try done; cbn [length]; rewrite Hr; lia). change (10 - 8) with 2.
    by rewrite leading_bits_cons by (try done; rewrite Hr; lia). }
  assert (leading_bits (b0 :: b1 :: rest) 7 = b0 / 2 ^ 1) as ->.
  { by rewrite leading_bits_cons by (try done; cbn [length]; rewrite Hr; lia). }
  pose proof (land_mask_byte 2 b1 128 ltac:(lia) H1 ltac:(unfold is_byte; lia)) as M2.
  pose proof (land_mask_byte 7 b0 252 ltac:(lia) H0 ltac:(unfold is_byte; lia)) as M7.
  change (Z.lxor 255 (Z.shiftr 255 2)) with 192 in M2. change (Z.lxor 255 (Z.shiftr 255 7)) with 254 in M7.
  change (Z.land 128 192) with 128 in M2. change (Z.land 252 254) with 252 in M7.
  change (8 - 2) with 6 in *. change (8 - 7) with 1 in *.
  match goal with |- context [leading_bits (254 :: 128 :: ?l) 10] =>
    change (leading_bits (254 :: 128 :: l) 10) with 1018 end.
  match goal with |- context [leading_bits (252 :: ?l) 7] => change (leading_bits (252 :: l) 7) with 126 end.
  change (128 / 2 ^ 6) with 2 in M2. change (252 / 2 ^ 1) with 126 in M7. unfold is_byte in *.
  apply eq_bool_prop_intro. rewrite !Is_true_true, !orb_true_iff, andb_true_iff, !Z.eqb_eq, M2, M7.
  change (2 ^ 2) with 4. assert (0 <= b1 / 2 ^ 6 < 4) by (change (2 ^ 6) with 64; Z.div_mod_to_equations; lia). lia.
Qed.

Lemma private_ip_block ip : wf_ip ip -> isPrivateIP ip = Some (in_private ip).
Proof.
  intros Hw. pose proof (canon_wf ip Hw) as [_ Hcb]. unfold isPrivateIP, in_private.
  rewrite (bool_decide_eq_false_2 (ip = [])) by (intros ->; by destruct Hw as [[] _]).
  destruct (decide (To4 ip = [])) as [E|E].
  - assert (canon ip = ip) as -> by (unfold canon; by rewrite E). rewrite (bool_decide_eq_true_2 _ E). cbn [negb andb].
    destruct Hw as [[Hl|Hl] Hf]; [unfold To4 in E; rewrite Hl in E; simpl in E; by subst|]. rewrite Hl. cbn [Nat.eqb].
    destruct ip as [|b0 [|b1 rest]]; try done. f_equal. by apply private6_exact.
  - destruct (To4_wf ip Hw E) as [Hl Hf]. assert (canon ip = To4 ip) as -> by (unfold canon; by destruct (To4 ip)).
    rewrite (bool_decide_eq_false_2 _ E), private4_exact, Hl by done. cbn [negb andb Nat.eqb].
    by destruct (existsb _ private4).
Qed.

Lemma mapped_wf ip : wf_ip ip -> length ip = 4%nat -> wf_ip (v4InV6Prefix ++ ip).
Proof.
  intros [_ Hf] Hl. split; [right; by rewrite length_app, Hl|]. apply Forall_app. split; [apply Forall_prefix|done].
Qed.

(** [isPrivateIP] never panics on an address of 4 or 16 bytes and answers
    exactly whether the address lies in 10/8, 172.16/12, 192.168/16, 169.254/16,
    127/8 or 0/8, or is an IPv6 address in fe80::/10 or fc00::/7 or the IPv6
    loopback; no other address is blocked.  An IPv4 address cannot evade the
    check by being written in IPv4-mapped IPv6 form. *)
Theorem private_ip_exact ip : wf_ip ip ->
  isPrivateIP ip = Some (in_private ip) /\
  (length ip = 4%nat -> isPrivateIP (v4InV6Prefix ++ ip) = Some (in_private ip)).
Proof.
  intros Hw. split; [by apply private_ip_block|]. intros Hl.
  rewrite private_ip_block by (by apply mapped_wf). f_equal. unfold in_private.
  rewrite (canon_4 ip), (canon_mapped (v4InV6Prefix ++ ip)) by (rewrite ?length_app, ?Hl; done). done.
Qed.

Lemma private_ip_exact_witness :
  isPrivateIP [172; 31; 255; 1] = Some true /\ isPrivateIP [172; 32; 0; 1] = Some false /\
  isPrivateIP (v4InV6Prefix ++ [10; 1; 2; 3]) = Some true.
Proof.
  assert (forall a b c d, forallb (fun x => (0 <=? x) && (x <? 256)) [a; b; c; d] = true -> wf_ip [a; b; c; d]) as Hw.
  { intros a b c d Hb. split; [by left|]. apply Forall_forall. intros x Hx. rewrite forallb_forall in Hb.
    apply list_elem_of_In, Hb in Hx. unfold is_byte. to_prop. lia. }
  split_and!.
  - destruct (private_ip_exact [172; 31; 255; 1]) as [-> _]; [by apply Hw|vm_compute; reflexivity].
  - destruct (private_ip_exact [172; 32; 0; 1]) as [-> _]; [by apply Hw|vm_compute; reflexivity].
  - destruct (private_ip_exact [10; 1; 2; 3]) as [_ ->]; [by apply Hw|done|vm_compute; reflexivity].
Defined.

(** ** What passes validation *)

Section ValidateSpec.
Context `{Unicode} (LookupIPAddr : string -> result error (list IP)) (ip_String : IP -> string).

(** [host] is a listed host, or below a listed wildcard domain. *)
Definition host_listed (v : URLValidator) (host : string) : Prop :=
  exists pattern, In pattern (AllowedHosts (config v)) /\
    (ToLower pattern = ToLower host \/
     exists domain sub, ToLower pattern = "*." +:+ domain /\ ToLower host = sub +:+ "." +:+ domain).

(** The addresses a request to [host] goes to. *)
Definition destinations (host : string) (ips : list IP) : Prop :=
  (ParseIP host <> [] /\ ips = [ParseIP host]) \/ (ParseIP host = [] /\ LookupIPAddr host = Ok ips).

Definition address_ok (v : URLValidator) (ip : IP) : Prop :=
  (BlockLocalhost (config v) = true -> IsLoopback ip = false) /\
  (BlockPrivateIPs (config v) = true -> in_private ip = false).

Lemma isHostAllowed_spec v host : isHostAllowed v host = true <-> host_listed v host.
Proof.
  unfold isHostAllowed, host_listed. rewrite existsb_exists. apply exist_proper. intros pattern.
  rewrite orb_true_iff, andb_true_iff, bool_decide_eq_true, HasPrefix_spec, HasSuffix_spec.
  assert (forall d, drop_string 1 ("*." +:+ d) = "." +:+ d) as Hdrop by done. split.
  - intros (Hin & [Heq|[[d Hd] [sub Hsub]]]); [by eauto|]. rewrite Hd, Hdrop in Hsub. eauto 10.
  - intros (Hin & [Heq|(d & sub & Hd & Hsub)]); [by eauto|]. split; [done|]. right. rewrite Hd, Hdrop. eauto.
Qed.

Lemma checkIP_spec v ip raw : wf_ip ip ->
  (checkIP ip_String v ip raw = Nil <-> address_ok v ip) /\ checkIP ip_String v ip raw <> Panic.
Proof.
  intros Hw. unfold checkIP, address_ok. rewrite private_ip_block by done.
  destruct (BlockLocalhost _), (IsLoopback ip), (BlockPrivateIPs _), (in_private ip); simpl; intuition congruence.
Qed.

Lemma checkIPs_spec v ips raw : Forall wf_ip ips ->
  (checkIPs ip_String v ips raw = Nil <-> Forall (address_ok v) ips) /\ checkIPs ip_String v ips raw <> Panic.
Proof.
  induction 1 as [|ip ips Hw _ [IH1 IH2]]; simpl; [by split; [split; [constructor|]|]|].
  destruct (checkIP_spec v ip raw Hw) as [Hc Hp]. rewrite and_then_nil, Forall_cons, Hc, IH1.
  split; [done|]. by destruct (checkIP ip_String v ip raw).
Qed.

Lemma validateResolvedIP_spec v u : (forall host ips, LookupIPAddr host = Ok ips -> Forall wf_ip ips) ->
  (validateResolvedIP LookupIPAddr ip_String v u = Nil <->
   exists ips, destinations (Hostname u) ips /\ Forall (address_ok v) ips) /\
  validateResolvedIP LookupIPAddr ip_String v u <> Panic.
Proof.
  intros Hdns. unfold validateResolvedIP, destinations. case_bool_decide as E; simpl.
  - destruct (LookupIPAddr (Hostname u)) as [ips|e] eqn:El.
    + destruct (checkIPs_spec v ips (url_String u) (Hdns _ _ El)) as [-> Hp]. split; [|done]. split.
      * intros Hf. exists ips. split; [by right|done].
      * intros (ips' & [[Hne _]|[_ Heq]] & Hf); [done|]. by simplify_eq.
    + split; [|done]. split; [done|]. intros (ips & [[Hne _]|[_ Heq]] & _); done.
  - destruct (ParseIP_wf (Hostname u)) as [|[Hl Hf]]; [done|].
    destruct (checkIP_spec v (ParseIP (Hostname u)) (url_String u)) as [-> Hp]; [split; [by right|done]|].
    split; [|done]. split.
    + intros Ha. exists [ParseIP (Hostname u)]. split; [by left|]. by constructor.
    + intros (ips & [[_ ->]|[Hn _]] & Ha); [|done]. by inversion Ha.
Qed.

Lemma validateHost_spec v u :
  (validateHost v u = Nil <->
   Hostname u <> "" /\ (AllowedHosts (config v) <> [] -> host_listed v (Hostname u)) /\
   (BlockLocalhost (config v) = true -> isLocalhost (Hostname u) = false)) /\ validateHost v u <> Panic.
Proof.
  unfold validateHost. rewrite <- isHostAllowed_spec. case_bool_decide; [intuition congruence|]. case_bool_decide; simpl.
  - destruct (BlockLocalhost _), (isLocalhost _); simpl; intuition congruence.
  - destruct (isHostAllowed v _), (BlockLocalhost _), (isLocalhost _); simpl; intuition congruence.
Qed.
End ValidateSpec.

(** C30: what the URL validator lets through, whatever the URL parser does and
    whatever addresses the resolver answers.  [Validate] returns nil exactly for
    a URL that parses, has an allowed scheme and a non-empty host, whose host is
    listed when a list is configured (literally or below a wildcard domain) and
    is not a name of the local host when those are blocked, and whose every
    destination address, the literal one or all the resolver returned, is neither
    loopback nor private as configured.  It never panics.  A redirect passes
    exactly if its target does, both URLs parse and it does not lead from https
    to http. *)
Theorem url_validation_exact `{Unicode} url_Parse LookupIPAddr ip_String v raw :
  (forall host ips, LookupIPAddr host = Ok ips -> Forall wf_ip ips) ->
  let ok := Validate url_Parse LookupIPAddr ip_String v raw = Nil in
  (ok <-> exists u, url_Parse raw = Ok u /\
     (exists scheme, In scheme (AllowedSchemes (config v)) /\ EqualFold scheme (ToLower (Scheme u)) = true) /\
     Hostname u <> "" /\ (AllowedHosts (config v) <> [] -> host_listed v (Hostname u)) /\
     (BlockLocalhost (config v) = true -> isLocalhost (Hostname u) = false) /\
     exists ips, destinations LookupIPAddr (Hostname u) ips /\ Forall (address_ok v) ips) /\
  Validate url_Parse LookupIPAddr ip_String v raw <> Panic /\
  forall original, ValidateRedirectURL url_Parse LookupIPAddr ip_String v original raw = Nil <->
    ok /\ exists o u, url_Parse original = Ok o /\ url_Parse raw = Ok u /\
      ~ (EqualFold (Scheme o) "https" = true /\ EqualFold (Scheme u) "http" = true).
Proof.
  intros Hdns ok. subst ok. split_and!.
  - unfold Validate. destruct (url_Parse raw) as [u|e] eqn:Eu; [|split; [done|by intros (u & ? & _)]].
    destruct (validateHost_spec v u) as [Hh _]. destruct (validateResolvedIP_spec LookupIPAddr ip_String v u Hdns) as [Hr _].
    rewrite !and_then_nil, Hh, Hr. unfold validateScheme.
    split; [|intros (? & [= <-] & Hs & ?); apply existsb_exists in Hs; rewrite Hs; tauto].
    destruct (existsb _ _) eqn:Es; [|by intros [? _]]. apply existsb_exists in Es. intros (_ & ? & ?). exists u. tauto.
  - unfold Validate. destruct (url_Parse raw) as [u|e]; [|done].
    destruct (validateHost_spec v u) as [_ Hh]. destruct (validateResolvedIP_spec LookupIPAddr ip_String v u Hdns) as [_ Hr].
    unfold validateScheme. destruct (existsb _ _); [|done]. simpl. by destruct (validateHost v u).
  - intros original. unfold ValidateRedirectURL.
    destruct (Validate url_Parse LookupIPAddr ip_String v raw); [|by split; [|intros [? _]]..].
    destruct (url_Parse original) as [o|e]; [|by split; [|intros (_ & ? & ? & ? & _)]].
    destruct (url_Parse raw) as [u|e]; [|by split; [|intros (_ & ? & ? & _ & ? & _)]].
    destruct (EqualFold (Scheme o) "https" && EqualFold (Scheme u) "http") eqn:E.
    + apply andb_true_iff in E. split; [done|]. intros (_ & o' & u' & [= <-] & [= <-] & Hn). done.
    + split; [|done]. intros _. split; [done|]. exists o, u. split_and!; [done..|]. intros [H1 H2].
      by rewrite H1, H2 in E.
Qed.

(** ** Examples *)

Definition ascii_tables : Unicode := {| unicode_ToLower r := r; unicode_SameFold _ _ := false |}.

(** A parser of the URLs [scheme://host]. *)
Definition simple_Parse (raw : string) : result error URL :=
  match cut ":" raw with
  | Some (scheme, rest) =>
      if HasPrefix rest "//" then Ok (mkURL scheme (drop_string 2 rest) raw) else Fail (New "missing authority")
  | None => Fail (New "missing scheme")
  end.

(** A resolver that knows two hosts. *)
Definition simple_Lookup (host : string) : result error (list IP) :=
  if bool_decide (host = "api.example.com") then Ok [[93; 184; 216; 34]]
  else if bool_decide (host = "internal.example.com") then Ok [[93; 184; 216; 34]; [10; 0; 0; 7]]
  else Fail (New "no such host").

Lemma simple_Lookup_wf host ips : simple_Lookup host = Ok ips -> Forall wf_ip ips.
Proof.
  unfold simple_Lookup, wf_ip, is_byte. repeat case_bool_decide; intros; simplify_eq;
    repeat (apply Forall_cons; split); try apply Forall_nil; try done; (split; [by left|]);
    rewrite !Forall_cons, Forall_nil; lia.
Qed.

Lemma url_validation_exact_witness :
  let U := ascii_tables in
  let validate := Validate simple_Parse simple_Lookup (fun _ => "") (NewURLValidator DefaultURLValidatorConfig) in
  validate "https://api.example.com" = Nil /\ validate "https://internal.example.com" <> Nil /\
  ValidateRedirectURL simple_Parse simple_Lookup (fun _ => "")
    (NewURLValidator (mkURLValidatorConfig ["https"; "http"] [] true true 3)) "https://api.example.com"
    "http://api.example.com" <> Nil.
Proof.
  intros U validate. split_and!.
  - apply (url_validation_exact simple_Parse simple_Lookup (fun _ => "") _ "https://api.example.com" simple_Lookup_wf).
    exists (mkURL "https" "api.example.com" "https://api.example.com"). split_and!.
    + vm_compute. reflexivity.
    + exists "https". split; [by left|]. vm_compute. reflexivity.
    + vm_compute. discriminate.
    + intros Hne. by destruct Hne.
    + intros _. vm_compute. reflexivity.
    + exists [[93; 184; 216; 34]]. split; [right; split; vm_compute; reflexivity|].
      repeat constructor; intros _; vm_compute; reflexivity.
  - intros Hok. vm_compute in Hok. discriminate Hok.
  - intros Hok. vm_compute in Hok. discriminate Hok.
Defined.

(** The unspecified IPv6 address, which connects to the local host like
    0.0.0.0, is neither loopback nor private for the validator. *)
Example ipv6_unspecified_passes :
  let U := ascii_tables in
  Validate simple_Parse simple_Lookup (fun _ => "") (NewURLValidator DefaultURLValidatorConfig) "https://[::]" = Nil.
Proof. vm_compute. reflexivity. Qed.

(** An address inside an interval, but outside the box [ipInRange] tests. *)
Example ipInRange_not_interval :
  let ip := [10; 1; 0; 5] in let start := [10; 0; 0; 9] in let end_ := [10; 2; 0; 0] in
  ip_value start <= ip_value ip <= ip_value end_ /\ ipInRange ip start end_ = false.
Proof. vm_compute. intuition discriminate. Qed.
