(* ===== verification/Sha256.v ===== *)
(** * crypto/sha256 and crypto/hmac

    SHA-256 and HMAC-SHA-256 as FIPS 180-4 and RFC 2104 define them, on byte
    strings, so that signatures and lookup hashes can be computed.  Words are
    32-bit numbers, every addition reduced. *)

From Stdlib Require Import Ascii.
From S2P Require Import Prelude GoString Encoding.

Open Scope Z_scope.

Module Sha256.
Definition word (z : Z) : Z := z mod 4294967296.
Definition rotr (x : Z) (n : Z) : Z := word (Z.lor (Z.shiftr x n) (Z.shiftl x (32 - n))).

Definition Ch (x y z : Z) : Z := Z.lxor (Z.land x y) (Z.land (Z.lxor x 4294967295) z).
Definition Maj (x y z : Z) : Z := Z.lxor (Z.lxor (Z.land x y) (Z.land x z)) (Z.land y z).
Definition Sigma0 (x : Z) : Z := Z.lxor (Z.lxor (rotr x 2) (rotr x 13)) (rotr x 22).
Definition Sigma1 (x : Z) : Z := Z.lxor (Z.lxor (rotr x 6) (rotr x 11)) (rotr x 25).
Definition sigma0 (x : Z) : Z := Z.lxor (Z.lxor (rotr x 7) (rotr x 18)) (Z.shiftr x 3).
Definition sigma1 (x : Z) : Z := Z.lxor (Z.lxor (rotr x 17) (rotr x 19)) (Z.shiftr x 10).

(** The constants are the first 32 bits of the fractional parts of the cube
    roots of the first 64 primes and of the square roots of the first 8. *)
Definition prime (n : nat) : bool := forallb (fun d => negb (n mod d =? 0)%nat) (seq 2 (n - 2)).
Definition primes : list Z := List.map Z.of_nat (List.filter prime (seq 2 310)).

(** The integer cube root, from its bit [k - 1] down. *)
Fixpoint cbrt (k : nat) (r n : Z) : Z :=
  match k with
  | O => r
  | S k => let r' := r + 2 ^ Z.of_nat k in cbrt k (if r' ^ 3 <=? n then r' else r) n
  end.

Definition K : list Z := Eval vm_compute in List.map (fun p => word (cbrt 36 0 (p * 2 ^ 96))) primes.
Definition H0 : list Z := Eval vm_compute in List.map (fun p => word (Z.sqrt (p * 2 ^ 64))) (take 8 primes).

(** The message schedule, latest word first. *)
Fixpoint extend (k : nat) (w : list Z) : list Z :=
  match k with
  | O => w
  | S k =>
      let at_ i := nth i w 0 in
      extend k (word (sigma1 (at_ 1%nat) + at_ 6%nat + sigma0 (at_ 14%nat) + at_ 15%nat) :: w)
  end.

Definition round (s : list Z) (kw : Z * Z) : list Z :=
  match s with
  | [a; b; c; d; e; f; g; h] =>
      let t1 := h + Sigma1 e + Ch e f g + kw.1 + kw.2 in
      let t2 := Sigma0 a + Maj a b c in
      [word (t1 + t2); a; b; c; word (d + t1); e; f; g]
  | _ => s
  end.

Definition compress (s block : list Z) : list Z :=
  let w := rev (extend 48 (rev block)) in
  zip_with (fun x y => word (x + y)) s (fold_left round (zip K w) s).

(** Big-endian words of a byte string. *)
Fixpoint words (l : list ascii) : list Z :=
  match l with
  | a :: b :: c :: d :: l => (code a * 16777216 + code b * 65536 + code c * 256 + code d) :: words l
  | _ => []
  end.

Definition unword (w : Z) : list ascii :=
  [byte_of (w / 16777216); byte_of (w / 65536); byte_of (w / 256); byte_of w].

(** A one bit, zeros up to 56 bytes mod 64, and the length in bits. *)
Definition pad (l : list ascii) : list ascii :=
  let n := Z.of_nat (length l) in
  l ++ byte_of 128 :: repeat (byte_of 0) (Z.to_nat ((55 - n) mod 64)) ++
  unword (n * 8 / 4294967296) ++ unword (word (n * 8)).

Fixpoint blocks (fuel : nat) (w s : list Z) : list Z :=
  match fuel, w with
  | S fuel, _ :: _ => blocks fuel (drop 16 w) (compress s (take 16 w))
  | _, _ => s
  end.

Definition sum (l : list ascii) : list ascii :=
  let w := words (pad l) in flat_map unword (blocks (length w) w H0).

(** [sha256.Sum256] *)
Definition Sum256 (s : string) : string := string_of (sum (bytes_of s)).

Definition BlockSize : nat := 64.

(** [hmac.New(sha256.New, key)], [Write(msg)], [Sum(nil)] *)
Definition hmac (key msg : string) : string :=
  let key := if (BlockSize <? String.length key)%nat then sum (bytes_of key) else bytes_of key in
  let key := key ++ repeat (byte_of 0) (BlockSize - length key) in
  let xored (x : Z) := List.map (fun a => byte_of (Z.lxor (code a) x)) key in
  string_of (sum (xored 92 ++ sum (xored 54 ++ bytes_of msg))).

(** ** Digests have 32 bytes *)

Lemma length_round s kw : length (round s kw) = length s.
Proof. unfold round. do 9 (destruct s as [|? s]; [done|]). done. Qed.

Lemma length_compress s block : length (compress s block) = length s.
Proof.
  unfold compress. rewrite length_zip_with. enough (forall l k, length (fold_left round l k) = length k) as -> by lia.
  intros l. induction l as [|x l IH]; intros k; simpl; [done|]. by rewrite IH, length_round.
Qed.

Lemma length_blocks fuel w s : length (blocks fuel w s) = length s.
Proof.
  revert w s. induction fuel as [|fuel IH]; intros w s; simpl; [done|]. destruct w; [done|].
  by rewrite IH, length_compress.
Qed.

Lemma length_sum l : length (sum l) = 32%nat.
Proof.
  unfold sum. enough (forall k, length (flat_map unword k) = (4 * length k)%nat) as -> by by rewrite length_blocks.
  intros k. induction k as [|x k IH]; simpl; [done|]. rewrite IH. lia.
Qed.

Lemma length_string_of l : String.length (string_of l) = length l.
Proof. induction l; simpl; congruence. Qed.

Lemma length_hmac key msg : String.length (hmac key msg) = 32%nat.
Proof. unfold hmac. by rewrite length_string_of, length_sum. Qed.

(** ** Published test vectors *)

Example sha256_abc : Hex.EncodeToString (Sum256 "abc") =
  "ba7816bf8f01cfea414140de5dae2223b00361a396177a9cb410ff61f20015ad".
Proof. vm_compute. reflexivity. Qed.

Example sha256_two_blocks :
  Hex.EncodeToString (Sum256 "abcdbcdecdefdefgefghfghighijhijkijkljklmklmnlmnomnopnopq") =
  "248d6a61d20638b8e5c026930c3e6039a33ce45964ff2167f6ecedd419db06c1".
Proof. vm_compute. reflexivity. Qed.

Example hmac_rfc4231 : Hex.EncodeToString (hmac "Jefe" "what do ya want for nothing?") =
  "5bdcc146bf60754e6a042426089575c75a003f089d2739839dec58b964ec3843".
Proof. vm_compute. reflexivity. Qed.
End Sha256.
