(* ===== verification/HttpGuards.v ===== *)
(** * middleware/hmac.go, middleware/ip_allowlist.go and middleware/ratelimit.go

    Guards in front of HTTP handlers.  A guard either hands a request over to
    what is behind it or answers itself; a constructor that panics returns
    [None].  The rate limiting guards run the limiter of RateLimit.v. *)

From Stdlib Require Import Ascii.
From S2P Require Import Prelude GoError GoString Encoding GoNet Sha256 RateLimit.

Open Scope Z_scope.

(** A request body: the bytes a reader yields, and how it ends. *)
Record Reader := mkReader { content : string; read_error : Error }.

Record HttpRequest := mkHttpRequest {
  Path : string;
  Header : gmap string string;
  (** what Gin's [c.ClientIP()] answers, honouring its trusted proxies *)
  ClientIP : string;
  RemoteAddr : string;
  (** what [c.Get("user_id")] returns, as [%v] prints it *)
  ctx_user_id : option string;
  Body : Reader
}.

Definition GetHeader (r : HttpRequest) (h : string) : string := default "" (Header r !! h).

Definition with_body (b : Reader) (r : HttpRequest) : HttpRequest :=
  mkHttpRequest (Path r) (Header r) (ClientIP r) (RemoteAddr r) (ctx_user_id r) b.

(** What a guard does with a request: the next handler gets it, or the guard
    answers with a status and the value of the body's [error] field. *)
Inductive action := Next (r : HttpRequest) | Respond (status : Z) (error : string).

Abbreviation Guard := (HttpRequest -> action) (only parsing).

(** Handlers run in the order they are registered. *)
Definition then_ (g h : Guard) : Guard := fun r => match g r with Next r => h r | a => a end.

Definition StatusBadRequest : Z := 400.
Definition StatusUnauthorized : Z := 401.
Definition StatusForbidden : Z := 403.
Definition StatusRequestEntityTooLarge : Z := 413.
Definition StatusTooManyRequests : Z := 429.

(** ** The client's address *)

(** [extractFirstIP] *)
Definition extractFirstIP (xff : string) : string :=
  match cut "," xff with Some (first, _) => first | None => xff end.

Definition GetClientIP (c : HttpRequest) : string :=
  let xff := GetHeader c "X-Forwarded-For" in
  if negb (bool_decide (xff = "")) then extractFirstIP xff
  else
    let xri := GetHeader c "X-Real-IP" in
    if negb (bool_decide (xri = "")) then xri else ClientIP c.

(** The loop at the end of [getClientIPFromRequest]: the host up to its last
    colon. *)
Fixpoint before_last_colon (host : string) : option string :=
  match host with
  | EmptyString => None
  | String a rest =>
      match before_last_colon rest with
      | Some h => Some (String a h)
      | None => if Ascii.eqb a ":" then Some "" else None
      end
  end.

Definition getClientIPFromRequest (r : HttpRequest) : string :=
  let xff := GetHeader r "X-Forwarded-For" in
  if negb (bool_decide (xff = "")) then extractFirstIP xff
  else
    let xri := GetHeader r "X-Real-IP" in
    if negb (bool_decide (xri = "")) then xri
    else match before_last_colon (RemoteAddr r) with Some h => h | None => RemoteAddr r end.

(** ** IP allowlist *)

Fixpoint parse_all (cidrs : list string) : option (list IPNet) :=
  match cidrs with
  | [] => Some []
  | cidr :: cidrs =>
      match ParseCIDR cidr, parse_all cidrs with
      | Some network, Some nets => Some (network :: nets)
      | _, _ => None
      end
  end.

Definition ip_not_allowed : action := Respond StatusForbidden "ip not allowed".

Definition IPAllowlistMiddleware (cidrs : list string) : option Guard :=
  if bool_decide (cidrs = []) then None
  else
    match parse_all cidrs with
    | None => None
    | Some nets => Some (fun c =>
        let clientIP := ParseIP (GetClientIP c) in
        if bool_decide (clientIP = []) then ip_not_allowed
        else if existsb (fun n => IPNet_Contains n clientIP) nets then Next c
        else ip_not_allowed)
    end.

(** ** HMAC signatures *)

Definition SignatureHeader : string := "X-Legacy-Signature".
Definition maxBodySize : Z := Z.shiftl 5 20.

(** [io.ReadAll(io.LimitReader(r, n))]: a reader's error is not seen when [n]
    bytes come before it. *)
Definition ReadAll_limited (r : Reader) (n : Z) : result error string :=
  if n <=? Z.of_nat (String.length (content r)) then Ok (take_string (Z.to_nat n) (content r))
  else match read_error r with Some err => Fail err | None => Ok (content r) end.

Definition invalid_signature : action := Respond StatusUnauthorized "invalid signature".

Definition HMACSignatureMiddleware (Getenv : string -> string) (secretEnvKey : string) : option Guard :=
  if bool_decide (secretEnvKey = "") then None
  else
    let secret := Getenv secretEnvKey in
    if bool_decide (secret = "") then None
    else Some (fun c =>
      let provided := GetHeader c SignatureHeader in
      if bool_decide (provided = "") then invalid_signature
      else
        match ReadAll_limited (Body c) (maxBodySize + 1) with
        | Fail _ => Respond StatusBadRequest "cannot read body"
        | Ok body =>
            if maxBodySize <? Z.of_nat (String.length body) then
              Respond StatusRequestEntityTooLarge "payload too large"
            else
              let c := with_body (mkReader body None) c in
              match Hex.DecodeString provided with
              | Fail _ => invalid_signature
              | Ok providedBytes =>
                  let expected := Sha256.hmac secret body in
                  if negb (bool_decide (providedBytes = expected)) then invalid_signature else Next c
              end
        end).

(** ** Rate limiting *)

(** [int64(d.Seconds())] *)
Definition whole_seconds (d : Duration) : Z := Z.quot d Second.

Definition setRateLimitHeaders (result : Result) : list (string * string) :=
  [("X-RateLimit-Limit", Itoa (res_Limit result)); ("X-RateLimit-Remaining", Itoa (Remaining result));
   ("X-RateLimit-Reset", Itoa (whole_seconds (ResetAfter result)))].

Definition getRateLimitKey (c : HttpRequest) (tier : string) : string :=
  if bool_decide (tier = "auth") then "ip:" +:+ GetClientIP c
  else
    match ctx_user_id c with
    | Some userID => "user:" +:+ userID
    | None => "ip:" +:+ GetClientIP c
    end.

(** What every rate limiting guard does with the limiter's answer; the
    explanatory text and the content type of a refusal are left out. *)
Definition rate_limit_answer (c : HttpRequest) (answer : result error Result) : action * list (string * string) :=
  match answer with
  | Fail _ => (Next c, [])
  | Ok result =>
      if negb (Allowed result) then
        (Respond StatusTooManyRequests "rate_limit_exceeded",
         setRateLimitHeaders result ++ [("Retry-After", Itoa (whole_seconds (ResetAfter result)))])
      else (Next c, setRateLimitHeaders result)
  end.

(** The key of the two net/http guards; [extractUserID] may be nil. *)
Definition http_key (extractUserID : option (HttpRequest -> result error Z)) (r : HttpRequest) : string :=
  match extractUserID with
  | Some f =>
      match f r with
      | Ok userID => "user:" +:+ Itoa userID
      | Fail _ => "ip:" +:+ getClientIPFromRequest r
      end
  | None => "ip:" +:+ getClientIPFromRequest r
  end.

Section RateLimitGuards.
Context `{Redis} `{Float64}.
(** The clock readings and member batches of a check are those of RateLimit.v. *)
Context (ts : nat -> Time) (b b' : Z).

Definition RateLimitMiddleware (limiter : gmap string Limiter) (tier : string) (c : HttpRequest) (d : db)
    : (action * list (string * string)) * db :=
  let (answer, d) := MultiLimiter_Allow limiter tier ts (getRateLimitKey c tier) b b' d in
  (rate_limit_answer c answer, d).

Definition IPRateLimitMiddleware (limiter : Limiter) (c : HttpRequest) (d : db)
    : (action * list (string * string)) * db :=
  let (answer, d) := Allow limiter ts (GetClientIP c) b b' d in (rate_limit_answer c answer, d).

Definition WebSocketRateLimitMiddleware (limiter : gmap string Limiter) (extractUserID : HttpRequest -> result error Z)
    (r : HttpRequest) (d : db) : (action * list (string * string)) * db :=
  let (answer, d) := MultiLimiter_Allow limiter "websocket" ts (http_key (Some extractUserID) r) b b' d in
  (rate_limit_answer r answer, d).

Definition HTTPRateLimitMiddleware (limiter : gmap string Limiter) (tier : string)
    (extractUserID : option (HttpRequest -> result error Z)) (r : HttpRequest) (d : db)
    : (action * list (string * string)) * db :=
  let (answer, d) := MultiLimiter_Allow limiter tier ts (http_key extractUserID r) b b' d in
  (rate_limit_answer r answer, d).
End RateLimitGuards.

(** ** The webhook chain *)

(** A CIDR of the list is the block [a/n] that [ip] lies in. *)
Definition cidr_lists (cidrs : list string) (ip : IP) : Prop :=
  exists cidr addr mask a n, In cidr cidrs /\ cut "/" cidr = Some (addr, mask) /\
    ParseAddr addr = Some a /\ dtoi mask 0 = Some n /\ cidr_match a n ip = true.

Lemma parse_all_contains cidrs nets ip : parse_all cidrs = Some nets -> wf_ip ip ->
  existsb (fun n => IPNet_Contains n ip) nets = true <-> cidr_lists cidrs ip.
Proof.
  intros Hp Hip. revert nets Hp. induction cidrs as [|cidr cidrs IH]; intros nets Hp; simpl in Hp.
  { injection Hp as <-. split; [done|]. intros (? & ? & ? & ? & ? & [] & _). }
  destruct (ParseCIDR cidr) as [net|] eqn:Ec; [|done]. destruct (parse_all cidrs) as [ns|]; [|done]. injection Hp as <-.
  destruct (ParseCIDR_block _ _ Ec) as (addr & mask & a & n & Hcut & Ha & Hn & _ & Hc). simpl.
  rewrite orb_true_iff, Hc, (IH ns) by done. split.
  - intros [Hm|(c & Hm)].
    + exists cidr, addr, mask, a, n. split_and!; [by left|done..].
    + destruct Hm as (addr' & mask' & a' & n' & Hin & Hrest). exists c, addr', mask', a', n'. split; [by right|done].
  - intros (c & addr' & mask' & a' & n' & [<-|Hin] & Hcut' & Ha' & Hn' & Hm); [left; by simplify_eq|right].
    by exists c, addr', mask', a', n'.
Qed.

Lemma allowlist_exact cidrs g c : IPAllowlistMiddleware cidrs = Some g ->
  let allowed := ParseIP (GetClientIP c) <> [] /\ cidr_lists cidrs (ParseIP (GetClientIP c)) in
  (allowed /\ g c = Next c) \/ (~ allowed /\ g c = ip_not_allowed).
Proof.
  unfold IPAllowlistMiddleware. case_bool_decide as E0; [done|]. destruct (parse_all cidrs) as [nets|] eqn:Ep; [|done].
  intros [= <-]. cbv zeta beta. case_bool_decide as E; [right; tauto|].
  destruct (ParseIP_wf (GetClientIP c)) as [|[Hl Hf]]; [done|].
  pose proof (parse_all_contains cidrs nets (ParseIP (GetClientIP c)) Ep ltac:(split; [by right|done])) as Hx.
  destruct (existsb _ nets); [left|right]; split; try done; try tauto. intros [_ Hn]. by apply Hx in Hn.
Qed.

(** The signature check, for a header that decodes to [sig] or to nothing. *)
Lemma hmac_exact Getenv key g c : HMACSignatureMiddleware Getenv key = Some g ->
  let body := content (Body c) in
  let valid := Hex.DecodeString (GetHeader c SignatureHeader) = Ok (Sha256.hmac (Getenv key) body) in
  (Z.of_nat (String.length body) <= maxBodySize /\ read_error (Body c) = None /\ valid /\
   g c = Next (with_body (mkReader body None) c)) \/
  (Z.of_nat (String.length body) <= maxBodySize /\ read_error (Body c) = None /\ ~ valid /\ g c = invalid_signature) \/
  (Z.of_nat (String.length body) <= maxBodySize /\ read_error (Body c) <> None /\
   (g c = invalid_signature \/ g c = Respond StatusBadRequest "cannot read body")) \/
  (maxBodySize < Z.of_nat (String.length body) /\
   (g c = invalid_signature \/ g c = Respond StatusRequestEntityTooLarge "payload too large")).
Proof.
  unfold HMACSignatureMiddleware. case_bool_decide as E0; [done|]. case_bool_decide as E1; [done|].
  intros [= <-]. cbv zeta beta. set (body := content (Body c)). set (secret := Getenv key).
  case_bool_decide as Eh.
  { assert (Hex.DecodeString (GetHeader c SignatureHeader) <> Ok (Sha256.hmac secret body)) as Hne.
    { rewrite Eh. change (Hex.DecodeString "") with (@Ok error string ""). intros [= Hd].
      pose proof (Sha256.length_hmac secret body) as Hl. by rewrite <- Hd in Hl. }
    destruct (decide (Z.of_nat (String.length body) <= maxBodySize)), (read_error (Body c)) eqn:Er; intuition (try done; lia). }
  unfold ReadAll_limited. fold body. destruct (Z.leb_spec (maxBodySize + 1) (Z.of_nat (String.length body))) as [Hb|Hb].
  { right; right; right. split; [lia|]. right. rewrite length_take_string.
    rewrite (proj2 (Z.ltb_lt _ _)); [done|]. rewrite Nat2Z.inj_min, Z2Nat.id by done. lia. }
  destruct (read_error (Body c)) as [err|] eqn:Er; [right; right; left; split_and!; [lia|done|by right]|].
  rewrite (proj2 (Z.ltb_ge _ _)) by lia. destruct (Hex.DecodeString _) as [sig|e] eqn:Ed.
  - case_bool_decide as Es; simpl; [left; subst; split_and!; [lia|done..]|].
    right; left. split_and!; [lia|done| |done]. intros [= ->]. done.
  - right; left. split_and!; [lia|done|done|done].
Qed.

(** The constructors refuse a configuration that would allow everything. *)
Lemma guards_fail_fast Getenv key cidrs :
  (IPAllowlistMiddleware cidrs <> None <-> cidrs <> [] /\ Forall (fun s => ParseCIDR s <> None) cidrs) /\
  (HMACSignatureMiddleware Getenv key <> None <-> key <> "" /\ Getenv key <> "").
Proof.
  split.
  - unfold IPAllowlistMiddleware.
    assert (parse_all cidrs <> None <-> Forall (fun s => ParseCIDR s <> None) cidrs) as Hp.
    { induction cidrs as [|cidr cidrs IH]; simpl; [done|]. rewrite Forall_cons, <- IH.
      destruct (ParseCIDR cidr), (parse_all cidrs); intuition congruence. }
    rewrite <- Hp. case_bool_decide; [intuition congruence|]. destruct (parse_all cidrs); intuition congruence.
  - unfold HMACSignatureMiddleware. do 2 (case_bool_decide; [intuition congruence|]). intuition congruence.
Qed.

(** The allowlist judges the address the request claims in X-Forwarded-For, not
    the one Gin derives from the connection and its trusted proxies. *)
Lemma allowlist_trusts_header cidrs g c ip :
  IPAllowlistMiddleware cidrs = Some g -> ip <> "" -> cut "," ip = None ->
  ParseIP ip <> [] -> cidr_lists cidrs (ParseIP ip) ->
  Header c !! "X-Forwarded-For" = Some ip -> g c = Next c.
Proof.
  intros Hg Hne Hcut Hip Hin Hh.
  assert (GetClientIP c = ip) as Hc.
  { unfold GetClientIP, GetHeader, extractFirstIP. rewrite Hh. simpl. by rewrite bool_decide_eq_false_2, Hcut. }
  destruct (allowlist_exact cidrs g c Hg) as [[_ H]|[H _]]; [done|]. rewrite Hc in H. tauto.
Qed.

(** C31: a webhook behind the allowlist and the signature check, in the order
    the code prescribes, reaches its handler exactly when the client's address
    parses and lies in a listed CIDR block (compared on its leading bits), the
    body can be read and has at most 5 MiB, and the signature header is the hex
    encoding of HMAC-SHA-256 of the body under the secret.  The handler then reads
    the very body that was signed.  Any other request is answered 400, 401, 403
    or 413, and 403 whenever the address is not listed. *)
Theorem webhook_authenticated Getenv key cidrs allow sign c :
  IPAllowlistMiddleware cidrs = Some allow -> HMACSignatureMiddleware Getenv key = Some sign ->
  let ip := ParseIP (GetClientIP c) in
  let body := content (Body c) in
  let listed := ip <> [] /\ cidr_lists cidrs ip in
  (forall c', then_ allow sign c = Next c' <->
     c' = with_body (mkReader body None) c /\ listed /\
     read_error (Body c) = None /\ Z.of_nat (String.length body) <= 5242880 /\
     Hex.DecodeString (GetHeader c SignatureHeader) = Ok (Sha256.hmac (Getenv key) body)) /\
  (forall status e, then_ allow sign c = Respond status e -> In status [400; 401; 403; 413]) /\
  (~ listed -> then_ allow sign c = Respond 403 "ip not allowed").
Proof.
  intros Ha Hs ip body listed. unfold then_. change 5242880 with maxBodySize.
  destruct (allowlist_exact cidrs allow c Ha) as [[Hl ->]|[Hl ->]]; fold ip listed in Hl.
  - pose proof (hmac_exact Getenv key sign c Hs) as Hc. cbv zeta in Hc. fold body in Hc. split_and!; [|..|done].
    + intros c'. destruct Hc as [(? & ? & ? & ->)|[(? & ? & ? & ->)|[(? & ? & [-> | ->])|(? & [-> | ->])]]].
      all: split; [try discriminate|intros (? & _ & ? & ? & ?); try done; try lia; congruence].
      intros [= <-]. tauto.
    + intros status e. destruct Hc as [(_ & _ & _ & ->)|[(_ & _ & _ & ->)|[(_ & _ & [-> | ->])|(_ & [-> | ->])]]];
        [discriminate|intros [= <- _]; simpl; tauto..].
  - split_and!; [|intros status e [= <- _]; simpl; tauto|done].
    intros c'. split; [discriminate|]. tauto.
Qed.

(** ** Rate limit buckets *)

(** Requests share a bucket exactly by user where there is one, by address
    otherwise, and always by address on the auth tier; a user's bucket is never
    an address's. *)
Lemma rate_limit_buckets c c' tier :
  getRateLimitKey c tier = getRateLimitKey c' tier <->
  match bool_decide (tier = "auth"), ctx_user_id c, ctx_user_id c' with
  | false, Some u, Some u' => u = u'
  | true, _, _ | false, None, None => GetClientIP c = GetClientIP c'
  | _, _, _ => False
  end.
Proof.
  unfold getRateLimitKey. destruct (bool_decide (tier = "auth")); [|destruct (ctx_user_id c), (ctx_user_id c')].
  all: split; try done; try (by intros ->); intros Heq; by injection Heq.
Qed.

(** ** Example: a signed webhook *)

Definition hook (xff sig body : string) : HttpRequest :=
  mkHttpRequest "/hooks" {["X-Forwarded-For" := xff; SignatureHeader := sig]} "203.0.113.9" "203.0.113.9:443" None
    (mkReader body None).

Lemma webhook_authenticated_witness :
  let env k := if bool_decide (k = "HOOK_SECRET") then "Jefe" else "" in
  let sig := "5bdcc146bf60754e6a042426089575c75a003f089d2739839dec58b964ec3843" in
  let body := "what do ya want for nothing?" in
  exists allow sign, IPAllowlistMiddleware ["192.0.2.0/24"; "10.0.0.0/8"] = Some allow /\
    HMACSignatureMiddleware env "HOOK_SECRET" = Some sign /\
    then_ allow sign (hook "10.4.5.6, 203.0.113.1" sig body) = Next (hook "10.4.5.6, 203.0.113.1" sig body) /\
    then_ allow sign (hook "11.4.5.6" sig body) = Respond 403 "ip not allowed".
Proof.
  intros env sig body. eexists _, _. split_and!; [reflexivity|reflexivity| |].
  - destruct (webhook_authenticated env "HOOK_SECRET" ["192.0.2.0/24"; "10.0.0.0/8"] _ _
      (hook "10.4.5.6, 203.0.113.1" sig body) eq_refl eq_refl) as (H & _). apply H. clear H.
    split; [reflexivity|]. split; [split|split_and!].
    + vm_compute. discriminate.
    + exists "10.0.0.0/8", "10.0.0.0", "8", (Addr4 [10; 0; 0; 0]), 8. split; [by right; left|].
      split_and!; vm_compute; reflexivity.
    + reflexivity.
    + vm_compute. discriminate.
    + vm_compute. reflexivity.
  - destruct (webhook_authenticated env "HOOK_SECRET" ["192.0.2.0/24"; "10.0.0.0/8"] _ _ (hook "11.4.5.6" sig body)
      eq_refl eq_refl) as (_ & _ & H). apply H. intros [_ (cidr & addr & mask & a & n & Hin & Hcut & Ha & Hn & Hm)].
    destruct Hin as [<-|[<-|[]]]; vm_compute in Hcut; injection Hcut as <- <-; vm_compute in Ha; injection Ha as <-;
      vm_compute in Hn; injection Hn as <-; vm_compute in Hm; discriminate Hm.
Defined.
