(* ===== verification/Crypto.v ===== *)
(** * crypto/crypto.go and crypto/hash.go: encryption of personal data

    AES-GCM is the class [AEAD], with the two facts of it the package relies on:
    opening a sealed text gives the text back, and nothing else opens.  The
    random source is an argument of [Encrypt]. *)

From Stdlib Require Import Ascii.
From S2P Require Import Prelude GoError GoString Encoding Sha256.

Open Scope Z_scope.

Definition encPrefix : string := "enc:".
Definition keyLen : nat := 32.
Definition nonceLen : nat := 12.

Definition ErrInvalidKeyLength : error :=
  Err "crypto.ErrInvalidKeyLength" "crypto: key must be exactly 32 bytes for AES-256" [].
Definition ErrDecryptionFailed : error := Err "crypto.ErrDecryptionFailed" "crypto: decryption failed" [].
Definition ErrInvalidCiphertext : error := Err "crypto.ErrInvalidCiphertext" "crypto: invalid ciphertext format" [].

Record Config := mkConfig { Enabled : bool; KeyHex : string }.

(** aes.NewCipher, cipher.NewGCM, and the methods of the AEAD they make; the
    additional data is always nil here. *)
Class AEAD := {
  block : Type;
  gcm : Type;
  aes_NewCipher : string -> result error block;
  cipher_NewGCM : block -> result error gcm;
  Seal : gcm -> string -> string -> string;
  Open : gcm -> string -> string -> result error string
}.

Class AEADLaws `{AEAD} := {
  NewGCM_ok key : String.length key = keyLen -> exists b g, aes_NewCipher key = Ok b /\ cipher_NewGCM b = Ok g;
  Open_Seal g nonce plaintext : String.length nonce = nonceLen -> Open g nonce (Seal g nonce plaintext) = Ok plaintext;
  Open_only g nonce sealed plaintext : Open g nonce sealed = Ok plaintext -> sealed = Seal g nonce plaintext
}.

Section Crypto.
Context `{AEAD}.

(** [gcm] is nil exactly in a no-op encryptor. *)
Record Encryptor := mkEncryptor { e_gcm : option gcm; hashKey : string; enabled : bool }.

Definition NewEncryptor (key : string) : result error Encryptor :=
  if negb (String.length key =? keyLen)%nat then Fail ErrInvalidKeyLength
  else
    let? b := map_err (Wrapf "crypto: failed to create AES cipher") (aes_NewCipher key) in
    let? g := map_err (Wrapf "crypto: failed to create GCM") (cipher_NewGCM b) in
    let hashInput := "hmac-key:" +:+ Hex.EncodeToString key in
    Ok (mkEncryptor (Some g) (Sha256.Sum256 hashInput) true).

Definition NewNoop : Encryptor := mkEncryptor None "" false.

Definition NewEncryptorFromConfig (cfg : Config) : result error Encryptor :=
  if negb (Enabled cfg) then Ok NewNoop
  else
    let? key := map_err (Wrapf "crypto: invalid hex key") (Hex.DecodeString (KeyHex cfg)) in
    NewEncryptor key.

Definition IsEnabled (e : Encryptor) : bool := enabled e.

(** Dereferencing a nil [gcm] panics; an enabled encryptor the package makes
    has one (NewEncryptor_wf). *)
Definition nil_dereference : error := New "runtime error: invalid memory address or nil pointer dereference".

(** [Encrypt]; [random] is what reading the nonce from crypto/rand gives.  Go's
    [Seal(nonce, nonce, ...)] appends the sealed text to the nonce. *)
Definition Encrypt (e : Encryptor) (random : result error string) (plaintext : string) : result error string :=
  if negb (enabled e) then Ok plaintext
  else if bool_decide (plaintext = "") then Ok plaintext
  else
    let? nonce := map_err (Wrapf "crypto: failed to generate nonce") random in
    match e_gcm e with
    | None => Fail nil_dereference
    | Some g =>
        let ciphertext := nonce +:+ Seal g nonce plaintext in
        Ok (encPrefix +:+ Base64.EncodeToString Base64.StdEncoding ciphertext)
    end.

Definition Decrypt (e : Encryptor) (ciphertext : string) : result error string :=
  if negb (enabled e) then Ok ciphertext
  else if bool_decide (ciphertext = "") then Ok ciphertext
  else if negb (HasPrefix ciphertext encPrefix) then Ok ciphertext
  else
    match Base64.DecodeString Base64.StdEncoding (TrimPrefix ciphertext encPrefix) with
    | Fail err => Fail (Detailf ErrInvalidCiphertext ("base64 decode failed: " +:+ ErrorText err))
    | Ok data =>
        if (String.length data <? nonceLen)%nat then Fail (Detailf ErrInvalidCiphertext "ciphertext too short")
        else
          match e_gcm e with
          | None => Fail nil_dereference
          | Some g =>
              match Open g (take_string nonceLen data) (drop_string nonceLen data) with
              | Fail err => Fail (Detailf ErrDecryptionFailed (ErrorText err))
              | Ok plaintext => Ok plaintext
              end
          end
    end.

Definition EncryptNullable (e : Encryptor) (random : result error string) (s : option string)
    : result error (option string) :=
  match s with
  | None => Ok None
  | Some s => let? encrypted := Encrypt e random s in Ok (Some encrypted)
  end.

Definition DecryptNullable (e : Encryptor) (s : option string) : result error (option string) :=
  match s with
  | None => Ok None
  | Some s => let? decrypted := Decrypt e s in Ok (Some decrypted)
  end.

Definition Hash (e : Encryptor) (value : string) : string :=
  if negb (enabled e) then "" else Hex.EncodeToString (Sha256.hmac (hashKey e) value).

Definition HashNullable (e : Encryptor) (value : option string) : option string := option_map (Hash e) value.

(** ** Round trip *)

(** Encryptors the package makes: active with a cipher, or a no-op. *)
Definition wf_encryptor (e : Encryptor) : Prop :=
  if enabled e then exists g, e_gcm e = Some g else e_gcm e = None.

Lemma NewEncryptor_wf key e : NewEncryptor key = Ok e -> wf_encryptor e /\ enabled e = true.
Proof.
  unfold NewEncryptor. destruct (negb _); [done|]. rewrite rbind_ok. intros (b & _ & Hk).
  apply rbind_ok in Hk as (g & _ & [= <-]). split; [by exists g|done].
Qed.

Lemma NewEncryptorFromConfig_wf cfg e :
  NewEncryptorFromConfig cfg = Ok e -> wf_encryptor e /\ enabled e = Enabled cfg.
Proof.
  unfold NewEncryptorFromConfig. destruct (Enabled cfg); simpl; [|by intros [= <-]].
  rewrite rbind_ok. intros (key & _ & Hk). by apply NewEncryptor_wf in Hk.
Qed.

Lemma drop_take_string n s : take_string n s +:+ drop_string n s = s.
Proof. revert s. induction n as [|n IH]; intros [|a s]; simpl; [done..|]. f_equal. apply IH. Qed.

Lemma encPrefix_ne s : encPrefix +:+ s <> "".
Proof. done. Qed.

Lemma take_nonce nonce s : String.length nonce = nonceLen -> take_string nonceLen (nonce +:+ s) = nonce.
Proof. intros <-. apply take_string_app. Qed.

Lemma drop_nonce nonce s : String.length nonce = nonceLen -> drop_string nonceLen (nonce +:+ s) = s.
Proof. intros <-. apply drop_string_app. Qed.

(** What an active encryptor returns for data sealed under a nonce. *)
Lemma Decrypt_sealed `{!AEADLaws} e g nonce plaintext :
  enabled e = true -> e_gcm e = Some g -> String.length nonce = nonceLen ->
  Decrypt e (encPrefix +:+ Base64.EncodeToString Base64.StdEncoding (nonce +:+ Seal g nonce plaintext)) = Ok plaintext.
Proof.
  intros He Hg Hn. unfold Decrypt. rewrite He, Hg. cbn [negb].
  rewrite bool_decide_eq_false_2 by apply encPrefix_ne.
  rewrite HasPrefix_app, TrimPrefix_app, Base64.base64_roundtrip. cbn [negb].
  rewrite (proj2 (Nat.ltb_ge _ _)) by (rewrite length_app_str; lia).
  by rewrite take_nonce, drop_nonce, Open_Seal.
Qed.

Lemma Encrypt_ok `{!AEADLaws} e nonce plaintext : wf_encryptor e -> String.length nonce = nonceLen ->
  exists c, Encrypt e (Ok nonce) plaintext = Ok c /\ Decrypt e c = Ok plaintext /\
    (enabled e = true -> plaintext <> "" -> HasPrefix c encPrefix = true).
Proof.
  intros Hw Hn. unfold Encrypt, wf_encryptor in *. destruct (enabled e) eqn:He; cbn [negb].
  - destruct Hw as [g Hg]. case_bool_decide as Hp.
    + exists plaintext. subst. split_and!; [done| |done]. unfold Decrypt. by rewrite He.
    + rewrite Hg. cbn [rbind map_err]. eexists. split_and!; [done|by apply Decrypt_sealed|].
      intros _ _. apply HasPrefix_app.
  - exists plaintext. split_and!; [done| |done]. unfold Decrypt. by rewrite He.
Qed.

Lemma Decrypt_legacy e value : HasPrefix value encPrefix = false -> Decrypt e value = Ok value.
Proof. intros Hp. unfold Decrypt. rewrite Hp. destruct (enabled e); [|done]. by case_bool_decide. Qed.

Lemma Decrypt_inv `{!AEADLaws} e c plaintext :
  enabled e = true -> HasPrefix c encPrefix = true -> Decrypt e c = Ok plaintext ->
  exists g nonce, e_gcm e = Some g /\ String.length nonce = nonceLen /\
    Base64.DecodeString Base64.StdEncoding (TrimPrefix c encPrefix) = Ok (nonce +:+ Seal g nonce plaintext).
Proof.
  intros He Hp. unfold Decrypt. rewrite He, Hp. cbn [negb].
  case_bool_decide as Hc; [by subst|]. destruct (Base64.DecodeString _ _) as [data|] eqn:Ed; [|done].
  destruct (_ <? _)%nat eqn:El; [done|]. apply Nat.ltb_ge in El. destruct (e_gcm e) as [g|]; [|done].
  destruct (Open g _ _) as [p|] eqn:Eo; [|done]. intros [= <-]. apply Open_only in Eo.
  exists g, (take_string nonceLen data). split_and!; [done|rewrite length_take_string; lia|].
  by rewrite <- Eo, drop_take_string.
Qed.
End Crypto.

(** C32: field encryption loses nothing and forges nothing.  With an encryptor
    made from any accepted configuration, enabled or not: every value encrypts
    and decrypts back to itself; with encryption on, a non-empty value is stored
    with the prefix that marks it; a stored value without the prefix is returned
    as it is; and a value with the prefix decrypts only if it is the encoding of
    a nonce followed by that very plaintext sealed under it.  A configuration is
    accepted exactly if encryption is off or the key decodes to 32 bytes. *)
Theorem encryption_roundtrip `{AEADLaws} cfg :
  (is_ok (NewEncryptorFromConfig cfg) = true <->
   Enabled cfg = false \/ exists key, Hex.DecodeString (KeyHex cfg) = Ok key /\ String.length key = 32%nat) /\
  forall e, NewEncryptorFromConfig cfg = Ok e ->
  (forall nonce plaintext, String.length nonce = 12%nat ->
     exists c, Encrypt e (Ok nonce) plaintext = Ok c /\ Decrypt e c = Ok plaintext /\
       (Enabled cfg = true -> plaintext <> "" -> HasPrefix c encPrefix = true)) /\
  (forall value, HasPrefix value encPrefix = false -> Decrypt e value = Ok value) /\
  (forall c plaintext, Enabled cfg = true -> HasPrefix c encPrefix = true -> Decrypt e c = Ok plaintext ->
     exists g nonce, e_gcm e = Some g /\ String.length nonce = 12%nat /\
       Base64.DecodeString Base64.StdEncoding (TrimPrefix c encPrefix) = Ok (nonce +:+ Seal g nonce plaintext)).
Proof.
  split.
  - unfold NewEncryptorFromConfig. destruct (Enabled cfg); simpl; [|tauto].
    destruct (Hex.DecodeString (KeyHex cfg)) as [key|]; simpl; [|split; [done|by intros [|(? & ? & _)]]].
    unfold NewEncryptor, keyLen. destruct (Nat.eqb_spec (String.length key) 32) as [Hk|Hk]; simpl.
    + destruct (NewGCM_ok key Hk) as (b & g & -> & Hg). simpl. rewrite Hg. simpl. split; [by eauto|done].
    + split; [done|]. intros [|(? & [= <-] & ?)]; done.
  - intros e He. apply NewEncryptorFromConfig_wf in He as [Hw Hen]. rewrite <- Hen.
    split_and!; [intros; by apply Encrypt_ok|intros; by apply Decrypt_legacy|]. intros. by apply Decrypt_inv.
Qed.

(** ** Lookup hashes *)

Lemma Hex_length s : String.length (Hex.EncodeToString s) = (2 * String.length s)%nat.
Proof.
  unfold Hex.EncodeToString. rewrite Sha256.length_string_of. induction s as [|a s IH]; simpl; [done|]. rewrite IH. lia.
Qed.

(** With encryption off a hash column stays empty; with it on a hash is 64 hex
    digits of the value's HMAC. *)
Lemma Hash_spec `{AEAD} e value :
  (enabled e = false -> Hash e value = "") /\
  (enabled e = true -> String.length (Hash e value) = 64%nat /\
     Hex.DecodeString (Hash e value) = Ok (Sha256.hmac (hashKey e) value)).
Proof.
  unfold Hash. split; intros ->; simpl; [done|]. by rewrite Hex_length, Sha256.length_hmac, Hex.hex_roundtrip.
Qed.

(** ** An instance: sealing appends nonce and key *)

#[export] Instance toy_AEAD : AEAD := {
  block := string; gcm := string;
  aes_NewCipher key := Ok key; cipher_NewGCM b := Ok b;
  Seal g nonce plaintext := plaintext +:+ (nonce +:+ g);
  Open g nonce sealed :=
    if HasSuffix sealed (nonce +:+ g) then Ok (TrimSuffix sealed (nonce +:+ g))
    else Fail (New "cipher: message authentication failed")
}.

#[export] Instance toy_AEADLaws : AEADLaws.
Proof.
  split.
  - intros key _. by exists key, key.
  - intros g nonce p _. simpl. by rewrite HasSuffix_app, TrimSuffix_app.
  - simpl. intros g nonce sealed p Ho. destruct (HasSuffix sealed (nonce +:+ g)) eqn:Es; [|done].
    apply HasSuffix_spec in Es as [t ->]. rewrite TrimSuffix_app in Ho. by injection Ho as ->.
Qed.

Lemma encryption_roundtrip_witness :
  let cfg := mkConfig true "000102030405060708090a0b0c0d0e0f101112131415161718191a1b1c1d1e1f" in
  exists e c, NewEncryptorFromConfig cfg = Ok e /\ Encrypt e (Ok "unique nonce") "+7 700 000 00 00" = Ok c /\
    c <> "+7 700 000 00 00" /\ Decrypt e c = Ok "+7 700 000 00 00" /\ Decrypt e "legacy" = Ok "legacy".
Proof.
  intros cfg. destruct (encryption_roundtrip cfg) as [_ H].
  destruct (NewEncryptorFromConfig cfg) as [e|err] eqn:Ee; [|vm_compute in Ee; discriminate Ee].
  destruct (H e eq_refl) as (H1 & H2 & _).
  destruct (H1 "unique nonce" "+7 700 000 00 00" eq_refl) as (c & Hc & Hd & Hp).
  exists e, c. split_and!; [done..| |done|by apply H2]. intros ->. by specialize (Hp eq_refl ltac:(discriminate)).
Defined.

(** A value that was stored before encryption was switched on, and happens to
    begin like an encrypted one, can no longer be read. *)
Example prefixed_legacy_unreadable :
  exists e, NewEncryptorFromConfig
      (mkConfig true "000102030405060708090a0b0c0d0e0f101112131415161718191a1b1c1d1e1f") = Ok e /\
    is_ok (Decrypt e "enc:odoer") = false.
Proof. eexists. split; vm_compute; reflexivity. Qed.
