(* ===== verification/ConfigLoad.v ===== *)
(** * config/: configuration from YAML and the environment

    The loader walks a struct by reflection: a field is its name, its [env] and
    [env-default] tags, whether it can be set, and its value, which carries its
    kind.  Reading and decoding the YAML file are parameters; so are the
    floating-point parser and the environment. *)

From Stdlib Require Import Ascii.
From S2P Require Import Prelude GoError GoString GoStrconv.

Open Scope Z_scope.

(** float64 values, their parser, and rounding to float32. *)
Class Floats := {
  float : Type;
  ParseFloat : string -> result error float;
  to_float32 : float -> float
}.

Section Reflect.
Context `{Floats} `{FloatFraction}.

(** A value by its reflect.Kind; integer kinds carry their width.  [FOther] are
    the kinds [setField] has no case for, pointers and maps among them. *)
Inductive fval :=
| FString (s : string)
| FInt (bits : Z) (n : Z)
| FDuration (n : Duration)
| FUint (bits : Z) (n : Z)
| FFloat (bits : Z) (x : float)
| FBool (b : bool)
| FStrings (l : list string)
| FOther
| FStruct (fs : list field)
with field := mkField (Name env env_default : string) (CanSet : bool) (v : fval).

Definition f_name (f : field) := match f with mkField n _ _ _ _ => n end.
Definition f_env (f : field) := match f with mkField _ e _ _ _ => e end.
Definition f_default (f : field) := match f with mkField _ _ d _ _ => d end.
Definition f_canset (f : field) := match f with mkField _ _ _ c _ => c end.
Definition f_value (f : field) := match f with mkField _ _ _ _ v => v end.
Definition with_value (f : field) (v : fval) : field :=
  match f with mkField n e d c _ => mkField n e d c v end.

(** What [Value.SetInt] and [Value.SetUint] keep of a number. *)
Definition wrap_int (bits n : Z) : Z := (n + 2 ^ (bits - 1)) mod 2 ^ bits - 2 ^ (bits - 1).
Definition wrap_uint (bits n : Z) : Z := n mod 2 ^ bits.

Definition setField (canSet : bool) (v : fval) (value : string) : result error fval :=
  if negb canSet then Ok v
  else
    match v with
    | FString _ => Ok (FString value)
    | FDuration _ => let? d := ParseDuration value in Ok (FDuration d)
    | FInt bits _ => let? i := ParseInt value in Ok (FInt bits (wrap_int bits i))
    | FUint bits _ => let? i := ParseUint value in Ok (FUint bits (wrap_uint bits i))
    | FFloat bits _ => let? f := ParseFloat value in Ok (FFloat bits (if bits =? 32 then to_float32 f else f))
    | FBool _ => let? b := ParseBool value in Ok (FBool b)
    | FStrings _ => Ok (FStrings (List.map TrimSpace (Split "," value)))
    | FOther | FStruct _ => Ok v
    end.

Section Env.
Context (Getenv : string -> string).

(** The value the loop picks for a field: the environment's, or the default. *)
Definition chosen (f : field) : string :=
  let value := Getenv (f_env f) in
  if bool_decide (value = "") then f_default f else value.

(** The loop body for a field that is not a struct. *)
Definition resolve (f : field) : result error field :=
  if bool_decide (f_env f = "") then Ok f
  else
    let value := chosen f in
    if bool_decide (value = "") then Ok f
    else
      let? v := map_err (Wrapf ("set field " +:+ f_name f)) (setField (f_canset f) (f_value f) value) in
      Ok (with_value f v).

(** A loop that stops at the first error. *)
Definition each {A B} (step : A -> result error B) : list A -> result error (list B) :=
  fix go l :=
    match l with
    | [] => Ok []
    | x :: l => let? y := step x in let? ys := go l in Ok (y :: ys)
    end.

Fixpoint processField (f : field) : result error field :=
  match f_value f with
  | FStruct fs => let? fs' := each processField fs in Ok (with_value f (FStruct fs'))
  | _ => resolve f
  end.

Definition processStruct (fs : list field) : result error (list field) := each processField fs.

(** [loadFromEnv]; a configuration is a struct. *)
Definition loadFromEnv (cfg : list field) : result error (list field) := processStruct cfg.

(** [Load[T](path)]; [zero] is the zero value of [T], [yaml_Unmarshal] fills it
    in from a document. *)
Definition Load (ReadFile : string -> result error string) (IsNotExist : error -> bool)
    (yaml_Unmarshal : string -> list field -> result error (list field)) (zero : list field) (path : string)
    : result error (list field) :=
  let? cfg :=
    if bool_decide (path = "") then Ok zero
    else
      match ReadFile path with
      | Fail err => if negb (IsNotExist err) then Fail (Wrapf "read config file" err) else Ok zero
      | Ok data => map_err (Wrapf "parse config file") (yaml_Unmarshal data zero)
      end in
  map_err (Wrapf "load env vars") (loadFromEnv cfg).

(** [MustLoad] panics, with the error as its value, where [Load] fails. *)
Definition MustLoad ReadFile IsNotExist yaml_Unmarshal zero path : list field + error :=
  match Load ReadFile IsNotExist yaml_Unmarshal zero path with Ok cfg => inl cfg | Fail err => inr err end.

Definition GetEnv (key defaultValue : string) : string :=
  let value := Getenv key in if negb (bool_decide (value = "")) then value else defaultValue.

(** A typed variable: absent or malformed values give the default. *)
Definition get_env_as {A} (parse : string -> result error A) (key : string) (defaultValue : A) : A :=
  let value := Getenv key in
  if negb (bool_decide (value = "")) then match parse value with Ok a => a | Fail _ => defaultValue end
  else defaultValue.

Definition GetEnvInt : string -> Z -> Z := get_env_as Atoi.
Definition GetEnvBool : string -> bool -> bool := get_env_as ParseBool.
Definition GetEnvDuration : string -> Duration -> Duration := get_env_as ParseDuration.

(** ** Leaves *)

(** The fields that are not structs, in the order the loader visits them. *)
Fixpoint leaves_of (f : field) : list field :=
  match f_value f with
  | FStruct fs => flat_map leaves_of fs
  | _ => [f]
  end.
Definition leaves (fs : list field) : list field := flat_map leaves_of fs.

Definition is_struct (v : fval) : bool := match v with FStruct _ => true | _ => false end.

(** Induction on fields through the lists of nested structs. *)
Fixpoint field_ind' (P : field -> Prop)
    (Hleaf : forall f, is_struct (f_value f) = false -> P f)
    (Hstruct : forall n e d c fs, Forall P fs -> P (mkField n e d c (FStruct fs))) (f : field) : P f :=
  match f with
  | mkField n e d c (FStruct fs) =>
      Hstruct n e d c fs
        ((fix go l : Forall P l :=
            match l with
            | [] => Forall_nil_2 _
            | f :: l => Forall_cons_2 _ _ _ (field_ind' P Hleaf Hstruct f) (go l)
            end) fs)
  | f => Hleaf f ltac:(first [exact eq_refl|idtac])
  end.
End Env.
End Reflect.

(** ** Structs of configuration *)

(** config/http.go *)
Record HTTPConfig := mkHTTPConfig { Host : string; Port : Z }.
Definition Address (c : HTTPConfig) : string := Host c +:+ ":" +:+ Itoa (Port c).

(** config/service.go *)
Record ServiceConfig := mkServiceConfig { svc_Name : string; Environment : string; Debug_ : bool }.
Definition IsProduction (c : ServiceConfig) : bool :=
  bool_decide (Environment c = "production") || bool_decide (Environment c = "prod").
Definition IsDevelopment (c : ServiceConfig) : bool :=
  bool_decide (Environment c = "development") || bool_decide (Environment c = "dev").

(** ** Where a value comes from *)

Section Precedence.
Context `{Floats} `{FloatFraction} (Getenv : string -> string).

Lemma each_ok {A B} (step : A -> result error B) l l' :
  each step l = Ok l' <-> Forall2 (fun x y => step x = Ok y) l l'.
Proof.
  revert l'. induction l as [|x l IH]; intros l'; simpl.
  - split; [intros [= <-]; constructor|by inversion 1].
  - rewrite rbind_ok. split.
    + intros (y & Hy & Hk). apply rbind_ok in Hk as (ys & Hys & [= <-]). constructor; [done|by apply IH].
    + inversion 1 as [|? y ? ys Hy Hys]; subst. exists y. split; [done|]. apply IH in Hys. by rewrite Hys.
Qed.

(** *** The specification *)

(** The text the outside world supplies for a field with an [env] tag: its
    variable if that is set to something, else its default tag if it has one. *)
Inductive supplied (f : field) : string -> Prop :=
| by_environment t : f_env f <> "" -> Getenv (f_env f) = t -> t <> "" -> supplied f t
| by_default : f_env f <> "" -> Getenv (f_env f) = "" -> f_default f <> "" -> supplied f (f_default f).

(** [denotes v t w]: for a field of the kind of [v], the text [t] is [w].  The
    content of [v] plays no part. *)
Inductive denotes : fval -> string -> fval -> Prop :=
| den_string s t : denotes (FString s) t (FString t)
| den_int bits n t i : ParseInt t = Ok i -> denotes (FInt bits n) t (FInt bits (wrap_int bits i))
| den_duration n t d : ParseDuration t = Ok d -> denotes (FDuration n) t (FDuration d)
| den_uint bits n t i : ParseUint t = Ok i -> denotes (FUint bits n) t (FUint bits (wrap_uint bits i))
| den_float32 x t y : ParseFloat t = Ok y -> denotes (FFloat 32 x) t (FFloat 32 (to_float32 y))
| den_float64 bits x t y : bits <> 32 -> ParseFloat t = Ok y -> denotes (FFloat bits x) t (FFloat bits y)
| den_bool b t c : ParseBool t = Ok c -> denotes (FBool b) t (FBool c)
| den_strings l t : denotes (FStrings l) t (FStrings (List.map TrimSpace (Split "," t))).

(** Kinds a text can be written to. *)
Definition settable (v : fval) : Prop := match v with FOther | FStruct _ => False | _ => True end.

(** The value a leaf ends up with. *)
Inductive settled (f : field) : fval -> Prop :=
| settled_untouched : (forall t, ~ supplied f t) -> settled f (f_value f)
| settled_ignored t : supplied f t -> f_canset f = false \/ ~ settable (f_value f) -> settled f (f_value f)
| settled_taken t v : supplied f t -> f_canset f = true -> denotes (f_value f) t v -> settled f v.

(** A text supplied for a leaf that its kind cannot read. *)
Definition misread (f : field) : Prop :=
  exists t, supplied f t /\ f_canset f = true /\ settable (f_value f) /\ forall v, ~ denotes (f_value f) t v.

(** *** The loader meets it *)

Lemma supplied_chosen f t : supplied f t <-> f_env f <> "" /\ chosen Getenv f = t /\ t <> "".
Proof.
  unfold chosen. split.
  - intros [t' He Hg Ht|He Hg Hd]; case_bool_decide; naive_solver.
  - intros (He & Hc & Ht). case_bool_decide as Hg; [subst; by constructor|]. by apply by_environment.
Qed.

Lemma setField_denotes v t w : settable v -> setField true v t = Ok w <-> denotes v t w.
Proof.
  intros Hs. split.
  - destruct v as [| | | |bits x0| | | |]; cbn in Hs |- *; try done; rewrite ?rbind_ok.
    5:{ intros (x & Hx & [= <-]). destruct (Z.eqb_spec bits 32) as [->|]; by constructor. }
    1, 6: intros [= <-]; constructor.
    all: intros (x & Hx & [= <-]); by constructor.
  - destruct 1 as [| | | | |bits x t y Hb Hp| |]; cbn; try done;
      try (match goal with E : _ = Ok _ |- _ => by rewrite E end).
    rewrite Hp. cbn. by rewrite (proj2 (Z.eqb_neq _ _)).
Qed.

Lemma setField_unsettable v t : ~ settable v -> setField true v t = Ok v.
Proof. by destruct v; cbn. Qed.

Lemma denotes_leaf v t w : denotes v t w -> is_struct w = false.
Proof. by destruct 1. Qed.

Lemma settable_dec v : settable v \/ ~ settable v.
Proof. destruct v; cbn; tauto. Qed.

(** What the loop makes of a leaf. *)
Lemma resolve_ok f f' : is_struct (f_value f) = false -> resolve Getenv f = Ok f' ->
  is_struct (f_value f') = false /\ exists v, settled f v /\ f' = with_value f v.
Proof.
  destruct f as [n e d c v]. unfold resolve. cbn [f_env f_value f_name f_canset]. intros Hs.
  assert (forall w, settled (mkField n e d c v) w -> is_struct w = false ->
    is_struct (f_value (mkField n e d c w)) = false /\ exists v', settled (mkField n e d c v) v' /\
      mkField n e d c w = with_value (mkField n e d c v) v') as Hdone by eauto.
  case_bool_decide as He.
  { intros [= <-]. apply Hdone; [|done]. apply settled_untouched. intros t. rewrite supplied_chosen. cbn. tauto. }
  case_bool_decide as Hc.
  { intros [= <-]. apply Hdone; [|done]. apply settled_untouched. intros t. rewrite supplied_chosen. intros (_ & <- & Ht). done. }
  assert (supplied (mkField n e d c v) (chosen Getenv (mkField n e d c v))) as Hsup by (by rewrite supplied_chosen).
  rewrite rbind_ok. intros (w & Hw & [= <-]). apply map_err_ok in Hw.
  destruct c; [|injection Hw as <-; apply Hdone; [|done]; eapply (settled_ignored _ _ Hsup); by left].
  destruct (settable_dec v) as [Hv|Hv].
  - apply (setField_denotes _ _ _ Hv) in Hw. apply Hdone; [by eapply settled_taken|by eapply denotes_leaf].
  - rewrite setField_unsettable in Hw by done. injection Hw as <-.
    apply Hdone; [|done]. eapply (settled_ignored _ _ Hsup). by right.
Qed.

Lemma resolve_fail f err : resolve Getenv f = Fail err ->
  misread f /\ exists e, err = Wrapf ("set field " +:+ f_name f) e.
Proof.
  unfold resolve. case_bool_decide as He; [done|]. case_bool_decide as Hc; [done|].
  destruct (setField (f_canset f) (f_value f) (chosen Getenv f)) as [w|e] eqn:Ew; [done|]. cbn. intros [= <-].
  split; [|by exists e]. destruct (f_canset f) eqn:Ec; [|done].
  destruct (settable_dec (f_value f)) as [Hv|Hv]; [|by rewrite setField_unsettable in Ew].
  exists (chosen Getenv f). split_and!; [by rewrite supplied_chosen|done|done|].
  intros w Hw. apply (setField_denotes _ _ _ Hv) in Hw. congruence.
Qed.

Lemma misread_unsettled f v : misread f -> ~ settled f v.
Proof.
  intros (t & Ht & Hc & Hv & Hd) Hs. rewrite supplied_chosen in Ht. destruct Ht as (He & <- & Ht).
  destruct Hs as [Hn|t' _ Hi|t' v Hs _ Hd'].
  - eapply Hn. rewrite supplied_chosen. eauto.
  - destruct Hi; [congruence|done].
  - rewrite supplied_chosen in Hs. destruct Hs as (_ & <- & _). by eapply Hd.
Qed.

(** [f'] is the leaf [f] with the value it settles on. *)
Definition leaf_ok (f f' : field) : Prop := exists v, settled f v /\ f' = with_value f v.

Lemma leaves_single f : is_struct (f_value f) = false -> leaves_of f = [f].
Proof. by destruct f as [n e d c []]. Qed.

Lemma processField_leaf f : is_struct (f_value f) = false -> processField Getenv f = resolve Getenv f.
Proof. by destruct f as [n e d c []]. Qed.

Lemma Forall2_flat_map {A B} (R : B -> B -> Prop) (g : A -> list B) l k :
  Forall2 (fun x y => Forall2 R (g x) (g y)) l k -> Forall2 R (flat_map g l) (flat_map g k).
Proof. induction 1; simpl; [constructor|by apply Forall2_app]. Qed.

Lemma processField_leaves f f' :
  processField Getenv f = Ok f' -> Forall2 leaf_ok (leaves_of f) (leaves_of f').
Proof.
  revert f'. induction f as [f Hf|n e d c fs IH] using field_ind'; intros f' Hp.
  - rewrite processField_leaf in Hp by done. destruct (resolve_ok f f') as [Hs Hok]; [done..|].
    rewrite !leaves_single by done. by constructor.
  - cbn [processField f_value] in Hp. apply rbind_ok in Hp as (fs' & Hfs & [= <-]). simpl.
    apply Forall2_flat_map. apply each_ok in Hfs. clear -IH Hfs.
    induction Hfs as [|x y l k Hxy _ IHl]; [constructor|]. apply Forall_cons in IH as [Hx Hl]. constructor; auto.
Qed.

Lemma processStruct_leaves fs fs' : processStruct Getenv fs = Ok fs' -> Forall2 leaf_ok (leaves fs) (leaves fs').
Proof.
  intros Hp. apply Forall2_flat_map. apply each_ok in Hp.
  eapply Forall2_impl; [exact Hp|]. intros x y. apply processField_leaves.
Qed.

(** A failure is that of some leaf. *)
Lemma each_fail {A B} (step : A -> result error B) l e :
  each step l = Fail e -> exists x, In x l /\ step x = Fail e.
Proof.
  induction l as [|x l IH]; [done|]. simpl. destruct (step x) as [y|e'] eqn:Ex; cbn.
  - destruct (each step l) as [ys|e']; [done|]. cbn. intros [= <-]. destruct (IH eq_refl) as (z & Hz & Hs). eauto.
  - intros [= <-]. eauto.
Qed.

Lemma processField_fail f e : processField Getenv f = Fail e ->
  exists g, In g (leaves_of f) /\ misread g /\ exists e', e = Wrapf ("set field " +:+ f_name g) e'.
Proof.
  revert e. induction f as [f Hf|n e0 d c fs IH] using field_ind'; intros e Hp.
  - rewrite processField_leaf in Hp by done. rewrite leaves_single by done. exists f.
    split; [by left|]. by apply resolve_fail.
  - cbn [processField f_value] in Hp. destruct (each (processField Getenv) fs) as [fs'|e'] eqn:Ee; [done|].
    cbn in Hp. injection Hp as <-. apply each_fail in Ee as (x & Hx & He).
    rewrite List.Forall_forall in IH. destruct (IH x Hx e' He) as (g & Hg & Hm). exists g. split; [|done].
    cbn. apply in_flat_map. eauto.
Qed.

Lemma processStruct_fail fs e : processStruct Getenv fs = Fail e ->
  exists g, In g (leaves fs) /\ misread g /\ exists e', e = Wrapf ("set field " +:+ f_name g) e'.
Proof.
  intros Hp. apply each_fail in Hp as (x & Hx & He). apply processField_fail in He as (g & Hg & Hm).
  exists g. split; [|done]. apply in_flat_map. eauto.
Qed.

(** The struct around the leaves: names and tags, nested. *)
Inductive shape := SLeaf (name env env_default : string) | SStruct (name env env_default : string) (fs : list shape).

Fixpoint shape_of (f : field) : shape :=
  match f with
  | mkField n e d _ (FStruct fs) => SStruct n e d (map shape_of fs)
  | mkField n e d _ _ => SLeaf n e d
  end.

Lemma shape_leaf f : is_struct (f_value f) = false -> shape_of f = SLeaf (f_name f) (f_env f) (f_default f).
Proof. by destruct f as [n e d c []]. Qed.

Lemma processField_shape f f' : processField Getenv f = Ok f' -> shape_of f' = shape_of f.
Proof.
  revert f'. induction f as [f Hf|n e d c fs IH] using field_ind'; intros f' Hp.
  - rewrite processField_leaf in Hp by done. destruct (resolve_ok f f' Hf Hp) as (Hs & v & _ & ->).
    rewrite !shape_leaf by done. by destruct f.
  - cbn [processField f_value] in Hp. apply rbind_ok in Hp as (fs' & Hfs & [= <-]). cbn. f_equal.
    apply each_ok in Hfs. clear -IH Hfs. induction Hfs as [|x y l k Hxy _ IHl]; [done|].
    apply Forall_cons in IH as [Hx Hl]. cbn. by rewrite (Hx _ Hxy), IHl.
Qed.

Lemma processStruct_shape fs fs' : processStruct Getenv fs = Ok fs' -> map shape_of fs' = map shape_of fs.
Proof.
  intros Hp. apply each_ok in Hp. induction Hp as [|x y l k Hxy _ IHl]; [done|]. cbn.
  by rewrite (processField_shape _ _ Hxy), IHl.
Qed.
End Precedence.

(** C33: where configuration values come from.  [Load] starts from the zero
    value, or from what the YAML file holds when there is one, and then settles
    every leaf of the struct and its nested structs.  A field with an [env] tag
    whose variable is set and non-empty takes the variable's text; else, if it
    has a default tag, it takes the default, and what the file said is lost; a
    text is read by the field's kind alone.  Fields without either keep the
    file's value, as do fields that cannot be set or whose kind the loader does
    not know.  Names, tags and nesting stay as they were.  Loading fails exactly
    if the file cannot be read or decoded, or a text supplied for a leaf is not
    one of its kind, and the error says which. *)
Theorem load_precedence `{Floats} `{FloatFraction} Getenv ReadFile (IsNotExist : error -> bool) Unmarshal zero path :
  let file : result error (list field) :=
              if bool_decide (path = "") then Ok zero
              else match ReadFile path with
                   | Ok data => map_err (Wrapf "parse config file") (Unmarshal data zero)
                   | Fail err => if IsNotExist err then Ok zero else Fail (Wrapf "read config file" err)
                   end in
  match file with
  | Fail err => Load Getenv ReadFile IsNotExist Unmarshal zero path = Fail err
  | Ok base =>
      (exists cfg, Load Getenv ReadFile IsNotExist Unmarshal zero path = Ok cfg /\
         Forall2 (fun f f' => exists v, settled Getenv f v /\ f' = with_value f v) (leaves base) (leaves cfg) /\
         map shape_of cfg = map shape_of base) \/
      (exists f e, In f (leaves base) /\ misread Getenv f /\ (forall v, ~ settled Getenv f v) /\
         Load Getenv ReadFile IsNotExist Unmarshal zero path =
           Fail (Wrapf "load env vars" (Wrapf ("set field " +:+ f_name f) e)))
  end.
Proof.
  intros file. unfold Load.
  match goal with |- context [rbind ?c _] => assert (c = file) as -> end.
  { subst file. case_bool_decide; [done|]. destruct (ReadFile path) as [data|err]; [done|]. by destruct (IsNotExist err). }
  destruct file as [base|err]; cbn [rbind]; [|done]. unfold loadFromEnv.
  destruct (processStruct Getenv base) as [cfg|err] eqn:Ep; cbn [map_err].
  - left. exists cfg. split_and!; [done|by apply processStruct_leaves|by eapply processStruct_shape].
  - right. destruct (processStruct_fail Getenv base err Ep) as (f & Hf & Hm & e & ->).
    exists f, e. split_and!; [done|done| |done]. intros v. by apply misread_unsettled.
Qed.

(** ** Example: a service's configuration *)

#[export] Instance no_floats : Floats :=
  { float := unit; ParseFloat _ := Fail ErrSyntax; to_float32 x := x }.

Definition sample_zero : list field :=
  [mkField "Name" "SERVICE_NAME" "" true (FString "");
   mkField "HTTP" "" "" true (FStruct
     [mkField "Host" "HTTP_HOST" "0.0.0.0" true (FString ""); mkField "Port" "HTTP_PORT" "8080" true (FInt 64 0)])].

(** The file sets all three fields. *)
Definition sample_yaml (_ : string) (_ : list field) : result error (list field) :=
  Ok [mkField "Name" "SERVICE_NAME" "" true (FString "orders");
      mkField "HTTP" "" "" true (FStruct
        [mkField "Host" "HTTP_HOST" "0.0.0.0" true (FString "10.0.0.1"); mkField "Port" "HTTP_PORT" "8080" true (FInt 64 9000)])].

Definition sample_env (k : string) : string := if bool_decide (k = "HTTP_HOST") then "127.0.0.1" else "".

Definition sample_load := Load sample_env (fun _ => Ok "doc") (fun _ => false) sample_yaml sample_zero "config.yaml".

(** The name comes from the file, the host from the environment, and the port
    from the default although the file says 9000. *)
Example sample_loads :
  option_map (fun cfg => List.map f_value (leaves cfg)) (match sample_load with Ok cfg => Some cfg | Fail _ => None end) =
    Some [FString "orders"; FString "127.0.0.1"; FInt 64 8080].
Proof. vm_compute. reflexivity. Qed.

Lemma load_precedence_witness :
  exists cfg, sample_load = Ok cfg /\
    Forall2 (fun f f' => exists v, settled sample_env f v /\ f' = with_value f v)
      [mkField "Name" "SERVICE_NAME" "" true (FString "orders");
       mkField "Host" "HTTP_HOST" "0.0.0.0" true (FString "10.0.0.1");
       mkField "Port" "HTTP_PORT" "8080" true (FInt 64 9000)] (leaves cfg).
Proof.
  pose proof (load_precedence sample_env (fun _ => Ok "doc") (fun _ => false) sample_yaml sample_zero "config.yaml") as H.
  cbn in H. fold sample_load in H. destruct H as [(cfg & Hl & HF & _)|(f & e & _ & _ & _ & Hl)].
  - exists cfg. split; [exact Hl|exact HF].
  - exfalso. assert (is_ok sample_load = true) as Hok by (vm_compute; reflexivity). rewrite Hl in Hok. discriminate Hok.
Defined.

(** A number too large for a 32-bit field is stored modulo 2^32. *)
Example narrow_int_wraps : setField true (FInt 32 0) "5000000000" = Ok (FInt 32 705032704).
Proof. vm_compute. reflexivity. Qed.
