(* ===== verification/Postgres.v ===== *)
(** * postgres/postgres.go: connection pools, transactions and error classes

    pgx is the class [Pgx]: parsing a connection string, opening a pool, pinging
    it.  Transactions run against a server, the class [TxServer]: it keeps what is
    committed and what each open transaction has written, and beginning,
    executing, committing and rolling back act on that state.  [WithTx] only
    calls these operations; what becomes of the data is derived from their laws. *)

From S2P Require Import Prelude GoError GoString Metrics.

Open Scope Z_scope.

Record Config := mkConfig {
  Host : string; Port : Z; User : string; Password : string; Database : string; SSLMode : string;
  MaxConns : Z; MinConns : Z; MaxConnLifetime : Duration; MaxConnIdleTime : Duration
}.

Definition DSN (c : Config) : string :=
  "postgres://" +:+ User c +:+ ":" +:+ Password c +:+ "@" +:+ Host c +:+ ":" +:+ Itoa (Port c) +:+ "/" +:+
  Database c +:+ "?sslmode=" +:+ SSLMode c.

(** ** Pools *)

(** The fields of pgxpool.Config the package sets, and the string it came from. *)
Record PoolConfig := mkPoolConfig {
  pc_ConnString : string; pc_MaxConns : Z; pc_MinConns : Z; pc_MaxConnLifetime : Duration; pc_MaxConnIdleTime : Duration;
  pc_traced : bool
}.

Class Pgx := {
  handle : Type;
  pgxpool_ParseConfig : string -> result error PoolConfig;
  pgxpool_NewWithConfig : PoolConfig -> result error handle;
  pgxpool_Ping : handle -> Error
}.

Section Pools.
Context `{Pgx}.

Record Pool := mkPool { pg : handle; dbName : string }.

Definition New (cfg : Config) : result error Pool :=
  let? poolConfig := map_err (Wrapf "parse config") (pgxpool_ParseConfig (DSN cfg)) in
  let poolConfig := mkPoolConfig (pc_ConnString poolConfig) (MaxConns cfg) (MinConns cfg)
    (MaxConnLifetime cfg) (MaxConnIdleTime cfg) true in
  let? pool := map_err (Wrapf "create pool") (pgxpool_NewWithConfig poolConfig) in
  match pgxpool_Ping pool with
  | Some err => Fail (Wrapf "ping database" err)
  | None => Ok (mkPool pool (Database cfg +:+ "@" +:+ Host cfg +:+ ":" +:+ Itoa (Port cfg)))
  end.

Definition Writer (p : Pool) : Pool := p.
Definition Reader (p : Pool) : Pool := p.

(** One tick of [collectPoolMetrics]. *)
Definition collectPoolMetrics_tick (p : Pool) (acquired idle : Z) : registry -> registry :=
  SetDBConnections (dbName p) acquired idle.

(** [Close] of a pool that [New] returned: the metrics loop is cancelled, then
    the connections are closed. *)
Inductive close_event := MetricsCancelled (db : string) | ConnectionsClosed (h : handle).
Definition Pool_Close (p : Pool) : list close_event := [MetricsCancelled (dbName p); ConnectionsClosed (pg p)].
End Pools.

(** ** Transactions *)

(** How a call ends: it returns an error value (nil is [None]) or panics. *)
Inductive ending := Returned (e : Error) | Panicked (value : string).

(** The server and pgx's transactions on it. *)
Class TxServer := {
  DB : Type;
  server : Type;
  tx : Type;
  (** the committed data *)
  committed : server -> DB;
  (** the writes of an open transaction, as a function of the data; [None] when
      it has ended or been aborted by a failing statement *)
  pending : tx -> server -> option (DB -> DB);
  Begin : server -> result error tx * server;
  (** a statement: what it writes, and the rows it answers *)
  Exec : tx -> (DB -> DB) -> server -> result error DB * server;
  Commit : tx -> server -> Error * server;
  Rollback : tx -> server -> Error * server
}.

(** What PostgreSQL and pgx document of each operation.  A commit that fails may
    have been carried out; a rollback that fails closes the connection, which
    ends the transaction as well. *)
Class TxServerLaws `{TxServer} := {
  Begin_law s r s' : Begin s = (r, s') ->
    committed s' = committed s /\ forall t, r = Ok t -> pending t s' = Some (fun db => db);
  Exec_law t write s r s' : Exec t write s = (r, s') ->
    committed s' = committed s /\
    pending t s' = match r, pending t s with Ok _, Some w => Some (fun db => write (w db)) | _, _ => None end;
  Commit_law t s r s' : Commit t s = (r, s') ->
    pending t s' = None /\
    ((exists w, pending t s = Some w /\ committed s' = w (committed s)) \/
     (r <> None /\ committed s' = committed s));
  Rollback_law t s r s' : Rollback t s = (r, s') -> pending t s' = None /\ committed s' = committed s
}.

Section Tx.
Context `{TxServer}.

(** [WithTx]: how the call ends, the server afterwards, and the errors logged. *)
Definition WithTx (fn : tx -> server -> ending * server) (s : server) : ending * server * list error :=
  match Begin s with
  | (Fail err, s) => (Returned (Some (Wrapf "begin tx" err)), s, [])
  | (Ok t, s) =>
      match fn t s with
      | (Panicked p, s) => let (_, s) := Rollback t s in (Panicked p, s, [])
      | (Returned (Some err), s) =>
          let (rbErr, s) := Rollback t s in
          (Returned (Some err), s, match rbErr with Some rbErr => [rbErr] | None => [] end)
      | (Returned None, s) =>
          match Commit t s with
          | (Some err, s) => (Returned (Some (Wrapf "commit tx" err)), s, [])
          | (None, s) => (Returned None, s, [])
          end
      end
  end.
End Tx.

(** ** Slow queries *)

(** The values [TraceQueryStart] leaves in the context. *)
Record QueryContext := mkQueryContext { query_start : option Time; query_sql : option string }.

Definition TraceQueryStart (now : Time) (sql : string) (ctx : QueryContext) : QueryContext :=
  mkQueryContext (Some now) (Some sql).

(** What [TraceQueryEnd] logs, if anything. *)
Definition TraceQueryEnd (now : Time) (ctx : QueryContext) : option (Duration * string) :=
  match query_start ctx with
  | None => None
  | Some start =>
      let duration := Since now start in
      if 100 * Millisecond <? duration then Some (duration, default "" (query_sql ctx)) else None
  end.

(** ** Classes of errors *)

Definition ErrNoRows : string := "pgx.ErrNoRows".
Definition PgError : string := "*pgconn.PgError".

(** [errors.As(err, &target)]: the first error of a dynamic type, depth first. *)
Fixpoint As (e : error) (target : string) : option error :=
  match e with
  | Err i _ cs =>
      if bool_decide (i = target) then Some e
      else
        (fix go l := match l with
                     | [] => None
                     | c :: l => match As c target with Some found => Some found | None => go l end
                     end) cs
  end.

Definition IsNotFound (err : Error) : bool :=
  match err with Some e => Is e ErrNoRows | None => false end.

(** [code_of] reads the [Code] field of a [*pgconn.PgError]. *)
Definition has_code (code_of : error -> string) (code : string) (err : Error) : bool :=
  match err with
  | None => false
  | Some e => match As e PgError with Some pgErr => bool_decide (code_of pgErr = code) | None => false end
  end.

Definition IsDuplicate (code_of : error -> string) : Error -> bool := has_code code_of "23505".
Definition IsForeignKeyViolation (code_of : error -> string) : Error -> bool := has_code code_of "23503".

(** Wrapping with context keeps an error's class. *)
Lemma As_Wrapf prefix e target : target <> "*fmt.wrapError" -> As (Wrapf prefix e) target = As e target.
Proof. intros Ht. simpl. rewrite bool_decide_eq_false_2 by done. by destruct (As e target). Qed.

Lemma classes_survive_wrapping code_of prefix e :
  IsNotFound (Some (Wrapf prefix e)) = IsNotFound (Some e) /\
  IsDuplicate code_of (Some (Wrapf prefix e)) = IsDuplicate code_of (Some e) /\
  IsForeignKeyViolation code_of (Some (Wrapf prefix e)) = IsForeignKeyViolation code_of (Some e).
Proof.
  unfold IsNotFound, IsDuplicate, IsForeignKeyViolation, has_code.
  rewrite Is_Wrapf, As_Wrapf by done. done.
Qed.

(** ** Atomicity *)

Section Atomicity.
Context `{TxServerLaws}.

(** A function that works through its transaction: it executes statements, each
    chosen by the answers so far, and ends somehow. *)
Inductive script :=
| Stop (r : ending)
| Stmt (write : DB -> DB) (next : result error DB -> script).

(** Running one: how it ends, the server, and the writes of its statements in
    order, or [None] if a statement failed. *)
Fixpoint run_script (t : tx) (p : script) (s : server) : ending * server * option (list (DB -> DB)) :=
  match p with
  | Stop r => (r, s, Some [])
  | Stmt write next =>
      let (r, s) := Exec t write s in
      let '(out, s, ws) := run_script t (next r) s in
      (out, s, match r, ws with Ok _, Some ws => Some (write :: ws) | _, _ => None end)
  end.

Definition apply_all (ws : list (DB -> DB)) (db : DB) : DB := fold_left (fun db write => write db) ws db.

(** A script changes nothing that is committed, and what its transaction would
    commit is all of its writes, or nothing once a statement failed. *)
Lemma run_script_spec t p s out s' ws : run_script t p s = (out, s', ws) ->
  committed s' = committed s /\
  forall db, option_map (fun w => w db) (pending t s') =
    match pending t s, ws with Some w, Some ws => Some (apply_all ws (w db)) | _, _ => None end.
Proof.
  revert s s' ws. induction p as [r|write next IH]; intros s s' ws E; cbn in E.
  - injection E as <- <- <-. split; [done|]. intros db. by destruct (pending t s).
  - destruct (Exec t write s) as [r s1] eqn:E1. destruct (run_script t (next r) s1) as [[out1 s2] ws1] eqn:E2.
    injection E as -> -> <-. apply Exec_law in E1 as [Hc Hp]. apply IH in E2 as [Hc2 Hp2].
    split; [congruence|]. intros db. rewrite Hp2, Hp. by destruct r, (pending t s), ws1.
Qed.
End Atomicity.

(** C34: [WithTx] is all or nothing.  Let the function work through its
    transaction, by any statements, chosen by the answers it gets.  When the
    transaction cannot be opened the function is not run and nothing changes.
    Otherwise the transaction is over when [WithTx] ends, and: if the function
    returned an error the caller gets that very error, if it panicked the panic
    goes on, and in both cases the committed data are what they were, also when
    the rollback reports an error; if it returned nil and [WithTx] returns nil,
    then no statement failed and the committed data are the old ones with all
    the writes applied in order; the one other case is a reported commit failure,
    after which all the writes are there or none. *)
Theorem withTx_atomic `{TxServerLaws} (p : script) s :
  let '(r, s', _) := WithTx (fun t s => (run_script t p s).1) s in
  match Begin s with
  | (Fail err, _) => r = Returned (Some (Wrapf "begin tx" err)) /\ committed s' = committed s
  | (Ok t, s1) =>
      let '(out, _, ws) := run_script t p s1 in
      let all_written := exists l, ws = Some l /\ committed s' = apply_all l (committed s) in
      pending t s' = None /\
      match out with
      | Returned None =>
          (r = Returned None /\ all_written) \/
          (exists ce, r = Returned (Some (Wrapf "commit tx" ce)) /\ (all_written \/ committed s' = committed s))
      | out => r = out /\ committed s' = committed s
      end
  end.
Proof.
  unfold WithTx. destruct (Begin s) as [[t|err] s1] eqn:Eb; apply Begin_law in Eb as [Hc1 Hp1]; [|done].
  specialize (Hp1 t eq_refl).
  destruct (run_script t p s1) as [[out s2] ws] eqn:Er. cbn [fst].
  apply run_script_spec in Er as [Hc2 Hp2].
  assert (forall s3 r, Rollback t s2 = (r, s3) -> pending t s3 = None /\ committed s3 = committed s) as Hrb.
  { intros s3 r E. apply Rollback_law in E as [? ?]. split; congruence. }
  destruct out as [[err|]|q].
  - destruct (Rollback t s2) as [e s3] eqn:E. destruct (Hrb s3 e eq_refl). by split_and!.
  - destruct (Commit t s2) as [e s3] eqn:E. apply Commit_law in E as [Hp3 Hc3].
    assert ((exists l, ws = Some l /\ committed s3 = apply_all l (committed s)) \/ (e <> None /\ committed s3 = committed s))
      as Hw.
    { destruct Hc3 as [(w & Hw & Hc3)|[He Hc3]]; [left|right; split; congruence].
      specialize (Hp2 (committed s2)). rewrite Hp1, Hw in Hp2. cbn in Hp2. destruct ws as [l|]; [|done].
      injection Hp2 as Hp2. exists l. split; [done|]. congruence. }
    destruct e as [ce|]; (split; [done|]); [right; exists ce; split; [done|]; tauto|].
    left. split; [done|]. destruct Hw as [|[]]; done.
  - destruct (Rollback t s2) as [e s3] eqn:E. destruct (Hrb s3 e eq_refl). by split_and!.
Qed.

(** ** An instance: one number, one transaction at a time *)

(** The committed number and the writes of the open transaction; a statement that
    would make the number negative fails and aborts the transaction. *)
#[export] Instance toy_server : TxServer := {
  DB := Z;
  server := Z * option (Z -> Z);
  tx := unit;
  committed s := s.1;
  pending _ s := s.2;
  Begin s := (Ok tt, (s.1, Some (fun db => db)));
  Exec _ write s :=
    match s.2 with
    | Some w =>
        if write (w s.1) <? 0 then (Fail (GoError.New "violates check constraint"), (s.1, None))
        else (Ok (write (w s.1)), (s.1, Some (fun db => write (w db))))
    | None => (Fail (GoError.New "current transaction is aborted"), (s.1, None))
    end;
  Commit _ s :=
    match s.2 with
    | Some w => (None, (w s.1, None))
    | None => (Some (GoError.New "commit unexpectedly resulted in rollback"), (s.1, None))
    end;
  Rollback _ s := (None, (s.1, None))
}.

#[export] Instance toy_server_laws : TxServerLaws.
Proof.
  split; cbn.
  - intros [db w] r s' [= <- <-]. split; [done|]. by intros [] _.
  - intros t write [db [w|]] r s'; cbn; [|intros [= <- <-]; done].
    destruct (write (w db) <? 0); intros [= <- <-]; done.
  - intros t [db [w|]] r s' [= <- <-]; cbn; (split; [done|]); [left; by exists w|by right].
  - intros t [db w] r s' [= <- <-]. done.
Qed.

(** A transfer of 30 that then finds the balance too low for its fee of 40 rolls
    back, one that can pay commits. *)
Definition transfer : script :=
  Stmt (fun n => n - 30) (fun r => match r with
    | Fail e => Stop (Returned (Some e))
    | Ok n => if n <? 40 then Stop (Returned (Some (GoError.New "insufficient funds")))
              else Stmt (fun n => n - 40) (fun _ => Stop (Returned None))
    end).

Example transfers :
  WithTx (fun t s => (run_script t transfer s).1) (100, None) = (Returned None, (30, None), []) /\
  WithTx (fun t s => (run_script t transfer s).1) (50, None) =
    (Returned (Some (GoError.New "insufficient funds")), (50, None), []).
Proof. split; reflexivity. Qed.

Lemma withTx_atomic_witness :
  exists s', WithTx (fun t s => (run_script t transfer s).1) (100, None) = (Returned None, s', []) /\
    committed s' = 30 /\
  exists e s'', WithTx (fun t s => (run_script t transfer s).1) (50, None) = (Returned (Some e), s'', []) /\
    committed s'' = 50.
Proof.
  pose proof (withTx_atomic transfer (100, None)) as H1. pose proof (withTx_atomic transfer (50, None)) as H2.
  exists (30, None). split; [reflexivity|]. split.
  - cbn in H1. destruct H1 as [_ [[_ (l & [= <-] & H1)]|(ce & Hr & _)]]; [exact H1|discriminate Hr].
  - exists (GoError.New "insufficient funds"), (50, None). split; [reflexivity|]. cbn in H2. exact (proj2 (proj2 H2)).
Defined.
