(* ===== verification/PgReplicas.v ===== *)
(** * postgres/replica_pool.go: reading from replicas

    A replica's mutable part is its health and lag, which the health checker
    writes and [Reader] reads under the replica's lock; the round-robin counter
    is an atomic 64-bit integer.  What pings and lag queries answer is an
    environment. *)

From Stdlib Require Import Permutation.
From S2P Require Import Prelude GoError GoString Postgres.

Open Scope Z_scope.

Section Replicas.
Context `{Pgx}.

Record ReplicaPoolConfig := mkReplicaPoolConfig {
  cfg_Primary : Config; cfg_Replicas : list Config; LoadBalancing : string; MaxReplicaLag : Duration;
  FallbackToPrimary : bool
}.

Record replicaConn := mkReplicaConn { pool : Pool; healthy : bool; lag : Duration }.

Record ReplicaPool := mkReplicaPool {
  primary : Pool; replicas : list replicaConn; config : ReplicaPoolConfig; counter : Z
}.

Definition set_counter (n : Z) (rp : ReplicaPool) : ReplicaPool :=
  mkReplicaPool (primary rp) (replicas rp) (config rp) n.
Definition set_replicas (l : list replicaConn) (rp : ReplicaPool) : ReplicaPool :=
  mkReplicaPool (primary rp) l (config rp) (counter rp).

(** The loop of [NewReplicaPool]: replicas that do not connect are skipped. *)
Definition connect_replicas (cfgs : list Config) : list replicaConn :=
  omap (fun c => match New c with Ok p => Some (mkReplicaConn p true 0) | Fail _ => None end) cfgs.

Definition NewReplicaPool (cfg : ReplicaPoolConfig) : result error ReplicaPool :=
  let? p := map_err (Wrapf "connect to primary") (New (cfg_Primary cfg)) in
  Ok (mkReplicaPool p (connect_replicas (cfg_Replicas cfg)) cfg 0).

(** ** Choosing a replica *)

Definition usable (max : Duration) (r : replicaConn) : bool := healthy r && (lag r <=? max).

Definition healthyReplicas (rp : ReplicaPool) : list replicaConn :=
  List.filter (usable (MaxReplicaLag (config rp))) (replicas rp).

(** The loop of [leastLagReplica]. *)
Fixpoint least_lag_loop (least : replicaConn) (rs : list replicaConn) : replicaConn :=
  match rs with
  | [] => least
  | r :: rs => least_lag_loop (if lag r <? lag least then r else least) rs
  end.

Definition leastLagReplica (rs : list replicaConn) : option replicaConn :=
  match rs with [] => None | r :: rs => Some (least_lag_loop r rs) end.

(** [l[i]]: out of range is a panic. *)
Definition index {A} (l : list A) (i : Z) : option A :=
  if i <? 0 then None else l !! Z.to_nat i.

(** [int(idx)%len(healthy)]: Go's remainder has the sign of [idx]. *)
Definition pick (h : list replicaConn) (idx : Z) : option Pool :=
  option_map pool (index h (Z.rem idx (Z.of_nat (length h)))).

(** [Reader]; [None] is a run-time panic. *)
Definition Reader_ (rp : ReplicaPool) : option Pool * ReplicaPool :=
  let h := healthyReplicas rp in
  if bool_decide (h = []) then
    if FallbackToPrimary (config rp) then (Some (primary rp), rp)
    else match replicas rp with r :: _ => (Some (pool r), rp) | [] => (Some (primary rp), rp) end
  else
    let strategy := LoadBalancing (config rp) in
    let idx := wrap64 (counter rp + 1) in
    if bool_decide (strategy = "random") then (pick h (wrap64 (idx * 31)), set_counter idx rp)
    else if bool_decide (strategy = "least-lag") then (option_map pool (leastLagReplica h), rp)
    else (pick h idx, set_counter idx rp).

Definition Writer_ (rp : ReplicaPool) : Pool := primary rp.
Definition Primary_ (rp : ReplicaPool) : Pool := primary rp.
Definition Replica_ (rp : ReplicaPool) : option Pool * ReplicaPool := Reader_ rp.

(** [Close]: the primary, then the replicas. *)
Definition ReplicaPool_Close (rp : ReplicaPool) : list close_event :=
  Pool_Close (primary rp) ++ flat_map (fun r => Pool_Close (pool r)) (replicas rp).

Definition ReplicaPool_WithTx `{TxServer} (fn : tx -> server -> ending * server) (s : server) := WithTx fn s.

(** ** Health checks *)

(** What a replica answers to a check: the ping, and the lag query. *)
Record probe := mkProbe { ping : Error; measured : result error Duration }.

Definition check_replica (max : Duration) (p : probe) (r : replicaConn) : replicaConn :=
  match ping p with
  | Some _ => mkReplicaConn (pool r) false (lag r)
  | None =>
      match measured p with
      | Fail _ => mkReplicaConn (pool r) true max
      | Ok l => mkReplicaConn (pool r) true l
      end
  end.

(** [checkReplicasHealth]; [answer i] is what the [i]-th replica answers. *)
Definition checkReplicasHealth (answer : nat -> probe) (rp : ReplicaPool) : ReplicaPool :=
  set_replicas (imap (fun i r => check_replica (MaxReplicaLag (config rp)) (answer i) r) (replicas rp)) rp.

(** [getReplicationLag]; [seconds_to_duration] is the float64 conversion. *)
Definition getReplicationLag {F} (seconds_to_duration : F -> Duration) (row : result error F) : result error Duration :=
  let? s := map_err (Wrapf "query replication lag") row in Ok (seconds_to_duration s).

(** The goroutine of [healthChecker]: what its [select] takes in each turn. *)
Inductive select_case := ctx_Done | ticker_C (answer : nat -> probe).

Definition healthCheckInterval : Duration := 5 * Second.

Fixpoint healthChecker (turns : list select_case) (rp : ReplicaPool) : ReplicaPool :=
  match turns with
  | [] => rp
  | ctx_Done :: _ => rp
  | ticker_C answer :: turns => healthChecker turns (checkReplicasHealth answer rp)
  end.

(** [Stats]; [pgxpool_Stat] is the snapshot pgx takes of a pool. *)
Record PoolStats := mkPoolStats {
  AcquireCount : Z; AcquireDuration : Duration; AcquiredConns : Z; CanceledAcquireCount : Z; ConstructingConns : Z;
  EmptyAcquireCount : Z; IdleConns : Z; MaxConns_ : Z; TotalConns : Z
}.
Record ReplicaStats := mkReplicaStats { Index : Z; Healthy : bool; Lag : Duration; rs_Pool : PoolStats }.
Record ReplicaPoolStats := mkReplicaPoolStats { rps_Primary : PoolStats; rps_Replicas : list ReplicaStats }.

Record pgxStat := mkPgxStat {
  stat_AcquireCount : Z; stat_AcquireDuration : Duration; stat_AcquiredConns : Z; stat_CanceledAcquireCount : Z;
  stat_ConstructingConns : Z; stat_EmptyAcquireCount : Z; stat_IdleConns : Z; stat_MaxConns : Z; stat_TotalConns : Z
}.

Definition poolStats (pgxpool_Stat : Pool -> pgxStat) (p : Pool) : PoolStats :=
  let s := pgxpool_Stat p in
  mkPoolStats (stat_AcquireCount s) (stat_AcquireDuration s) (stat_AcquiredConns s) (stat_CanceledAcquireCount s)
    (stat_ConstructingConns s) (stat_EmptyAcquireCount s) (stat_IdleConns s) (stat_MaxConns s) (stat_TotalConns s).

Definition ReplicaPool_Stats (pgxpool_Stat : Pool -> pgxStat) (rp : ReplicaPool) : ReplicaPoolStats :=
  mkReplicaPoolStats (poolStats pgxpool_Stat (primary rp))
    (imap (fun i r => mkReplicaStats (Z.of_nat i) (healthy r) (lag r) (poolStats pgxpool_Stat (pool r))) (replicas rp)).

(** ** Reading one's own writes *)

Record ReadAfterWrite := mkReadAfterWrite { raw_rp : ReplicaPool; writeTime : Time; consistencyWindow : Duration }.

Definition NewReadAfterWrite (rp : ReplicaPool) (window : Duration) : ReadAfterWrite :=
  mkReadAfterWrite rp zero_time window.

Definition MarkWrite (now : Time) (raw : ReadAfterWrite) : ReadAfterWrite :=
  mkReadAfterWrite (raw_rp raw) now (consistencyWindow raw).

Definition raw_Reader (now : Time) (raw : ReadAfterWrite) : option Pool * ReadAfterWrite :=
  if Since now (writeTime raw) <? consistencyWindow raw then (Some (primary (raw_rp raw)), raw)
  else
    let (p, rp) := Reader_ (raw_rp raw) in
    (p, mkReadAfterWrite rp (writeTime raw) (consistencyWindow raw)).

Definition raw_Writer (raw : ReadAfterWrite) : Pool := primary (raw_rp raw).
End Replicas.

(** ** The Database interface *)

(** What [Database] promises its clients: where writes and reads go. *)
Class DatabaseI `{Pgx} (D : Type) := {
  db_Writer : D -> Pool;
  db_Reader : D -> option Pool * D
}.

#[export] Instance Pool_Database `{Pgx} : DatabaseI Pool := { db_Writer := Writer; db_Reader p := (Some (Reader p), p) }.
#[export] Instance ReplicaPool_Database `{Pgx} : DatabaseI ReplicaPool := { db_Writer := Writer_; db_Reader := Reader_ }.

(** [NewDatabase] returns one of the two. *)
Definition NewDatabase `{Pgx} (cfg : Config) (replicaCfg : option ReplicaPoolConfig) : result error (Pool + ReplicaPool) :=
  match replicaCfg with
  | Some rc =>
      if (0 <? length (cfg_Replicas rc))%nat then let? rp := NewReplicaPool rc in Ok (inr rp)
      else let? p := New cfg in Ok (inl p)
  | None => let? p := New cfg in Ok (inl p)
  end.

(** ** Which replica is chosen *)

Section Choice.
Context `{Pgx}.

Lemma healthyReplicas_spec rp r :
  In r (healthyReplicas rp) <-> In r (replicas rp) /\ healthy r = true /\ lag r <= MaxReplicaLag (config rp).
Proof. unfold healthyReplicas, usable. rewrite filter_In, andb_true_iff, Z.leb_le. tauto. Qed.

Lemma least_lag_loop_spec least rs :
  In (least_lag_loop least rs) (least :: rs) /\ Forall (fun r => lag (least_lag_loop least rs) <= lag r) (least :: rs).
Proof.
  revert least. induction rs as [|r rs IH]; intros least; cbn [least_lag_loop]; [by repeat constructor|].
  destruct (IH (if lag r <? lag least then r else least)) as [Hin Hall].
  apply Forall_cons in Hall as [Hle Hall]. split.
  - destruct (lag r <? lag least), Hin as [<-|Hin]; simpl; auto.
  - destruct (Z.ltb_spec (lag r) (lag least)); repeat (apply Forall_cons; split); try done; lia.
Qed.

(** A counter that has not wrapped picks by its remainder. *)
Lemma pick_nonneg h idx : h <> [] -> 0 <= idx ->
  pick h idx = option_map pool (h !! Z.to_nat (idx mod Z.of_nat (length h))).
Proof.
  intros Hh Hi. assert (0 < Z.of_nat (length h)) by (destruct h; simpl; [done|lia]).
  unfold pick, index. rewrite Z.rem_mod_nonneg by lia.
  pose proof (Z.mod_pos_bound idx (Z.of_nat (length h)) ltac:(lia)). by rewrite (proj2 (Z.ltb_ge _ _)) by lia.
Qed.

Lemma pick_in h idx : h <> [] -> 0 <= idx -> exists r, In r h /\ pick h idx = Some (pool r).
Proof.
  intros Hh Hi. rewrite pick_nonneg by done. assert (0 < Z.of_nat (length h)) by (destruct h; simpl; [done|lia]).
  pose proof (Z.mod_pos_bound idx (Z.of_nat (length h)) ltac:(lia)).
  destruct (lookup_lt_is_Some_2 h (Z.to_nat (idx mod Z.of_nat (length h)))) as [r Hr]; [lia|].
  exists r. rewrite Hr. split; [|done]. by apply list_elem_of_lookup_2, list_elem_of_In in Hr.
Qed.

(** No read has wrapped the counter, or its multiple by 31, yet. *)
Definition counter_ok (rp : ReplicaPool) : Prop := 0 <= counter rp /\ (counter rp + 1) * 31 <= int64_max.

Lemma Reader_healthy rp : counter_ok rp -> healthyReplicas rp <> [] ->
  exists r rp', Reader_ rp = (Some (pool r), rp') /\ In r (healthyReplicas rp) /\
    (LoadBalancing (config rp) = "least-lag" -> Forall (fun r' => lag r <= lag r') (healthyReplicas rp)).
Proof.
  unfold counter_ok, int64_max. intros Hc Hh. unfold Reader_. rewrite (bool_decide_eq_false_2 _ Hh).
  assert (wrap64 (counter rp + 1) = counter rp + 1) as -> by (apply wrap64_id; unfold in_int64, int64_min, int64_max; lia).
  assert (wrap64 ((counter rp + 1) * 31) = (counter rp + 1) * 31) as ->
    by (apply wrap64_id; unfold in_int64, int64_min, int64_max; lia).
  case_bool_decide as Hr.
  { destruct (pick_in _ ((counter rp + 1) * 31) Hh) as (r & Hin & ->); [lia|]. rewrite Hr. by exists r, (set_counter (counter rp + 1) rp). }
  case_bool_decide as Hl.
  - destruct (healthyReplicas rp) as [|r0 rs]; [done|]. simpl. destruct (least_lag_loop_spec r0 rs) as [Hin Hall].
    by exists (least_lag_loop r0 rs), rp.
  - destruct (pick_in _ (counter rp + 1) Hh) as (r & Hin & ->); [lia|]. by exists r, (set_counter (counter rp + 1) rp).
Qed.

Lemma Reader_none rp : healthyReplicas rp = [] ->
  Reader_ rp = (Some (if FallbackToPrimary (config rp) then primary rp
                      else match replicas rp with r :: _ => pool r | [] => primary rp end), rp).
Proof.
  intros Hh. unfold Reader_. rewrite (bool_decide_eq_true_2 _ Hh). destruct (FallbackToPrimary _); [done|].
  by destruct (replicas rp).
Qed.

(** [Reader] changes nothing but the counter. *)
Lemma Reader_keeps rp : let rp' := (Reader_ rp).2 in
  primary rp' = primary rp /\ replicas rp' = replicas rp /\ config rp' = config rp.
Proof. unfold Reader_. repeat (case_match; simpl); done. Qed.

(** A replica whose answer lets it serve reads. *)
Definition fresh (max : Duration) (p : probe) : Prop :=
  ping p = None /\ match measured p with Ok l => l <= max | Fail _ => True end.

Lemma check_usable max p r : usable max (check_replica max p r) = true <-> fresh max p.
Proof.
  unfold usable, fresh, check_replica. destruct (ping p); simpl; [split; [done|by intros [? _]]|].
  destruct (measured p) as [l|]; simpl; rewrite Z.leb_le; intuition lia.
Qed.

Lemma checked_healthy answer rp r' :
  In r' (healthyReplicas (checkReplicasHealth answer rp)) <->
  exists i r, replicas rp !! i = Some r /\ fresh (MaxReplicaLag (config rp)) (answer i) /\
    r' = check_replica (MaxReplicaLag (config rp)) (answer i) r.
Proof.
  unfold healthyReplicas, checkReplicasHealth. cbn [replicas config set_replicas]. rewrite filter_In.
  rewrite <- list_elem_of_In, list_elem_of_lookup. split.
  - intros ((i & Hi) & Hu). rewrite list_lookup_imap in Hi. destruct (replicas rp !! i) as [r|] eqn:Er; [|done].
    injection Hi as <-. apply check_usable in Hu. by exists i, r.
  - intros (i & r & Hr & Hf & ->). split; [exists i; by rewrite list_lookup_imap, Hr|]. by apply check_usable.
Qed.

Lemma checked_pool max p r : pool (check_replica max p r) = pool r.
Proof. unfold check_replica. destruct (ping p), (measured p); done. Qed.

(** *** The health checker *)

(** The checker changes neither the nodes nor the settings. *)
Lemma healthChecker_keeps turns rp :
  let rp' := healthChecker turns rp in
  primary rp' = primary rp /\ config rp' = config rp /\ counter rp' = counter rp /\
  map pool (replicas rp') = map pool (replicas rp).
Proof.
  cbv zeta. revert rp. induction turns as [|[|answer] turns IH]; intros rp; [done|done|]. cbn [healthChecker].
  destruct (IH (checkReplicasHealth answer rp)) as (-> & -> & -> & ->). split_and!; [done..|].
  unfold checkReplicasHealth. cbn [replicas set_replicas]. apply list_eq. intros i.
  rewrite !list_lookup_fmap, list_lookup_imap. destruct (replicas rp !! i); [|done]. simpl. by rewrite checked_pool.
Qed.

(** Only the last check counts: the replicas that serve reads are those that
    answered it well, whatever happened before. *)
Lemma last_check_decides turns answer rp i r :
  Forall (fun t => t <> ctx_Done) turns -> replicas rp !! i = Some r ->
  (exists r', pool r' = pool r /\ replicas (healthChecker (turns ++ [ticker_C answer]) rp) !! i = Some r' /\
     (usable (MaxReplicaLag (config rp)) r' = true <-> fresh (MaxReplicaLag (config rp)) (answer i))).
Proof.
  intros Ht. revert rp r. induction Ht as [|[|a] turns Hd _ IH]; intros rp r Hr; [|done|].
  - cbn [app healthChecker]. unfold checkReplicasHealth. cbn [replicas set_replicas]. rewrite list_lookup_imap, Hr.
    eexists. split; [|split; [reflexivity|apply check_usable]]. apply checked_pool.
  - cbn [app healthChecker]. destruct (IH (checkReplicasHealth a rp) (check_replica (MaxReplicaLag (config rp)) (a i) r))
      as (r' & Hp & Hl & Hu).
    { unfold checkReplicasHealth. cbn [replicas set_replicas]. by rewrite list_lookup_imap, Hr. }
    exists r'. rewrite checked_pool in Hp. done.
Qed.

(** The checker ends with the context the pool was created with; what the
    replicas answer afterwards is never seen. *)
Lemma checks_end_with_context turns later rp : healthChecker (turns ++ ctx_Done :: later) rp = healthChecker turns rp.
Proof. revert rp. induction turns as [|[|a] turns IH]; intros rp; [done|done|]. apply IH. Qed.

(** The statistics list every replica in order with the health last seen. *)
Lemma Stats_replicas st rp i r : replicas rp !! i = Some r ->
  exists s, rps_Replicas (ReplicaPool_Stats st rp) !! i = Some s /\ Index s = Z.of_nat i /\ Healthy s = healthy r /\
    Lag s = lag r /\ MaxConns_ (rs_Pool s) = stat_MaxConns (st (pool r)).
Proof.
  intros Hr. unfold ReplicaPool_Stats. cbn [rps_Replicas]. rewrite list_lookup_imap, Hr. eexists. split; [reflexivity|]. by split_and!.
Qed.
End Choice.

(** ** Reading while a check is under way

    [Reader] takes the lock of a replica once to see whether it is usable and,
    for the least lag, once more to compare; the checker and other readers can
    move between.  [view k] is what the [k]-th of these lock sections of the call
    finds, so that a statement for every [view] covers every interleaving. *)

Section During.
Context `{Pgx}.

Definition status (r : replicaConn) : bool * Duration := (healthy r, lag r).

(** [healthyReplicas], whose sections are numbered from [k]. *)
Fixpoint snapshot (view : nat -> bool * Duration) (max : Duration) (k : nat) (rs : list replicaConn) : list replicaConn :=
  match rs with
  | [] => []
  | r :: rs =>
      let rest := snapshot view max (S k) rs in
      if (view k).1 && ((view k).2 <=? max) then r :: rest else rest
  end.

(** [leastLagReplica] after its first replica. *)
Fixpoint least_during (view : nat -> bool * Duration) (k : nat) (least : replicaConn) (leastLag : Duration) (rs : list replicaConn)
    : replicaConn :=
  match rs with
  | [] => least
  | r :: rs =>
      let rLag := (view k).2 in
      if rLag <? leastLag then least_during view (S k) r rLag rs else least_during view (S k) least leastLag rs
  end.

(** [Reader]; [idx] is what [atomic.AddInt64] returned to this call. *)
Definition Reader_during (view : nat -> bool * Duration) (idx : Z) (rp : ReplicaPool) : option Pool :=
  let n := length (replicas rp) in
  match snapshot view (MaxReplicaLag (config rp)) 0 (replicas rp) with
  | [] =>
      if FallbackToPrimary (config rp) then Some (primary rp)
      else match replicas rp with r :: _ => Some (pool r) | [] => Some (primary rp) end
  | (r :: rs) as h =>
      let strategy := LoadBalancing (config rp) in
      if bool_decide (strategy = "random") then pick h (wrap64 (idx * 31))
      else if bool_decide (strategy = "least-lag") then Some (pool (least_during view (S n) r (view n).2 rs))
      else pick h idx
  end.

Lemma snapshot_spec view max k rs r : In r (snapshot view max k rs) ->
  exists i, rs !! i = Some r /\ (view (k + i)%nat).1 = true /\ (view (k + i)%nat).2 <= max.
Proof.
  revert k. induction rs as [|x rs IH]; intros k; [done|]. cbn [snapshot]. destruct (_ && _) eqn:E.
  - intros [->|Hin].
    + exists 0%nat. rewrite Nat.add_0_r. apply andb_true_iff in E as [E1 E2%Z.leb_le]. done.
    + destruct (IH (S k) Hin) as (i & Hi & Hv). exists (S i). by rewrite Nat.add_succ_r.
  - intros Hin. destruct (IH (S k) Hin) as (i & Hi & Hv). exists (S i). by rewrite Nat.add_succ_r.
Qed.

Lemma snapshot_nil view max k rs : snapshot view max k rs = [] <->
  forall i, (i < length rs)%nat -> (view (k + i)%nat).1 && ((view (k + i)%nat).2 <=? max) = false.
Proof.
  revert k. induction rs as [|x rs IH]; intros k; [split; [simpl; lia|done]|]. cbn [snapshot length]. split.
  - destruct (_ && _) eqn:E; [done|]. intros Hn [|i] Hi; [by rewrite Nat.add_0_r|].
    rewrite <- Nat.add_succ_comm. apply (IH (S k)); [done|lia].
  - intros Hn. pose proof (Hn 0%nat) as Hz. rewrite Nat.add_0_r in Hz. rewrite Hz by lia. apply IH.
    intros i Hi. rewrite Nat.add_succ_comm. apply Hn. lia.
Qed.

Lemma least_during_in view k least l rs : In (least_during view k least l rs) (least :: rs).
Proof.
  revert k least l. induction rs as [|r rs IH]; intros k least l; cbn [least_during]; [by left|].
  destruct (_ <? l); [right; apply IH|]. destruct (IH (S k) least l); [by left|by do 2 right].
Qed.

(** A call that overlaps any number of checks returns a replica that it saw usable
    itself, and the fallback only if it saw none; it does not panic. *)
Lemma Reader_during_spec view idx rp : 0 <= idx -> idx * 31 <= int64_max ->
  exists p, Reader_during view idx rp = Some p /\
    ((exists i r, replicas rp !! i = Some r /\ p = pool r /\ (view i).1 = true /\ (view i).2 <= MaxReplicaLag (config rp)) \/
     ((forall i, (i < length (replicas rp))%nat -> (view i).1 && ((view i).2 <=? MaxReplicaLag (config rp)) = false) /\
      p = if FallbackToPrimary (config rp) then primary rp else match replicas rp with r :: _ => pool r | [] => primary rp end)).
Proof.
  intros Hi Hmax. unfold Reader_during. cbv zeta. destruct (snapshot view _ 0 (replicas rp)) as [|r rs] eqn:E.
  - exists (if FallbackToPrimary (config rp) then primary rp else match replicas rp with r :: _ => pool r | [] => primary rp end).
    split; [by destruct (FallbackToPrimary _), (replicas rp)|]. right. by split; [apply (snapshot_nil view _ 0)|].
  - assert (exists x, In x (r :: rs) /\ (if bool_decide (LoadBalancing (config rp) = "random") then pick (r :: rs) (wrap64 (idx * 31))
      else if bool_decide (LoadBalancing (config rp) = "least-lag")
           then Some (pool (least_during view (S (length (replicas rp))) r (view (length (replicas rp))).2 rs))
           else pick (r :: rs) idx) = Some (pool x)) as (x & Hx & ->).
    { case_bool_decide.
      - apply pick_in; [done|]. rewrite wrap64_id by (unfold in_int64, int64_min; lia). lia.
      - case_bool_decide; [eexists; split; [apply least_during_in|done]|]. apply pick_in; [done|lia]. }
    rewrite <- E in Hx. apply snapshot_spec in Hx as (i & Hr & Hv1 & Hv2). eexists. split; [done|]. left. by exists i, x.
Qed.

(** What a call sees when nothing moves. *)
Definition still (rp : ReplicaPool) (k : nat) : bool * Duration :=
  from_option status (false, 0) ((replicas rp ++ healthyReplicas rp) !! k).

Lemma snapshot_still view max k rs : (forall i r, rs !! i = Some r -> view (k + i)%nat = status r) ->
  snapshot view max k rs = List.filter (usable max) rs.
Proof.
  revert k. induction rs as [|r rs IH]; intros k Hv; [done|]. cbn [snapshot List.filter].
  pose proof (Hv 0%nat r eq_refl) as Hz. rewrite Nat.add_0_r in Hz. rewrite Hz. cbn [status fst snd]. rewrite IH.
  - reflexivity.
  - intros i r' Hi. rewrite Nat.add_succ_comm. by apply (Hv (S i)).
Qed.

Lemma least_still view k least rs : (forall i r, rs !! i = Some r -> view (k + i)%nat = status r) ->
  least_during view k least (lag least) rs = least_lag_loop least rs.
Proof.
  revert k least. induction rs as [|r rs IH]; intros k least Hv; [done|]. cbn [least_during least_lag_loop].
  pose proof (Hv 0%nat r eq_refl) as Hz. rewrite Nat.add_0_r in Hz. rewrite Hz. cbn [status fst snd].
  assert (forall i r', rs !! i = Some r' -> view (S k + i)%nat = status r') as Hs.
  { intros i r' Hi. rewrite Nat.add_succ_comm. by apply (Hv (S i)). }
  destruct (lag r <? lag least); by apply IH.
Qed.

(** Without interference the call is the sequential [Reader_]. *)
Lemma Reader_during_still rp : Reader_during (still rp) (wrap64 (counter rp + 1)) rp = (Reader_ rp).1.
Proof.
  unfold Reader_during, Reader_. rewrite (snapshot_still _ _ 0).
  2:{ intros i r Hi. unfold still. by rewrite Nat.add_0_l, lookup_app_l, Hi by (by eapply lookup_lt_Some). }
  fold (healthyReplicas rp). destruct (healthyReplicas rp) as [|r rs] eqn:E.
  - rewrite (bool_decide_eq_true_2 ([] = [])) by done. by destruct (FallbackToPrimary _), (replicas rp).
  - rewrite (bool_decide_eq_false_2 (r :: rs = [])) by done. case_bool_decide; [done|]. case_bool_decide; [|done].
    cbn [fst leastLagReplica option_map]. do 2 f_equal.
    assert (forall i x, (r :: rs) !! i = Some x -> still rp (length (replicas rp) + i)%nat = status x) as Hv.
    { intros i x Hx. unfold still. rewrite E, lookup_app_r by lia. by replace (_ + i - _)%nat with i by lia; rewrite Hx. }
    pose proof (Hv 0%nat r eq_refl) as Hz. rewrite Nat.add_0_r in Hz. rewrite Hz. apply least_still.
    intros i x Hx. rewrite Nat.add_succ_comm. by apply (Hv (S i)).
Qed.
End During.

(** C35: where reads go after a health check, whatever the strategy.  If some
    replica answered the ping and its lag is within the limit (or could not be
    measured), the read goes to such a replica, never to a stale or dead one and
    never to the primary; with the least-lag strategy to one with the least lag.
    If there is none, it goes to the primary, or, without fallback, to the first
    replica.  A read that overlaps checks, however they interleave, goes to a
    replica it saw usable itself, and to the fallback only if it saw none, and is
    the sequential read when nothing moves.  [Reader] does not panic before the
    counter overflows, and a reader of one's own writes uses the primary for the
    whole consistency window. *)
Theorem reads_go_to_fresh_replicas `{Pgx} rp answer :
  counter_ok rp ->
  let rp1 := checkReplicasHealth answer rp in
  let max := MaxReplicaLag (config rp) in
  ((exists i r, replicas rp !! i = Some r /\ fresh max (answer i)) ->
   exists i r, replicas rp !! i = Some r /\ fresh max (answer i) /\ (Reader_ rp1).1 = Some (pool r) /\
     (LoadBalancing (config rp) = "least-lag" -> forall j r', replicas rp !! j = Some r' -> fresh max (answer j) ->
        lag (check_replica max (answer i) r) <= lag (check_replica max (answer j) r'))) /\
  ((forall i r, replicas rp !! i = Some r -> ~ fresh max (answer i)) ->
   (Reader_ rp1).1 = Some (if FallbackToPrimary (config rp) then primary rp
                           else match replicas rp with r :: _ => pool r | [] => primary rp end)) /\
  (forall view idx, 0 <= idx -> idx * 31 <= int64_max -> exists p, Reader_during view idx rp = Some p /\
     ((exists i r, replicas rp !! i = Some r /\ p = pool r /\ (view i).1 = true /\ (view i).2 <= max) \/
      ((forall i, (i < length (replicas rp))%nat -> (view i).1 && ((view i).2 <=? max) = false) /\
       p = if FallbackToPrimary (config rp) then primary rp
           else match replicas rp with r :: _ => pool r | [] => primary rp end))) /\
  Reader_during (still rp) (wrap64 (counter rp + 1)) rp = (Reader_ rp).1 /\
  (forall raw now t, now <= t < now + consistencyWindow raw -> in_int64 (t - now) ->
   (raw_Reader t (MarkWrite now raw)).1 = Some (primary (raw_rp raw))).
Proof.
  intros Hc rp1 max. split_and!.
  - intros (i0 & r0 & Hr0 & Hf0).
    assert (healthyReplicas rp1 <> []) as Hne.
    { intros E. assert (In (check_replica max (answer i0) r0) (healthyReplicas rp1)) as Hin
        by (apply checked_healthy; eauto). by rewrite E in Hin. }
    destruct (Reader_healthy rp1) as (r' & rp' & -> & Hin & Hleast); [done..|].
    apply checked_healthy in Hin as (i & r & Hr & Hf & ->). exists i, r. rewrite checked_pool. split_and!; [done..|].
    intros Hs j rj Hj Hfj. specialize (Hleast Hs). rewrite Forall_forall in Hleast.
    apply Hleast, list_elem_of_In, checked_healthy. eauto.
  - intros Hnone. assert (healthyReplicas rp1 = []) as E.
    { destruct (healthyReplicas rp1) as [|r' l] eqn:E; [done|]. exfalso.
      assert (In r' (healthyReplicas rp1)) as Hin by (rewrite E; by left).
      apply checked_healthy in Hin as (i & r & Hr & Hf & _). by apply (Hnone i r). }
    rewrite (Reader_none rp1 E). cbn [fst]. subst rp1. unfold checkReplicasHealth. cbn [config primary replicas set_replicas].
    destruct (FallbackToPrimary _); [done|]. destruct (replicas rp); [done|]. simpl. by rewrite checked_pool.
  - intros view idx. apply Reader_during_spec.
  - apply Reader_during_still.
  - intros raw now t Ht Hi. unfold raw_Reader, MarkWrite. cbn [writeTime consistencyWindow raw_rp].
    rewrite Since_small by done. by rewrite (proj2 (Z.ltb_lt _ _)) by lia.
Qed.

(** ** Round robin is fair *)

Section RoundRobin.
Context `{Pgx}.

(** The pools of [n] successive reads. *)
Fixpoint reads (n : nat) (rp : ReplicaPool) : list (option Pool) :=
  match n with
  | O => []
  | S n => let (p, rp) := Reader_ rp in p :: reads n rp
  end.

Definition round_robin (rp : ReplicaPool) : Prop :=
  LoadBalancing (config rp) <> "random" /\ LoadBalancing (config rp) <> "least-lag".

Lemma reads_picks n rp h : healthyReplicas rp = h -> h <> [] -> round_robin rp ->
  0 <= counter rp -> counter rp + Z.of_nat n <= int64_max ->
  reads n rp = List.map (fun i => pick h (counter rp + 1 + Z.of_nat i)) (seq 0 n).
Proof.
  revert rp. induction n as [|n IH]; intros rp Hh Hne [Hr Hl] Hc0 Hc; [done|]. cbn [reads].
  unfold Reader_. rewrite Hh, (bool_decide_eq_false_2 _ Hne), (bool_decide_eq_false_2 _ Hr), (bool_decide_eq_false_2 _ Hl).
  rewrite wrap64_id by (unfold in_int64, int64_min; lia).
  rewrite (IH (set_counter (counter rp + 1) rp)); [|done|done|done|simpl; lia|simpl; lia].
  simpl. f_equal; [f_equal; lia|]. rewrite <- seq_shift, map_map. apply map_ext. intros i. f_equal. simpl. lia.
Qed.

Lemma map_lookup_seq {A} (l : list A) : List.map (fun i => l !! i) (seq 0 (length l)) = List.map Some l.
Proof.
  induction l as [|x l IH]; [done|]. simpl. f_equal. rewrite <- seq_shift, map_map. apply IH.
Qed.

Lemma rotate_Permutation {A} n (l : list A) : Permutation (rotate n l) l.
Proof. unfold rotate. rewrite Permutation_app_comm. by rewrite take_drop. Qed.

(** One round of picks visits every replica once. *)
Lemma one_round h c : h <> [] -> 0 <= c ->
  Permutation (List.map (fun i => pick h (c + Z.of_nat i)) (seq 0 (length h))) (List.map (fun r => Some (pool r)) h).
Proof.
  intros Hne Hc.
  assert (List.map (fun i => pick h (c + Z.of_nat i)) (seq 0 (length h)) =
    List.map (option_map pool) (List.map (fun i => rotate (Z.to_nat c) h !! i) (seq 0 (length (rotate (Z.to_nat c) h))))) as ->.
  { rewrite map_map, length_rotate. apply map_ext_in. intros i Hi%in_seq. rewrite pick_nonneg by (done || lia).
    rewrite lookup_rotate_r by lia. unfold rotate_nat_add. do 3 f_equal. f_equal. lia. }
  rewrite map_lookup_seq, map_map. apply Permutation_map, rotate_Permutation.
Qed.

Lemma seq_rounds k n : seq 0 (S k * n) = seq 0 n ++ List.map (fun i => (n + i)%nat) (seq 0 (k * n)).
Proof.
  simpl. rewrite seq_app. f_equal. simpl. clear. generalize (k * n)%nat as m. intros m.
  rewrite <- (Nat.add_0_r n) at 1. generalize 0%nat as s. induction m as [|m IH]; intros s; [done|].
  simpl. f_equal. rewrite <- IH. f_equal. lia.
Qed.
End RoundRobin.

(** C37: round robin is fair.  While the set of healthy replicas does not
    change, any [k] times as many reads as there are healthy replicas go to each
    of them exactly [k] times, wherever the counter stands, as long as it does
    not overflow. *)
Theorem round_robin_fair `{Pgx} rp k :
  let h := healthyReplicas rp in
  h <> [] -> round_robin rp -> 0 <= counter rp -> counter rp + Z.of_nat (k * length h) <= int64_max ->
  Permutation (reads (k * length h) rp) (concat (repeat (List.map (fun r => Some (pool r)) h) k)).
Proof.
  intros h Hne Hrr Hc0 Hc. rewrite (reads_picks _ rp h) by done. clear Hrr Hc. clearbody h.
  revert Hc0. generalize (counter rp) as c. induction k as [|k IH]; intros c Hc; [done|].
  rewrite seq_rounds, map_app, map_map. cbn [repeat concat]. apply Permutation_app.
  - apply one_round; [done|lia].
  - rewrite <- (IH (c + Z.of_nat (length h))) by lia. erewrite map_ext; [reflexivity|].
    intros i. cbv beta. f_equal. lia.
Qed.

(** ** Examples *)

#[export] Instance toy_Pgx : Pgx := {
  handle := string;
  pgxpool_ParseConfig s := Ok (mkPoolConfig s 0 0 0 0 false);
  pgxpool_NewWithConfig c := Ok (pc_ConnString c);
  pgxpool_Ping _ := None
}.

Definition node (host : string) : Config := mkConfig host 5432 "cg" "" "orders" "require" 25 5 Hour (30 * Minute).
Definition sample_cfg (strategy : string) (n : nat) : ReplicaPoolConfig :=
  mkReplicaPoolConfig (node "primary") (List.map (fun i => node ("replica" +:+ pretty i)) (seq 0 n)) strategy (5 * Second) true.
Definition sample_pool (strategy : string) (n : nat) : ReplicaPool :=
  match NewReplicaPool (sample_cfg strategy n) with Ok rp => rp | Fail _ => mkReplicaPool (mkPool "" "") [] (sample_cfg strategy n) 0 end.

(** Replica 0 is 8 s behind, replica 1 is down, replica 2 is 1 s behind. *)
Definition sample_answer (i : nat) : probe :=
  match i with
  | 0%nat => mkProbe None (Ok (8 * Second))
  | 1%nat => mkProbe (Some (GoError.New "connection refused")) (Fail (GoError.New "down"))
  | _ => mkProbe None (Ok Second)
  end.

Lemma reads_go_to_fresh_replicas_witness :
  option_map dbName (Reader_ (checkReplicasHealth sample_answer (sample_pool "least-lag" 3))).1 =
  Some "orders@replica2:5432".
Proof.
  destruct (reads_go_to_fresh_replicas (sample_pool "least-lag" 3) sample_answer) as (Hf & _ & _).
  { unfold counter_ok. vm_compute. split; discriminate. }
  destruct Hf as (i & r & Hr & Hf & -> & _).
  { exists 2%nat. eexists. split; [vm_compute; reflexivity|]. split; [reflexivity|]. vm_compute. discriminate. }
  destruct i as [|[|[|i]]]; simpl in Hr; [..|discriminate Hr].
  - destruct Hf as [_ Hf]. vm_compute in Hf. contradiction Hf. reflexivity.
  - destruct Hf as [Hf _]. vm_compute in Hf. discriminate Hf.
  - injection Hr as <-. vm_compute. reflexivity.
Defined.

Lemma round_robin_fair_witness :
  let rp := sample_pool "round-robin" 3 in
  Permutation (reads 6 rp) (concat (repeat (List.map (fun r => Some (pool r)) (healthyReplicas rp)) 2)).
Proof.
  intros rp. apply (round_robin_fair rp 2); [vm_compute; discriminate|split; vm_compute; discriminate|
    vm_compute; discriminate|vm_compute; discriminate].
Defined.

(** The stride of the pseudo-random strategy is 31: with 31 healthy replicas
    every read goes to the first. *)
Example random_stride :
  let rp := sample_pool "random" 31 in
  forallb (fun p => bool_decide (option_map dbName p = Some "orders@replica0:5432")) (reads 100 rp) = true.
Proof. vm_compute. reflexivity. Qed.
