(* ===== verification/PgMigrate.v ===== *)
(** * postgres/migrate.go: schema migrations with recovery of a dirty state

    golang-migrate is the class [Migrator], an abstract database with the
    operations the package calls, and what its documentation says of each as
    laws.  A run records the calls it makes. *)

From S2P Require Import Prelude GoError GoString Postgres.

Open Scope Z_scope.

Definition ErrNoChange : string := "migrate.ErrNoChange".
Definition ErrNilVersion : string := "migrate.ErrNilVersion".

Class Migrator := {
  mdb : Type;
  (** the versions of the source directory *)
  files : list Z;
  (** the version and whether it is dirty; ErrNilVersion before the first *)
  m_Version : mdb -> result error (Z * bool);
  m_Force : Z -> mdb -> Error * mdb;
  m_Steps : Z -> mdb -> Error * mdb;
  m_Up : mdb -> Error * mdb
}.

Definition no_change (e : Error) : Prop := match e with Some e => Is e ErrNoChange = true | None => False end.

(** The schema is at some version, or before the first, and not dirty. *)
Definition clean `{Migrator} (d : mdb) : Prop :=
  match m_Version d with Ok (_, dirty) => dirty = false | Fail e => Is e ErrNilVersion = true end.

(** The migrations still to be applied. *)
Definition unapplied `{Migrator} (d : mdb) : list Z :=
  match m_Version d with Ok (v, _) => List.filter (fun f => v <? f) files | Fail _ => files end.

(** "Force sets a migration version.  It resets the dirty state to false."  Steps
    and Up refuse a dirty database (ErrDirty) and leave a clean one clean when
    they succeed; Up then has applied all up migrations; ErrNoChange says that
    there was nothing to do. *)
Class MigratorLaws `{Migrator} := {
  Force_ok v d d' : m_Force v d = (None, d') -> m_Version d' = Ok (v, false);
  Steps_ok n d d' : m_Steps n d = (None, d') -> clean d -> clean d';
  Steps_no_change n d e d' : m_Steps n d = (e, d') -> no_change e -> d' = d;
  Up_ok d d' : m_Up d = (None, d') -> clean d -> clean d' /\ unapplied d' = [];
  Up_no_change d e d' : m_Up d = (e, d') -> no_change e -> d' = d /\ unapplied d = []
}.

Inductive call := CVersion | CForce (v : Z) | CSteps (n : Z) | CUp.

(** What surrounds a run: the absolute path, whether the migrator could be made,
    and whether the context is done at each of the two checks. *)
Record MigrateEnv := mkMigrateEnv {
  abs_path : result error string;
  migrate_New : string -> string -> Error;
  done_first : Error;
  done_second : Error
}.

(** The deadline of the context the run uses. *)
Definition migration_deadline (now : Time) (deadline : option Time) : Time :=
  match deadline with Some d => d | None => now + 30 * Second end.

Section Run.
Context `{Migrator}.

Abbreviation outcome := (Error * mdb * list call)%type (only parsing).

(** From the second check of the context on. *)
Definition apply_migrations (E : MigrateEnv) (d : mdb) (calls : list call) : outcome :=
  match done_second E with
  | Some e => (Some (Wrapf "migration cancelled" e), d, calls)
  | None =>
      match m_Up d with
      | (None, d) => (None, d, calls ++ [CUp])
      | (Some e, d) =>
          if Is e ErrNoChange then (None, d, calls ++ [CUp])
          else (Some (Wrapf "apply migrations" e), d, calls ++ [CUp])
      end
  end.

(** Recovery of a dirty database at [version]. *)
Definition recover_dirty (E : MigrateEnv) (version : Z) (d : mdb) : outcome :=
  let forced := wrap64 version in
  match m_Force forced d with
  | (Some e, d) => (Some (Wrapf "force migration version" e), d, [CVersion; CForce forced])
  | (None, d) =>
      if 0 <? version then
        match m_Steps (-1) d with
        | (Some e, d) =>
            if negb (Is e ErrNoChange) then
              (Some (Wrapf ("rollback dirty migration v" +:+ Itoa version) e), d, [CVersion; CForce forced; CSteps (-1)])
            else apply_migrations E d [CVersion; CForce forced; CSteps (-1)]
        | (None, d) => apply_migrations E d [CVersion; CForce forced; CSteps (-1)]
        end
      else apply_migrations E d [CVersion; CForce forced]
  end.

Definition RunMigrations (E : MigrateEnv) (cfg : Config) (d : mdb) : outcome :=
  match abs_path E with
  | Fail e => (Some (Wrapf "resolve migrations path" e), d, [])
  | Ok absPath =>
      match migrate_New E ("file://" +:+ absPath) (DSN cfg) with
      | Some e => (Some (Wrapf "init migrator" e), d, [])
      | None =>
          match done_first E with
          | Some e => (Some (Wrapf "migration cancelled" e), d, [])
          | None =>
              match m_Version d with
              | Ok (version, true) => recover_dirty E version d
              | Ok (_, false) => apply_migrations E d [CVersion]
              | Fail e =>
                  if negb (Is e ErrNilVersion) then (Some (Wrapf "read migration version" e), d, [CVersion])
                  else apply_migrations E d [CVersion]
              end
          end
      end
  end.

(** ** The specification *)

(** One call on its own, and calls one after the other. *)
Definition perform (c : call) (d : mdb) : Error * mdb :=
  match c with
  | CVersion => (match m_Version d with Ok _ => None | Fail e => Some e end, d)
  | CForce v => m_Force v d
  | CSteps n => m_Steps n d
  | CUp => m_Up d
  end.

Fixpoint replay (calls : list call) (d : mdb) : list Error * mdb :=
  match calls with
  | [] => ([], d)
  | c :: calls =>
      let (o, d) := perform c d in
      let (os, d) := replay calls d in
      (o :: os, d)
  end.

(** The answers after which a run goes on. *)
Definition fine (c : call) (o : Error) : Prop :=
  match o with
  | None => True
  | Some e =>
      match c with
      | CVersion => Is e ErrNilVersion = true
      | CForce _ => False
      | CSteps _ | CUp => Is e ErrNoChange = true
      end
  end.

(** How a failing call is reported, for a database found at a version. *)
Definition step_name (version : Z) (c : call) : string :=
  match c with
  | CVersion => "read migration version"
  | CForce _ => "force migration version"
  | CSteps _ => "rollback dirty migration v" +:+ Itoa version
  | CUp => "apply migrations"
  end.

Definition found_version (d : mdb) : Z := match m_Version d with Ok (v, _) => v | Fail _ => 0 end.

(** The calls a database asks for. *)
Definition full_run (d : mdb) : list call :=
  CVersion ::
  match m_Version d with
  | Ok (v, true) => CForce (wrap64 v) :: (if 0 <? v then [CSteps (-1)] else [])
  | _ => []
  end ++ [CUp].

(** What goes wrong before any call. *)
Definition setup_error (E : MigrateEnv) (cfg : Config) : Error :=
  match abs_path E with
  | Fail e => Some (Wrapf "resolve migrations path" e)
  | Ok p =>
      match migrate_New E ("file://" +:+ p) (DSN cfg) with
      | Some e => Some (Wrapf "init migrator" e)
      | None => option_map (Wrapf "migration cancelled") (done_first E)
      end
  end.

(** A run of [calls] from [d] that returned [r]: complete, with every call fine;
    or cancelled before the migrations, every call fine so far; or stopped at
    its last call, the only one that failed, which the error names. *)
Definition faithful_run (E : MigrateEnv) (d : mdb) (r : Error) (calls : list call) : Prop :=
  let outs := (replay calls d).1 in
  match r with
  | None => calls = full_run d /\ Forall2 fine calls outs
  | Some err =>
      (exists e, done_second E = Some e /\ err = Wrapf "migration cancelled" e /\
         calls ++ [CUp] = full_run d /\ Forall2 fine calls outs) \/
      (exists before c e, calls = before ++ [c] /\ calls `prefix_of` full_run d /\
         Forall2 fine before (replay before d).1 /\ (perform c (replay before d).2).1 = Some e /\ ~ fine c (Some e) /\
         err = Wrapf (step_name (found_version d) c) e)
  end.

(** ** The run meets it *)

Lemma replay_snoc calls c d :
  replay (calls ++ [c]) d =
    ((replay calls d).1 ++ [(perform c (replay calls d).2).1], (perform c (replay calls d).2).2).
Proof.
  revert d. induction calls as [|x calls IH]; intros d; cbn.
  - by destruct (perform c d).
  - destruct (perform x d) as [o d1]. rewrite IH. by destruct (replay calls d1).
Qed.

(** A failing call after fine ones. *)
Lemma stopped_at E d before c e d' :
  Forall2 fine before (replay before d).1 -> perform c (replay before d).2 = (Some e, d') -> ~ fine c (Some e) ->
  before ++ [c] `prefix_of` full_run d ->
  faithful_run E d (Some (Wrapf (step_name (found_version d) c) e)) (before ++ [c]) /\
  d' = (replay (before ++ [c]) d).2.
Proof.
  intros Hf Hp Hn Hpre. split; [|rewrite replay_snoc; by rewrite Hp].
  right. exists before, c, e. rewrite Hp. by split_and!.
Qed.

(** The part after the recovery, when all calls so far were fine. *)
Lemma apply_migrations_spec E d calls :
  calls ++ [CUp] = full_run d -> Forall2 fine calls (replay calls d).1 ->
  let '(r, d', made) := apply_migrations E (replay calls d).2 calls in
  faithful_run E d r made /\ d' = (replay made d).2.
Proof.
  intros Hfull Hf. unfold apply_migrations. destruct (done_second E) as [e|] eqn:Ed.
  { split; [|done]. left. exists e. by split_and!. }
  assert (forall d', perform CUp (replay calls d).2 = d' ->
    replay (calls ++ [CUp]) d = ((replay calls d).1 ++ [d'.1], d'.2)) as Hsnoc by (intros d' <-; apply replay_snoc).
  destruct (m_Up (replay calls d).2) as [[e|] d'] eqn:Eu.
  - destruct (Is e ErrNoChange) eqn:Ei.
    + unfold faithful_run. rewrite (Hsnoc _ Eu). split; [|done]. split; [done|]. apply Forall2_app; [done|]. by repeat constructor.
    + apply (stopped_at E d calls CUp e d'); [done|done|cbn; congruence|by rewrite Hfull].
  - unfold faithful_run. rewrite (Hsnoc _ Eu). split; [|done]. split; [done|]. apply Forall2_app; [done|]. by repeat constructor.
Qed.

Lemma recover_dirty_spec E d v : m_Version d = Ok (v, true) ->
  let '(r, d', made) := recover_dirty E v d in
  faithful_run E d r made /\ d' = (replay made d).2.
Proof.
  intros Hv. unfold recover_dirty.
  assert (full_run d = CVersion :: CForce (wrap64 v) :: (if 0 <? v then [CSteps (-1)] else []) ++ [CUp]) as Hfull
    by (unfold full_run; by rewrite Hv).
  assert (found_version d = v) as Hfv by (unfold found_version; by rewrite Hv).
  assert (replay [CVersion] d = ([None], d)) as H1 by (cbn; by rewrite Hv).
  destruct (m_Force (wrap64 v) d) as [[e|] d1] eqn:Ef.
  { apply (stopped_at E d [CVersion] (CForce (wrap64 v)) e d1); rewrite ?H1; [by repeat constructor|done|by intros []|].
    rewrite Hfull. do 2 apply prefix_cons. apply prefix_nil. }
  assert (replay [CVersion; CForce (wrap64 v)] d = ([None; None], d1)) as H2 by (cbn; by rewrite Hv, Ef).
  assert (Forall2 fine [CVersion; CForce (wrap64 v)] [None; None]) as Hfine by (by repeat constructor).
  destruct (0 <? v).
  - destruct (m_Steps (-1) d1) as [[e|] d2] eqn:Es.
    + destruct (Is e ErrNoChange) eqn:Ei; cbn [negb].
      * assert (replay [CVersion; CForce (wrap64 v); CSteps (-1)] d = ([None; None; Some e], d2)) as H3
          by (cbn; by rewrite Hv, Ef, Es).
        pose proof (apply_migrations_spec E d [CVersion; CForce (wrap64 v); CSteps (-1)]) as Ha.
        rewrite H3 in Ha. apply Ha; [by rewrite Hfull|]. by repeat constructor.
      * pose proof (stopped_at E d [CVersion; CForce (wrap64 v)] (CSteps (-1)) e d2) as Hst.
        rewrite Hfv, H2 in Hst. apply Hst; [done|done|cbn; congruence|].
        rewrite Hfull. do 3 apply prefix_cons. apply prefix_nil.
    + assert (replay [CVersion; CForce (wrap64 v); CSteps (-1)] d = ([None; None; None], d2)) as H3
        by (cbn; by rewrite Hv, Ef, Es).
      pose proof (apply_migrations_spec E d [CVersion; CForce (wrap64 v); CSteps (-1)]) as Ha.
      rewrite H3 in Ha. apply Ha; [by rewrite Hfull|]. by repeat constructor.
  - pose proof (apply_migrations_spec E d [CVersion; CForce (wrap64 v)]) as Ha.
    rewrite H2 in Ha. apply Ha; [by rewrite Hfull|done].
Qed.

Lemma RunMigrations_spec E cfg d : setup_error E cfg = None ->
  let '(r, d', made) := RunMigrations E cfg d in
  faithful_run E d r made /\ d' = (replay made d).2.
Proof.
  unfold setup_error, RunMigrations. destruct (abs_path E) as [p|]; [|done].
  destruct (migrate_New E _ _); [done|]. destruct (done_first E); [done|]. intros _.
  pose proof (recover_dirty_spec E d) as Hr. pose proof (apply_migrations_spec E d [CVersion]) as Ha.
  pose proof (stopped_at E d [] CVersion) as Hs.
  unfold full_run in *. cbn [replay perform fst snd app] in *.
  destruct (m_Version d) as [[v [|]]|e] eqn:Ev; [by apply Hr|apply Ha; [done|by repeat constructor]|].
  destruct (Is e ErrNilVersion) eqn:Ei; cbn [negb]; [apply Ha; [done|by repeat constructor]|].
  apply (Hs e d); [constructor|done|cbn; congruence|]. apply prefix_cons, prefix_nil.
Qed.

(** What a complete run leaves: Up ran on a clean database. *)
Lemma complete_run_clean `{!MigratorLaws} d outs d' :
  replay (full_run d) d = (outs, d') -> Forall2 fine (full_run d) outs -> clean d' /\ unapplied d' = [].
Proof.
  intros Hr Hf.
  assert (forall d1 o, clean d1 -> perform CUp d1 = (o, d') -> fine CUp o -> clean d' /\ unapplied d' = []) as Hup.
  { intros d1 [e|] Hc Hp He; [|by eapply Up_ok]. by destruct (Up_no_change _ _ _ Hp He) as [-> ?]. }
  unfold full_run in *. cbn [replay perform] in Hr.
  destruct (m_Version d) as [[v [|]]|e] eqn:Ev; cbn [app replay] in *.
  - destruct (perform (CForce (wrap64 v)) d) as [o1 d1] eqn:E1. cbn [perform] in E1.
    destruct (0 <? v); cbn [app replay] in *.
    + destruct (perform (CSteps (-1)) d1) as [o2 d2] eqn:E2. destruct (perform CUp d2) as [o3 d3] eqn:E3.
      injection Hr as <- <-. inversion_clear Hf as [|? ? ? ? _ Hf1]. inversion_clear Hf1 as [|? ? ? ? F1 Hf2].
      inversion_clear Hf2 as [|? ? ? ? F2 Hf3]. inversion_clear Hf3 as [|? ? ? ? F3 _].
      destruct o1 as [e1|]; [done|]. apply (Hup d2 o3); [|done|done].
      assert (clean d1) as Hc1 by (unfold clean; by rewrite (Force_ok _ _ _ E1)).
      destruct o2 as [e2|]; [by rewrite (Steps_no_change _ _ _ _ E2 F2)|by eapply Steps_ok].
    + destruct (perform CUp d1) as [o3 d3] eqn:E3. injection Hr as <- <-.
      inversion_clear Hf as [|? ? ? ? _ Hf1]. inversion_clear Hf1 as [|? ? ? ? F1 Hf2]. inversion_clear Hf2 as [|? ? ? ? F3 _].
      destruct o1 as [e1|]; [done|]. apply (Hup d1 o3); [|done|done]. unfold clean. by rewrite (Force_ok _ _ _ E1).
  - destruct (perform CUp d) as [o3 d3] eqn:E3. injection Hr as <- <-.
    inversion_clear Hf as [|? ? ? ? _ Hf1]. inversion_clear Hf1 as [|? ? ? ? F3 _].
    apply (Hup d o3); [|done|done]. unfold clean. by rewrite Ev.
  - destruct (perform CUp d) as [o3 d3] eqn:E3. injection Hr as <- <-.
    inversion_clear Hf as [|? ? ? ? F0 Hf1]. inversion_clear Hf1 as [|? ? ? ? F3 _].
    apply (Hup d o3); [|done|done]. unfold clean. by rewrite Ev.
Qed.
End Run.

(** C36: what running migrations does and achieves.  When the path, the migrator
    or the context fails first, that is reported and nothing is called.
    Otherwise the database ends where the calls made take it, and the calls are
    a prefix of the sequence it asks for: read the version; if it is dirty, force
    that version and, unless it is 0, step back once; then migrate up.  The run
    stops at the first call that fails (a missing version and "no change" aside):
    every call before it was fine, none follows it, and the error is that of the
    call under its step's name.  Or it stops, reported as cancelled, before
    migrating up.  A nil result means that all calls were made and fine; then the
    schema is clean and no migration of the source is left to apply. *)
Theorem migrations_converge `{MigratorLaws} E cfg d :
  let '(r, d', calls) := RunMigrations E cfg d in
  match setup_error E cfg with
  | Some e => r = Some e /\ d' = d /\ calls = []
  | None =>
      faithful_run E d r calls /\ d' = (replay calls d).2 /\
      (r = None -> clean d' /\ unapplied d' = [])
  end.
Proof.
  pose proof (RunMigrations_spec E cfg d) as Hs.
  destruct (setup_error E cfg) as [e|] eqn:Es.
  { unfold setup_error, RunMigrations in *. destruct (abs_path E) as [p|]; [|by injection Es as <-].
    destruct (migrate_New E _ _); [by injection Es as <-|]. destruct (done_first E); [by injection Es as <-|done]. }
  destruct (RunMigrations E cfg d) as [[r d'] calls]. destruct (Hs eq_refl) as [Hf Hd].
  split_and!; [done|done|]. intros ->. destruct Hf as [-> Hf]. subst d'.
  apply (complete_run_clean d (replay (full_run d) d).1); [by destruct (replay _ _)|done].
Qed.

(** ** An instance: three migrations *)

(** The version (none before the first migration) and the dirty flag. *)
#[export] Instance toy_Migrator : Migrator := {
  mdb := option Z * bool;
  files := [1; 2; 3];
  m_Version d := match d.1 with Some v => Ok (v, d.2) | None => Fail (Err ErrNilVersion "no migration" []) end;
  m_Force v d := (None, (Some v, false));
  m_Steps n d := if d.2 then (Some (GoError.New "Dirty database version"), d)
                 else match d.1 with
                      | Some v => (None, (if v + n <=? 0 then None else Some (v + n), false))
                      | None => (Some (Err ErrNoChange "no change" []), d)
                      end;
  m_Up d := if d.2 then (Some (GoError.New "Dirty database version"), d)
            else match d.1 with
                 | Some v => if 3 <=? v then (Some (Err ErrNoChange "no change" []), d) else (None, (Some 3, false))
                 | None => (None, (Some 3, false))
                 end
}.

#[export] Instance toy_MigratorLaws : MigratorLaws.
Proof.
  split; unfold clean, unapplied.
  - intros v d d' [= <-]. done.
  - intros n [[v|] []] d'; cbn; try done. intros [= <-] _. by destruct (v + n <=? 0).
  - intros n [[v|] []] e d'; cbn; intros [= <- <-]; done.
  - intros [[v|] []] d'; cbn; try done; [destruct (3 <=? v); [done|]|]; intros [= <-] _; done.
  - intros [[v|] []] e d'; cbn; try (intros [= <- <-]; done).
    destruct (Z.leb_spec 3 v); intros [= <- <-]; [|done]. intros _. split; [done|].
    rewrite !(proj2 (Z.ltb_ge _ _)) by lia. done.
Qed.

Definition sample_migrate_env : MigrateEnv := mkMigrateEnv (Ok "/srv/migrations") (fun _ _ => None) None None.
Definition sample_migrate_cfg : Config := mkConfig "db" 5432 "cg" "" "orders" "require" 25 5 Hour Hour.

Lemma migrations_converge_witness :
  let d : mdb := (Some 2, true) in
  let '(r, d', calls) := RunMigrations sample_migrate_env sample_migrate_cfg d in
  r = None /\ clean d' /\ unapplied d' = [] /\ calls = [CVersion; CForce 2; CSteps (-1); CUp].
Proof.
  intros d. pose proof (migrations_converge sample_migrate_env sample_migrate_cfg d) as H.
  destruct (RunMigrations sample_migrate_env sample_migrate_cfg d) as [[r d'] calls] eqn:E.
  assert (r = None) as -> by (vm_compute in E; by injection E). cbn in H. destruct H as ([-> _] & _ & H).
  destruct (H eq_refl) as [Hc Hp]. split_and!; [reflexivity|exact Hc|exact Hp|reflexivity].
Defined.
