(* ===== verification/RedisClient.v ===== *)
(** * redis/redis.go: JSON values, counters and locks on Redis

    The server is the class [RedisServer]: each command is one atomic operation
    on the live value of a key, expiry included.  A command that reports an
    error may or may not have been carried out.  The unlock script of the source
    is translated; Redis runs scripts atomically.  Every operation records its
    outcome in the metrics registry. *)

From stdpp Require Import relations.
From S2P Require Import Prelude GoError GoString GoStrconv Metrics.

Open Scope Z_scope.

Definition redis_Nil : string := "redis.Nil".
Definition IsNil (err : Error) : bool := match err with Some e => Is e redis_Nil | None => false end.

Definition recordOp (op : string) (err : Error) : registry -> registry :=
  if bool_decide (err <> None) && negb (IsNil err) then RecordRedisOperation op "error"
  else RecordRedisOperation op "success".

Record Config := mkConfig {
  Host : string; Port : Z; Password : string; DB : Z; PoolSize : Z; MinIdleConns : Z;
  DialTimeout : Duration; ReadTimeout : Duration; WriteTimeout : Duration
}.

Definition Addr (c : Config) : string := Host c +:+ ":" +:+ Itoa (Port c).

(** ** The server *)

Inductive rvalue := RStr (s : string) | RHash (h : gmap string string).

#[export] Instance rvalue_eq_dec : EqDecision rvalue.
Proof. solve_decision. Defined.

Class RedisServer := {
  kv : Type;
  (** the value of a key at a time, nothing once it expired *)
  look : kv -> Time -> string -> option rvalue;
  r_Set : kv -> Time -> string -> string -> Duration -> Error * kv;
  r_SetNX : kv -> Time -> string -> string -> Duration -> result error bool * kv;
  r_Get : kv -> Time -> string -> result error string;
  r_Exists : kv -> Time -> string -> result error Z;
  r_Del : kv -> Time -> string -> Error * kv;
  r_Expire : kv -> Time -> string -> Duration -> Error * kv;
  (** a script that looks at one key and may delete it *)
  r_Script : kv -> Time -> string -> (option rvalue -> bool) -> result error Z * kv;
  r_HIncrBy : kv -> Time -> string -> string -> Z -> result error Z * kv;
  r_HGetAll : kv -> Time -> string -> result error (gmap string string);
  r_HSet : kv -> Time -> string -> string -> string -> Error * kv;
  r_HGet : kv -> Time -> string -> string -> result error string;
  r_HDel : kv -> Time -> string -> string -> Error * kv
}.

(** How long a positive expiration lasts: whole milliseconds, at least one. *)
Definition ttl (exp : Duration) : Duration := Z.max Millisecond (exp / Millisecond * Millisecond).

Definition hash_of (v : option rvalue) : gmap string string := match v with Some (RHash h) => h | _ => ∅ end.

Class RedisServerLaws `{RedisServer} := {
  SetNX_ok d now key v exp b d' :
    r_SetNX d now key v exp = (Ok b, d') ->
    (b = true <-> look d now key = None) /\
    forall t, now <= t -> 0 < exp ->
      look d' t key = if b then (if t <? now + ttl exp then Some (RStr v) else None) else look d t key;
  SetNX_failed d now key v exp e d' :
    r_SetNX d now key v exp = (Fail e, d') ->
    (forall t, now <= t -> look d' t key = look d t key) \/
    (look d now key = None /\
     forall t, now <= t -> 0 < exp -> look d' t key = if t <? now + ttl exp then Some (RStr v) else None);
  Script_effect d now key del r d' :
    r_Script d now key del = (r, d') ->
    (forall t, now <= t -> look d' t key = if del (look d now key) then None else look d t key) \/
    ((exists e, r = Fail e) /\ forall t, now <= t -> look d' t key = look d t key);
  HSet_ok d now key field v d' :
    r_HSet d now key field v = (None, d') -> look d' now key = Some (RHash (<[field := v]> (hash_of (look d now key))));
  HIncrBy_ok d now key field delta n d' :
    r_HIncrBy d now key field delta = (Ok n, d') ->
    in_int64 n /\ look d' now key = Some (RHash (<[field := Itoa n]> (hash_of (look d now key)))) /\
    (forall old, in_int64 old -> hash_of (look d now key) !! field = Some (Itoa old) -> n = old + delta) /\
    (hash_of (look d now key) !! field = None -> n = delta);
  HGet_ok d now key field v :
    hash_of (look d now key) !! field = Some v -> r_HGet d now key field = Ok v \/ exists e, r_HGet d now key field = Fail e
}.

Section Client.
Context `{RedisServer}.

(** [New]: the options of go-redis are the configuration's; [ping] is the answer
    of the first command. *)
Definition NewClient (cfg : Config) (ping : Error) : result error string :=
  match ping with Some err => Fail (Wrapf "ping redis" err) | None => Ok (Addr cfg) end.

(** [Close]: the answer of the go-redis client, if there is one. *)
Definition Client_Close (client : option Error) : Error := match client with Some err => err | None => None end.

Definition err_of {A} (r : result error A) : Error := match r with Ok _ => None | Fail e => Some e end.

(** ** JSON values *)

Section Json.
Context {V : Type} (Marshal : V -> result error string) (Unmarshal : string -> result error V).

Definition SetJSON (now : Time) (key : string) (value : V) (expiration : Duration) (d : kv) (m : registry)
    : Error * kv * registry :=
  match Marshal value with
  | Fail err => (Some (Wrapf "marshal value" err), d, m)
  | Ok data => let (err, d) := r_Set d now key data expiration in (err, d, recordOp "set_json" err m)
  end.

Definition GetJSON (now : Time) (key : string) (d : kv) (m : registry) : result error V * registry :=
  let r := r_Get d now key in
  let m := recordOp "get_json" (err_of r) m in
  (let? data := r in Unmarshal data, m).

Definition SetJSONNX (now : Time) (key : string) (value : V) (expiration : Duration) (d : kv) (m : registry)
    : result error bool * kv * registry :=
  match Marshal value with
  | Fail err => (Fail (Wrapf "marshal value" err), d, m)
  | Ok data => let (r, d) := r_SetNX d now key data expiration in (r, d, recordOp "set_json_nx" (err_of r) m)
  end.
End Json.

Definition KeyExists (now : Time) (key : string) (d : kv) (m : registry) : result error bool * registry :=
  let r := r_Exists d now key in (let? n := r in Ok (0 <? n), recordOp "exists" (err_of r) m).

(** [DeletePattern]: [scan] are the keys the iterator yields, [scan_err] how it
    ends. *)
Fixpoint DeletePattern (now : Time) (scan : list string) (scan_err : Error) (d : kv) (m : registry)
    : Error * kv * registry :=
  match scan with
  | [] => (scan_err, d, recordOp "delete_pattern" scan_err m)
  | key :: scan =>
      match r_Del d now key with
      | (Some err, d) => (Some err, d, recordOp "delete_pattern" (Some err) m)
      | (None, d) => DeletePattern now scan scan_err d m
      end
  end.

(** ** Counters *)

Definition IncrCounter (now : Time) (key field : string) (delta : Z) (d : kv) (m : registry)
    : result error Z * kv * registry :=
  let (r, d) := r_HIncrBy d now key field delta in (r, d, recordOp "incr" (err_of r) m).

(** The conversion loop of [GetCounters], over the entries in some order. *)
Fixpoint parse_counters (l : list (string * string)) : result error (gmap string Z) :=
  match l with
  | [] => Ok ∅
  | (k, v) :: l =>
      let? val := map_err (Wrapf ("parse counter " +:+ k)) (Sscanf_d v) in
      let? rest := parse_counters l in Ok (<[k := val]> rest)
  end.

Definition GetCounters (now : Time) (key : string) (d : kv) (m : registry) : result error (gmap string Z) * registry :=
  let r := r_HGetAll d now key in
  (let? result := r in parse_counters (map_to_list result), recordOp "get_counters" (err_of r) m).

Definition SetCounter (now : Time) (key field : string) (value : Z) (d : kv) (m : registry) : Error * kv * registry :=
  let (err, d) := r_HSet d now key field (Itoa value) in (err, d, recordOp "set" err m).

Definition GetCounter (now : Time) (key field : string) (d : kv) (m : registry) : result error Z * registry :=
  let r := let? s := r_HGet d now key field in ParseInt s in (r, recordOp "get" (err_of r) m).

Definition DeleteCounter (now : Time) (key field : string) (d : kv) (m : registry) : Error * kv * registry :=
  let (err, d) := r_HDel d now key field in (err, d, recordOp "delete" err m).

Definition SetCounterExpire (now : Time) (key : string) (expiration : Duration) (d : kv) (m : registry)
    : Error * kv * registry :=
  let (err, d) := r_Expire d now key expiration in (err, d, recordOp "expire" err m).

(** ** Locks *)

Definition Lock (now : Time) (key value : string) (expiration : Duration) (d : kv) (m : registry)
    : result error bool * kv * registry :=
  let (r, d) := r_SetNX d now key value expiration in (r, d, recordOp "lock" (err_of r) m).

(** The script: delete the key if it holds the caller's value. *)
Definition unlock_script (value : string) (current : option rvalue) : bool := bool_decide (current = Some (RStr value)).

Definition Unlock (now : Time) (key value : string) (d : kv) (m : registry) : Error * kv * registry :=
  let (r, d) := r_Script d now key (unlock_script value) in (err_of r, d, recordOp "unlock" (err_of r) m).
End Client.

(** ** Mutual exclusion *)

(** A client that was told it has the lock, and until when it may believe so. *)
Record hold := mkHold { h_value : string; h_until : Time }.

Section Locking.
Context `{RedisServerLaws} (key : string).

(** [used] are the values lock attempts were made with. *)
Record lsys := mkLsys { l_db : kv; l_now : Time; holds : list hold; used : list string }.

Definition linit (d : kv) (now : Time) : lsys := mkLsys d now [] [].

(** A client gives up its claim when it calls [Unlock]. *)
Definition drop_hold (v : string) (l : list hold) : list hold := List.filter (fun h => negb (bool_decide (h_value h = v))) l.

(** One command on the lock's key, or time passing, or a command that leaves
    the key alone.  Every attempt to lock uses a value of its own. *)
Inductive lstep : lsys -> lsys -> Prop :=
| ls_tick d now now' hs u : now <= now' -> lstep (mkLsys d now hs u) (mkLsys d now' hs u)
| ls_other d d' now hs u :
    (forall t, now <= t -> look d' t key = look d t key) -> lstep (mkLsys d now hs u) (mkLsys d' now hs u)
| ls_lock d d' now hs u v exp r m m' :
    v ∉ u -> 0 < exp -> Lock now key v exp d m = (r, d', m') ->
    lstep (mkLsys d now hs u)
      (mkLsys d' now (match r with Ok true => mkHold v (now + ttl exp) :: hs | _ => hs end) (v :: u))
| ls_unlock d d' now hs u v e m m' :
    Unlock now key v d m = (e, d', m') -> lstep (mkLsys d now hs u) (mkLsys d' now (drop_hold v hs) u).

(** While a client may believe it has the lock, the key holds its value. *)
Definition backed (s : lsys) : Prop :=
  forall h t, In h (holds s) -> l_now s <= t < h_until h -> look (l_db s) t key = Some (RStr (h_value h)).

Definition linv (s : lsys) : Prop :=
  backed s /\ NoDup (List.map h_value (holds s)) /\ Forall (fun h => h_value h ∈ used s) (holds s).

(** If the key is free, nobody may believe to have the lock. *)
Lemma free_means_expired s : backed s -> look (l_db s) (l_now s) key = None ->
  forall h, In h (holds s) -> h_until h <= l_now s.
Proof.
  intros Hb Hfree h Hin. destruct (decide (h_until h <= l_now s)) as [|Hlt]; [done|].
  rewrite (Hb h (l_now s) Hin) in Hfree by lia. done.
Qed.

Lemma backed_unchanged d d' now hs u u' : (forall t, now <= t -> look d' t key = look d t key) ->
  backed (mkLsys d now hs u) -> backed (mkLsys d' now hs u').
Proof. intros He Hb h t Hin Ht. simpl in *. rewrite He by lia. by apply (Hb h t). Qed.

(** Holds that have all expired are backed by anything. *)
Lemma backed_expired d now hs u : (forall h, In h hs -> h_until h <= now) -> backed (mkLsys d now hs u).
Proof. intros He h t Hin Ht. simpl in *. specialize (He h Hin). lia. Qed.

Lemma lock_backed d now hs u v exp r m d' m' :
  0 < exp -> backed (mkLsys d now hs u) -> Lock now key v exp d m = (r, d', m') ->
  backed (mkLsys d' now (match r with Ok true => mkHold v (now + ttl exp) :: hs | _ => hs end) (v :: u)).
Proof.
  intros Hexp Hb Hlock. unfold Lock in Hlock. destruct (r_SetNX d now key v exp) as [r0 d0] eqn:Es.
  injection Hlock as <- <- _. destruct r0 as [[|]|e].
  - destruct (SetNX_ok _ _ _ _ _ _ _ Es) as [Hb' He]. pose proof (free_means_expired _ Hb (proj1 Hb' eq_refl)) as Hx.
    intros h t [<-|Hin] Ht; simpl in *; [|specialize (Hx h Hin); simpl in Hx; lia].
    rewrite He by lia. by rewrite (proj2 (Z.ltb_lt _ _)) by lia.
  - destruct (SetNX_ok _ _ _ _ _ _ _ Es) as [_ He]. eapply backed_unchanged; [|exact Hb]. intros t Ht. by apply He.
  - destruct (SetNX_failed _ _ _ _ _ _ _ Es) as [He|[Hfree _]]; [by eapply backed_unchanged|].
    apply backed_expired. apply (free_means_expired _ Hb Hfree).
Qed.

Lemma unlock_backed d now hs u v e m d' m' :
  backed (mkLsys d now hs u) -> Unlock now key v d m = (e, d', m') -> backed (mkLsys d' now (drop_hold v hs) u).
Proof.
  intros Hb Hun. unfold Unlock in Hun. destruct (r_Script d now key (unlock_script v)) as [r d0] eqn:Es.
  injection Hun as _ <- _.
  assert (backed (mkLsys d now (drop_hold v hs) u)) as Hb2.
  { intros h t Hin Ht. apply filter_In in Hin as [Hin _]. by apply (Hb h t). }
  apply Script_effect in Es as [He|[_ He]]; [|by eapply backed_unchanged].
  unfold unlock_script in He. case_bool_decide as Hv; [|by eapply backed_unchanged].
  apply backed_expired. intros h Hin. apply filter_In in Hin as [Hin Hne]. to_prop.
  destruct (decide (h_until h <= now)) as [|Hlt]; [done|]. pose proof (Hb h now Hin) as Hl. simpl in Hl.
  rewrite Hv in Hl. assert (Some (RStr v) = Some (RStr (h_value h))) as [= ->] by (apply Hl; lia). done.
Qed.

Lemma give_up_inv v hs (u : list string) :
  NoDup (List.map h_value hs) -> Forall (fun h => h_value h ∈ u) hs ->
  NoDup (List.map h_value (drop_hold v hs)) /\ Forall (fun h => h_value h ∈ u) (drop_hold v hs).
Proof.
  intros Hn Hf. induction Hf as [|h hs Hh Hf IH]; simpl in *; [done|].
  apply NoDup_cons in Hn as [Hnin Hn]. destruct (IH Hn) as [IH1 IH2]. destruct (negb _); [|done]. simpl. split.
  - apply NoDup_cons. split; [|done]. intros Hin. apply Hnin. apply list_elem_of_In in Hin. apply list_elem_of_In.
    apply in_map_iff in Hin as (h' & Heq & Hin). apply filter_In in Hin as [Hin _]. rewrite <- Heq. by apply in_map.
  - by constructor.
Qed.

Lemma lstep_inv s s' : linv s -> lstep s s' -> linv s'.
Proof.
  intros (Hb & Hn & Hf) Hs. destruct Hs as [d now now' hs u Hle|d d' now hs u He|d d' now hs u v exp r m m' Hv Hexp Hl|d d' now hs u v e m m' Hu];
    simpl in *.
  - split_and!; [|done|done]. intros h t Hin Ht. simpl in *. apply (Hb h t); [done|]. simpl. lia.
  - split_and!; [|done|done]. by eapply backed_unchanged.
  - split; [by eapply lock_backed|]. simpl.
    assert (Forall (fun h => h_value h ∈ v :: u) hs) as Hf'.
    { eapply Forall_impl; [exact Hf|]. intros h Hh. by apply list_elem_of_further. }
    destruct r as [[|]|]; [|done..]. simpl. split.
    + apply NoDup_cons. split; [|done]. intros Hin. apply list_elem_of_In, in_map_iff in Hin as (h & <- & Hin).
      rewrite Forall_forall in Hf. apply Hv, Hf. by apply list_elem_of_In.
    + constructor; [|done]. apply list_elem_of_here.
  - destruct (give_up_inv v hs u) as [? ?]; [done..|]. split_and!; [by eapply unlock_backed|done|done].
Qed.

Lemma reachable_linv d now s : rtc lstep (linit d now) s -> linv s.
Proof.
  assert (linv (linit d now)) as Hi by (split_and!; [by intros h t []|apply NoDup_nil_2|constructor]).
  intros Hr. induction Hr as [|s1 s2 s3 Hs _ IH]; [done|]. apply IH. by eapply lstep_inv.
Qed.
End Locking.

(** C38: the lock excludes.  However clients on one key lock, unlock, retry and
    crash, with commands failing before or after they took effect, and however
    time passes: at most one client at a time has been told it holds the lock
    and is within its expiration, provided every attempt uses a value of its own.
    So a late [Unlock] of an expired holder never frees the lock of its
    successor, whose value the key still holds. *)
Theorem lock_mutual_exclusion `{RedisServerLaws} key d now s h1 h2 :
  rtc (lstep key) (linit d now) s -> In h1 (holds s) -> In h2 (holds s) ->
  l_now s < h_until h1 -> l_now s < h_until h2 ->
  h1 = h2 /\ look (l_db s) (l_now s) key = Some (RStr (h_value h1)).
Proof.
  intros Hr H1 H2 Hu1 Hu2. destruct (reachable_linv key d now s Hr) as (Hb & Hn & _).
  pose proof (Hb h1 (l_now s) H1 ltac:(lia)) as L1. pose proof (Hb h2 (l_now s) H2 ltac:(lia)) as L2.
  split; [|done]. rewrite L1 in L2. injection L2 as Hv. clear -Hn H1 H2 Hv.
  induction (holds s) as [|h l IH]; [done|]. simpl in Hn. apply NoDup_cons in Hn as [Hnin Hn].
  assert (forall h', In h' l -> h_value h <> h_value h') as Hd.
  { intros h' Hin Heq. apply Hnin. rewrite Heq. by apply list_elem_of_In, in_map. }
  destruct H1 as [<-|H1], H2 as [<-|H2]; [done| | |by apply IH].
  - by destruct (Hd h2 H2).
  - by destruct (Hd h1 H1).
Qed.

(** ** Counters *)

(** A counter that was set or incremented reads back as that number. *)
Lemma counter_roundtrip `{RedisServerLaws} now key field d m :
  (forall v d' m', in_int64 v -> SetCounter now key field v d m = (None, d', m') ->
     forall n, (GetCounter now key field d' m').1 = Ok n -> n = v) /\
  (forall delta v d' m', IncrCounter now key field delta d m = (Ok v, d', m') ->
     forall n, (GetCounter now key field d' m').1 = Ok n -> n = v).
Proof.
  assert (forall d' v n m', in_int64 v -> hash_of (look d' now key) !! field = Some (Itoa v) ->
    (GetCounter now key field d' m').1 = Ok n -> n = v) as Hread.
  { intros d' v n m' Hv Hl. unfold GetCounter. simpl. rewrite rbind_ok. intros (s & Hs & Hp).
    destruct (HGet_ok d' now key field (Itoa v) Hl) as [Hg|[e Hg]]; rewrite Hg in Hs; [|done].
    injection Hs as <-. rewrite ParseInt_Itoa in Hp by done. by injection Hp. }
  split.
  - intros v d' m' Hv Hs n. unfold SetCounter in Hs. destruct (r_HSet d now key field (Itoa v)) as [e d0] eqn:E.
    injection Hs as -> <- _. apply HSet_ok in E. eapply Hread; [done|]. rewrite E. simpl. by rewrite lookup_insert_eq.
  - intros delta v d' m' Hs n. unfold IncrCounter in Hs. destruct (r_HIncrBy d now key field delta) as [r d0] eqn:E.
    injection Hs as -> <- _. apply HIncrBy_ok in E as (Hv & E & _). eapply Hread; [done|]. rewrite E. simpl.
    by rewrite lookup_insert_eq.
Qed.

(** ** An instance: values with an optional expiry time *)

Definition live (now : Time) (x : option (rvalue * option Time)) : option rvalue :=
  match x with
  | Some (v, Some e) => if now <? e then Some v else None
  | Some (v, None) => Some v
  | None => None
  end.

Definition expiry_at (now : Time) (exp : Duration) : option Time := if 0 <? exp then Some (now + ttl exp) else None.

Definition put_hash (d : gmap string (rvalue * option Time)) (now : Time) (key : string) (h : gmap string string) :=
  <[key := (RHash h, match d !! key with Some (_, e) => match live now (d !! key) with Some _ => e | None => None end | None => None end)]> d.

#[export] Instance toy_Server : RedisServer := {
  kv := gmap string (rvalue * option Time);
  look d now key := live now (d !! key);
  r_Set d now key v exp := (None, <[key := (RStr v, expiry_at now exp)]> d);
  r_SetNX d now key v exp :=
    match live now (d !! key) with
    | Some _ => (Ok false, d)
    | None => (Ok true, <[key := (RStr v, expiry_at now exp)]> d)
    end;
  r_Get d now key :=
    match live now (d !! key) with Some (RStr s) => Ok s | Some _ => Fail (New "WRONGTYPE") | None => Fail (Err redis_Nil "redis: nil" []) end;
  r_Exists d now key := Ok (match live now (d !! key) with Some _ => 1 | None => 0 end);
  r_Del d now key := (None, delete key d);
  r_Expire d now key exp := (None, match live now (d !! key) with Some v => <[key := (v, expiry_at now exp)]> d | None => d end);
  r_Script d now key del := if del (live now (d !! key)) then (Ok 1, delete key d) else (Ok 0, d);
  r_HIncrBy d now key field delta :=
    let h := hash_of (live now (d !! key)) in
    match (match h !! field with Some s => parse_int s | None => Ok 0 end) with
    | Fail e => (Fail e, d)
    | Ok old => if bool_decide (int64_min <= old + delta <= int64_max)
                then (Ok (old + delta), put_hash d now key (<[field := Itoa (old + delta)]> h)) else (Fail ErrRange, d)
    end;
  r_HGetAll d now key := Ok (hash_of (live now (d !! key)));
  r_HSet d now key field v := (None, put_hash d now key (<[field := v]> (hash_of (live now (d !! key)))));
  r_HGet d now key field :=
    match hash_of (live now (d !! key)) !! field with Some s => Ok s | None => Fail (Err redis_Nil "redis: nil" []) end;
  r_HDel d now key field := (None, put_hash d now key (delete field (hash_of (live now (d !! key)))))
}.

Lemma live_put_hash d now key h : live now (put_hash d now key h !! key) = Some (RHash h).
Proof.
  unfold put_hash. rewrite lookup_insert_eq. destruct (d !! key) as [[v [e|]]|]; simpl; [|done..].
  destruct (now <? e) eqn:E; simpl; [by rewrite E|done].
Qed.

#[export] Instance toy_ServerLaws : RedisServerLaws.
Proof.
  split; cbn [kv look r_SetNX r_Script r_HSet r_HIncrBy r_HGet toy_Server].
  - intros d now key v exp b d' Hs. destruct (live now (d !! key)) as [x|] eqn:E; injection Hs as <- <-.
    + split; [by split|done].
    + split; [done|]. intros t Ht Hexp. rewrite lookup_insert_eq. unfold expiry_at.
      by rewrite (proj2 (Z.ltb_lt _ _)) by lia.
  - intros d now key v exp e d' Hs. by destruct (live now (d !! key)).
  - intros d now key del r d' Hs. left. intros t Ht. destruct (del (live now (d !! key))); injection Hs as _ <-; [|done].
    by rewrite lookup_delete_eq.
  - intros d now key field v d' [= <-]. apply live_put_hash.
  - intros d now key field delta n d' Hs. cbv zeta in Hs.
    set (h := hash_of (live now (d !! key))) in *.
    destruct (match h !! field with Some s => parse_int s | None => Ok 0 end) as [old|e] eqn:Eo; [|done].
    case_bool_decide as Hr; [|done]. injection Hs as <- <-. split_and!; [done|apply live_put_hash| |].
    + intros old' Hi Ho. rewrite Ho, parse_int_Itoa in Eo by done. by injection Eo as <-.
    + intros Ho. rewrite Ho in Eo. injection Eo as <-. lia.
  - intros d now key field v Hv. by rewrite Hv; left.
Qed.

(** Alice's lock expires; Bob gets it; Alice's late unlock changes nothing. *)
Lemma lock_mutual_exclusion_witness :
  exists s h, rtc (lstep "job") (linit ∅ 0) s /\ holds s = [h] /\ h_value h = "bob" /\
    look (l_db s) (l_now s) "job" = Some (RStr "bob").
Proof.
  pose (s0 := linit ∅ 0 : lsys).
  pose (d1 := <["job" := (RStr "alice", Some (0 + ttl Second))]> ∅ : kv).
  pose (d2 := <["job" := (RStr "bob", Some (5 * Second + ttl (10 * Second)))]> d1 : kv).
  pose (alice := mkHold "alice" (0 + ttl Second)). pose (bob := mkHold "bob" (5 * Second + ttl (10 * Second))).
  pose (s := mkLsys d2 (5 * Second) [bob] ["bob"; "alice"]).
  assert (rtc (lstep "job") s0 s) as Hr.
  { eapply rtc_l; [eapply (ls_lock "job" ∅ d1 0 [] [] "alice" Second (Ok true) ∅);
      [apply not_elem_of_nil|done|reflexivity]|].
    eapply rtc_l; [apply (ls_tick "job" d1 0 (5 * Second) [alice] ["alice"]); done|].
    eapply rtc_l; [eapply (ls_lock "job" d1 d2 (5 * Second) [alice] ["alice"] "bob" (10 * Second) (Ok true) ∅);
      [by apply (bool_decide_unpack _)|done|reflexivity]|].
    eapply rtc_l; [eapply (ls_unlock "job" d2 d2 (5 * Second) [bob; alice] ["bob"; "alice"] "alice" None ∅);
      reflexivity|]. apply rtc_refl. }
  exists s, bob. split; [exact Hr|]. split; [reflexivity|]. split; [reflexivity|].
  apply (lock_mutual_exclusion "job" ∅ 0 s bob bob Hr); [by left|by left|reflexivity|reflexivity].
Defined.
