(* ===== verification/Regex.v ===== *)
(** * Regular expressions

    Go's regexp, for expressions anchored at both ends whose character classes
    are ASCII: the validators use no others.  Matching is by derivatives, and is
    proved to decide the language of the expression.  Since the classes are
    ASCII, matching bytes is matching runes. *)

From Stdlib Require Import Ascii.
From S2P Require Import Prelude GoString Encoding.

Open Scope Z_scope.

(** A class is a list of ranges of bytes. *)
Inductive re :=
| RVoid
| REps
| RClass (ranges : list (ascii * ascii))
| RCat (r1 r2 : re)
| RAlt (r1 r2 : re)
| RStar (r : re).

Definition in_ranges (ranges : list (ascii * ascii)) (c : ascii) : bool :=
  existsb (fun r => (code r.1 <=? code c) && (code c <=? code r.2)) ranges.

(** ** Derived forms *)

Definition RChar (c : ascii) : re := RClass [(c, c)].
Definition ROpt (r : re) : re := RAlt r REps.
Definition RPlus (r : re) : re := RCat r (RStar r).

(** [r{n}] *)
Fixpoint RRep (n : nat) (r : re) : re := match n with O => REps | S n => RCat r (RRep n r) end.
(** [r{0,n}] *)
Fixpoint RUpTo (n : nat) (r : re) : re := match n with O => REps | S n => ROpt (RCat r (RUpTo n r)) end.
(** [r{n,m}] and [r{n,}] *)
Definition RBetween (n m : nat) (r : re) : re := RCat (RRep n r) (RUpTo (m - n) r).
Definition RAtLeast (n : nat) (r : re) : re := RCat (RRep n r) (RStar r).

(** ** The language of an expression *)

Inductive lang : re -> list ascii -> Prop :=
| l_eps : lang REps []
| l_class ranges c : in_ranges ranges c = true -> lang (RClass ranges) [c]
| l_cat r1 r2 u v : lang r1 u -> lang r2 v -> lang (RCat r1 r2) (u ++ v)
| l_alt_l r1 r2 u : lang r1 u -> lang (RAlt r1 r2) u
| l_alt_r r1 r2 u : lang r2 u -> lang (RAlt r1 r2) u
| l_star_nil r : lang (RStar r) []
| l_star_app r u v : lang r u -> lang (RStar r) v -> lang (RStar r) (u ++ v).
#[local] Hint Constructors lang : core.

Fixpoint nullable (r : re) : bool :=
  match r with
  | RVoid | RClass _ => false
  | REps | RStar _ => true
  | RCat r1 r2 => nullable r1 && nullable r2
  | RAlt r1 r2 => nullable r1 || nullable r2
  end.

Fixpoint deriv (c : ascii) (r : re) : re :=
  match r with
  | RVoid | REps => RVoid
  | RClass ranges => if in_ranges ranges c then REps else RVoid
  | RCat r1 r2 => if nullable r1 then RAlt (RCat (deriv c r1) r2) (deriv c r2) else RCat (deriv c r1) r2
  | RAlt r1 r2 => RAlt (deriv c r1) (deriv c r2)
  | RStar r => RCat (deriv c r) (RStar r)
  end.

Fixpoint matches (r : re) (s : list ascii) : bool :=
  match s with [] => nullable r | c :: s => matches (deriv c r) s end.

(** [MustCompile("^r$").MatchString(s)] *)
Definition MatchString (r : re) (s : string) : bool := matches r (bytes_of s).

(** ** The matcher decides the language *)

(** The words of each form. *)
Lemma class_lang ranges w : lang (RClass ranges) w <-> exists c, w = [c] /\ in_ranges ranges c = true.
Proof. split; [inversion 1; eauto|intros (c & -> & Hc); auto]. Qed.

Lemma cat_lang r1 r2 w : lang (RCat r1 r2) w <-> exists u v, w = u ++ v /\ lang r1 u /\ lang r2 v.
Proof. split; [inversion 1; eauto 10|intros (u & v & -> & ? & ?); auto]. Qed.

Lemma alt_lang r1 r2 w : lang (RAlt r1 r2) w <-> lang r1 w \/ lang r2 w.
Proof. split; [inversion 1; auto|intros [?|?]; auto]. Qed.

Lemma eps_lang w : lang REps w <-> w = [].
Proof. split; [by inversion 1|intros ->; auto]. Qed.

Lemma nullable_lang r : nullable r = true <-> lang r [].
Proof.
  induction r as [| |ranges|r1 IH1 r2 IH2|r1 IH1 r2 IH2|r IH]; simpl.
  - split; [done|by inversion 1].
  - split; [constructor|done].
  - split; [done|by inversion 1].
  - rewrite andb_true_iff, IH1, IH2, cat_lang. split.
    + intros [H1 H2]. by exists [], [].
    + intros (u & v & Heq & Hu & Hv). symmetry in Heq. by apply app_eq_nil in Heq as [-> ->].
  - rewrite orb_true_iff, IH1, IH2. split; [intros [?|?]; auto|inversion 1; auto].
  - split; [constructor|done].
Qed.

(** A non-empty word of a star begins with a non-empty word of its body. *)
Lemma star_cons r c w : lang (RStar r) (c :: w) ->
  exists u v, w = u ++ v /\ lang r (c :: u) /\ lang (RStar r) v.
Proof.
  intros Hl. remember (RStar r) as s eqn:Hs. remember (c :: w) as x eqn:Hx. revert c w Hx.
  induction Hl as [| | | | | |r' u v Hu _ Hv IH]; intros b w Hx; simplify_eq.
  destruct u as [|c' u]; simpl in Hx; [by apply IH|]. injection Hx as <- <-. by exists u, v.
Qed.

Lemma deriv_lang r c w : lang (deriv c r) w <-> lang r (c :: w).
Proof.
  revert w. induction r as [| |ranges|r1 IH1 r2 IH2|r1 IH1 r2 IH2|r IH]; intros w; simpl.
  - split; inversion 1.
  - split; inversion 1.
  - destruct (in_ranges ranges c) eqn:E; split; try (by inversion 1); inversion 1; subst; auto. congruence.
  - assert (lang (RCat (deriv c r1) r2) w -> lang (RCat r1 r2) (c :: w)) as Hcat.
    { intros (u & v & -> & Hu & Hv)%cat_lang. apply IH1 in Hu. exact (l_cat _ _ _ _ Hu Hv). }
    assert (lang (RCat r1 r2) (c :: w) -> lang (RCat (deriv c r1) r2) w \/ (lang r1 [] /\ lang r2 (c :: w))) as Hinv.
    { intros (u & v & Heq & Hu & Hv)%cat_lang. destruct u as [|c' u]; simpl in Heq; [subst; by right|].
      injection Heq as -> ->. left. constructor; [by apply IH1|done]. }
    destruct (nullable r1) eqn:En; split.
    + inversion 1; subst; [by apply Hcat|]. apply nullable_lang in En. apply (l_cat _ _ [] (c :: w)); [done|by apply IH2].
    + intros Hl. destruct (Hinv Hl) as [|[_ H2]]; [by apply l_alt_l|]. by apply l_alt_r, IH2.
    + apply Hcat.
    + intros Hl. destruct (Hinv Hl) as [|[H1 _]]; [done|]. apply nullable_lang in H1. congruence.
  - split; inversion 1; subst; [apply l_alt_l|apply l_alt_r|apply l_alt_l|apply l_alt_r]; by (apply IH1 || apply IH2).
  - split.
    + intros (u & v & -> & Hu & Hv)%cat_lang. apply IH in Hu. exact (l_star_app _ _ _ Hu Hv).
    + intros Hl. apply star_cons in Hl as (u & v & -> & Hu & Hv). constructor; [by apply IH|done].
Qed.

Lemma matches_lang r w : matches r w = true <-> lang r w.
Proof.
  revert r. induction w as [|c w IH]; intros r; simpl; [apply nullable_lang|]. by rewrite IH, deriv_lang.
Qed.

(** ** What the derived forms mean *)

Lemma char_lang c w : lang (RChar c) w <-> w = [c].
Proof.
  unfold RChar. rewrite class_lang. unfold in_ranges. simpl. split.
  - intros (x & -> & Hx). rewrite orb_false_r, andb_true_iff, !Z.leb_le in Hx. f_equal. apply code_inj. lia.
  - intros ->. exists c. split; [done|]. by rewrite Z.leb_refl.
Qed.

Lemma rep_class_lang n ranges w :
  lang (RRep n (RClass ranges)) w <-> length w = n /\ Forall (fun c => in_ranges ranges c = true) w.
Proof.
  revert w. induction n as [|n IH]; intros w; cbn [RRep].
  - rewrite eps_lang. split; [by intros ->|]. intros [Hl _]. by destruct w.
  - rewrite cat_lang. setoid_rewrite class_lang. setoid_rewrite IH. split.
    + intros (u & v & -> & (c & -> & Hc) & <- & Hv). simpl. split; [done|by constructor].
    + intros [Hl Hw]. destruct w as [|c w]; [done|]. apply Forall_cons in Hw as [Hc Hw]. injection Hl as Hl.
      exists [c], w. split_and!; [done|eauto|done|done].
Qed.

Lemma star_class_lang ranges w :
  lang (RStar (RClass ranges)) w <-> Forall (fun c => in_ranges ranges c = true) w.
Proof.
  split.
  - intros Hl. induction w as [|c w IH]; [constructor|]. apply star_cons in Hl as (u & v & -> & Hu & Hv).
    apply class_lang in Hu as (c' & Heq & Hc). injection Heq as -> ->. constructor; [done|]. by apply IH.
  - induction 1 as [|c w Hc _ IH]; [auto|]. apply (l_star_app _ [c] w); auto.
Qed.

Lemma upto_class_lang n ranges w :
  lang (RUpTo n (RClass ranges)) w <-> (length w <= n)%nat /\ Forall (fun c => in_ranges ranges c = true) w.
Proof.
  revert w. induction n as [|n IH]; intros w; cbn [RUpTo].
  - rewrite eps_lang. split; [by intros ->|]. intros [Hl _]. destruct w; [done|simpl in Hl; lia].
  - unfold ROpt. rewrite alt_lang, cat_lang, eps_lang. setoid_rewrite class_lang. setoid_rewrite IH. split.
    + intros [(u & v & -> & (c & -> & Hc) & Hl & Hv)| ->]; simpl; [split; [lia|by constructor]|split; [lia|constructor]].
    + intros [Hl Hw]. destruct w as [|c w]; [by right|]. apply Forall_cons in Hw as [Hc Hw]. simpl in Hl. left.
      exists [c], w. split_and!; [done|eauto|lia|done].
Qed.

Lemma between_class_lang n m ranges w : (n <= m)%nat ->
  lang (RBetween n m (RClass ranges)) w <-> (n <= length w <= m)%nat /\ Forall (fun c => in_ranges ranges c = true) w.
Proof.
  intros Hnm. unfold RBetween. rewrite cat_lang. setoid_rewrite rep_class_lang. setoid_rewrite upto_class_lang. split.
  - intros (u & v & -> & (Hu & Fu) & (Hv & Fv)). rewrite length_app. split; [lia|by apply Forall_app].
  - intros [Hl Hw]. exists (take n w), (drop n w). rewrite take_drop, length_take, length_drop.
    split_and!; [done|lia|by apply Forall_take|lia|by apply Forall_drop].
Qed.

Lemma atleast_class_lang n ranges w :
  lang (RAtLeast n (RClass ranges)) w <-> (n <= length w)%nat /\ Forall (fun c => in_ranges ranges c = true) w.
Proof.
  unfold RAtLeast. rewrite cat_lang. setoid_rewrite rep_class_lang. setoid_rewrite star_class_lang. split.
  - intros (u & v & -> & (Hu & Fu) & Fv). rewrite length_app. split; [lia|by apply Forall_app].
  - intros [Hl Hw]. exists (take n w), (drop n w). rewrite take_drop, length_take.
    split_and!; [done|lia|by apply Forall_take|by apply Forall_drop].
Qed.
