(* ===== verification/Validation.v ===== *)
(** * Input validation

    src/validation/validation.go.  A [Validator] collects an error for every
    check that fails; a method returns the validator it was called on, so a
    chain of calls is a composition of state transformers.  float64 amounts are
    the standard library's [spec_float].  The theorem gives the meaning of every
    validator and of a chain of them: the chain reports no error exactly when
    each value of it is valid. *)

From Stdlib Require Import Ascii SpecFloat.
From S2P Require Import Prelude GoError Grpc GoString Encoding Regex.

Open Scope Z_scope.

(** ** Limits and sentinels *)

Definition MaxNameLength : Z := 255.
Definition MaxDescriptionLength : Z := 2000.
Definition MaxPhoneLength : Z := 15.
Definition MaxEmailLength : Z := 255.
Definition MaxCodeLength : Z := 10.
Definition MaxMessageLength : Z := 10000.
Definition MaxUUIDLength : Z := 36.
Definition MaxAddressLength : Z := 500.
Definition MaxURLLength : Z := 2000.

Definition ErrFieldTooLong : error := Err "validation.ErrFieldTooLong" "field exceeds maximum length" [].
Definition ErrFieldRequired : error := Err "validation.ErrFieldRequired" "field is required" [].
Definition ErrInvalidEmail : error := Err "validation.ErrInvalidEmail" "invalid email format" [].
Definition ErrInvalidPhone : error := Err "validation.ErrInvalidPhone" "invalid phone format" [].
Definition ErrInvalidUUID : error := Err "validation.ErrInvalidUUID" "invalid UUID format" [].
Definition ErrArrayTooLong : error := Err "validation.ErrArrayTooLong" "array exceeds maximum length" [].
Definition ErrNegativeValue : error := Err "validation.ErrNegativeValue" "value cannot be negative" [].
Definition ErrValueOutOfRange : error := Err "validation.ErrValueOutOfRange" "value is out of range" [].

(** ** The validator *)

Record ValidationError := mkVE { ve_Field : string; ve_Message : string; ve_Err : error }.

Definition ValidationError_Error (e : ValidationError) : string := ve_Field e +:+ ": " +:+ ve_Message e.
Definition ValidationError_Unwrap (e : ValidationError) : error := ve_Err e.

(** A [*ValidationError] as an [error]: [errors.Is] unwraps it. *)
Definition as_error (e : ValidationError) : error :=
  Err "*validation.ValidationError" (ValidationError_Error e) [ValidationError_Unwrap e].

Record Validator := mkValidator { errors : list ValidationError }.

Definition NewValidator : Validator := mkValidator [].
Definition HasErrors (v : Validator) : bool := (0 <? length (errors v))%nat.
Definition Errors (v : Validator) : list ValidationError := errors v.

Definition Validator_Error (v : Validator) : Error :=
  match errors v with [] => None | e :: _ => Some (as_error e) end.

(** The loop of [ErrorString]; [i > 0] from the second error on. *)
Fixpoint write_errors (i : nat) (l : list ValidationError) (sb : string) : string :=
  match l with
  | [] => sb
  | e :: l =>
    let sb := if (0 <? i)%nat then sb +:+ "; " else sb in
    write_errors (S i) l (sb +:+ ValidationError_Error e)
  end.

Definition ErrorString (v : Validator) : string :=
  match errors v with [] => "" | l => write_errors 0 l "" end.

Definition addError (field message : string) (err : error) (v : Validator) : Validator :=
  mkValidator (errors v ++ [mkVE field message err]).

(** ** The formats *)

Definition lower_upper : list (ascii * ascii) := [("a", "z"); ("A", "Z")]%char.
Definition digits : list (ascii * ascii) := [("0", "9")]%char.
Definition hex_digits : list (ascii * ascii) := [("0", "9"); ("a", "f"); ("A", "F")]%char.
Definition singles (s : string) : list (ascii * ascii) := map (fun c => (c, c)) (bytes_of s).
Definition local_chars : list (ascii * ascii) := lower_upper ++ digits ++ singles "._%+-".
Definition domain_chars : list (ascii * ascii) := lower_upper ++ digits ++ singles ".-".

(** [[a-zA-Z0-9._%+-]+@[a-zA-Z0-9.-]+\.[a-zA-Z]{2,}] *)
Definition emailRegex : re :=
  RCat (RPlus (RClass local_chars))
       (RCat (RChar "@") (RCat (RPlus (RClass domain_chars)) (RCat (RChar ".") (RAtLeast 2 (RClass lower_upper))))).

(** [\+?\d{7,15}] *)
Definition phoneRegex : re := RCat (ROpt (RChar "+")) (RBetween 7 15 (RClass digits)).

(** [[0-9a-fA-F]{8}-[0-9a-fA-F]{4}-[0-9a-fA-F]{4}-[0-9a-fA-F]{4}-[0-9a-fA-F]{12}] *)
Definition uuidRegex : re :=
  let hex n := RRep n (RClass hex_digits) in
  RCat (hex 8%nat) (RCat (RChar "-") (RCat (hex 4%nat) (RCat (RChar "-")
    (RCat (hex 4%nat) (RCat (RChar "-") (RCat (hex 4%nat) (RCat (RChar "-") (hex 12%nat)))))))).

Definition isValidEmailFormat (email : string) : bool := MatchString emailRegex email.
Definition isValidPhoneFormat (phone : string) : bool := MatchString phoneRegex phone.
Definition isValidUUIDFormat (uuid : string) : bool := MatchString uuidRegex uuid.

(** ** The checks *)

Definition nonempty (s : string) : bool := negb (bool_decide (s = "")).

Definition too_long_msg (maxLen : Z) : string := "exceeds maximum length of " +:+ Itoa maxLen +:+ " characters".

Definition ValidateMaxLength (field value : string) (maxLen : Z) (v : Validator) : Validator :=
  if maxLen <? RuneCountInString value then addError field (too_long_msg maxLen) ErrFieldTooLong v else v.

Definition ValidateRequired (field value : string) (v : Validator) : Validator :=
  if bool_decide (TrimSpace value = "") then addError field "is required" ErrFieldRequired v else v.

Definition ValidateRequiredMaxLength (field value : string) (maxLen : Z) (v : Validator) : Validator :=
  let v := ValidateRequired field value v in
  if nonempty value then ValidateMaxLength field value maxLen v else v.

Definition ValidateOptionalMaxLength (field value : string) (maxLen : Z) (v : Validator) : Validator :=
  if nonempty value then ValidateMaxLength field value maxLen v else v.

Definition ValidateName (field value : string) (required : bool) (v : Validator) : Validator :=
  if required then ValidateRequiredMaxLength field value MaxNameLength v
  else ValidateOptionalMaxLength field value MaxNameLength v.

Definition ValidateDescription (field value : string) (v : Validator) : Validator :=
  ValidateOptionalMaxLength field value MaxDescriptionLength v.

Definition ValidatePhone (field value : string) (required : bool) (v : Validator) : Validator :=
  let v := if required then ValidateRequired field value v else v in
  if nonempty value then
    let v := ValidateMaxLength field value MaxPhoneLength v in
    if negb (isValidPhoneFormat value) then addError field "must be a valid phone number" ErrInvalidPhone v else v
  else v.

Definition ValidateEmail (field value : string) (required : bool) (v : Validator) : Validator :=
  let v := if required then ValidateRequired field value v else v in
  if nonempty value then
    let v := ValidateMaxLength field value MaxEmailLength v in
    if negb (isValidEmailFormat value) then addError field "must be a valid email address" ErrInvalidEmail v else v
  else v.

Definition ValidateCode (field value : string) (required : bool) (v : Validator) : Validator :=
  if required then ValidateRequiredMaxLength field value MaxCodeLength v
  else ValidateOptionalMaxLength field value MaxCodeLength v.

Definition ValidateMessage (field value : string) (required : bool) (v : Validator) : Validator :=
  if required then ValidateRequiredMaxLength field value MaxMessageLength v
  else ValidateOptionalMaxLength field value MaxMessageLength v.

Definition ValidateUUID (field value : string) (required : bool) (v : Validator) : Validator :=
  let v := if required then ValidateRequired field value v else v in
  if nonempty value then
    let v := ValidateMaxLength field value MaxUUIDLength v in
    if negb (isValidUUIDFormat value) then addError field "must be a valid UUID" ErrInvalidUUID v else v
  else v.

Definition ValidateAddress (field value : string) (v : Validator) : Validator :=
  ValidateOptionalMaxLength field value MaxAddressLength v.

Definition ValidateURL (field value : string) (v : Validator) : Validator :=
  ValidateOptionalMaxLength field value MaxURLLength v.

Definition ValidateArrayLength (field : string) (len maxLen : Z) (v : Validator) : Validator :=
  if maxLen <? len
  then addError field ("exceeds maximum length of " +:+ Itoa maxLen +:+ " items") ErrArrayTooLong v else v.

Definition ValidatePositive (field : string) (value : Z) (v : Validator) : Validator :=
  if value <? 0 then addError field "must be positive" ErrNegativeValue v else v.

Definition ValidateRange (field : string) (value minimum maximum : Z) (v : Validator) : Validator :=
  if (value <? minimum) || (maximum <? value)
  then addError field ("must be between " +:+ Itoa minimum +:+ " and " +:+ Itoa maximum) ErrValueOutOfRange v else v.

Definition ValidatePositiveID (field : string) (value : Z) (v : Validator) : Validator :=
  if value <=? 0 then addError field "must be a positive integer" ErrNegativeValue v else v.

Definition ValidatePageSize (page pageSize maxPageSize : Z) (v : Validator) : Validator :=
  let v := if page <? 0 then addError "page" "must be >= 0" ErrValueOutOfRange v else v in
  if (pageSize <? 1) || (maxPageSize <? pageSize)
  then addError "page_size" ("must be between 1 and " +:+ Itoa maxPageSize) ErrValueOutOfRange v else v.

(** [value <= 0], which is false of a NaN. *)
Definition ValidateAmount (field : string) (value : spec_float) (v : Validator) : Validator :=
  if SFleb value (S754_zero false) then addError field "must be greater than 0" ErrNegativeValue v else v.

(** ** Single checks *)

Definition ValidateStringMaxLength (field value : string) (maxLen : Z) : Error :=
  if maxLen <? RuneCountInString value
  then Some (as_error (mkVE field (too_long_msg maxLen) ErrFieldTooLong)) else None.

Definition ValidateStringRequired (field value : string) : Error :=
  if bool_decide (TrimSpace value = "")
  then Some (as_error (mkVE field "is required" ErrFieldRequired)) else None.

Definition GRPCError `{GrpcStatus} (v : Validator) : Error :=
  if negb (HasErrors v) then None else Some (status_Error InvalidArgument (ErrorString v)).

(** ** Printable strings

    The formats hold printable ASCII only: such a string has as many runes as
    bytes, and none of them is a space. *)

Definition graphic (c : ascii) : Prop := 33 <= code c <= 126.

Lemma graphic_runes s : Forall graphic (bytes_of s) ->
  RuneCountInString s = Z.of_nat (length (bytes_of s)) /\ Forall (fun r => IsSpace r = false) (runes s).
Proof.
  unfold RuneCountInString, runes. induction s as [|a s IH]; intros Hg; [by split; [|constructor]|].
  cbn [String.list_ascii_of_string] in Hg. apply Forall_cons in Hg as [Ha Hg]. destruct (IH Hg) as [Hn Hs].
  cbn [chunks]. unfold is_ascii_byte. unfold graphic in Ha. rewrite (proj2 (Z.ltb_lt _ _)) by lia.
  cbn [map length fst String.list_ascii_of_string]. split; [lia|]. constructor; [|done].
  apply not_true_is_false. unfold IsSpace. rewrite !orb_true_iff, !andb_true_iff, !Z.eqb_eq, !Z.leb_le. lia.
Qed.

Definition printable (ranges : list (ascii * ascii)) : bool :=
  forallb (fun r => (33 <=? code r.1) && (code r.2 <=? 126)) ranges.

Lemma class_graphic ranges w : printable ranges = true ->
  Forall (fun c => in_ranges ranges c = true) w -> Forall graphic w.
Proof.
  intros Hp Hw. eapply Forall_impl; [exact Hw|]. intros c Hc. apply existsb_exists in Hc as (r & Hr & Hc).
  unfold printable in Hp. rewrite forallb_forall in Hp. specialize (Hp r Hr).
  rewrite andb_true_iff, !Z.leb_le in Hc, Hp. unfold graphic. lia.
Qed.

(** ** What the formats accept *)

Definition all_of (ranges : list (ascii * ascii)) (w : list ascii) : Prop :=
  Forall (fun c => in_ranges ranges c = true) w.

(** An optional plus sign and at least seven digits, fifteen characters at most. *)
Definition phone_number (value : string) : Prop :=
  exists sign ds, bytes_of value = sign ++ ds /\ (sign = [] \/ sign = ["+"%char]) /\ all_of digits ds /\
    (7 <= length ds)%nat /\ (length sign + length ds <= 15)%nat.

(** A mailbox, an at sign and a domain whose last label has two letters or more. *)
Definition email_address (value : string) : Prop :=
  exists mailbox domain tld,
    bytes_of value = mailbox ++ "@"%char :: domain ++ "."%char :: tld /\
    all_of local_chars mailbox /\ mailbox <> [] /\ all_of domain_chars domain /\ domain <> [] /\
    all_of lower_upper tld /\ (2 <= length tld)%nat /\ RuneCountInString value <= 255.

(** Five groups of 8, 4, 4, 4 and 12 hexadecimal digits, between dashes. *)
Definition uuid (value : string) : Prop :=
  exists a b c d e,
    bytes_of value = a ++ "-"%char :: b ++ "-"%char :: c ++ "-"%char :: d ++ "-"%char :: e /\
    all_of hex_digits (a ++ b ++ c ++ d ++ e) /\
    length a = 8%nat /\ length b = 4%nat /\ length c = 4%nat /\ length d = 4%nat /\ length e = 12%nat.

(** Some rune is not a space. *)
Definition not_blank (value : string) : Prop := exists r, In r (runes value) /\ IsSpace r = false.

Lemma plus_class_lang ranges w : lang (RPlus (RClass ranges)) w <-> all_of ranges w /\ w <> [].
Proof.
  unfold RPlus. rewrite cat_lang. setoid_rewrite class_lang. setoid_rewrite star_class_lang. split.
  - intros (u & v & -> & (c & -> & Hc) & Hv). simpl. split; [by constructor|done].
  - intros [Hw Hn]. destruct w as [|c w]; [done|]. apply Forall_cons in Hw as [Hc Hw]. exists [c], w. eauto.
Qed.

Lemma cons_lang c r w : lang (RCat (RChar c) r) w <-> exists v, w = c :: v /\ lang r v.
Proof.
  rewrite cat_lang. setoid_rewrite char_lang. split.
  - intros (u & v & -> & -> & Hv). by exists v.
  - intros (v & -> & Hv). by exists [c], v.
Qed.

Lemma phone_format value : isValidPhoneFormat value = true <->
  exists sign ds, bytes_of value = sign ++ ds /\ (sign = [] \/ sign = ["+"%char]) /\ all_of digits ds /\
    (7 <= length ds <= 15)%nat.
Proof.
  unfold isValidPhoneFormat, MatchString, phoneRegex, ROpt. rewrite matches_lang, cat_lang.
  unfold all_of. split.
  - intros (sign & ds & Heq & Hs & Hd). apply between_class_lang in Hd as [? ?]; [|lia].
    rewrite alt_lang, char_lang, eps_lang in Hs. exists sign, ds. tauto.
  - intros (sign & ds & Heq & Hs & Hd & Hl). exists sign, ds. rewrite alt_lang, char_lang, eps_lang.
    split_and!; [done|tauto|]. apply between_class_lang; [lia|done].
Qed.

Lemma email_format value : isValidEmailFormat value = true <->
  exists mailbox domain tld,
    bytes_of value = mailbox ++ "@"%char :: domain ++ "."%char :: tld /\
    all_of local_chars mailbox /\ mailbox <> [] /\ all_of domain_chars domain /\ domain <> [] /\
    all_of lower_upper tld /\ (2 <= length tld)%nat.
Proof.
  unfold isValidEmailFormat, MatchString, emailRegex. rewrite matches_lang, cat_lang.
  setoid_rewrite plus_class_lang. setoid_rewrite cons_lang. setoid_rewrite cat_lang. setoid_rewrite plus_class_lang.
  setoid_rewrite cons_lang. setoid_rewrite atleast_class_lang. unfold all_of. split.
  - intros (l & ? & Heq & [? ?] & ? & -> & d & ? & -> & [? ?] & t & -> & ? & ?). exists l, d, t. by split_and!.
  - intros (l & d & t & Heq & ? & ? & ? & ? & ? & ?). exists l, ("@"%char :: d ++ "."%char :: t).
    split_and!; [done..|]. exists (d ++ "."%char :: t). split; [done|]. exists d, ("."%char :: t). split_and!; eauto.
Qed.

(** A group of digits and its dash. *)
Lemma group_lang n r w : lang (RCat (RRep n (RClass hex_digits)) (RCat (RChar "-") r)) w <->
  exists a v, w = a ++ "-"%char :: v /\ (length a = n /\ all_of hex_digits a) /\ lang r v.
Proof.
  rewrite cat_lang. split.
  - intros (a & x & -> & Ha%rep_class_lang & (v & -> & Hv)%cons_lang). by exists a, v.
  - intros (a & v & -> & Ha & Hv). exists a, ("-"%char :: v). rewrite rep_class_lang, cons_lang. eauto.
Qed.

Lemma uuid_format value : isValidUUIDFormat value = true <-> uuid value.
Proof.
  unfold isValidUUIDFormat, MatchString, uuidRegex, uuid, all_of. rewrite matches_lang, group_lang. split.
  - intros (a & ? & Heq & [? ?] & (b & ? & -> & [? ?] & (c & ? & -> & [? ?] & (d & e & -> & [? ?] &
      [? ?]%rep_class_lang)%group_lang)%group_lang)%group_lang).
    exists a, b, c, d, e. rewrite !Forall_app. by split_and!.
  - intros (a & b & c & d & e & Heq & Hall & ? & ? & ? & ? & ?). rewrite !Forall_app in Hall.
    destruct Hall as (? & ? & ? & ? & ?). rewrite Heq. do 2 eexists. split_and!; [done..|].
    apply group_lang. do 2 eexists. split_and!; [done..|]. apply group_lang. do 2 eexists. split_and!; [done..|].
    apply group_lang. do 2 eexists. split_and!; [done..|]. by apply rep_class_lang.
Qed.

Lemma chunks_nonempty s : Forall (fun c => c.2 <> "") (chunks s).
Proof.
  assert (forall n s, (String.length s <= n)%nat -> Forall (fun c => c.2 <> "") (chunks s)) as H.
  { clear s. induction n as [|n IH]; intros s Hn.
    { destruct s; [constructor|simpl in Hn; lia]. }
    destruct s as [|a s1]; [constructor|]. simpl in Hn. cbn [chunks].
    repeat case_match; subst; constructor; try done; apply IH; simpl in Hn |- *; lia. }
  by apply (H (String.length s)).
Qed.

(** Trimming keeps what it does not trim. *)
Lemma in_drop_while {A} (p : A -> bool) l x : p x = false -> In x l -> In x (drop_while p l).
Proof.
  intros Hp. induction l as [|y l IH]; [done|]. intros [->|Hin]; simpl; [rewrite Hp; by left|].
  destruct (p y); [by apply IH|by right].
Qed.

Lemma in_trim {A} (p : A -> bool) l x : p x = false -> In x l -> In x (trim p l).
Proof.
  intros Hp Hin. unfold trim. rewrite <- in_rev. apply in_drop_while; [done|]. rewrite <- in_rev. by apply in_drop_while.
Qed.

(** [TrimSpace] leaves nothing of a string exactly when all of it is space. *)
Lemma TrimSpace_blank s : TrimSpace s <> "" <-> not_blank s.
Proof.
  unfold TrimSpace, not_blank, runes. pose proof (chunks_nonempty s) as Hne. revert Hne.
  generalize (chunks s) as l. intros l Hne. split.
  - intros Ht. destruct (trim chunk_space l) as [|c k] eqn:E; [done|].
    exists c.1. split.
    + destruct (trim_sublist chunk_space l) as (l1 & l2 & El). rewrite E in El. rewrite El, map_app. simpl.
      apply in_or_app. right. by left.
    + pose proof (trim_trimmed chunk_space l) as [Hh _]. rewrite E in Hh. by apply (Hh c).
  - intros (r & Hr & Hs). apply in_map_iff in Hr as (c & <- & Hc).
    assert (In c (trim chunk_space l)) as Hin by (by apply in_trim).
    destruct (trim_sublist chunk_space l) as (l1 & l2 & El).
    destruct (trim chunk_space l) as [|d k] eqn:E; [done|]. rewrite El in Hne.
    apply Forall_app in Hne as [_ Hne]. simpl in Hne. apply Forall_cons in Hne as [Hd _].
    simpl. by destruct (d.2).
Qed.

(** ** Calls and chains of calls *)

Inductive call :=
| CMaxLength (field value : string) (maxLen : Z)
| CRequired (field value : string)
| CRequiredMaxLength (field value : string) (maxLen : Z)
| COptionalMaxLength (field value : string) (maxLen : Z)
| CName (field value : string) (required : bool)
| CDescription (field value : string)
| CPhone (field value : string) (required : bool)
| CEmail (field value : string) (required : bool)
| CCode (field value : string) (required : bool)
| CMessage (field value : string) (required : bool)
| CUUID (field value : string) (required : bool)
| CAddress (field value : string)
| CURL (field value : string)
| CArrayLength (field : string) (len maxLen : Z)
| CPositive (field : string) (value : Z)
| CRange (field : string) (value minimum maximum : Z)
| CPositiveID (field : string) (value : Z)
| CPageSize (page pageSize maxPageSize : Z)
| CAmount (field : string) (value : spec_float).

Definition perform (c : call) : Validator -> Validator :=
  match c with
  | CMaxLength f s n => ValidateMaxLength f s n
  | CRequired f s => ValidateRequired f s
  | CRequiredMaxLength f s n => ValidateRequiredMaxLength f s n
  | COptionalMaxLength f s n => ValidateOptionalMaxLength f s n
  | CName f s r => ValidateName f s r
  | CDescription f s => ValidateDescription f s
  | CPhone f s r => ValidatePhone f s r
  | CEmail f s r => ValidateEmail f s r
  | CCode f s r => ValidateCode f s r
  | CMessage f s r => ValidateMessage f s r
  | CUUID f s r => ValidateUUID f s r
  | CAddress f s => ValidateAddress f s
  | CURL f s => ValidateURL f s
  | CArrayLength f n m => ValidateArrayLength f n m
  | CPositive f n => ValidatePositive f n
  | CRange f n lo hi => ValidateRange f n lo hi
  | CPositiveID f n => ValidatePositiveID f n
  | CPageSize p s m => ValidatePageSize p s m
  | CAmount f x => ValidateAmount f x
  end.

(** [NewValidator().M1(...).M2(...)...] *)
Definition chain (cs : list call) (v : Validator) : Validator := fold_left (fun v c => perform c v) cs v.

(** An amount the caller may charge: neither zero nor negative.  A NaN passes. *)
Definition positive_amount (x : spec_float) : Prop :=
  match x with S754_zero _ | S754_infinity true | S754_finite true _ _ => False | _ => True end.

Definition bounded (s : string) (n : Z) : Prop := RuneCountInString s <= n.
Definition text (required : bool) (s : string) (n : Z) : Prop :=
  (required = true -> not_blank s) /\ (s <> "" -> bounded s n).
Definition optional (required : bool) (s : string) (P : Prop) : Prop := (s = "" /\ required = false) \/ P.

Definition valid (c : call) : Prop :=
  match c with
  | CMaxLength _ s n => bounded s n
  | CRequired _ s => not_blank s
  | CRequiredMaxLength _ s n => text true s n
  | COptionalMaxLength _ s n => text false s n
  | CName _ s r => text r s 255
  | CDescription _ s => text false s 2000
  | CPhone _ s r => optional r s (phone_number s)
  | CEmail _ s r => optional r s (email_address s)
  | CCode _ s r => text r s 10
  | CMessage _ s r => text r s 10000
  | CUUID _ s r => optional r s (uuid s)
  | CAddress _ s => text false s 500
  | CURL _ s => text false s 2000
  | CArrayLength _ n m => n <= m
  | CPositive _ n => 0 <= n
  | CRange _ n lo hi => lo <= n <= hi
  | CPositiveID _ n => 0 < n
  | CPageSize p s m => 0 <= p /\ 1 <= s <= m
  | CAmount _ x => positive_amount x
  end.

Definition failures (c : call) : list ValidationError := errors (perform c NewValidator).

(** A call appends its own errors, whatever was collected before. *)
Lemma perform_appends c v : errors (perform c v) = errors v ++ failures c.
Proof.
  unfold failures. destruct c; simpl; unfold ValidateName, ValidateDescription, ValidatePhone, ValidateEmail,
    ValidateCode, ValidateMessage, ValidateUUID, ValidateAddress, ValidateURL, ValidateArrayLength, ValidatePositive,
    ValidateRange, ValidatePositiveID, ValidatePageSize, ValidateAmount, ValidateRequiredMaxLength,
    ValidateOptionalMaxLength, ValidateRequired, ValidateMaxLength;
  repeat case_match; simpl; by rewrite ?app_nil_r, <- ?app_assoc.
Qed.

Lemma chain_appends cs v : errors (chain cs v) = errors v ++ mjoin (failures <$> cs).
Proof.
  revert v. induction cs as [|c cs IH]; intros v; simpl; [by rewrite app_nil_r|].
  by rewrite IH, perform_appends, <- app_assoc.
Qed.

(** ** What each call accepts *)

Lemma maxLength_clean field s n v : errors (ValidateMaxLength field s n v) = [] <-> errors v = [] /\ bounded s n.
Proof.
  unfold ValidateMaxLength, bounded. destruct (Z.ltb_spec n (RuneCountInString s)); simpl; [|tauto].
  split; [by intros [_ ?]%app_eq_nil|lia].
Qed.

Lemma required_clean field s v : errors (ValidateRequired field s v) = [] <-> errors v = [] /\ not_blank s.
Proof.
  rewrite <- TrimSpace_blank. unfold ValidateRequired. case_bool_decide; simpl; [|tauto].
  split; [by intros [_ ?]%app_eq_nil|tauto].
Qed.

Lemma nonempty_spec s : reflect (s <> "") (nonempty s).
Proof. unfold nonempty. case_bool_decide; simpl; constructor; tauto. Qed.

Lemma text_clean field s (required : bool) n :
  errors (if required then ValidateRequiredMaxLength field s n NewValidator
          else ValidateOptionalMaxLength field s n NewValidator) = [] <-> text required s n.
Proof.
  unfold ValidateRequiredMaxLength, ValidateOptionalMaxLength, text.
  destruct required; destruct (nonempty_spec s); rewrite ?maxLength_clean, ?required_clean; naive_solver.
Qed.

(** The shape of the phone, e-mail and UUID validators. *)
Definition formatted (field value : string) (required : bool) (maxLen : Z) (ok : bool) (msg : string) (err : error)
    (v : Validator) : Validator :=
  let v := if required then ValidateRequired field value v else v in
  if nonempty value then
    let v := ValidateMaxLength field value maxLen v in
    if negb ok then addError field msg err v else v
  else v.

Lemma formatted_clean field value required maxLen ok msg err :
  (ok = true -> Forall graphic (bytes_of value)) ->
  (ok = true -> value <> "") ->
  errors (formatted field value required maxLen ok msg err NewValidator) = [] <->
  optional required value (ok = true /\ bounded value maxLen).
Proof.
  intros Hg Hne. unfold formatted, optional.
  assert (ok = true -> not_blank value) as Hnb.
  { intros Hok. destruct (graphic_runes value (Hg Hok)) as [_ Hs]. destruct (runes value) as [|r l] eqn:E.
    - unfold runes in E. apply map_eq_nil in E. apply chunks_nil in E. by apply Hne in E.
    - exists r. apply Forall_cons in Hs as [Hr _]. rewrite E. split; [by left|done]. }
  assert (forall v, errors (if required then ValidateRequired field value v else v) = [] <->
    errors v = [] /\ (required = true -> not_blank value)) as Hreq.
  { intros v. destruct required; rewrite ?required_clean; naive_solver. }
  destruct (nonempty_spec value) as [Hv|Hv].
  - destruct ok; simpl.
    + rewrite maxLength_clean, Hreq. simpl. naive_solver.
    + split; [by intros [_ ?]%app_eq_nil|naive_solver].
  - rewrite Hreq. simpl. assert (value = "") as -> by (by destruct (decide (value = ""))).
    destruct required; [|naive_solver]. split; [|naive_solver].
    intros [_ Hb]. destruct (Hb eq_refl) as (r & Hr & _). done.
Qed.

Lemma string_nonempty s : bytes_of s <> [] <-> s <> "".
Proof. by destruct s. Qed.

Lemma phone_clean field value required :
  failures (CPhone field value required) = [] <-> optional required value (phone_number value).
Proof.
  change (failures _) with (errors (formatted field value required 15 (isValidPhoneFormat value)
    "must be a valid phone number" ErrInvalidPhone NewValidator)).
  assert (isValidPhoneFormat value = true -> Forall graphic (bytes_of value)) as Hg.
  { intros (sign & ds & -> & Hs & Hd & _)%phone_format. apply Forall_app. split; [|by apply (class_graphic digits)].
    destruct Hs as [-> | ->]; [constructor|]. apply Forall_cons. split; [by split|constructor]. }
  rewrite formatted_clean; [|done|].
  2:{ intros (sign & ds & Heq & _ & _ & Hl)%phone_format. apply string_nonempty. rewrite Heq.
      destruct ds; [simpl in Hl; lia|]. by destruct sign. }
  unfold optional, bounded. apply or_iff_compat_l. split.
  - intros [Hok Hb]. destruct (graphic_runes value (Hg Hok)) as [Hn _].
    apply phone_format in Hok as (sign & ds & Heq & Hs & Hd & Hl). exists sign, ds.
    rewrite Hn, Heq, length_app in Hb. split_and!; [done..|lia|lia].
  - intros (sign & ds & Heq & Hs & Hd & Hl & Hb).
    assert (isValidPhoneFormat value = true) as Hok by (apply phone_format; exists sign, ds; split_and!; [done..|lia|lia]).
    split; [done|]. destruct (graphic_runes value (Hg Hok)) as [-> _]. rewrite Heq, length_app. lia.
Qed.

Lemma email_clean field value required :
  failures (CEmail field value required) = [] <-> optional required value (email_address value).
Proof.
  change (failures _) with (errors (formatted field value required 255 (isValidEmailFormat value)
    "must be a valid email address" ErrInvalidEmail NewValidator)).
  rewrite formatted_clean.
  - unfold optional, bounded, email_address. apply or_iff_compat_l. rewrite email_format. naive_solver.
  - intros (m & d & t & -> & Hm & _ & Hd & _ & Ht & _)%email_format.
    apply Forall_app; split; [by apply (class_graphic local_chars)|]. apply Forall_cons; split; [by split|].
    apply Forall_app; split; [by apply (class_graphic domain_chars)|].
    apply Forall_cons; split; [by split|by apply (class_graphic lower_upper)].
  - intros (m & d & t & Heq & _)%email_format. apply string_nonempty. rewrite Heq. by destruct m.
Qed.

Lemma uuid_clean field value required :
  failures (CUUID field value required) = [] <-> optional required value (uuid value).
Proof.
  change (failures _) with (errors (formatted field value required 36 (isValidUUIDFormat value)
    "must be a valid UUID" ErrInvalidUUID NewValidator)).
  assert (isValidUUIDFormat value = true -> Forall graphic (bytes_of value)) as Hg.
  { intros (a & b & c & d & e & -> & Hall & _)%uuid_format. apply class_graphic in Hall; [|done].
    rewrite !Forall_app in Hall. destruct Hall as (? & ? & ? & ? & ?).
    repeat (apply Forall_app; split; [done|]; apply Forall_cons; split; [by split|]). done. }
  rewrite formatted_clean; [|done|].
  - unfold optional, bounded. apply or_iff_compat_l. rewrite <- uuid_format. split; [tauto|].
    intros Hok. split; [done|]. destruct (graphic_runes value (Hg Hok)) as [-> _].
    apply uuid_format in Hok as (a & b & c & d & e & -> & _ & ? & ? & ? & ? & ?).
    rewrite !length_app. simpl. rewrite !length_app. simpl. rewrite !length_app. simpl. rewrite !length_app. simpl. lia.
  - intros (a & b & c & d & e & Heq & _)%uuid_format. apply string_nonempty. rewrite Heq. by destruct a.
Qed.

Lemma flag_clean (b : bool) field msg err v :
  errors (if b then addError field msg err v else v) = [] <-> errors v = [] /\ b = false.
Proof. destruct b; simpl; [|tauto]. split; [by intros [_ ?]%app_eq_nil|by intros [_ ?]]. Qed.

Lemma failures_valid c : failures c = [] <-> valid c.
Proof.
  destruct c as [f s n|f s|f s n|f s n|f s r|f s|f s r|f s r|f s r|f s r|f s r|f s|f s|f n m|f n|f n lo hi|f n|p s m|f x];
    try (by apply phone_clean); try (by apply email_clean); try (by apply uuid_clean).
  - unfold failures. cbn [perform]. rewrite maxLength_clean. simpl. tauto.
  - unfold failures. cbn [perform]. rewrite required_clean. simpl. tauto.
  - apply (text_clean f s true).
  - apply (text_clean f s false).
  - apply (text_clean f s r 255).
  - apply (text_clean f s false 2000).
  - apply (text_clean f s r 10).
  - apply (text_clean f s r 10000).
  - apply (text_clean f s false 500).
  - apply (text_clean f s false 2000).
  - unfold failures. cbn [perform valid]. unfold ValidateArrayLength. rewrite !flag_clean, Z.ltb_ge. cbn. tauto.
  - unfold failures. cbn [perform valid]. unfold ValidatePositive. rewrite !flag_clean, Z.ltb_ge. cbn. tauto.
  - unfold failures. cbn [perform valid]. unfold ValidateRange. rewrite !flag_clean, orb_false_iff, !Z.ltb_ge. cbn. tauto.
  - unfold failures. cbn [perform valid]. unfold ValidatePositiveID. rewrite !flag_clean, Z.leb_gt. cbn. tauto.
  - unfold failures. cbn [perform valid]. unfold ValidatePageSize. rewrite !flag_clean, orb_false_iff, !Z.ltb_ge. cbn. tauto.
  - unfold failures. cbn [perform]. unfold ValidateAmount. rewrite flag_clean. simpl. destruct x as [| [] | |[] m e]; split; try done; by intros [_ ?].
Qed.

Lemma write_errors_app i l sb : (0 < i)%nat ->
  write_errors i l sb = sb +:+ concat_strings (map (fun e => "; " +:+ ValidationError_Error e) l).
Proof.
  revert i sb. induction l as [|e l IH]; intros i sb Hi; cbn [write_errors map concat_strings]; [by rewrite app_nil_r_str|].
  destruct (Nat.ltb_spec 0 i); [|lia]. rewrite IH by lia. by rewrite !app_assoc_str.
Qed.

(** The report is the messages of the errors, separated by semicolons. *)
Lemma ErrorString_joined e l :
  ErrorString (mkValidator (e :: l)) =
  ValidationError_Error e +:+ concat_strings (map (fun e => "; " +:+ ValidationError_Error e) l).
Proof. unfold ErrorString. cbn [errors write_errors]. by rewrite write_errors_app by lia. Qed.

Lemma HasErrors_spec v : HasErrors v = false <-> errors v = [].
Proof. unfold HasErrors. by destruct (errors v). Qed.

(** C39: a chain of validators reports no error exactly when every value it
    checks is valid: texts within their length in runes and, when required, not
    blank; phone numbers of an optional plus sign and at least seven digits,
    fifteen characters in all; e-mail addresses and UUIDs of their shape;
    numbers in their range.  Otherwise it reports an InvalidArgument status, and
    what it has collected is the errors of the failing checks in the order of
    the calls. *)
Theorem validation_exact `{GrpcStatus} cs :
  let v := chain cs NewValidator in
  (GRPCError v = None <-> Forall valid cs) /\
  (forall e, GRPCError v = Some e -> status_Code e = InvalidArgument) /\
  (Validator_Error v = None <-> Forall valid cs) /\
  Errors v = mjoin (failures <$> cs).
Proof.
  intros v. assert (errors v = mjoin (failures <$> cs)) as Hv by apply chain_appends.
  assert (errors v = [] <-> Forall valid cs) as Hiff.
  { rewrite Hv. clear. induction cs as [|c cs IH]; simpl; [split; [constructor|done]|].
    rewrite Forall_cons, <- IH, <- failures_valid.
    change (failures c ++ mjoin (failures <$> cs) = [] <-> failures c = [] /\ mjoin (failures <$> cs) = []).
    split; [apply app_eq_nil|by intros [-> ->]]. }
  unfold GRPCError, Validator_Error. split_and!; [| | |done]; rewrite <- ?Hiff.
  - rewrite <- HasErrors_spec. destruct (HasErrors v); simpl; split; done.
  - intros e. destruct (HasErrors v); simpl; [|done]. intros [= <-]. apply status_Code_Error.
  - destruct (errors v); split; done.
Qed.

(** ** Boundaries *)

(** Fifteen digits are a phone number, but not behind a plus sign. *)
Example phone_boundaries :
  failures (CPhone "phone" "123456789012345" true) = [] /\
  failures (CPhone "phone" "+12345678901234" true) = [] /\
  failures (CPhone "phone" "+123456789012345" true) =
    [mkVE "phone" "exceeds maximum length of 15 characters" ErrFieldTooLong].
Proof. by vm_compute. Qed.

(** "Positive" admits zero, and a NaN is an amount. *)
Example positive_zero : failures (CPositive "n" 0) = [] /\ failures (CAmount "price" S754_nan) = [].
Proof. done. Qed.

(** A blank value is reported once, a blank e-mail twice. *)
Example blank_email :
  ErrorString (chain [CName "name" " " true; CEmail "email" " " true; CPageSize 0 20 100] NewValidator) =
  "name: is required; email: is required; email: must be a valid email address".
Proof. by vm_compute. Qed.
