(* ===== verification/Health.v ===== *)
(** * Health checks

    src/health/health.go and checkers.go.  A checker may take time and talk to
    the world, so it is a state transformer on a world with a clock.  A body
    holds the uptime and the timestamp as values; their rendering and the JSON
    of the body are not modelled, and neither is the lock around the list of
    checkers. *)

From S2P Require Import Prelude GoError GoString.

Open Scope Z_scope.

Inductive Status := StatusOK | StatusDegraded | StatusDown.

#[export] Instance Status_eq_dec : EqDecision Status.
Proof. solve_decision. Defined.

Record CheckResult := mkCheckResult { cr_Status : Status; cr_Message : string; cr_Error : string }.

(** An absent field is one the JSON omits. *)
Record Response := mkResponse {
  rs_Status : Status;
  rs_Version : string;
  rs_Uptime : option Duration;
  rs_Timestamp : Time;
  rs_Checks : gmap string CheckResult
}.

(** What a handler writes: the status code and the body. *)
Record Reply := mkReply { rp_Code : Z; rp_Body : Response }.

Definition http_StatusOK : Z := 200.
Definition http_StatusServiceUnavailable : Z := 503.

Section Health.
Context {W : Type} (clock : W -> Time).

(** The context of a check is its deadline, if it has one. *)
Abbreviation Context_ := (option Time) (only parsing).

(** [context.WithTimeout]: the earlier of the two deadlines. *)
Definition WithTimeout (w : W) (timeout : Duration) (ctx : Context_) : Context_ :=
  Some (match ctx with Some d => Z.min d (clock w + timeout) | None => clock w + timeout end).

(** The interface [Checker]. *)
Record Checker := mkChecker { Name : string; Checker_Check : Context_ -> W -> Error * W }.

(** ** checkers.go *)

Definition wrapped (prefix : string) (r : Error * W) : Error * W := (Wrapf prefix <$> r.1, r.2).

(** [PingContext] is the database driver's. *)
Definition NewDatabaseChecker (PingContext : Context_ -> W -> Error * W) (name : string) : Checker :=
  mkChecker name (fun ctx w => wrapped "database ping failed" (PingContext (WithTimeout w (2 * Second) ctx) w)).

(** [Ping] is the Redis client's. *)
Definition NewRedisChecker (Ping : Context_ -> W -> Error * W) (name : string) : Checker :=
  mkChecker name (fun ctx w => wrapped "redis ping failed" (Ping (WithTimeout w (2 * Second) ctx) w)).

Definition NewCustomChecker (name : string) (checkFn : Context_ -> W -> Error * W) : Checker := mkChecker name checkFn.

(** [Dial] opens and closes a connection to an address. *)
Definition NewKafkaChecker (Dial : string -> Context_ -> W -> Error * W) (brokers : list string) (name : string) : Checker :=
  mkChecker name (fun ctx w =>
    match brokers with
    | [] => (None, w)
    | b :: _ => wrapped "kafka broker unreachable" (Dial b (WithTimeout w (3 * Second) ctx) w)
    end).

(** ** health.go *)

Record Health := mkHealth { checkers : list Checker; version : string; startTime : Time }.

Definition New (version : string) (w : W) : Health := mkHealth [] version (clock w).
Definition RegisterChecker (checker : Checker) (h : Health) : Health :=
  mkHealth (checkers h ++ [checker]) (version h) (startTime h).

(** The loop of [Check]. *)
Fixpoint run_checks (l : list Checker) (ctx : Context_) (checks : gmap string CheckResult) (overall : Status) (w : W)
    : gmap string CheckResult * Status * W :=
  match l with
  | [] => (checks, overall, w)
  | c :: l =>
    let (err, w) := Checker_Check c ctx w in
    match err with
    | Some e => run_checks l ctx (<[Name c := mkCheckResult StatusDown "Check failed" (ErrorText e)]> checks) StatusDegraded w
    | None => run_checks l ctx (<[Name c := mkCheckResult StatusOK "OK" ""]> checks) overall w
    end
  end.

Definition Check (h : Health) (ctx : Context_) (w : W) : Response * W :=
  let '(checks, overall, w) := run_checks (checkers h) ctx ∅ StatusOK w in
  (mkResponse overall (version h) (Some (Since (clock w) (startTime h))) (clock w) checks, w).

Definition Handler (h : Health) (ctx : Context_) (w : W) : Reply * W :=
  let (response, w) := Check h ctx w in
  let statusCode := match rs_Status response with
                    | StatusDown => http_StatusServiceUnavailable
                    | StatusDegraded => http_StatusOK
                    | StatusOK => http_StatusOK
                    end in
  (mkReply statusCode response, w).

Definition SimpleHandler (w : W) : Reply * W :=
  (mkReply http_StatusOK (mkResponse StatusOK "" None (clock w) ∅), w).

Definition LivenessHandler (h : Health) (w : W) : Reply * W :=
  (mkReply http_StatusOK (mkResponse StatusOK (version h) (Some (Since (clock w) (startTime h))) (clock w) ∅), w).

Definition not_ok (r : CheckResult) : bool := negb (bool_decide (cr_Status r = StatusOK)).

(** The range over the map stops at the first check that is not OK; which one
    that is depends on the order of the range, the reply does not. *)
Definition ReadinessHandler (h : Health) (ctx : Context_) (w : W) : Reply * W :=
  let (response, w) := Check h ctx w in
  if existsb (fun kv => not_ok kv.2) (map_to_list (rs_Checks response))
  then (mkReply http_StatusServiceUnavailable
          (mkResponse StatusDown (rs_Version response) (rs_Uptime response) (rs_Timestamp response) (rs_Checks response)), w)
  else (mkReply http_StatusOK response, w).

(** ** What the checkers answer *)

(** The answers, in the order of registration, each with its checker's name. *)
Fixpoint outcomes (l : list Checker) (ctx : Context_) (w : W) : list (string * Error) :=
  match l with
  | [] => []
  | c :: l => let (err, w) := Checker_Check c ctx w in (Name c, err) :: outcomes l ctx w
  end.

Definition result_of (e : Error) : CheckResult :=
  match e with
  | Some e => mkCheckResult StatusDown "Check failed" (ErrorText e)
  | None => mkCheckResult StatusOK "OK" ""
  end.

Definition record_outcomes (outs : list (string * Error)) (m : gmap string CheckResult) : gmap string CheckResult :=
  fold_left (fun m o => <[o.1 := result_of o.2]> m) outs m.

Definition failed (o : string * Error) : bool := bool_decide (is_Some o.2).

Lemma run_checks_outcomes l ctx m s w :
  (run_checks l ctx m s w).1 =
  (record_outcomes (outcomes l ctx w) m, if existsb failed (outcomes l ctx w) then StatusDegraded else s).
Proof.
  revert m s w. induction l as [|c l IH]; intros m s w; simpl; [done|].
  destruct (Checker_Check c ctx w) as [[e|] w']; simpl; rewrite IH; [|done]. simpl. by destruct (existsb _ _).
Qed.

(** The answer the map keeps for a name: the last one. *)
Definition kept (outs : list (string * Error)) (name : string) : option Error :=
  snd <$> last (List.filter (fun o => bool_decide (o.1 = name)) outs).

Lemma record_outcomes_lookup outs m name :
  record_outcomes outs m !! name = match kept outs name with Some e => Some (result_of e) | None => m !! name end.
Proof.
  unfold kept. induction outs as [|o outs IH] using rev_ind; [done|].
  unfold record_outcomes in *. rewrite fold_left_app. simpl. rewrite List.filter_app. simpl. case_bool_decide as E.
  - subst. by rewrite lookup_insert_eq, last_snoc.
  - rewrite lookup_insert_ne by done. by rewrite app_nil_r.
Qed.

Lemma kept_in outs name e : kept outs name = Some e -> In (name, e) outs.
Proof.
  unfold kept. intros Hk. apply fmap_Some in Hk as ([n e'] & Hl & ->). apply last_Some_elem_of, list_elem_of_In in Hl.
  apply filter_In in Hl as [Hin Hn]. simpl in Hn. by apply bool_decide_eq_true in Hn as ->.
Qed.

Lemma in_kept outs name e : List.NoDup (map fst outs) -> In (name, e) outs -> kept outs name = Some e.
Proof.
  intros Hnd Hin. apply in_split in Hin as (l1 & l2 & ->). rewrite map_app in Hnd. cbn [map fst] in Hnd.
  apply NoDup_remove_2 in Hnd. unfold kept. rewrite List.filter_app, last_app. cbn [List.filter fst].
  rewrite bool_decide_eq_true_2 by done. rewrite last_cons.
  destruct (last (List.filter _ l2)) as [[n e']|] eqn:E; [|done].
  apply last_Some_elem_of, list_elem_of_In in E. apply filter_In in E as [Hin Hn]. simpl in Hn.
  apply bool_decide_eq_true in Hn as ->. exfalso. apply Hnd, in_or_app. right. by apply (in_map fst) in Hin.
Qed.

Lemma some_not_ok (m : gmap string CheckResult) :
  existsb (fun kv => not_ok kv.2) (map_to_list m) = true <-> exists name r, m !! name = Some r /\ cr_Status r <> StatusOK.
Proof.
  rewrite existsb_exists. unfold not_ok. split.
  - intros ([name r] & Hin & Hr). apply list_elem_of_In, elem_of_map_to_list in Hin. simpl in Hr.
    exists name, r. split; [done|]. by case_bool_decide.
  - intros (name & r & Hl & Hr). exists (name, r). rewrite <- list_elem_of_In, elem_of_map_to_list. split; [done|].
    simpl. by rewrite bool_decide_eq_false_2.
Qed.

Lemma checks_lookup h ctx w name :
  rs_Checks (Check h ctx w).1 !! name = result_of <$> kept (outcomes (checkers h) ctx w) name.
Proof.
  unfold Check. pose proof (run_checks_outcomes (checkers h) ctx ∅ StatusOK w) as Hr.
  destruct (run_checks _ _ _ _ _) as [[checks overall] w']. simpl in *. injection Hr as -> _.
  rewrite record_outcomes_lookup, lookup_empty. by destruct (kept _ _).
Qed.

Lemma result_not_ok e : cr_Status (result_of e) <> StatusOK <-> e <> None.
Proof. by destruct e. Qed.

Lemma ready_iff h ctx w :
  rp_Code (ReadinessHandler h ctx w).1 = 200 <->
  (forall name e, kept (outcomes (checkers h) ctx w) name = Some e -> e = None).
Proof.
  pose proof (checks_lookup h ctx w) as Hl. unfold ReadinessHandler. destruct (Check h ctx w) as [r w']. simpl in Hl.
  destruct (existsb _ _) eqn:E; simpl.
  - apply some_not_ok in E as (name & c & Hc & Hs). split; [done|]. intros Hall. rewrite Hl in Hc.
    apply fmap_Some in Hc as (e & He & ->). apply result_not_ok in Hs. by apply Hall in He.
  - split; [|done]. intros _ name e He. destruct e as [e|]; [|done]. apply not_true_iff_false in E. exfalso. apply E.
    apply some_not_ok. exists name, (result_of (Some e)). rewrite Hl, He. done.
Qed.

Lemma Check_status h ctx w :
  rs_Status (Check h ctx w).1 = if existsb failed (outcomes (checkers h) ctx w) then StatusDegraded else StatusOK.
Proof.
  unfold Check. pose proof (run_checks_outcomes (checkers h) ctx ∅ StatusOK w) as Hr.
  destruct (run_checks _ _ _ _ _) as [[checks overall] w']. simpl in *. by injection Hr as _ ->.
Qed.

Lemma some_failed outs : existsb failed outs = true <-> exists name e, In (name, Some e) outs.
Proof.
  rewrite existsb_exists. unfold failed. split.
  - intros ([name e] & Hin & [e' He]%bool_decide_eq_true). simpl in He. subst. by exists name, e'.
  - intros (name & e & Hin). exists (name, Some e). split; [done|]. by apply bool_decide_eq_true.
Qed.

(** C40: readiness.  The service answers 200 on its readiness endpoint exactly
    when, for every name, the checker registered last under it passes; with
    distinct names, exactly when every checker passes.  The health endpoint
    answers 200 whatever the checkers say, with the status "degraded" in the
    body exactly when one of them failed; the liveness endpoint runs none of
    them. *)
Theorem readiness_exact h ctx w :
  let outs := outcomes (checkers h) ctx w in
  (rp_Code (ReadinessHandler h ctx w).1 = 200 <-> forall name e, kept outs name = Some e -> e = None) /\
  (List.NoDup (map fst outs) ->
    (rp_Code (ReadinessHandler h ctx w).1 = 200 <-> forall name e, In (name, e) outs -> e = None)) /\
  rp_Code (Handler h ctx w).1 = 200 /\
  (rs_Status (rp_Body (Handler h ctx w).1) = StatusDegraded <-> exists name e, In (name, Some e) outs) /\
  rp_Code (LivenessHandler h w).1 = 200 /\ (LivenessHandler h w).2 = w.
Proof.
  intros outs. split_and!; [apply ready_iff| | | |done|done].
  - intros Hnd. rewrite ready_iff. split.
    + intros Hall name e Hin. apply (Hall name). by apply in_kept.
    + intros Hall name e Hk. apply (Hall name). by apply kept_in.
  - pose proof (Check_status h ctx w) as Hs. unfold Handler. destruct (Check h ctx w) as [r w']. simpl in *.
    rewrite Hs. by destruct (existsb _ _).
  - rewrite <- some_failed. pose proof (Check_status h ctx w) as Hs. unfold Handler.
    destruct (Check h ctx w) as [r w']. simpl in *. rewrite Hs. fold outs. by destruct (existsb failed outs).
Qed.
End Health.

Definition down : Error := Some (GoError.New "connection refused").

(** Two checkers under one name: the second hides the failure of the first, the
    service reports itself ready and degraded. *)
Definition twins : Health :=
  RegisterChecker (NewCustomChecker "db" (fun _ w => (None, w)))
    (RegisterChecker (NewCustomChecker "db" (fun _ w => (down, w))) (Health.New (fun w : Time => w) "v1" 0)).
Example hidden_failure :
  rp_Code (ReadinessHandler (fun w => w) twins None 7).1 = 200 /\
  rs_Status (rp_Body (ReadinessHandler (fun w => w) twins None 7).1) = StatusDegraded.
Proof. by vm_compute. Qed.

(** The theorem on a service whose Kafka broker is unreachable. *)
Definition with_kafka : Health :=
  RegisterChecker (NewKafkaChecker (fun w => w) (fun _ _ w => (down, w + Second)) ["kafka:9092"] "kafka")
    (RegisterChecker (NewDatabaseChecker (fun w => w) (fun _ w => (None, w + Millisecond)) "db")
      (Health.New (fun w : Time => w) "v1" 0)).
Lemma readiness_exact_witness :
  List.NoDup (map fst (outcomes (checkers with_kafka) None 0)) /\
  ~ (rp_Code (ReadinessHandler (fun w => w) with_kafka None 0).1 = 200).
Proof.
  assert (List.NoDup (map fst (outcomes (checkers with_kafka) None 0))) as Hnd.
  { change (List.NoDup ["db"; "kafka"]). constructor; [by intros [|[]]|]. constructor; [by intros []|constructor]. }
  split; [done|]. rewrite (proj1 (proj2 (readiness_exact (fun w => w) with_kafka None 0)) Hnd).
  intros Hall. specialize (Hall "kafka" (Some (Wrapf "kafka broker unreachable" (GoError.New "connection refused")))).
  discriminate Hall. right. by left.
Defined.
