(* ===== verification/ServiceMetrics.v ===== *)
(** * Per-service HTTP and gRPC metrics

    The rest of src/metrics/metrics.go: the [Metrics] of a service, the HTTP
    middleware with its response writer and the gRPC interceptor.  Counters live
    in the registry of Metrics.v; a histogram is the list of the durations it
    observed, of which the bucket counts and the sum are functions.  The
    response writer underneath is net/http's. *)

From S2P Require Import Prelude GoError GoString Grpc GrpcServer Metrics.

Open Scope Z_scope.

Record Prometheus := mkProm { counters : registry; observations : gmap (string * list string) (list Duration) }.

Definition count (s : series) (p : Prometheus) : Prometheus := mkProm (Inc s (counters p)) (observations p).
Definition Observe (s : series) (d : Duration) (p : Prometheus) : Prometheus :=
  mkProm (counters p) (<[s := default [] (observations p !! s) ++ [d]]> (observations p)).

(** A service's [Metrics] is its name; the vectors it holds are the series
    below, with the service as their first label. *)
Record Metrics := mkMetrics { serviceName : string }.
Definition New (serviceName : string) : Metrics := mkMetrics serviceName.

Definition httpRequestsTotal (m : Metrics) (method endpoint status : string) : series :=
  ("http_requests_total", [serviceName m; method; endpoint; status]).
Definition httpRequestDuration (m : Metrics) (method endpoint : string) : series :=
  ("http_request_duration_seconds", [serviceName m; method; endpoint]).
Definition httpErrorsTotal (m : Metrics) (method endpoint error_type : string) : series :=
  ("http_errors_total", [serviceName m; method; endpoint; error_type]).
Definition grpcRequestsTotal (m : Metrics) (method status : string) : series :=
  ("grpc_requests_total", [serviceName m; method; status]).
Definition grpcRequestDuration (m : Metrics) (method : string) : series :=
  ("grpc_request_duration_seconds", [serviceName m; method]).
Definition grpcErrorsTotal (m : Metrics) (method error_code : string) : series :=
  ("grpc_errors_total", [serviceName m; method; error_code]).

Definition RecordHTTPRequest (m : Metrics) (method endpoint : string) (statusCode : Z) (duration : Duration)
    (p : Prometheus) : Prometheus :=
  let statusLabel := Itoa statusCode in
  let p := count (httpRequestsTotal m method endpoint statusLabel) p in
  let p := Observe (httpRequestDuration m method endpoint) duration p in
  if 400 <=? statusCode then
    let errorType := if 500 <=? statusCode then "server_error" else "client_error" in
    count (httpErrorsTotal m method endpoint errorType) p
  else p.

Definition RecordGRPCRequest (m : Metrics) (method statusLabel : string) (duration : Duration) (p : Prometheus) : Prometheus :=
  let p := count (grpcRequestsTotal m method statusLabel) p in
  let p := Observe (grpcRequestDuration m method) duration p in
  if negb (bool_decide (statusLabel = "OK")) then count (grpcErrorsTotal m method statusLabel) p else p.

(** ** HTTP *)

(** net/http's response: the status sent, once it is. *)
Record http_response := mkHttpResponse { sent : option Z; informational : list Z }.

(** [WriteHeader]: an informational status is sent ahead of the final one; a
    second final status is ignored. *)
Definition http_WriteHeader (code : Z) (r : http_response) : http_response :=
  match sent r with
  | Some _ => r
  | None => if (100 <=? code) && (code <=? 199) && negb (code =? 101)
            then mkHttpResponse None (informational r ++ [code])
            else mkHttpResponse (Some code) (informational r)
  end.
(** [Write] sends the status 200 when none was. *)
Definition http_Write (r : http_response) : http_response :=
  match sent r with Some _ => r | None => mkHttpResponse (Some 200) (informational r) end.

Record responseWriter := mkRW { ResponseWriter : http_response; statusCode : Z }.

Definition WriteHeader (code : Z) (rw : responseWriter) : responseWriter :=
  mkRW (http_WriteHeader code (ResponseWriter rw)) code.
(** The promoted method of the embedded writer. *)
Definition Write (rw : responseWriter) : responseWriter :=
  mkRW (http_Write (ResponseWriter rw)) (statusCode rw).

(** [Hijack], given the underlying writer's, if it is a Hijacker. *)
Definition Hijack {C : Type} (underlying : option (result error C)) : result error C :=
  match underlying with
  | Some r => r
  | None => Fail (GoError.New "underlying ResponseWriter does not implement http.Hijacker")
  end.

(** What a handler does with its writer, and whether it panics in the end. *)
Inductive http_action := AWriteHeader (code : Z) | AWrite.
Record http_run := mkHttpRun { actions : list http_action; panics : bool; took : Duration }.

Definition act (rw : responseWriter) (a : http_action) : responseWriter :=
  match a with AWriteHeader code => WriteHeader code rw | AWrite => Write rw end.

(** [HTTPMetricsMiddleware]: a panic of the handler passes through and nothing
    is recorded.  Returns what the underlying writer sent. *)
Definition HTTPMetricsMiddleware (m : Metrics) (next : http_run) (start : Time) (method path : string)
    (w : http_response) (p : Prometheus) : http_response * Prometheus :=
  let rw := fold_left act (actions next) (mkRW w 200) in
  if panics next then (ResponseWriter rw, p)
  else (ResponseWriter rw, RecordHTTPRequest m method path (statusCode rw) (Since (start + took next) start) p).

(** The status the client sees: the server sends 200 for a handler that
    returns without sending one. *)
Definition seen (r : http_response) : Z := default 200 (sent r).

(** ** gRPC *)

Section Grpc.
Context {W A : Type} (clock : W -> Time) (FromError : error -> option code).

Definition status_label (err : Error) : string :=
  match err with
  | None => "OK"
  | Some e => match FromError e with Some c => code_name c | None => "Unknown" end
  end.

Definition GRPCMetricsInterceptor (m : Metrics) (FullMethod : string) (handler : W -> outcome A * W) (w : W)
    (p : Prometheus) : outcome A * W * Prometheus :=
  let start := clock w in
  match handler w with
  | (Panicked, w) => (Panicked, w, p)
  | (Returned resp err, w) =>
      (Returned resp err, w, RecordGRPCRequest m FullMethod (status_label err) (Since (clock w) start) p)
  end.
End Grpc.

(** ** What the counters count *)

(** A recorded request. *)
Record http_record := mkHttpRecord { r_method : string; r_path : string; r_code : Z; r_took : Duration }.

Definition record_all (m : Metrics) (l : list http_record) (p : Prometheus) : Prometheus :=
  fold_left (fun p r => RecordHTTPRequest m (r_method r) (r_path r) (r_code r) (r_took r) p) l p.

Definition occurrences (f : http_record -> bool) (l : list http_record) : Z := Z.of_nat (length (List.filter f l)).

Definition same_route (method path : string) (r : http_record) : bool :=
  bool_decide (r_method r = method) && bool_decide (r_path r = path).

Definition server_errors (method path : string) (r : http_record) : bool := same_route method path r && (500 <=? r_code r).
Definition client_errors (method path : string) (r : http_record) : bool :=
  same_route method path r && (400 <=? r_code r) && (r_code r <? 500).

Lemma value_count s s' p : value (counters (count s p)) s' = value (counters p) s' + (if bool_decide (s = s') then 1 else 0).
Proof.
  unfold count. simpl. case_bool_decide as E; [subst; by rewrite value_Inc_eq|rewrite value_Inc_ne by done; lia].
Qed.

Lemma route_series (m : Metrics) (name : string) method path label method' path' label' :
  bool_decide ((name, [serviceName m; method; path; label]) = (name, [serviceName m; method'; path'; label'])) =
  bool_decide (method = method') && bool_decide (path = path') && bool_decide (label = label').
Proof. repeat case_bool_decide; simplify_eq/=; done. Qed.

Lemma other_series (n n' : string) (l l' : list string) : n <> n' -> bool_decide ((n, l) = (n', l')) = false.
Proof. intros. apply bool_decide_eq_false_2. congruence. Qed.

Lemma counters_Observe s d p : counters (Observe s d p) = counters p.
Proof. done. Qed.

Lemma labels_ne : bool_decide ("client_error" = "server_error") = false.
Proof. done. Qed.
Lemma labels_ne' : bool_decide ("server_error" = "client_error") = false.
Proof. done. Qed.
Lemma labels_eq (s : string) : bool_decide (s = s) = true.
Proof. by apply bool_decide_eq_true. Qed.

Lemma occurrences_cons f r l : occurrences f (r :: l) = (if f r then 1 else 0) + occurrences f l.
Proof. unfold occurrences. simpl. destruct (f r); simpl; lia. Qed.

(** The counters of a route after any requests: as many as have the status; one
    client error per status from 400 to 499 and one server error from 500 on. *)
Theorem http_counters_exact m l p method path code :
  let c := counters (record_all m l p) in
  value c (httpRequestsTotal m method path (Itoa code)) =
    value (counters p) (httpRequestsTotal m method path (Itoa code)) +
    occurrences (fun r => same_route method path r && (r_code r =? code)) l /\
  value c (httpErrorsTotal m method path "client_error") =
    value (counters p) (httpErrorsTotal m method path "client_error") + occurrences (client_errors method path) l /\
  value c (httpErrorsTotal m method path "server_error") =
    value (counters p) (httpErrorsTotal m method path "server_error") + occurrences (server_errors method path) l.
Proof.
  revert p. induction l as [|r l IH]; intros p; [unfold occurrences; simpl; lia|].
  cbn [record_all fold_left]. destruct (IH (RecordHTTPRequest m (r_method r) (r_path r) (r_code r) (r_took r) p)) as (H1 & H2 & H3).
  clear IH. simpl in *. unfold record_all in *. rewrite H1, H2, H3, !occurrences_cons. clear H1 H2 H3.
  assert (bool_decide (Itoa (r_code r) = Itoa code) = (r_code r =? code)) as Hc.
  { case_bool_decide as E; [|by destruct (Z.eqb_spec (r_code r) code); subst]. apply (inj pretty) in E. by rewrite E, Z.eqb_refl. }
  unfold RecordHTTPRequest, client_errors, server_errors, same_route.
  destruct (Z.leb_spec 400 (r_code r)), (Z.leb_spec 500 (r_code r)), (Z.ltb_spec (r_code r) 500); try lia;
  rewrite ?value_count, ?counters_Observe, ?value_count; unfold httpRequestsTotal, httpErrorsTotal;
  rewrite ?route_series, ?other_series by done; rewrite ?Hc, ?labels_ne, ?labels_ne', ?labels_eq;
  destruct (bool_decide (r_method r = method)), (bool_decide (r_path r = path)), (r_code r =? code); simpl; lia.
Qed.

(** ** The status recorded and the status sent *)

Definition one_header (l : list http_action) : Prop :=
  match l with
  | AWriteHeader code :: l => 200 <= code /\ Forall (fun a => a = AWrite) l
  | l => Forall (fun a => a = AWrite) l
  end.

Lemma writes_keep l rw : Forall (fun a => a = AWrite) l ->
  statusCode (fold_left act l rw) = statusCode rw /\
  (forall c, sent (ResponseWriter rw) = Some c -> sent (ResponseWriter (fold_left act l rw)) = Some c) /\
  (seen (ResponseWriter rw) = 200 -> seen (ResponseWriter (fold_left act l rw)) = 200).
Proof.
  intros Hl. revert rw. induction Hl as [|a l -> _ IH]; intros rw; simpl; [done|].
  destruct (IH (Write rw)) as (Hs & Hk & H200). split_and!; [done| |].
  - intros c Hc. apply Hk. simpl. unfold http_Write. by rewrite Hc.
  - intros Hsn. apply H200. unfold seen, Write, http_Write in *. simpl. by destruct (sent (ResponseWriter rw)) eqn:E; rewrite ?E.
Qed.

(** For a handler that sets the status once, before the body, the status counted
    is the status the client sees. *)
Lemma status_recorded l : one_header l ->
  let rw := fold_left act l (mkRW (mkHttpResponse None []) 200) in statusCode rw = seen (ResponseWriter rw).
Proof.
  intros Hl. destruct l as [|[code|] l]; [done| |].
  - destruct Hl as [Hc Hl]. cbn [fold_left act]. set (rw := WriteHeader _ _).
    destruct (writes_keep l rw Hl) as (-> & Hk & _). unfold seen. rewrite (Hk code); [done|].
    subst rw. unfold WriteHeader, http_WriteHeader. simpl. rewrite (proj2 (Z.leb_gt code 199)) by lia.
    by rewrite andb_false_r.
  - intros rw. destruct (writes_keep _ (mkRW (mkHttpResponse None []) 200) Hl) as (Hs & _ & H200). unfold rw. by rewrite Hs, H200.
Qed.

(** A second WriteHeader is ignored by the server but recorded: the client sees
    200, the metrics a server error. *)
Example superfluous_header :
  let rw := fold_left act [AWrite; AWriteHeader 500] (mkRW (mkHttpResponse None []) 200) in
  seen (ResponseWriter rw) = 200 /\ statusCode rw = 500.
Proof. done. Qed.
