(* ===== verification/I18n.v ===== *)
(** * Localized messages

    src/i18n/i18n.go and middleware.go.  Messages are held per language; a
    lookup falls back to Russian and then to the key.  The embedded file system and [fmt.Sprintf] are parameters; the lock and the
    sync.Once around the default translator are not modelled. *)

From Stdlib Require Import Ascii.
From S2P Require Import Prelude GoError GoString GoJson GoJsonString GoJsonMap.

Open Scope Z_scope.

Definition DefaultLang : string := "ru".
Definition SupportedLangs : list string := ["ru"; "kk"; "en"].

Abbreviation messages_map := (gmap string string) (only parsing).
Record Translator := mkTranslator { messages : gmap string (gmap string string) }.

Definition New : Translator := mkTranslator ∅.

(** ** Loading messages *)

Definition SetMessages (lang : string) (new : messages_map) (t : Translator) : Translator :=
  mkTranslator (<[lang := new ∪ default ∅ (messages t !! lang)]> (messages t)).

(** The Russian messages. *)
Definition messages_ru : list (string * string) :=
  [("internal_error", "Внутренняя ошибка сервера");
   ("not_found", "Не найдено");
   ("unauthorized", "Необходима авторизация");
   ("forbidden", "Доступ запрещен");
   ("bad_request", "Неверный запрос");
   ("validation_error", "Ошибка валидации");
   ("rate_limit_exceeded", "Превышен лимит запросов");
   ("invalid_phone", "Неверный формат номера телефона");
   ("invalid_code", "Неверный код подтверждения");
   ("code_expired", "Код подтверждения истек");
   ("code_too_soon", "Подождите перед повторным запросом кода");
   ("token_expired", "Токен истек");
   ("invalid_token", "Неверный токен");
   ("user_not_found", "Пользователь не найден");
   ("user_already_exists", "Пользователь уже существует");
   ("profile_incomplete", "Профиль не заполнен");
   ("car_not_found", "Автомобиль не найден");
   ("invalid_year", "Неверный год выпуска");
   ("invalid_mileage", "Неверный пробег");
   ("invalid_vin", "Неверный VIN код");
   ("invalid_license_plate", "Неверный госномер");
   ("invalid_document_type", "Неверный тип документа");
   ("invalid_service_type", "Неверный тип услуги");
   ("invalid_reminder_type", "Неверный тип напоминания");
   ("mark_required", "Выберите марку автомобиля");
   ("model_required", "Выберите модель автомобиля");
   ("year_required", "Укажите год выпуска");
   ("document_not_found", "Документ не найден");
   ("reminder_not_found", "Напоминание не найдено");
   ("service_record_not_found", "Запись о сервисе не найдена");
   ("photo_not_found", "Фото не найдено");
   ("mark_id_required", "Укажите ID марки");
   ("model_id_required", "Укажите ID модели");
   ("platform_required", "Укажите платформу (ios, android)");
   ("organization_not_found", "Организация не найдена");
   ("already_member", "Вы уже являетесь участником");
   ("invalid_invite_code", "Неверный код приглашения");
   ("request_type.repair", "Ремонт");
   ("request_type.parts", "Запчасти");
   ("request_type.unknown", "Неизвестный тип");
   ("request_status.moderation", "На модерации");
   ("request_status.published", "Активная");
   ("request_status.completed", "Завершена");
   ("request_status.paused", "Приостановлена");
   ("request_status.unknown", "Неизвестный статус")].

(** The Kazakh messages. *)
Definition messages_kk : list (string * string) :=
  [("internal_error", "Сервердің ішкі қатесі");
   ("not_found", "Табылмады");
   ("unauthorized", "Авторизация қажет");
   ("forbidden", "Кіруге тыйым салынған");
   ("bad_request", "Қате сұраныс");
   ("validation_error", "Валидация қатесі");
   ("rate_limit_exceeded", "Сұраныс шегі асып кетті");
   ("invalid_phone", "Телефон нөмірінің форматы қате");
   ("invalid_code", "Растау коды қате");
   ("code_expired", "Растау кодының мерзімі өтті");
   ("code_too_soon", "Кодты қайта сұрау алдында күтіңіз");
   ("token_expired", "Токеннің мерзімі өтті");
   ("invalid_token", "Қате токен");
   ("user_not_found", "Пайдаланушы табылмады");
   ("user_already_exists", "Пайдаланушы бар");
   ("profile_incomplete", "Профиль толтырылмаған");
   ("car_not_found", "Автокөлік табылмады");
   ("invalid_year", "Шығарылған жылы қате");
   ("invalid_mileage", "Жүгіріс қате");
   ("invalid_vin", "VIN коды қате");
   ("invalid_license_plate", "Мемлекеттік нөмір қате");
   ("mark_required", "Автокөлік маркасын таңдаңыз");
   ("model_required", "Автокөлік моделін таңдаңыз");
   ("year_required", "Шығарылған жылын көрсетіңіз");
   ("photo_not_found", "Фото табылмады");
   ("mark_id_required", "Марка ID көрсетіңіз");
   ("model_id_required", "Модель ID көрсетіңіз");
   ("platform_required", "Платформаны көрсетіңіз (ios, android)");
   ("request_type.repair", "Жөндеу");
   ("request_type.parts", "Қосалқы бөлшектер");
   ("request_type.unknown", "Белгісіз тип");
   ("request_status.moderation", "Модерацияда");
   ("request_status.published", "Белсенді");
   ("request_status.completed", "Аяқталған");
   ("request_status.paused", "Тоқтатылған");
   ("request_status.unknown", "Белгісіз мәртебе")].

(** The English messages. *)
Definition messages_en : list (string * string) :=
  [("internal_error", "Internal server error");
   ("not_found", "Not found");
   ("unauthorized", "Authorization required");
   ("forbidden", "Access denied");
   ("bad_request", "Bad request");
   ("validation_error", "Validation error");
   ("rate_limit_exceeded", "Rate limit exceeded");
   ("invalid_phone", "Invalid phone number format");
   ("invalid_code", "Invalid verification code");
   ("code_expired", "Verification code expired");
   ("code_too_soon", "Please wait before requesting a new code");
   ("token_expired", "Token expired");
   ("invalid_token", "Invalid token");
   ("user_not_found", "User not found");
   ("user_already_exists", "User already exists");
   ("profile_incomplete", "Profile incomplete");
   ("car_not_found", "Car not found");
   ("invalid_year", "Invalid year");
   ("invalid_mileage", "Invalid mileage");
   ("invalid_vin", "Invalid VIN code");
   ("invalid_license_plate", "Invalid license plate");
   ("invalid_document_type", "Invalid document type");
   ("invalid_service_type", "Invalid service type");
   ("invalid_reminder_type", "Invalid reminder type");
   ("mark_required", "Please select a car mark");
   ("model_required", "Please select a car model");
   ("year_required", "Please specify the year");
   ("document_not_found", "Document not found");
   ("reminder_not_found", "Reminder not found");
   ("service_record_not_found", "Service record not found");
   ("photo_not_found", "Photo not found");
   ("mark_id_required", "Mark ID is required");
   ("model_id_required", "Model ID is required");
   ("platform_required", "Platform is required (ios, android)");
   ("organization_not_found", "Organization not found");
   ("already_member", "You are already a member");
   ("invalid_invite_code", "Invalid invite code");
   ("request_type.repair", "Repair");
   ("request_type.parts", "Parts");
   ("request_type.unknown", "Unknown type");
   ("request_status.moderation", "Under review");
   ("request_status.published", "Active");
   ("request_status.completed", "Completed");
   ("request_status.paused", "Paused");
   ("request_status.unknown", "Unknown status")].

Definition LoadDefaults (t : Translator) : Translator :=
  let t := SetMessages "ru" (list_to_map messages_ru) t in
  let t := SetMessages "kk" (list_to_map messages_kk) t in
  SetMessages "en" (list_to_map messages_en) t.

Definition Default : Translator := LoadDefaults New.

Definition LoadFromJSON (lang data : string) (t : Translator) : Error * Translator :=
  match map_Unmarshal data with
  | Fail e => (Some (Wrapf "unmarshal messages" e), t)
  | Ok msgs => (None, SetMessages lang msgs t)
  end.

Section Loading.
(** A directory entry: its name, and whether it is a directory. *)
Context (ReadFile : string -> result error string).

(** The loop of [LoadFromFS]: files loaded before an error stay loaded. *)
Fixpoint load_files (files : list (string * bool)) (t : Translator) : Error * Translator :=
  match files with
  | [] => (None, t)
  | (name, isDir) :: files =>
    if isDir then load_files files t
    else if negb (HasSuffix name ".json") then load_files files t
    else
      let lang := TrimSuffix name ".json" in
      match ReadFile name with
      | Fail e => (Some (Wrapf ("read file " +:+ name) e), t)
      | Ok data =>
        match LoadFromJSON lang data t with
        | (Some e, t) => (Some (Wrapf ("load " +:+ lang) e), t)
        | (None, t) => load_files files t
        end
      end
  end.

(** The pattern is not looked at. *)
Definition LoadFromFS (ReadDir : result error (list (string * bool))) (pattern : string) (t : Translator)
    : Error * Translator :=
  match ReadDir with
  | Fail e => (Some (Wrapf "read dir" e), t)
  | Ok files => load_files files t
  end.
End Loading.

(** ** Languages *)

(** [lang[:idx]] at the first byte that is a dash or an underscore, when there
    is one and it is not the first byte. *)
Fixpoint before_any (s : string) : option string :=
  match s with
  | EmptyString => None
  | String a s => if Ascii.eqb a "-" || Ascii.eqb a "_" then Some "" else String a <$> before_any s
  end.

Definition base_lang (lang : string) : string :=
  match before_any lang with
  | Some (String _ _ as base) => base
  | _ => lang
  end.

Section Lang.
Context `{Unicode}.

Definition normalizeLang (lang : string) : string :=
  if bool_decide (lang = "") then DefaultLang
  else
    let lang := base_lang (ToLower lang) in
    if existsb (fun supported => bool_decide (lang = supported)) SupportedLangs then lang else DefaultLang.

(** The loop of [ParseAcceptLanguage]. *)
Fixpoint first_match (parts : list string) : string :=
  match parts with
  | [] => DefaultLang
  | part :: parts =>
    let lang := TrimSpace (default "" (head (Split ";" part))) in
    let normalized := normalizeLang lang in
    if negb (bool_decide (normalized = DefaultLang)) || bool_decide (lang = DefaultLang) then normalized
    else first_match parts
  end.

Definition ParseAcceptLanguage (header : string) : string :=
  if bool_decide (header = "") then DefaultLang else first_match (Split "," header).

(** The value of a context under [langContextKey]. *)
Definition ContextWithLang (ctx : option string) (lang : string) : option string := Some (normalizeLang lang).
Definition LangFromContext (ctx : option string) : string :=
  match ctx with Some lang => lang | None => DefaultLang end.

(** ** Translating *)

Definition lookup_message (t : Translator) (lang key : string) : option string :=
  match messages t !! lang with Some msgs => msgs !! key | None => None end.

Definition Translator_T (t : Translator) (lang key : string) : string :=
  let lang := normalizeLang lang in
  match lookup_message t lang key with
  | Some msg => msg
  | None =>
    if negb (bool_decide (lang = DefaultLang)) then
      match lookup_message t DefaultLang key with Some msg => msg | None => key end
    else key
  end.

Definition Translator_TF {A} (Sprintf : string -> list A -> string) (t : Translator) (lang key : string) (args : list A)
    : string :=
  let msg := Translator_T t lang key in
  match args with [] => msg | _ => Sprintf msg args end.

Definition T (lang key : string) : string := Translator_T Default lang key.
Definition TF {A} (Sprintf : string -> list A -> string) (lang key : string) (args : list A) : string :=
  Translator_TF Sprintf Default lang key args.

(** ** Facts *)

Lemma normalizeLang_supported lang : In (normalizeLang lang) SupportedLangs.
Proof.
  unfold normalizeLang. case_bool_decide; [by left|].
  destruct (existsb _ _) eqn:E; [|by left]. apply existsb_exists in E as (s & Hin & Hs). by apply bool_decide_eq_true in Hs as ->.
Qed.

(** A language a context holds is one it can be normalized to. *)
Lemma normalizeLang_fixed lang : In lang SupportedLangs -> normalizeLang lang = lang.
Proof. by intros [<-|[<-|[<-|[]]]]. Qed.

Lemma normalizeLang_idem lang : normalizeLang (normalizeLang lang) = normalizeLang lang.
Proof. apply normalizeLang_fixed, normalizeLang_supported. Qed.

Lemma ParseAcceptLanguage_supported header : In (ParseAcceptLanguage header) SupportedLangs.
Proof.
  unfold ParseAcceptLanguage. case_bool_decide; [by left|]. induction (Split "," header) as [|p ps IH]; [by left|].
  cbn [first_match]. destruct (_ || _); [apply normalizeLang_supported|apply IH].
Qed.

Lemma lookup_SetMessages lang new t lang' key :
  lookup_message (SetMessages lang new t) lang' key =
  if bool_decide (lang = lang') then match new !! key with Some m => Some m | None => lookup_message t lang' key end
  else lookup_message t lang' key.
Proof.
  unfold lookup_message, SetMessages. simpl. case_bool_decide as E.
  - subst. rewrite lookup_insert_eq, lookup_union. destruct (messages t !! lang') as [old|]; simpl.
    + by destruct (new !! key), (old !! key).
    + rewrite lookup_empty. by destruct (new !! key).
  - by rewrite lookup_insert_ne.
Qed.

(** A lookup answers in the language, else in Russian, else with the key. *)
Lemma T_fallback t lang key :
  Translator_T t lang key =
  default (default key (lookup_message t DefaultLang key)) (lookup_message t (normalizeLang lang) key).
Proof.
  unfold Translator_T. destruct (lookup_message t (normalizeLang lang) key) eqn:E; [done|]. simpl.
  case_bool_decide as Hd; simpl; [rewrite <- Hd, E|]; by destruct (lookup_message t DefaultLang key).
Qed.

Lemma T_SetMessages lang new t key msg : In lang SupportedLangs -> new !! key = Some msg ->
  Translator_T (SetMessages lang new t) lang key = msg.
Proof.
  intros Hl Hn. rewrite T_fallback, (normalizeLang_fixed lang Hl), (lookup_SetMessages lang new t lang), (bool_decide_eq_true_2 (lang = lang)) by done.
  by rewrite Hn.
Qed.

(** A file of messages is loaded as it was written: its texts are shown in its
    language, also where an older message had the key, and a text that is not
    JSON, or has a value that is no string, changes nothing. *)
Lemma LoadFromJSON_shows lang m t : In lang SupportedLangs -> map_text m ->
  exists t', LoadFromJSON lang (print (map_json m)) t = (None, t') /\
    (forall key msg, m !! key = Some msg -> Translator_T t' lang key = msg) /\
    (forall lang' key, m !! key = None \/ lang <> lang' -> lookup_message t' lang' key = lookup_message t lang' key).
Proof.
  intros Hl Hm. eexists. unfold LoadFromJSON. rewrite map_roundtrip by done. split; [done|]. split.
  - intros key msg Hk. by apply T_SetMessages.
  - intros lang' key Hk. rewrite lookup_SetMessages. case_bool_decide; [|done]. destruct Hk as [->|]; done.
Qed.

Lemma LoadFromJSON_error lang data t e t' : LoadFromJSON lang data t = (Some e, t') -> t' = t.
Proof. unfold LoadFromJSON. destruct (map_Unmarshal data); intros Hx; by simplify_eq. Qed.
End Lang.

(** ** The default messages *)

(** Every key of the English and the Kazakh messages has a Russian one, so no
    user of the default translator sees a key for which there is a message. *)
Lemma default_keys_covered :
  Forall (fun e => is_Some ((list_to_map messages_ru : gmap string string) !! e)) (map fst messages_kk ++ map fst messages_en).
Proof. apply (bool_decide_unpack _). by vm_compute. Qed.

Definition shown (lang key : string) : string :=
  default (default key (lookup_message Default DefaultLang key)) (lookup_message Default lang key).

Lemma shown_all :
  forallb (fun lang => forallb (fun e => negb (String.eqb (shown lang e.1) e.1)) messages_ru) SupportedLangs = true.
Proof. by vm_compute. Qed.

(** In any language, every key of the defaults is shown as a message. *)
Lemma defaults_translated `{Unicode} lang key : In key (map fst messages_ru) -> T lang key <> key.
Proof.
  intros Hk. apply in_map_iff in Hk as (e & <- & He). unfold T. rewrite T_fallback.
  pose proof shown_all as Ha. rewrite forallb_forall in Ha. specialize (Ha _ (normalizeLang_supported lang)).
  rewrite forallb_forall in Ha. specialize (Ha e He). apply negb_true_iff in Ha. by apply String.eqb_neq in Ha.
Qed.

(** The first language listed wins only when it is written plainly: a Russian
    locale loses to the next supported language. *)
Example russian_locale_skipped `{Unicode} :
  ParseAcceptLanguage "ru-RU,ru;q=0.9,en;q=0.8" = "ru" /\ ParseAcceptLanguage "ru-RU,en;q=0.8" = "en".
Proof. done. Qed.
