(* ===== verification/Ws.v ===== *)
(** * WebSocket authentication and upgrades

    src/ws: the token of an upgrade request, its authentication against any
    verifier of package jwt, the origin check and the settings of the upgrader.
    A request is the one of HttpGuards.v, its header names canonical ([Get]
    canonicalizes "Sec-WebSocket-Protocol"); gorilla's upgrader itself is not
    modelled. *)

From Stdlib Require Import Ascii.
From S2P Require Import Prelude GoError GoString Jwks Jwt JwtSecurity HttpGuards.

Open Scope Z_scope.

(** ** [strings.Fields] *)

(** [cur] holds the bytes of the field under way. *)
Fixpoint fields (l : list (Z * string)) (cur : string) : list string :=
  match l with
  | [] => if bool_decide (cur = "") then [] else [cur]
  | c :: l =>
    if chunk_space c then (if bool_decide (cur = "") then fields l "" else cur :: fields l "")
    else fields l (cur +:+ c.2)
  end.
Definition Fields (s : string) : list string := fields (chunks s) "".

(** ** auth.go *)

Definition ExtractToken `{Unicode} (r : HttpRequest) : string :=
  let protocols := GetHeader r "Sec-Websocket-Protocol" in
  let subprotocol :=
    if negb (bool_decide (protocols = "")) then
      match Split "," protocols with
      | [p0; p1] => if bool_decide (TrimSpace p0 = "access_token") then Some (TrimSpace p1) else None
      | _ => None
      end
    else None in
  match subprotocol with
  | Some token => token
  | None =>
    match Fields (GetHeader r "Authorization") with
    | [scheme; token] => if EqualFold scheme "Bearer" then token else ""
    | _ => ""
    end
  end.

Section Auth.
Context `{Unicode} {V : Type} `{Verifier V}.

Record Authenticator := mkAuthenticator { jwtManager : V }.
Definition NewAuthenticator (v : V) : Authenticator := mkAuthenticator v.

Definition ExtractUserID (a : Authenticator) (now : Time) (r : HttpRequest) (w : W) : result error Z * W :=
  let tokenStr := ExtractToken r in
  if bool_decide (tokenStr = "") then (Fail (New "token not found"), w)
  else
    match ver_ValidateAccessToken (jwtManager a) now tokenStr w with
    | (Fail e, w) => (Fail (Wrapf "invalid token" e), w)
    | (Ok claims, w) =>
        if UserID claims =? 0 then (Fail (New "user_id not found in token claims"), w) else (Ok (UserID claims), w)
    end.
End Auth.

(** ** config.go *)

Record Config := mkConfig {
  ws_Host : string; ws_Port : Z; ReadBufferSize : Z; WriteBufferSize : Z;
  PingPeriod : Duration; PongWait : Duration; WriteWait : Duration; MaxMessageSize : Z
}.

Definition DefaultConfig : Config :=
  mkConfig "0.0.0.0" 8081 1024 1024 (30 * Second) (60 * Second) (10 * Second) (512 * 1024).

(** ** upgrader.go *)

(** The package's list of allowed origins. *)
Abbreviation origins := (list string) (only parsing).
Definition allowedOrigins : origins := ["https://ctogram.kz"; "https://app.ctogram.kz"].
Definition SetAllowedOrigins (new : list string) (_ : origins) : origins := new.
Definition GetAllowedOrigins (o : origins) : list string := o.

Definition CheckOrigin (o : origins) (r : HttpRequest) : bool :=
  let origin := GetHeader r "Origin" in
  if bool_decide (origin = "") then true
  else existsb (fun allowed => bool_decide (origin = allowed)) o.

(** The upgrader checks origins against the list at the time of the request. *)
Record Upgrader := mkUpgrader { up_Read : Z; up_Write : Z; up_CheckOrigin : origins -> HttpRequest -> bool }.

Definition NewUpgrader (cfg : Config) : Upgrader :=
  let readBufSize := if ReadBufferSize cfg =? 0 then 1024 else ReadBufferSize cfg in
  let writeBufSize := if WriteBufferSize cfg =? 0 then 1024 else WriteBufferSize cfg in
  mkUpgrader readBufSize writeBufSize CheckOrigin.
Definition DefaultUpgrader : Upgrader := NewUpgrader DefaultConfig.

(** ** Facts *)

(** The token depends on two headers, never on the URL. *)
Lemma token_from_headers `{Unicode} r r' :
  GetHeader r "Sec-Websocket-Protocol" = GetHeader r' "Sec-Websocket-Protocol" ->
  GetHeader r "Authorization" = GetHeader r' "Authorization" -> ExtractToken r = ExtractToken r'.
Proof. unfold ExtractToken. by intros -> ->. Qed.

Definition no_space (s : string) : Prop := Forall (fun c => chunk_space c = false) (chunks s).

Lemma fields_word l cur : Forall (fun c => chunk_space c = false) l ->
  fields l cur = if bool_decide (cur +:+ concat_strings (map snd l) = "") then [] else [cur +:+ concat_strings (map snd l)].
Proof.
  intros Hl. revert cur. induction Hl as [|c l Hc _ IH]; intros cur; simpl; [by rewrite app_nil_r_str|].
  by rewrite Hc, IH, app_assoc_str.
Qed.

Lemma Fields_word s : no_space s -> s <> "" -> Fields s = [s].
Proof. intros Hs Hne. unfold Fields. rewrite fields_word by done. simpl. rewrite chunks_concat. by rewrite bool_decide_eq_false_2. Qed.

Lemma fields_app_space s t : is_ascii s = true -> no_space s -> s <> "" ->
  Fields (s +:+ " " +:+ t) = s :: Fields t.
Proof.
  intros Ha Hs Hne. unfold Fields. rewrite chunks_app_ascii by done.
  change (chunks (" " +:+ t)) with ((32, " ") :: chunks t).
  assert (forall l cur, Forall (fun c => chunk_space c = false) l -> cur +:+ concat_strings (map snd l) <> "" ->
    fields (l ++ (32, " ") :: chunks t) cur = (cur +:+ concat_strings (map snd l)) :: fields (chunks t) "") as H.
  { intros l cur Hl. revert cur. induction Hl as [|c l Hc _ IH]; intros cur; cbn [app fields map concat_strings].
    - rewrite app_nil_r_str. intros Hcur. change (chunk_space (32, " ")) with true. cbn. by rewrite bool_decide_eq_false_2.
    - rewrite Hc. intros Hcur. rewrite IH by (by rewrite app_assoc_str). by rewrite app_assoc_str. }
  rewrite H; [simpl; by rewrite chunks_concat|done|]. simpl. by rewrite chunks_concat.
Qed.

(** A bearer token is found whatever the case of its scheme. *)
Lemma bearer_token `{Unicode} r scheme token :
  GetHeader r "Sec-Websocket-Protocol" = "" -> GetHeader r "Authorization" = scheme +:+ " " +:+ token ->
  In scheme ["Bearer"; "bearer"; "BEARER"] -> no_space token -> token <> "" ->
  ExtractToken r = token.
Proof.
  intros Hp Ha Hs Ht Hne. unfold ExtractToken. rewrite Hp, Ha, (bool_decide_eq_true_2 ("" = "")) by done. cbn [negb].
  rewrite fields_app_space, Fields_word by (done || by destruct Hs as [<-|[<-|[<-|[]]]]; repeat constructor).
  by destruct Hs as [<-|[<-|[<-|[]]]].
Qed.

(** A connection is attributed to a user only on an access token the verifier
    parses, for that user and never for user 0. *)
Theorem ws_user_authenticated `{Unicode} {V} `{VerifierLaws V} (a : Authenticator) now r w uid w' :
  ExtractUserID a now r w = (Ok uid, w') ->
  uid <> 0 /\ exists cl, ver_Parse (jwtManager a) now (ExtractToken r) w = (Ok cl, w') /\
    TokenType cl = TokenTypeAccess /\ UserID cl = uid.
Proof.
  unfold ExtractUserID. case_bool_decide; [done|].
  destruct (ver_ValidateAccessToken _ _ _ _) as [[cl|e] w1] eqn:E; [|done].
  destruct (Z.eqb_spec (UserID cl) 0); [done|]. intros Hq. simplify_eq.
  apply access_sound in E as [Hp Ht]. split; [done|]. by exists cl.
Qed.

(** A request that names an origin passes only with a listed one. *)
Lemma CheckOrigin_spec o r : CheckOrigin o r = true <-> GetHeader r "Origin" = "" \/ In (GetHeader r "Origin") o.
Proof.
  unfold CheckOrigin. case_bool_decide as E; [tauto|]. rewrite existsb_exists. split.
  - intros (x & Hx & Heq). apply bool_decide_eq_true in Heq as ->. by right.
  - intros [|Hin]; [done|]. exists (GetHeader r "Origin"). split; [done|]. by apply bool_decide_eq_true.
Qed.

(** The two forms side by side: the subprotocol pair comes first. *)
Example token_priority `{Unicode} :
  ExtractToken (mkHttpRequest "/ws" {[ "Sec-Websocket-Protocol" := "access_token, abc"; "Authorization" := "Bearer xyz" ]}
    "" "" None (mkReader "" None)) = "abc" /\
  ExtractToken (mkHttpRequest "/ws" {[ "Sec-Websocket-Protocol" := "access_token"; "Authorization" := "bearer  xyz" ]}
    "" "" None (mkReader "" None)) = "xyz".
Proof. done. Qed.
