(* ===== verification/PushPublisher.v ===== *)
(** * Push notifications

    src/pushpublisher/pushpublisher.go: the payload of a push notification, its
    JSON and its best-effort publication through a Kafka producer.  Logging of
    failures is left out. *)

From S2P Require Import Prelude GoError GoString GoJson GoJsonString GoJsonMap Metrics Kafka.

Open Scope Z_scope.

Definition topicPush : string := "notification.push".

Definition PushSchemaKey : string := "schema".
Definition PushSchemaVersionKey : string := "schema_version".
Definition PushRouteKey : string := "route".
Definition PushSchema : string := "ctogram.push.v1".
Definition PushSchemaVersion : string := "1".

Inductive Route :=
| RouteClientRequestResponses | RouteClientPartsRequestDetail | RoutePartnerRequestDetail
| RoutePartnerOrderDetail | RouteChatDetail | RoutePartnerOrganizationReviews | RouteOther (s : string).

Definition route_string (r : Route) : string :=
  match r with
  | RouteClientRequestResponses => "client.request.responses"
  | RouteClientPartsRequestDetail => "client.parts_request.detail"
  | RoutePartnerRequestDetail => "partner.request.detail"
  | RoutePartnerOrderDetail => "partner.order.detail"
  | RouteChatDetail => "chat.detail"
  | RoutePartnerOrganizationReviews => "partner.organization.reviews"
  | RouteOther s => s
  end.

Definition reserved (key : string) : bool :=
  bool_decide (key = PushSchemaKey) || bool_decide (key = PushSchemaVersionKey) || bool_decide (key = PushRouteKey).

(** The range over the caller's values copies all but the reserved keys. *)
Definition RouteData (route : Route) (values : gmap string string) : gmap string string :=
  let data := filter (fun kv => reserved kv.1 = false) values in
  let data := <[PushSchemaKey := PushSchema]> data in
  let data := <[PushSchemaVersionKey := PushSchemaVersion]> data in
  <[PushRouteKey := route_string route]> data.

Definition AppClient : string := "client".
Definition AppPartner : string := "partner".
Definition AppsClient : list string := [AppClient].
Definition AppsPartner : list string := [AppPartner].
Definition AppsBoth : list string := [AppClient; AppPartner].

Record Event := mkEvent {
  ev_UserID : Z;
  ev_EventType : string;
  ev_Title : string;
  ev_Body : string;
  ev_Data : gmap string string;
  ev_Priority : string;
  ev_DedupKey : string;
  ev_TargetApps : list string
}.

(** [json.Marshal(event)]: the fields in the order of the struct. *)
Definition event_json (e : Event) : json :=
  JObj ([("user_id", JNum (Itoa (ev_UserID e))); ("event_type", jstr (ev_EventType e)); ("title", jstr (ev_Title e));
         ("body", jstr (ev_Body e))] ++
        omit (bool_decide (ev_Data e = ∅)) ("data", map_json (ev_Data e)) ++
        omit (bool_decide (ev_Priority e = "")) ("priority", jstr (ev_Priority e)) ++
        omit (bool_decide (ev_DedupKey e = "")) ("dedup_key", jstr (ev_DedupKey e)) ++
        omit (bool_decide (ev_TargetApps e = [])) ("target_apps", list_json (ev_TargetApps e))).

Definition event_Marshal (e : Event) : result error string := Ok (print (event_json e)).

(** A nil producer makes a publisher that does nothing. *)
Record Publisher := mkPublisher { producer : option Producer }.
Definition New (p : option Producer) : Publisher := mkPublisher p.

Section Publish.
Context (WriteMessages : Writer -> Message -> Error).

Definition push_key (e : Event) : string := "push:" +:+ Itoa (ev_UserID e).

(** Errors are logged and dropped: the caller sees none. *)
Definition Publish (now : Time) (e : Event) (p : Publisher) (b : Broker) : Broker :=
  match producer p with
  | None => b
  | Some k => (PublishJSON event_Marshal WriteMessages now (push_key e) e k b).2
  end.

(** [now] gives the clock at each publication. *)
Fixpoint PublishBatch (now : nat -> Time) (events : list Event) (p : Publisher) (b : Broker) : Broker :=
  match events with
  | [] => b
  | e :: events => PublishBatch (fun i => now (S i)) events p (Publish (now O) e p b)
  end.

(** ** Facts *)

(** The routing keys are the package's, whatever the caller passes; every other
    value is forwarded as it is. *)
Lemma RouteData_lookup route values key :
  RouteData route values !! key =
  if bool_decide (key = PushRouteKey) then Some (route_string route)
  else if bool_decide (key = PushSchemaVersionKey) then Some PushSchemaVersion
  else if bool_decide (key = PushSchemaKey) then Some PushSchema
  else values !! key.
Proof.
  unfold RouteData. case_bool_decide as H1; [subst; by rewrite lookup_insert_eq|]. rewrite lookup_insert_ne by done.
  case_bool_decide as H2; [subst; by rewrite lookup_insert_eq|]. rewrite lookup_insert_ne by done.
  case_bool_decide as H3; [subst; by rewrite lookup_insert_eq|]. rewrite lookup_insert_ne by done.
  rewrite map_lookup_filter. destruct (values !! key) as [v|]; simpl; [|done].
  unfold reserved. repeat rewrite bool_decide_eq_false_2 by done. done.
Qed.

(** Adding data to a payload cannot change its route. *)
Lemma RouteData_twice route route' values : RouteData route (RouteData route' values) = RouteData route values.
Proof.
  apply map_eq. intros key. rewrite !RouteData_lookup. repeat case_bool_decide; done.
Qed.

(** What a publication hands to the broker: the event under its user's key, or
    nothing when the broker refuses it; the encoding cannot fail. *)
Definition delivered (k : Producer) (now : Time) (e : Event) : list (Writer * Message) :=
  let m := mkMessage 0 0 (push_key e) (print (event_json e)) now in
  match WriteMessages (writer k) m with Some _ => [] | None => [(writer k, m)] end.

Lemma Publish_acked now e k b :
  acked (Publish now e (New (Some k)) b) = acked b ++ delivered k now e.
Proof.
  unfold Publish, delivered, PublishJSON, write. cbn [producer New].
  assert (requireKey k && bool_decide (push_key e = "") = false) as ->.
  { rewrite (bool_decide_eq_false_2 (push_key e = "")) by done. apply andb_false_r. }
  cbn [event_Marshal]. destruct (WriteMessages _ _); simpl; [by rewrite app_nil_r|done].
Qed.

(** Every event of a batch is tried, whatever happens to the others, and what
    the broker acknowledges keeps their order. *)
Theorem publishBatch_independent now events k b :
  acked (PublishBatch now events (New (Some k)) b) =
  acked b ++ mjoin (imap (fun i e => delivered k (now i) e) events).
Proof.
  revert now b. induction events as [|e events IH]; intros now b; cbn [PublishBatch imap]; [by rewrite app_nil_r|].
  rewrite IH, Publish_acked, <- app_assoc. f_equal.
Qed.

Lemma noop_publisher now events b : PublishBatch now events (New None) b = b.
Proof. revert now. induction events as [|e events IH]; intros now; [done|]. apply IH. Qed.


(** ** The payload *)

Lemma event_json_wf e : wf (event_json e) = true /\ (jdepth (event_json e) <= 2)%nat.
Proof.
  destruct (map_json_wf (ev_Data e)) as [Hm Hmd]. destruct (list_json_wf (ev_TargetApps e)) as [Hl Hld].
  unfold event_json, omit. split.
  - repeat case_bool_decide; cbn [app wf forallb fst snd]; by rewrite ?num_ok_Itoa, ?Hm, ?Hl, ?jstr_wf.
  - repeat case_bool_decide; cbn [app jdepth foldr fst snd]; unfold jstr; cbn [jdepth]; lia.
Qed.

(** The consumer finds exactly the routing data: the value published for a
    payload of [RouteData] is JSON whose one data member reads back as that map,
    with the route under the package's keys, whatever the caller passed. *)
Lemma published_route now e k b route values v : ev_Data e = RouteData route values -> map_text (RouteData route values) ->
  (forall m, WriteMessages (writer k) m = None) ->
  v = print (event_json e) ->
  acked (Publish now e (New (Some k)) b) = acked b ++ [(writer k, mkMessage 0 0 (push_key e) v now)] /\
  exists ms d, parse v = Some (JObj ms) /\ List.filter (fun kv => bool_decide (kv.1 = "data")) ms = [("data", d)] /\
    into_map d ∅ = (RouteData route values, false) /\ RouteData route values !! PushRouteKey = Some (route_string route).
Proof.
  intros Hd Ht Hw ->. split.
  { rewrite Publish_acked. unfold delivered. by rewrite Hw. }
  destruct (event_json_wf e) as [Hwf Hde]. pose proof maxNestingDepth_3. eexists _, (map_json (ev_Data e)). split_and!.
  - exact (parse_print (event_json e) Hwf ltac:(lia)).
  - assert (ev_Data e <> ∅) as Hne.
    { rewrite Hd. unfold RouteData. apply insert_non_empty. }
    unfold omit. rewrite (bool_decide_eq_false_2 _ Hne). by repeat case_bool_decide.
  - rewrite Hd. by apply into_map_json.
  - rewrite RouteData_lookup. done.
Qed.
End Publish.
