(* ===== verification/Logger.v ===== *)
(** * Logging

    src/logger/logger.go: the global logger, the loggers carried by contexts,
    and the masking of phone numbers.  go.uber.org/zap is the class [Zap]: its
    configurations, [Build], and loggers that accumulate fields.  A context is
    what the package reads from it: the logger under its key and the span of the
    trace. *)

From S2P Require Import Prelude GoError GoString.

Open Scope Z_scope.

(** zap's fields, for the kinds the code uses; [zap.Error(err)] is the text of
    the error under "error". *)
Inductive Field :=
| FieldString (key value : string)
| FieldInt64 (key : string) (value : Z)
| FieldTime (key : string) (value : Time)
| FieldDuration (key : string) (value : Duration).

Definition FieldError (err : error) : Field := FieldString "error" (ErrorText err).

Definition field_key (f : Field) : string :=
  match f with FieldString k _ | FieldInt64 k _ | FieldTime k _ | FieldDuration k _ => k end.

#[export] Instance Field_eq_dec : EqDecision Field.
Proof. solve_decision. Defined.

(** What the packages use of zap.  A configuration keeps its level and encoding;
    [colored] is an encoder with coloured capital levels; [Build] takes the
    number of caller frames to skip and whether errors get a stack trace;
    [enabled] is whether a logger writes the lines of a level, [Logger_Sync]
    flushes it. *)
Class Zap := {
  Level : Type;
  DebugLevel : Level;
  InfoLevel : Level;
  WarnLevel : Level;
  ErrorLevel : Level;
  FatalLevel : Level;
  ParseLevel : string -> result error Level;
  ZapConfig : Type;
  NewDevelopmentConfig : ZapConfig;
  NewProductionConfig : ZapConfig;
  colored : ZapConfig -> ZapConfig;
  with_level : Level -> ZapConfig -> ZapConfig;
  with_encoding : string -> ZapConfig -> ZapConfig;
  zlogger : Type;
  Build : ZapConfig -> Z -> bool -> result error zlogger;
  With : zlogger -> list Field -> zlogger;
  fields_of : zlogger -> list Field;
  enabled : zlogger -> Level -> bool;
  Logger_Sync : zlogger -> Error
}.

(** A logger derived with [With] carries the fields of its parent and the new
    ones, and writes the same levels. *)
Class ZapLaws `{Zap} := {
  fields_With l fs : fields_of (With l fs) = fields_of l ++ fs;
  enabled_With l fs lv : enabled (With l fs) lv = enabled l lv
}.

(** A valid span context of a trace. *)
Record Span := mkSpan { TraceID : string; SpanID : string }.

Section Logger.
Context `{Zap}.

(** The package's variables; the sugared logger is the logger it was made of. *)
Record State := mkState { global : option zlogger; sugar : option zlogger }.

Record Config := mkConfig { cfg_Level : string; Development : bool; cfg_Encoding : string }.

Record Context_ := mkContext { ctx_logger : option zlogger; ctx_span : option Span }.

Definition Init (cfg : Config) (s : State) : Error * State :=
  let level := match ParseLevel (cfg_Level cfg) with Ok l => l | Fail _ => InfoLevel end in
  let config := if Development cfg then colored NewDevelopmentConfig else NewProductionConfig in
  let config := with_level level config in
  let config := if negb (bool_decide (cfg_Encoding cfg = "")) then with_encoding (cfg_Encoding cfg) config else config in
  match Build config 1 true with
  | Fail e => (Some e, s)
  | Ok l => (None, mkState (Some l) (Some l))
  end.

(** [None] is a panic: the error of [Build] is dropped and the nil logger is
    dereferenced. *)
Definition InitDefault (GO_ENV : string) (s : State) : option State :=
  match global s with
  | Some _ => Some s
  | None =>
    let config := if bool_decide (GO_ENV = "development") then colored NewDevelopmentConfig else NewProductionConfig in
    match Build config 1 false with
    | Ok l => Some (mkState (Some l) (Some l))
    | Fail _ => None
    end
  end.

Section Env.
Context (GO_ENV : string).

(** The logger returned, and the state after. *)
Definition L (s : State) : option (zlogger * State) :=
  match global s with
  | Some l => Some (l, s)
  | None => match InitDefault GO_ENV s with
            | Some s => (fun l => (l, s)) <$> global s
            | None => None
            end
  end.

Definition S_ (s : State) : option (option zlogger * State) :=
  match sugar s with
  | Some l => Some (Some l, s)
  | None => (fun s => (sugar s, s)) <$> InitDefault GO_ENV s
  end.

Definition WithContext (ctx : Context_) (s : State) : option (zlogger * State) :=
  match ctx_logger ctx with Some l => Some (l, s) | None => L s end.

Definition ToContext (ctx : Context_) (l : zlogger) : Context_ := mkContext (Some l) (ctx_span ctx).

Definition WithFields (fs : list Field) (s : State) : option (zlogger * State) :=
  (fun r => (With r.1 fs, r.2)) <$> L s.

(** The step the With... functions share. *)
Definition add_fields (fs : list Field) (ctx : Context_) (s : State) : option (Context_ * State) :=
  (fun r => (ToContext ctx (With r.1 fs), r.2)) <$> WithContext ctx s.

Definition WithRequestID (ctx : Context_) (requestID : string) : State -> option (Context_ * State) :=
  add_fields [FieldString "request_id" requestID] ctx.
Definition WithUserID (ctx : Context_) (userID : Z) : State -> option (Context_ * State) :=
  add_fields [FieldInt64 "user_id" userID] ctx.
Definition WithSessionID (ctx : Context_) (sessionID : string) : State -> option (Context_ * State) :=
  add_fields [FieldString "session_id" sessionID] ctx.
Definition WithTransactionID (ctx : Context_) (txnID : string) : State -> option (Context_ * State) :=
  add_fields [FieldString "transaction_id" txnID] ctx.
Definition WithPlatform (ctx : Context_) (platform : string) : State -> option (Context_ * State) :=
  add_fields [FieldString "platform" platform] ctx.

Definition WithTraceID (ctx : Context_) (s : State) : option (Context_ * State) :=
  match ctx_span ctx with
  | None => Some (ctx, s)
  | Some sc => add_fields [FieldString "trace_id" (TraceID sc); FieldString "span_id" (SpanID sc)] ctx s
  end.

Definition WithServiceName (name : string) (s : State) : option State :=
  match (match global s with None => InitDefault GO_ENV s | Some _ => Some s end) with
  | None => None
  | Some s => (fun l => let l := With l [FieldString "service" name] in mkState (Some l) (Some l)) <$> global s
  end.

(** *** Writing lines *)

(** A line: its level, its message, the fields of its logger and its own. *)
Record Entry := mkEntry { ent_Level : Level; Message : string; ent_fields : list Field }.

(** zap's [Logger.Log]: a line of a disabled level is dropped. *)
Definition write (lv : Level) (l : zlogger) (msg : string) (fs : list Field) (out : list Entry) : list Entry :=
  if enabled l lv then out ++ [mkEntry lv msg (fields_of l ++ fs)] else out.

Definition log_at (lv : Level) (msg : string) (fs : list Field) (w : State * list Entry) : option (State * list Entry) :=
  (fun r => (r.2, write lv r.1 msg fs w.2)) <$> L w.1.

Definition Debug (msg : string) (fs : list Field) : State * list Entry -> option (State * list Entry) := log_at DebugLevel msg fs.
Definition Info (msg : string) (fs : list Field) : State * list Entry -> option (State * list Entry) := log_at InfoLevel msg fs.
Definition Warn (msg : string) (fs : list Field) : State * list Entry -> option (State * list Entry) := log_at WarnLevel msg fs.
Definition Error_ (msg : string) (fs : list Field) : State * list Entry -> option (State * list Entry) := log_at ErrorLevel msg fs.

(** zap ends the process with status 1 after the line, whether it is written or
    not: the exit status and what was written before it. *)
Definition Fatal (msg : string) (fs : list Field) (w : State * list Entry) : option (Z * (State * list Entry)) :=
  (fun w => (1, w)) <$> log_at FatalLevel msg fs w.

Definition Sync (s : State) : Error := match global s with Some l => Logger_Sync l | None => None end.
End Env.

(** ** Facts *)

(** The fields a context's logger shows: those of the logger it was given, or of
    the global one. *)
Definition visible (ctx : Context_) (s : State) : list Field :=
  match ctx_logger ctx, global s with
  | Some l, _ => fields_of l
  | None, Some l => fields_of l
  | None, None => []
  end.

(** Once a logger is set, no call panics, and a With... function adds its field
    to what the context already shows without changing the global logger. *)
Lemma add_fields_visible `{!ZapLaws} env fs ctx s l : global s = Some l ->
  exists ctx', add_fields env fs ctx s = Some (ctx', s) /\ visible ctx' s = visible ctx s ++ fs /\ ctx_span ctx' = ctx_span ctx.
Proof.
  intros Hg. unfold add_fields, WithContext, L, visible. rewrite Hg.
  destruct (ctx_logger ctx) as [cl|]; simpl; eexists; (split; [done|]); simpl; by rewrite fields_With.
Qed.

(** A service name set after the start does not reach the contexts that already
    carry a logger; it is on every line of the others. *)
Lemma service_name_visible `{!ZapLaws} env name s l ctx : global s = Some l ->
  exists s', WithServiceName env name s = Some s' /\
    visible ctx s' = match ctx_logger ctx with Some cl => fields_of cl | None => fields_of l ++ [FieldString "service" name] end.
Proof.
  intros Hg. unfold WithServiceName. rewrite Hg. simpl. rewrite Hg. simpl. eexists. split; [done|].
  unfold visible. simpl. destruct (ctx_logger ctx); [done|]. apply fields_With.
Qed.

(** Once a logger is set, a call writes at most its own line, after those already
    written, with the fields of the logger first, and leaves the logger alone. *)
Lemma log_at_spec env lv msg fs s out l : global s = Some l ->
  log_at env lv msg fs (s, out) =
  Some (s, out ++ (if enabled l lv then [mkEntry lv msg (fields_of l ++ fs)] else [])).
Proof. intros Hg. unfold log_at, L, write. simpl. rewrite Hg. simpl. destruct (enabled l lv); by rewrite ?app_nil_r. Qed.

(** After [WithServiceName] every line written through the package functions
    carries the service, whatever was logged before. *)
Lemma service_on_every_line `{!ZapLaws} env name s l s' calls out : global s = Some l ->
  WithServiceName env name s = Some s' ->
  exists new,
    foldl (fun w c => w ≫= log_at env c.1.1 c.1.2 c.2) (Some (s', out)) calls = Some (s', out ++ new) /\
    Forall (fun e => FieldString "service" name ∈ ent_fields e) new /\
    map (fun e => (ent_Level e, Message e)) new = map fst (List.filter (fun c => enabled l c.1.1) calls).
Proof.
  intros Hg Hs. unfold WithServiceName in Hs. rewrite Hg in Hs. simpl in Hs. rewrite Hg in Hs. simpl in Hs.
  injection Hs as <-. revert out. induction calls as [|[[lv msg] fs] calls IH]; intros out; cbn [foldl].
  { exists []. by rewrite app_nil_r. }
  cbn [fst snd mbind option_bind]. erewrite log_at_spec by reflexivity. rewrite enabled_With, fields_With.
  edestruct IH as (new & -> & Hn & Hm). cbn [List.filter fst snd]. destruct (enabled l lv); [|exists new; by rewrite app_nil_r].
  eexists (_ :: new). rewrite <- (app_assoc out). split; [reflexivity|]. split; [|simpl; by rewrite Hm].
  constructor; [|done]. simpl. set_solver.
Qed.

(** A logger that was never set has nothing to flush. *)
Lemma Sync_unset s : global s = None -> Sync s = None.
Proof. unfold Sync. by intros ->. Qed.
End Logger.

(** ** Phone numbers *)

(** [len] counts bytes. *)
Definition MaskPhone (phone : string) : string :=
  if (String.length phone <=? 4)%nat then "****"
  else take_string 2 phone +:+ "***" +:+ drop_string (String.length phone - 4) phone.

(** Only the first two and the last four bytes show. *)
Lemma MaskPhone_hides p m q : String.length p = 2%nat -> String.length q = 4%nat ->
  MaskPhone (p +:+ m +:+ q) = p +:+ "***" +:+ q.
Proof.
  intros Hp Hq. unfold MaskPhone. rewrite !length_app_str. destruct (Nat.leb_spec (String.length p + (String.length m + String.length q)) 4); [lia|].
  rewrite <- Hp at 1. rewrite take_string_app. f_equal. f_equal.
  replace (String.length p + (String.length m + String.length q) - 4)%nat with (String.length (p +:+ m)) by (rewrite length_app_str; lia).
  by rewrite <- app_assoc_str, drop_string_app.
Qed.

Example mask_sample : MaskPhone "+79001234567" = "+7***4567".
Proof. done. Qed.

(** Numbers of five or six bytes are not masked: all of their bytes show. *)
Lemma MaskPhone_short a b c d e f :
  MaskPhone (String a (String b (String c (String d (String e (String f "")))))) =
  String a (String b "") +:+ "***" +:+ String c (String d (String e (String f ""))).
Proof. done. Qed.

(** ** An instance: a logger is the list of its fields *)

Definition list_zap : Zap := {|
  Level := string; DebugLevel := "debug"; InfoLevel := "info"; WarnLevel := "warn"; ErrorLevel := "error"; FatalLevel := "fatal";
  ParseLevel s := if bool_decide (s = "") then Fail (New "unrecognized level") else Ok s;
  ZapConfig := unit; NewDevelopmentConfig := tt; NewProductionConfig := tt; colored c := c;
  with_level _ c := c; with_encoding _ c := c;
  zlogger := list Field; Build _ _ _ := Ok []; With l fs := l ++ fs; fields_of l := l;
  enabled _ lv := negb (bool_decide (lv = "debug")); Logger_Sync _ := None |}.
Lemma list_zap_laws : @ZapLaws list_zap.
Proof. by constructor. Qed.

Example request_fields :
  (r ← @WithRequestID list_zap "" (mkContext None (Some (mkSpan "t1" "s1"))) "r1" (mkState None None);
   r' ← @WithTraceID list_zap "" r.1 r.2;
   Some (@visible list_zap r'.1 r'.2)) =
  Some [FieldString "request_id" "r1"; FieldString "trace_id" "t1"; FieldString "span_id" "s1"].
Proof. done. Qed.

(** The lines of a service; the last one ends it. *)
Example service_lines :
  (s ← @WithServiceName list_zap "" "billing" (mkState None None);
   w ← @Debug list_zap "" "connecting" [] (s, []);
   w ← @Info list_zap "" "connected" [FieldInt64 "port" 5432] w;
   r ← @Fatal list_zap "" "lost" [] w;
   Some (r.1, r.2.2)) =
  Some (1, [@mkEntry list_zap "info" "connected" [FieldString "service" "billing"; FieldInt64 "port" 5432];
            @mkEntry list_zap "fatal" "lost" [FieldString "service" "billing"]]).
Proof. done. Qed.
