(* ===== verification/AuditLog.v ===== *)
(** * Audit log

    src/audit/audit.go: the global auditor and its two implementations, one that
    writes a structured line per event through zap and one that writes nothing.
    [encoding/json]'s encoder and the zap configuration literal of [Init] are
    parameters. *)

From S2P Require Import Prelude GoError GoString Logger.

Open Scope Z_scope.

Inductive EventType := EventTypeAuth | EventTypeDataAccess | EventTypeDataModify | EventTypeAdminAction | EventTypeSecurity.
Definition type_string (t : EventType) : string :=
  match t with
  | EventTypeAuth => "auth" | EventTypeDataAccess => "data_access" | EventTypeDataModify => "data_modify"
  | EventTypeAdminAction => "admin_action" | EventTypeSecurity => "security"
  end.

Inductive Status := StatusSuccess | StatusFailure.
Definition status_string (s : Status) : string := match s with StatusSuccess => "success" | StatusFailure => "failure" end.

Section Audit.
Context `{Zap} (audit_config : ZapConfig).
(** The details of an event, a [map[string]interface{}]; [None] from the encoder
    is an error. *)
Context {D : Type} (no_details : D) (details_len : D -> Z) (json_Marshal : D -> option string).

Record Event := mkEvent {
  EventType_ : EventType;
  Timestamp : Time;
  RequestID : string;
  UserID : Z;
  IPAddress : string;
  UserAgent : string;
  Action : string;
  Resource : string;
  ResourceID : string;
  Status_ : Status;
  Details : D;
  ErrorMsg : string;
  Duration_ : Duration
}.

(** A line of the log: the fields of its logger, then its own. *)
Abbreviation line := (list Field * list Field)%type (only parsing).

Inductive Auditor := auditLogger (logger : zlogger) | noopAuditor.

(** The package's variable and what was written. *)
Record State := mkState { global : option Auditor; lines : list line }.
Definition set_global (a : Auditor) (s : State) : State := mkState (Some a) (lines s).

Record Config := mkConfig { Enabled : bool; cfg_Level : string; ServiceName : string }.

(** The level of the configuration is not looked at. *)
Definition Init (cfg : Config) (s : State) : Error * State :=
  if negb (Enabled cfg) then (None, set_global noopAuditor s)
  else
    match Build audit_config 2 false with
    | Fail e => (Some e, s)
    | Ok l => (None, set_global (auditLogger (With l [FieldString "service" (ServiceName cfg); FieldString "log_type" "audit"])) s)
    end.

Definition InitDefault (s : State) : State :=
  match global s with
  | Some _ => s
  | None => match Init (mkConfig true "" "unknown") s with
            | (Some _, s) => set_global noopAuditor s
            | (None, s) => s
            end
  end.

Definition L (s : State) : option Auditor * State :=
  let s := match global s with None => InitDefault s | Some _ => s end in (global s, s).

(** A context is the auditor it carries. *)
Definition ToContext (ctx : option Auditor) (a : Auditor) : option Auditor := Some a.
Definition FromContext (ctx : option Auditor) (s : State) : option Auditor * State :=
  match ctx with Some a => (Some a, s) | None => L s end.

Definition when (b : bool) (f : Field) : list Field := if b then [f] else [].
Definition set (s : string) : bool := negb (bool_decide (s = "")).

(** The fields [Log] writes, in order; [now] is read when the event has no time. *)
Definition log_fields (now : Time) (e : Event) : list Field :=
  let ts := if IsZero (Timestamp e) then now else Timestamp e in
  [FieldString "event_type" (type_string (EventType_ e)); FieldTime "event_timestamp" ts;
   FieldString "action" (Action e); FieldString "resource" (Resource e);
   FieldString "status" (status_string (Status_ e))] ++
  when (set (RequestID e)) (FieldString "request_id" (RequestID e)) ++
  when (negb (UserID e =? 0)) (FieldInt64 "user_id" (UserID e)) ++
  when (set (IPAddress e)) (FieldString "ip_address" (IPAddress e)) ++
  when (set (UserAgent e)) (FieldString "user_agent" (UserAgent e)) ++
  when (set (ResourceID e)) (FieldString "resource_id" (ResourceID e)) ++
  when (set (ErrorMsg e)) (FieldString "error" (ErrorMsg e)) ++
  when (0 <? Duration_ e) (FieldDuration "duration" (Duration_ e)) ++
  (if 0 <? details_len (Details e)
   then match json_Marshal (Details e) with Some j => [FieldString "details" j] | None => [] end else []).

Definition Auditor_Log (a : Auditor) (now : Time) (e : Event) (s : State) : State :=
  match a with
  | auditLogger l => mkState (global s) (lines s ++ [(fields_of l, log_fields now e)])
  | noopAuditor => s
  end.

Definition event (t : EventType) (action resource resourceID : string) (userID : Z) (status : Status) (details : D) : Event :=
  mkEvent t zero_time "" userID "" "" action resource resourceID status details "" 0.

Definition Auditor_LogAuth (a : Auditor) now (action : string) (userID : Z) (status : Status) (details : D) : State -> State :=
  Auditor_Log a now (event EventTypeAuth action "auth" "" userID status details).
Definition Auditor_LogDataAccess (a : Auditor) now (action resource resourceID : string) (userID : Z) (status : Status) : State -> State :=
  Auditor_Log a now (event EventTypeDataAccess action resource resourceID userID status no_details).
Definition Auditor_LogDataModify (a : Auditor) now (action resource resourceID : string) (userID : Z) (status : Status)
    (details : D) : State -> State :=
  Auditor_Log a now (event EventTypeDataModify action resource resourceID userID status details).
Definition Auditor_LogAdminAction (a : Auditor) now (action resource resourceID : string) (userID : Z) (status : Status)
    (details : D) : State -> State :=
  Auditor_Log a now (event EventTypeAdminAction action resource resourceID userID status details).
Definition Auditor_LogSecurity (a : Auditor) now (action : string) (userID : Z) (status : Status) (details : D) : State -> State :=
  Auditor_Log a now (event EventTypeSecurity action "security" "" userID status details).

(** The package-level functions: [L()] and its method; a nil auditor would panic. *)
Definition global_log (k : Auditor -> State -> State) (s : State) : option State :=
  match L s with (Some a, s) => Some (k a s) | (None, _) => None end.

Definition Log now (e : Event) : State -> option State := global_log (fun a => Auditor_Log a now e).
Definition LogAuth now action userID status details : State -> option State :=
  global_log (fun a => Auditor_LogAuth a now action userID status details).
Definition LogDataAccess now action resource resourceID userID status : State -> option State :=
  global_log (fun a => Auditor_LogDataAccess a now action resource resourceID userID status).
Definition LogDataModify now action resource resourceID userID status details : State -> option State :=
  global_log (fun a => Auditor_LogDataModify a now action resource resourceID userID status details).
Definition LogAdminAction now action resource resourceID userID status details : State -> option State :=
  global_log (fun a => Auditor_LogAdminAction a now action resource resourceID userID status details).
Definition LogSecurity now action userID status details : State -> option State :=
  global_log (fun a => Auditor_LogSecurity a now action userID status details).

(** ** Facts *)

(** The global auditor is never nil once it is asked for, so no call panics. *)
Lemma L_some s : exists a s', L s = (Some a, s').
Proof.
  unfold L, InitDefault, Init. destruct (global s) eqn:E; [rewrite E; eauto|]. simpl.
  destruct (Build _ _ _); simpl; eauto.
Qed.

Lemma log_total k s : is_Some (global_log k s).
Proof. unfold global_log. destruct (L_some s) as (a & s' & ->). eauto. Qed.

(** An auditor that was initialized enabled writes one line per event, in order. *)
Lemma log_appends now es l s : global s = Some (auditLogger l) ->
  foldl (fun os e => os ≫= Log now e) (Some s) es =
  Some (mkState (global s) (lines s ++ map (fun e => (fields_of l, log_fields now e)) es)).
Proof.
  revert s. induction es as [|e es IH]; intros s Hg; simpl; [rewrite app_nil_r; by destruct s|].
  unfold Log at 2, global_log, L. rewrite Hg. cbn [Auditor_Log]. rewrite Hg. rewrite IH by done. simpl.
  by rewrite Hg, <- app_assoc.
Qed.

(** Reading a line back. *)
Definition get (key : string) (fs : list Field) : option Field :=
  List.find (fun f => bool_decide (field_key f = key)) fs.
Definition get_string (key : string) (fs : list Field) : string :=
  match get key fs with Some (FieldString _ v) => v | _ => "" end.
Definition get_int (key : string) (fs : list Field) : Z :=
  match get key fs with Some (FieldInt64 _ v) => v | Some (FieldDuration _ v) => v | _ => 0 end.

Lemma get_app key l k : get key (l ++ k) = match get key l with Some f => Some f | None => get key k end.
Proof. unfold get. induction l as [|f l IH]; [done|]. simpl. by case_bool_decide. Qed.

Lemma get_when key b f : get key (when b f) = if b && bool_decide (field_key f = key) then Some f else None.
Proof. unfold get. destruct b; [|done]. simpl. by case_bool_decide. Qed.

(** The fields that are set only sometimes. *)
Definition optional_fields (e : Event) : list Field :=
  when (set (RequestID e)) (FieldString "request_id" (RequestID e)) ++
  when (negb (UserID e =? 0)) (FieldInt64 "user_id" (UserID e)) ++
  when (set (IPAddress e)) (FieldString "ip_address" (IPAddress e)) ++
  when (set (UserAgent e)) (FieldString "user_agent" (UserAgent e)) ++
  when (set (ResourceID e)) (FieldString "resource_id" (ResourceID e)) ++
  when (set (ErrorMsg e)) (FieldString "error" (ErrorMsg e)) ++
  when (0 <? Duration_ e) (FieldDuration "duration" (Duration_ e)).

Lemma details_other (d : D) key : key <> "details" ->
  get key (if 0 <? details_len d then match json_Marshal d with Some j => [FieldString "details" j] | None => [] end else []) = None.
Proof.
  intros Hk. destruct (0 <? details_len d); [|done]. destruct (json_Marshal d); [|done].
  unfold get. simpl. by rewrite bool_decide_eq_false_2.
Qed.

Lemma log_fields_optional now e key :
  key ∉ ["event_type"; "event_timestamp"; "action"; "resource"; "status"; "details"] ->
  get key (log_fields now e) = get key (optional_fields e).
Proof.
  intros Hk. rewrite !not_elem_of_cons in Hk. destruct Hk as (? & ? & ? & ? & ? & ? & _).
  unfold log_fields. rewrite get_app. unfold get at 1. simpl. rewrite !bool_decide_eq_false_2 by done.
  rewrite !app_assoc, get_app, details_other by done. unfold optional_fields. rewrite !app_assoc.
  by destruct (get key _).
Qed.

Ltac read_optional :=
  unfold get_string, get_int; rewrite log_fields_optional by (refine (bool_decide_unpack _ _); exact I);
  unfold optional_fields, set; rewrite !get_app, !get_when; cbn [field_key];
  repeat match goal with |- context [bool_decide (?a = ?b :> string)] =>
    first [change (bool_decide (a = b)) with true | change (bool_decide (a = b)) with false] end;
  rewrite ?andb_false_r, ?andb_true_r.

(** Nothing of an event is lost: its text fields, its user and its duration are
    read back from its line, absent ones as their zero values. *)
Lemma line_roundtrip now e : 0 <= Duration_ e ->
  let fs := log_fields now e in
  get_string "event_type" fs = type_string (EventType_ e) /\ get_string "action" fs = Action e /\
  get_string "resource" fs = Resource e /\ get_string "status" fs = status_string (Status_ e) /\
  get_string "request_id" fs = RequestID e /\ get_int "user_id" fs = UserID e /\
  get_string "ip_address" fs = IPAddress e /\ get_string "user_agent" fs = UserAgent e /\
  get_string "resource_id" fs = ResourceID e /\ get_string "error" fs = ErrorMsg e /\
  get_int "duration" fs = Duration_ e.
Proof.
  intros Hd fs. subst fs. split_and!; try done; read_optional.
  all: try (case_bool_decide as E; simpl; [by rewrite E|done]).
  - destruct (Z.eqb_spec (UserID e) 0) as [E|]; simpl; [by rewrite E|done].
  - destruct (Z.ltb_spec 0 (Duration_ e)); simpl; [done|lia].
Qed.
End Audit.
