(* ===== verification/Tracing.v ===== *)
(** * Tracing

    src/tracing: the trace fields the gRPC interceptors put on the logger of a
    call, the choice of the sampler, the guards of [Init] and the helpers on the
    span of a context, and the option and interceptor lists for gRPC.
    OpenTelemetry itself (resource, exporter, tracer, stats handlers) is a
    parameter; the sampling rate is a [spec_float]. *)

From Stdlib Require Import SpecFloat.
From S2P Require Import Prelude GoError GoString Logger.

Open Scope Z_scope.

(** ** logging.go *)

Section Logging.
Context `{Zap} (GO_ENV : string).

Definition injectTraceFields (ctx : Context_) (method : string) (s : State) : option (Context_ * State) :=
  match ctx_span ctx with
  | None => Some (ctx, s)
  | Some _ =>
    match WithTraceID GO_ENV ctx s with
    | None => None
    | Some (ctx, s) =>
      (fun r => (ToContext ctx (With r.1 [FieldString "grpc_method" method]), r.2)) <$> WithContext GO_ENV ctx s
    end
  end.

(** A handler's answer, on the context it is given; [None] is a panic. *)
Definition LoggingUnaryServerInterceptor {R} (ctx : Context_) (FullMethod : string) (handler : Context_ -> State -> option (R * State))
    (s : State) : option (R * State) :=
  match injectTraceFields ctx FullMethod s with
  | None => None
  | Some (ctx, s) => handler ctx s
  end.

(** A server stream is its context here; the wrapped stream answers with its own. *)
Record wrappedServerStream (SS : Type) := mkWrapped { ServerStream : SS; wss_ctx : Context_ }.
Arguments mkWrapped {SS}.
Arguments wss_ctx {SS}.
Definition Context_of {SS} (w : wrappedServerStream SS) : Context_ := wss_ctx w.

Definition LoggingStreamServerInterceptor {SS R} (ss : SS) (ss_Context : SS -> Context_) (FullMethod : string)
    (handler : wrappedServerStream SS -> State -> option (R * State)) (s : State) : option (R * State) :=
  match injectTraceFields (ss_Context ss) FullMethod s with
  | None => None
  | Some (ctx, s) => handler (mkWrapped ss ctx) s
  end.

(** Within a call that has a span, every line carries the trace, the span and the
    method; without one the context is left as it is. *)
Lemma trace_fields_visible `{!ZapLaws} ctx method s l : global s = Some l ->
  exists ctx', injectTraceFields ctx method s = Some (ctx', s) /\
    visible ctx' s = visible ctx s ++
      match ctx_span ctx with
      | Some sc => [FieldString "trace_id" (TraceID sc); FieldString "span_id" (SpanID sc); FieldString "grpc_method" method]
      | None => []
      end.
Proof.
  intros Hg. unfold injectTraceFields. destruct (ctx_span ctx) as [sc|] eqn:E.
  - unfold WithTraceID. rewrite E.
    destruct (add_fields_visible GO_ENV [FieldString "trace_id" (TraceID sc); FieldString "span_id" (SpanID sc)] ctx s l Hg)
      as (ctx1 & -> & Hv1 & _).
    destruct (add_fields_visible GO_ENV [FieldString "grpc_method" method] ctx1 s l Hg) as (ctx2 & Ha & Hv2 & _).
    exists ctx2. split; [exact Ha|]. by rewrite Hv2, Hv1, <- app_assoc.
  - exists ctx. by rewrite app_nil_r.
Qed.
End Logging.

(** ** tracing.go *)

Record Config := mkConfig {
  Enabled : bool; ServiceName : string; ServiceVersion : string; Environment : string;
  OTLPEndpoint : string; SampleRate : spec_float
}.

Inductive Sampler := AlwaysSample | NeverSample | ParentBased_TraceIDRatioBased (rate : spec_float).

(** 1.0: the mantissa 2^52 at exponent -52. *)
Definition one : spec_float := S754_finite false 4503599627370496 (-52).
Definition zero : spec_float := S754_zero false.

Definition samplerFromRate (rate : spec_float) : Sampler :=
  let rate := match rate with S754_nan | S754_infinity _ => one | _ => rate end in
  if SFleb one rate then AlwaysSample
  else if SFleb rate zero then NeverSample
  else ParentBased_TraceIDRatioBased rate.

Definition endpoint_url (endpoint : string) : string :=
  if negb (HasPrefix endpoint "http://") && negb (HasPrefix endpoint "https://") then "http://" +:+ endpoint else endpoint.

Section Init.
(** The resource, with its attributes, and the exporter for a URL. *)
Context {Res Exp : Type} (resource_New : string -> string -> string -> result error Res) (exporter_New : string -> result error Exp).

Record TracerProvider := mkProvider { tp_batcher : Exp; tp_resource : Res; tp_sampler : Sampler }.

Inductive Propagator := TraceContext | Baggage.

(** OpenTelemetry's global variables. *)
Record Otel := mkOtel { tracer_provider : option TracerProvider; text_map_propagator : list Propagator }.

(** The function returned shuts the provider down; [None] is the empty one. *)
Definition Init (cfg : Config) (o : Otel) : result error (option TracerProvider) * Otel :=
  if negb (Enabled cfg) then (Ok None, o)
  else if bool_decide (ServiceName cfg = "") then (Fail (GoError.New "service name is required for tracing"), o)
  else
    match map_err (Wrapf "failed to create resource") (resource_New (ServiceName cfg) (ServiceVersion cfg) (Environment cfg)) with
    | Fail e => (Fail e, o)
    | Ok res =>
      match map_err (Wrapf "failed to create OTLP exporter") (exporter_New (endpoint_url (OTLPEndpoint cfg))) with
      | Fail e => (Fail e, o)
      | Ok exporter =>
        let tp := mkProvider exporter res (samplerFromRate (SampleRate cfg)) in
        (Ok (Some tp), mkOtel (Some tp) [TraceContext; Baggage])
      end
    end.

(** The returned function; a provider has five seconds to flush. *)
Definition shutdown `{Zap} (GO_ENV : string) (tp_Shutdown : TracerProvider -> Duration -> Error) (sd : option TracerProvider)
    (w : State * list Entry) : option (State * list Entry) :=
  match sd with
  | None => Some w
  | Some tp =>
    match tp_Shutdown tp (5 * Second) with
    | Some err => Error_ GO_ENV "failed to shutdown tracer provider" [FieldError err] w
    | None => Some w
    end
  end.

(** The global provider changes only when [Init] hands out the function that
    shuts it down, and then both have the sampler of the configuration. *)
Lemma Init_provider cfg o r o' : Init cfg o = (r, o') ->
  (o' = o /\ (r = Ok None /\ Enabled cfg = false \/ exists e, r = Fail e)) \/
  exists tp, r = Ok (Some tp) /\ o' = mkOtel (Some tp) [TraceContext; Baggage] /\
    tp_sampler tp = samplerFromRate (SampleRate cfg) /\ exporter_New (endpoint_url (OTLPEndpoint cfg)) = Ok (tp_batcher tp).
Proof.
  unfold Init. destruct (Enabled cfg); simpl; [|intros [= <- <-]; eauto].
  case_bool_decide; [intros [= <- <-]; eauto|].
  destruct (resource_New _ _ _); simpl; [|intros [= <- <-]; eauto].
  destruct (exporter_New _) eqn:E; simpl; intros [= <- <-]; [|by eauto].
  right. eexists. split; [done|]. split; [done|]. by split.
Qed.
End Init.

(** [tracer.Start] of the tracer named in the code, and OpenTelemetry's span of a
    context. *)
Section Spans.
Context {C Tr Sp SpanOpt : Type} (otel_Tracer : string -> Tr) (tracer_Start : Tr -> C -> string -> list SpanOpt -> C * Sp)
  (trace_SpanFromContext : C -> Sp).

Definition StartSpan (ctx : C) (name : string) (opts : list SpanOpt) : C * Sp :=
  let tracer := otel_Tracer "cg-platform" in tracer_Start tracer ctx name opts.
Definition SpanFromContext (ctx : C) : Sp := trace_SpanFromContext ctx.
End Spans.

(** ** grpc.go *)

(** gRPC's options with OpenTelemetry's handlers [SH] (server) and [CH] (client). *)
Inductive ServerOption (SH : Type) := StatsHandler (h : SH).
Arguments StatsHandler {SH}.
Inductive DialOption (CH : Type) := WithStatsHandler (h : CH).
Arguments WithStatsHandler {CH}.

Definition GRPCServerInterceptors {SH} (otelgrpc_NewServerHandler : SH) : list (ServerOption SH) :=
  [StatsHandler otelgrpc_NewServerHandler].
Definition GRPCClientInterceptors {CH} (otelgrpc_NewClientHandler : CH) : list (DialOption CH) :=
  [WithStatsHandler otelgrpc_NewClientHandler].

Section Lists.
Context `{Zap} (GO_ENV : string) {R SS : Type} (ss_Context : SS -> Context_).

Abbreviation unary := (Context_ -> string -> (Context_ -> State -> option (R * State)) -> State -> option (R * State)) (only parsing).
Abbreviation stream := (SS -> string -> (wrappedServerStream SS -> State -> option (R * State)) -> State -> option (R * State)) (only parsing).

Definition UnaryServerInterceptors : list unary := [fun ctx m handler => LoggingUnaryServerInterceptor GO_ENV ctx m handler].
Definition StreamServerInterceptors : list stream :=
  [fun ss m handler => LoggingStreamServerInterceptor GO_ENV ss ss_Context m handler].

(** gRPC's chaining of unary interceptors: the first is the outermost. *)
Fixpoint chain (l : list unary) (m : string) (handler : Context_ -> State -> option (R * State)) (ctx : Context_) : State -> option (R * State) :=
  match l with
  | [] => handler ctx
  | i :: l => i ctx m (chain l m handler)
  end.

(** Appended to a chain, the interceptors run the handler once, on a context whose
    lines carry the trace; a repeated append repeats the fields. *)
Lemma chained_handler_traced `{!ZapLaws} m handler ctx s l : global s = Some l ->
  exists ctx', chain UnaryServerInterceptors m handler ctx s = handler ctx' s /\
    visible ctx' s = visible ctx s ++
      match ctx_span ctx with
      | Some sc => [FieldString "trace_id" (TraceID sc); FieldString "span_id" (SpanID sc); FieldString "grpc_method" m]
      | None => []
      end.
Proof.
  intros Hg. destruct (trace_fields_visible GO_ENV ctx m s l Hg) as (ctx' & Hi & Hv). exists ctx'. split; [|exact Hv].
  cbn [UnaryServerInterceptors chain]. unfold LoggingUnaryServerInterceptor. by rewrite Hi.
Qed.

(** The stream handler gets the caller's stream, answering with that context. *)
Lemma stream_handler_traced `{!ZapLaws} ss m handler s l : global s = Some l ->
  exists ctx', Forall (fun i => i ss m handler s = handler (mkWrapped _ ss ctx') s) StreamServerInterceptors /\
    visible ctx' s = visible (ss_Context ss) s ++
      match ctx_span (ss_Context ss) with
      | Some sc => [FieldString "trace_id" (TraceID sc); FieldString "span_id" (SpanID sc); FieldString "grpc_method" m]
      | None => []
      end.
Proof.
  intros Hg. destruct (trace_fields_visible GO_ENV (ss_Context ss) m s l Hg) as (ctx' & Hi & Hv). exists ctx'. split; [|exact Hv].
  repeat constructor. unfold LoggingStreamServerInterceptor. by rewrite Hi.
Qed.
End Lists.

(** *** Spans *)

(** The part of a span the helpers touch: a span that does not record drops
    everything. *)
Record RecordedSpan := mkRecorded {
  IsRecording : bool; attributes : list (string * string); span_errors : list error; span_status : option (Z * string)
}.
(** OpenTelemetry's [codes.Error]. *)
Definition codes_Error : Z := 1.

Definition AddSpanAttributes (attrs : list (string * string)) (sp : RecordedSpan) : RecordedSpan :=
  if IsRecording sp then mkRecorded true (attributes sp ++ attrs) (span_errors sp) (span_status sp) else sp.
Definition RecordError (err : error) (sp : RecordedSpan) : RecordedSpan :=
  if IsRecording sp then mkRecorded true (attributes sp) (span_errors sp ++ [err]) (Some (codes_Error, ErrorText err)) else sp.
Definition SetSpanStatus (code : Z) (msg : string) (sp : RecordedSpan) : RecordedSpan :=
  if IsRecording sp then mkRecorded true (attributes sp) (span_errors sp) (Some (code, msg)) else sp.

(** ** Facts *)

Lemma HasPrefix_http s : HasPrefix ("http://" +:+ s) "http://" = true.
Proof. apply HasPrefix_app. Qed.

(** The exporter always gets a URL with a scheme, and a URL is not changed. *)
Lemma endpoint_url_scheme endpoint :
  HasPrefix (endpoint_url endpoint) "http://" || HasPrefix (endpoint_url endpoint) "https://" = true /\
  endpoint_url (endpoint_url endpoint) = endpoint_url endpoint.
Proof.
  unfold endpoint_url. destruct (HasPrefix endpoint "http://") eqn:E1; cbn [negb andb]; [by rewrite !E1|].
  destruct (HasPrefix endpoint "https://") eqn:E2; cbn [negb andb]; [by rewrite !E1, !E2|]. by rewrite !HasPrefix_http.
Qed.

(** Finite numbers are ordered. *)
Lemma finite_not_le s m e M E :
  SFleb (S754_finite false M E) (S754_finite s m e) = false -> SFltb (S754_finite s m e) (S754_finite false M E) = true.
Proof.
  unfold SFleb, SFltb. destruct s; simpl; [done|]. rewrite (Z.compare_antisym E e). destruct (E ?= e)%Z; simpl; try done.
  change (Pos.compare_cont Eq m M) with (Pos.compare m M). change (Pos.compare_cont Eq M m) with (Pos.compare M m).
  rewrite (Pos.compare_antisym M m). by destruct (M ?= m)%positive.
Qed.

(** The ratio sampler is chosen for the rates strictly between 0 and 1 only. *)
Lemma sampler_ratio rate r : samplerFromRate rate = ParentBased_TraceIDRatioBased r ->
  r = rate /\ SFltb zero rate = true /\ SFltb rate one = true.
Proof.
  unfold samplerFromRate. destruct rate as [s|s| |s m e]; [by destruct s|by destruct s|done|].
  destruct (SFleb one (S754_finite s m e)) eqn:E1; [done|]. destruct (SFleb _ zero) eqn:E2; [done|].
  intros [= <-]. split; [done|]. split; [by destruct s|]. by apply finite_not_le.
Qed.

(** An infinite rate, even a negative one, samples everything. *)
Example negative_infinity_samples : samplerFromRate (S754_infinity true) = AlwaysSample /\ samplerFromRate S754_nan = AlwaysSample.
Proof. done. Qed.
